(* ===== verification/_CoqProject ===== *)
-Q . S2P
Prelude.v
GoText.v
GoIo.v
GoNet.v
Json.v
Codec.v
Stream.v
TypesId.v
Version.v
Sha256.v
Totp.v
Avl.v
ProxyRouter.v
RouterRace.v
Store.v
PortmapRes.v
PortmapApp.v
AppRace.v
ProxyService.v
Socks5Util.v
Tunnel.v
Socks5Rfc.v
Socks5Server.v
Outbound.v
Socks5Client.v
Portmap.v
PortmapRun.v
PortmapTable.v
AppStart.v
Http.v
Session.v
GwCore.v
Authorize.v
GoOs.v
TunStack.v
SysLinux.v
ProxyClient.v
SysWindows.v
GatewayApi.v
GatewayTypes.v
Upgrade.v
Console.v
Logger.v
Identity.v
P2p.v
Bootstrap.v
AgentProxy.v
Agent.v
EndToEnd.v
ProxyEndToEnd.v
AgentExport.v
AgentDialogs.v
AgentGui.v
AgentWindow.v
Daemon.v
GatewayRun.v
GatewayMain.v
Cmd.v
