(* ===== verification/Prelude.v ===== *)
(** * Verification of uptp

    uptp connects private networks over libp2p.  A _gateway_ (src/gateway) runs
    in a network, offers resources of it to other peers, maps resources of other
    gateways to local ports, forwards connections for peers that may use it as a
    proxy, and reaches other networks through such peers itself; a web console
    administrates it.  An _agent_ (src/agent) is the small end that only uses
    gateways.  A _bootstrap_ node (src/bootstrap) is where they find each other.

    ** How the parts interact

    Every node has an identity, a seed in a file, and a host that runs under it.
    Other peers reach a gateway by three protocols on the host: _authorize_, by
    which a peer asks for a resource or for the proxy and is granted it by
    identifier or token; _port mapping_, whose handshake names a resource and
    whose stream then carries one connection; and _SOCKS5_, the proxy.  In the
    other direction a local connection finds its application by network and
    port, and a packet on the TUN device finds its outbound by an address
    router.  What is configured is kept in managers, each a map in memory saved
    whole under one key of a key-value store the gateway or agent shares among
    them.  The console's handlers change the managers and what runs for them:
    listeners, routes, the proxy.

    ** The files

    Each file of the development models the named files of src/; its definitions
    keep the names of the functions, methods and types they translate, its first
    comment says what its theorems show.

    Foundations:
    - Prelude: machine integers, errors, the state monad of Go statement
      sequences ([GoM]: a value or a panic, and the state reached), generic
      lemmas.
    - GoText, GoIo, GoNet, Json, Codec, GoOs, Sha256: what the source uses of
      Go's standard library (strconv, strings, fmt; encoding/binary, io; net,
      net/netip; encoding/json; os, its calls failing by a schedule of faults;
      crypto/sha256 and hmac).

    Shared packages:
    - Stream (stream/var_length_packet.go), TypesId (types/id.go), Version
      (common/version.go), Totp (totp/totp.go), Logger (logger/log.go,
      logging/log.go).

    Interfaces of dependencies, each a class of operations, a class of laws and
    a concrete instance that has the laws: Avl (the search tree of gods),
    Store (goleveldb), Socks5Util's [Socks5Lib] with Socks5Rfc (the SOCKS5
    messages of txthinking/socks5), Console's [Chi] (the router of go-chi).
    libp2p, netlink, the TUN drivers, walk and the service manager appear as
    parameters.

    The proxy:
    - Socks5Util (socks5/util.go, datagrams), Tunnel (socks5/util.go, the two
      copies of a connection as interleaved steps), Socks5Server
      (socks5/server.go, the handler), Outbound (socks5/server.go, the dialers,
      and the server composed with them and with the tunnel), Socks5Client
      (socks5/client.go, and the client against the server).
    - ProxyRouter (gateway/proxy_router.go), RouterRace (the same with its lock,
      under concurrent calls), ProxyClient (gateway/proxy_client.go), SysLinux
      (gateway/sys_linux.go), SysWindows (gateway/sys_windows.go,
      tun_stack/sys_windows.go), TunStack (tun_stack/), ProxyService
      (gateway/proxy_service.go).

    The gateway:
    - PortmapRes, PortmapApp (gateway/portmap_resource.go, portmap_app.go),
      AppRace (portmap_app.go with its lock), Portmap (portmap/portmap.go, its
      operations), PortmapRun (the same as it runs: its goroutines and events
      interleaved), PortmapTable (the table of listeners under them), AppStart (the loop that starts the stored applications),
      Authorize (gateway/authorize.go), GwCore (the parts of gateway/gateway.go
      every entry point shares).
    - Http (apiutil.go/api.go, requests and replies), Session (the console's login
      in gateway/gateway.go), GatewayApi (its other handlers), GatewayTypes (the
      invariant of the data under all of them), Upgrade (gateway/upgrade.go,
      upgrade/api.go), Console (the router, the server and the exit signal:
      every handler behind the session check; the files of
      gateway/embed.go are a parameter).
    - Identity, P2p (p2pengine/engine.go, noise.go), GatewayRun ([Run] and [Stop]
      of gateway/gateway.go, which put the others together), GatewayMain (the
      process of gateway/cmd/main.go around them).
    - Cmd (gateway/cmd/main.go, config.go, install.go; agent/cmd/config.go and
      the selection in agent/cmd/main.go), Daemon (gateway/cmd/daemon.go).

    The agent and the bootstrap node:
    - AgentProxy (agent/proxy.go), Agent (agent/agent.go and the commands of
      agent/cmd/main.go), AgentExport (agent/export.go, util.go).
    - AgentDialogs, AgentGui and AgentWindow (agent/windows/main.go): the dialogs
      as data, the handlers of the table's events over a class that states what
      the agent promises its window and that Agent's definitions implement, and
      the window with its menus, its icon in the tray and its loop.
    - Bootstrap (bootstrap/main.go).

    Two nodes together:
    - EndToEnd: an agent and a gateway, from the application that is added to the
      resource its connections reach.
    - ProxyEndToEnd: a gateway and the peer it reaches a network through, from
      the outbound that is added to the host a packet is carried to.

    ** State

    A Go object is a record with the object's fields; a mutex is the atomicity
    of the operations that hold it, except where the interleaving is the matter
    and each statement that others can see is a step: Daemon, Tunnel, PortmapRun,
    RouterRace, AppRace and GatewayMain.
    A pointer that may be nil is an option, and using a nil one is the outcome
    [Panic].  Managers that share a store are views of one state ([zoom]).
    Integers are [Z] with their ranges ([is_u64], ...) stated where they matter
    and wrap-around or range errors where the code has them; strings are byte
    strings, byte slices lists of [Z] or [Slice] where capacity matters.
    The iteration order of a Go map, random numbers, uuids and the results of
    calls to the system are parameters.

    ** What the theorems show

    - Round trips: packets, datagrams, JSON, handshakes, authorization, flags.
    - Refinement: the managers are durable finite maps (PortmapRes, PortmapApp,
      ProxyClient) or a list (AgentProxy), the router a table of disjoint ranges,
      the session table a map of deadlines, the agent's window a view of the
      agent.
    - Safety: who reaches the network through the SOCKS5 server, which
      identifiers and tokens are granted, which addresses a handshake reaches;
      that no handler of the console but the login's runs without a login, that
      strangers change nothing and only the password changes the password; that
      an upgrade does not lose the executable and a node not its identity; that
      Windows proxies nothing.
    - Concurrency: a mapping is a pipe between its connection and its stream,
      however the goroutines interleave; what its table holds while additions
      overlap, and the one way they can end the process; the router is
      linearizable while its updates do not overlap; what the applications hold
      and store under concurrent use, and when the process ends.
    - Invariants: listeners own their sockets and accepting goroutines, at most
      one worker, what the rotating log keeps, the types of the console's data.
    - Composition: the SOCKS5 client against the server, a mapped connection
      from the local port to the resource, the asking and the serving end of the
      authorization, a proxied connection through server, dialer and tunnel, the
      gateway [Run] builds from its store, the agent that restarts with its
      applications, an agent's application that leads to its resource, a packet
      that reaches its host through a peer.
    - Termination and liveness: the daemon stops, and restarts its worker; a
      gateway that is asked to stop ends; a tunnel and the copy of a mapping
      return; the loops of readers and parsers end.

    ** Bounds and fuel

    Recursion that is not structural has fuel that is shown to be enough: the
    varint loops ten bytes ([MaxVarintLen64]), number printing twenty digits (any
    uint64), the IPv6 parser the eight groups an address has, the JSON parser two units
    a character ([parse_fuel]).  The tunnel
    needs twice the bytes and chunks of one direction, and three steps; the copy
    of a mapping twice the bytes and chunks of its stream, and five; the
    daemon's end 26 steps after the flag of [Stop], the end of a gateway's
    process the six stages of [GatewayMain].

    ** Not modelled

    What net/http, chi, libp2p, netlink, wintun, walk and the service manager do
    is their own: they are parameters, or classes with the laws they document.
    Deadlines of streams are libp2p's.  Pixels and fonts of the agent's window,
    and everything that is not Go, are left out.  Logging is modelled
    where it is the component, not where others call it.  Goroutines are
    interleaved in Daemon, Tunnel, PortmapRun, RouterRace, AppRace, GatewayMain,
    Portmap's relay and the server's datagram loops; elsewhere the operations of
    one component follow each other.  An access to a map, or to the search tree,
    is a step, or the two of a write: what a data race does inside one is not
    defined by the language.

    ** Plan

    Next: the console's changes while connections run, as one system of
    PortmapRun, AppRace and Console; what a peer that restarts means for the
    outbounds through it; the start of the daemon's process under the service
    manager. *)
From stdpp Require Export base gmap strings list fin_maps sorting.
From Stdlib Require Export ZArith Lia Ascii.
#[export] Set Default Goal Selector "1".
Open Scope Z_scope.

(** * Machine integers *)

Definition u8 (z : Z) : Z := z mod 2 ^ 8.
Definition u16 (z : Z) : Z := z mod 2 ^ 16.
Definition u32 (z : Z) : Z := z mod 2 ^ 32.
Definition u64 (z : Z) : Z := z mod 2 ^ 64.
Definition s64 (z : Z) : Z := (z + 2 ^ 63) mod 2 ^ 64 - 2 ^ 63.

Definition is_u8 (z : Z) : Prop := 0 <= z < 2 ^ 8.
Definition is_u16 (z : Z) : Prop := 0 <= z < 2 ^ 16.
Definition is_u32 (z : Z) : Prop := 0 <= z < 2 ^ 32.
Definition is_u64 (z : Z) : Prop := 0 <= z < 2 ^ 64.
Definition is_s64 (z : Z) : Prop := - 2 ^ 63 <= z < 2 ^ 63.

#[export] Instance is_u8_dec z : Decision (is_u8 z).
Proof. unfold is_u8. apply _. Defined.
#[export] Instance is_u16_dec z : Decision (is_u16 z).
Proof. unfold is_u16. apply _. Defined.
#[export] Instance is_u32_dec z : Decision (is_u32 z).
Proof. unfold is_u32. apply _. Defined.
#[export] Instance is_u64_dec z : Decision (is_u64 z).
Proof. unfold is_u64. apply _. Defined.
#[export] Instance is_s64_dec z : Decision (is_s64 z).
Proof. unfold is_s64. apply _. Defined.

(** * Errors

    A Go [error] is [option error]: [None] is nil.  Sentinel values the source
    compares with [==] are constructors; every other error is the text its
    [Error()] method returns.  The wording of the messages of encoding/json is
    not modelled, they share the constructor [ErrJSON]. *)
Inductive error :=
  | EOF
  | ErrUnexpectedEOF
  | ErrShortBuffer
  | ECONNRESET
  | ErrSyntax
  | ErrRange
  | ErrNotFound
  | ErrJSON
  | ErrText (msg : string).

#[export] Instance error_eq_dec : EqDecision error.
Proof. solve_decision. Defined.

Definition Error (e : error) : string :=
  match e with
  | EOF => "EOF"
  | ErrUnexpectedEOF => "unexpected EOF"
  | ErrShortBuffer => "short buffer"
  | ECONNRESET => "connection reset by peer"
  | ErrSyntax => "invalid syntax"
  | ErrRange => "value out of range"
  | ErrNotFound => "leveldb: not found"
  | ErrJSON => "json: cannot unmarshal"
  | ErrText msg => msg
  end.

(** * Go computations

    A statement sequence over a state [S] returns a value or panics; a panic
    keeps the state reached so far. *)
Inductive outcome (A : Type) : Type :=
  | Ret (a : A)
  | Panic.
Arguments Ret {A} a.
Arguments Panic {A}.

Definition GoM (S A : Type) : Type := S -> outcome A * S.

Definition ret {S A} (a : A) : GoM S A := fun s => (Ret a, s).
Definition panic {S A} : GoM S A := fun s => (Panic, s).
Definition bind {S A B} (m : GoM S A) (k : A -> GoM S B) : GoM S B :=
  fun s => match m s with
           | (Ret a, s') => k a s'
           | (Panic, s') => (Panic, s')
           end.
Definition get {S} : GoM S S := fun s => (Ret s, s).
Definition put {S} (s' : S) : GoM S unit := fun _ => (Ret tt, s').
Definition gets {S A} (f : S -> A) : GoM S A := fun s => (Ret (f s), s).
Definition modify {S} (f : S -> S) : GoM S unit := fun s => (Ret tt, f s).

(** [zoom] runs a component's operation on the part of a larger state that
    holds the component. *)
Definition zoom {S T A} (proj : S -> T) (upd : T -> S -> S) (m : GoM T A) : GoM S A :=
  fun s => let '(o, t) := m (proj s) in (o, upd t s).

Declare Scope go_scope.
Delimit Scope go_scope with go.
Notation "x <- m ;; k" := (bind m (fun x => k))
  (at level 100, m at next level, right associativity) : go_scope.
Notation "'let*' p := m 'in' k" := (bind m (fun x => match x with p => k end))
  (at level 100, p pattern, m at next level, right associativity) : go_scope.
Notation "m ;;; k" := (bind m (fun _ => k))
  (at level 100, right associativity) : go_scope.
Open Scope go_scope.

(** [for _, x := range l { body }] *)
Fixpoint for_range {S A} (l : list A) (body : A -> GoM S unit) : GoM S unit :=
  match l with
  | [] => ret tt
  | x :: l' => body x ;;; for_range l' body
  end.

(** * Shared tactics *)

(** Open a monadic definition. *)
Ltac go_unfold := unfold bind, ret, panic, get, put, gets, modify, zoom in *.
(** Case analysis on every match of the goal, with the equations simplified. *)
Ltac go_cases := repeat (case_match; simplify_eq/=; try done).
Ltac go_step := go_unfold; simplify_eq/=; go_cases.

Create HintDb go.
Create Rewrite HintDb go.
Create Rewrite HintDb strings.

(** * Generic lemmas *)

Lemma u64_small z : is_u64 z -> u64 z = z.
Proof. intros H. unfold u64. apply Z.mod_small, H. Qed.

Lemma u32_small z : is_u32 z -> u32 z = z.
Proof. intros H. unfold u32. apply Z.mod_small, H. Qed.

Lemma u64_range z : is_u64 (u64 z).
Proof. apply Z.mod_pos_bound. lia. Qed.

Lemma u32_range z : is_u32 (u32 z).
Proof. apply Z.mod_pos_bound. lia. Qed.

Lemma s64_small z : is_s64 z -> s64 z = z.
Proof. unfold is_s64, s64. intros H. rewrite Z.mod_small; lia. Qed.

#[export] Hint Resolve u64_small u32_small s64_small u64_range u32_range : go.

Lemma bind_ret {S A B} (a : A) (k : A -> GoM S B) s : bind (ret a) k s = k a s.
Proof. done. Qed.

Lemma bind_Ret {S A B} (m : GoM S A) (k : A -> GoM S B) s a s' :
  m s = (Ret a, s') -> bind m k s = k a s'.
Proof. unfold bind. by intros ->. Qed.

Lemma bind_Panic {S A B} (m : GoM S A) (k : A -> GoM S B) s s' :
  m s = (Panic, s') -> bind m k s = (Panic, s').
Proof. unfold bind. by intros ->. Qed.

Lemma bind_eq {S A B} (m : GoM S A) (k : A -> GoM S B) s o s' :
  m s = (o, s') -> bind m k s = match o with Ret a => k a s' | Panic => (Panic, s') end.
Proof. unfold bind. intros ->. by destruct o. Qed.

Lemma bind_inv {S A B} (m : GoM S A) (k : A -> GoM S B) s b s2 :
  bind m k s = (Ret b, s2) -> exists a s1, m s = (Ret a, s1) /\ k a s1 = (Ret b, s2).
Proof. unfold bind. destruct (m s) as [[a|] s1]; [by eauto|done]. Qed.

Lemma bind_assoc {S A B C} (m : GoM S A) (k : A -> GoM S B) (h : B -> GoM S C) s :
  bind (bind m k) h s = bind m (fun x => bind (k x) h) s.
Proof. unfold bind. by destruct (m s) as [[] ?]. Qed.

#[export] Hint Rewrite @bind_ret @bind_assoc : go.

(** A state predicate that every iteration keeps holds after the loop. *)
Lemma for_range_inv {S A} (P : S -> Prop) (l : list A) (body : A -> GoM S unit) s :
  (forall x s1, x ∈ l -> P s1 -> P (body x s1).2) -> P s -> P (for_range l body s).2.
Proof.
  revert s. induction l as [|x l IH]; intros s Hb Hs; [done|].
  simpl. unfold bind. pose proof (Hb x s) as Hx.
  destruct (body x s) as [[[]|] s1] eqn:E; simpl in *.
  - apply IH; [|apply Hx; [by left|done]]. intros y s2 Hy. apply Hb. by right.
  - apply Hx; [by left|done].
Qed.

(** [m] keeps the invariant [I], even when it panics, and what it returns
    satisfies [Q]. *)
Definition safe {S A} (I : S -> Prop) (m : GoM S A) (Q : A -> Prop) : Prop :=
  forall s, I s -> I (m s).2 /\ forall a, (m s).1 = Ret a -> Q a.

Lemma safe_ret {S A} (I : S -> Prop) (a : A) (Q : A -> Prop) : Q a -> safe I (ret a) Q.
Proof. intros H s Hs. split; [done|]. by intros b [= <-]. Qed.

Lemma safe_panic {S A} (I : S -> Prop) (Q : A -> Prop) : safe I panic Q.
Proof. by intros s Hs. Qed.

Lemma safe_bind {S A B} (I : S -> Prop) (m : GoM S A) (k : A -> GoM S B) P Q :
  safe I m P -> (forall a, P a -> safe I (k a) Q) -> safe I (bind m k) Q.
Proof.
  intros Hm Hk s Hs. destruct (Hm s Hs) as [H1 H2]. unfold bind. destruct (m s) as [[a|] s1]; [|done].
  by apply Hk; [apply H2|].
Qed.

Lemma safe_get {S B} (I : S -> Prop) (k : S -> GoM S B) Q :
  (forall s, I s -> safe I (k s) Q) -> safe I (bind get k) Q.
Proof. intros Hk s Hs. by apply (Hk s Hs). Qed.

Lemma safe_weaken {S A} (I : S -> Prop) (m : GoM S A) (P Q : A -> Prop) : safe I m P -> (forall a, P a -> Q a) -> safe I m Q.
Proof. intros Hm H s Hs. destruct (Hm s Hs) as [H1 H2]. split; [done|]. intros a Ha. by apply H, H2. Qed.

Lemma safe_modify {S} (I : S -> Prop) f : (forall s, I s -> I (f s)) -> safe I (modify f) (fun _ => True).
Proof. intros H s Hs. split; [by apply H|done]. Qed.

(** A part of the state with an invariant of its own. *)
Lemma safe_zoom {S T A} (I : S -> Prop) (J : T -> Prop) (proj : S -> T) (upd : T -> S -> S) (m : GoM T A) Q :
  (forall s, I s -> J (proj s)) -> (forall s t, I s -> J t -> I (upd t s)) -> safe J m Q -> safe I (zoom proj upd m) Q.
Proof.
  intros Hp Hu Hm s Hs. destruct (Hm (proj s) (Hp s Hs)) as [H1 H2]. unfold zoom.
  destruct (m (proj s)) as [o t]. split; [by apply Hu|done].
Qed.

Definition any {A} (_ : A) : Prop := True.

Lemma safe_any {S A} (m : GoM S A) : safe any m any.
Proof. done. Qed.

(** Code whose parts keep the invariant whatever they return; [leaf] proves what
    it calls. *)
Ltac safe_with leaf := repeat lazymatch goal with
  | |- safe _ (ret _) _ => apply safe_ret; exact I
  | |- safe _ panic _ => apply safe_panic
  | |- safe _ (bind get _) _ => apply safe_get; intros ? ?
  | |- safe _ (bind _ _) _ => apply (safe_bind _ _ _ any); [|intros ? _]
  | |- safe _ (match ?x with _ => _ end) _ => destruct x
  | |- safe _ _ _ => leaf
  end.

(** Appending strings. *)
Lemma string_app_assoc (a b c : string) : (a +:+ b) +:+ c = a +:+ (b +:+ c).
Proof. induction a as [|x a IH]; [done|]. change (String x ((a +:+ b) +:+ c) = String x (a +:+ (b +:+ c))). by rewrite IH. Qed.

Lemma string_app_nil_r (a : string) : a +:+ "" = a.
Proof. induction a as [|x a IH]; [done|]. change (String x (a +:+ "") = String x a). by rewrite IH. Qed.

Lemma string_app_cons x (a b : string) : String x a +:+ b = String x (a +:+ b).
Proof. done. Qed.

Lemma string_app_nil_l (b : string) : "" +:+ b = b.
Proof. done. Qed.

#[export] Hint Rewrite string_app_assoc string_app_nil_r string_app_cons string_app_nil_l : strings.

Lemma string_length_app (a b : string) :
  String.length (a +:+ b) = (String.length a + String.length b)%nat.
Proof. induction a as [|x a IH]; [done|]. rewrite string_app_cons. simpl. by rewrite IH. Qed.
