(* ===== verification/GoText.v ===== *)
(** The parts of Go's [strconv], [strings] and [fmt] the program calls, on
    byte strings: decimal formatting and parsing of integers with their range
    and syntax errors, [strings.Split] on a one-byte separator,
    [strings.Contains], [strings.HasPrefix], and the [%d] verb of
    [fmt.Sscanf].  The main lemmas are the round trips between formatting and
    parsing. *)
From S2P Require Import Prelude.

(** * Characters *)

Definition byte_of (c : ascii) : Z := Z.of_N (N_of_ascii c).
Definition chr (z : Z) : ascii := ascii_of_N (Z.to_N z).

Definition is_digit (c : ascii) : bool := (48 <=? byte_of c) && (byte_of c <=? 57).
Definition digit_val (c : ascii) : Z := byte_of c - 48.
Definition digit_char (d : Z) : ascii := chr (48 + d).

(** * Formatting integers *)

(** Decimal digits of [z >= 0], most significant first, in front of [acc].
    [fuel] bounds the number of digits. *)
Fixpoint fmt_digits (fuel : nat) (z : Z) (acc : string) : string :=
  match fuel with
  | O => acc
  | S f =>
      let acc' := String (digit_char (z mod 10)) acc in
      if z <? 10 then acc' else fmt_digits f (z / 10) acc'
  end.

(** [strconv.FormatUint(z, 10)]; twenty digits hold any uint64. *)
Definition FormatUint (z : Z) : string := fmt_digits 20 z "".

(** [strconv.Itoa]. *)
Definition Itoa (z : Z) : string :=
  if z <? 0 then String "-" (FormatUint (- z)) else FormatUint z.

(** * Parsing integers *)

Definition maxUint64 : Z := 2 ^ 64 - 1.
(** The [cutoff] of [strconv.ParseUint] for base 10. *)
Definition cutoff10 : Z := maxUint64 / 10 + 1.

(** The digit loop of [strconv.ParseUint(s, 10, 64)], with the value it
    returns beside an error. *)
Fixpoint parse_uint_loop (s : string) (n : Z) : Z * option error :=
  match s with
  | "" => (n, None)
  | String c s' =>
      if is_digit c then
        if cutoff10 <=? n then (maxUint64, Some ErrRange)
        else
          let n1 := n * 10 + digit_val c in
          if maxUint64 <? n1 then (maxUint64, Some ErrRange)
          else parse_uint_loop s' n1
      else (0, Some ErrSyntax)
  end.

Definition ParseUint (s : string) : Z * option error :=
  match s with "" => (0, Some ErrSyntax) | _ => parse_uint_loop s 0 end.

(** [strconv.ParseInt(s, 10, 64)]. *)
Definition ParseInt (s : string) : Z * option error :=
  match s with
  | "" => (0, Some ErrSyntax)
  | String c s' =>
      let neg := Ascii.eqb c "-" in
      let body := if neg || Ascii.eqb c "+" then s' else s in
      let '(un, err) := ParseUint body in
      match err with
      | Some ErrSyntax => (0, Some ErrSyntax)
      | _ =>
          if negb neg && (2 ^ 63 <=? un) then (2 ^ 63 - 1, Some ErrRange)
          else if neg && (2 ^ 63 <? un) then (- 2 ^ 63, Some ErrRange)
          else (if neg then - un else un, None)
      end
  end.

(** [strconv.Atoi]: the fast path for short strings and [ParseInt] agree, so
    one definition stands for both. *)
Definition Atoi (s : string) : Z * option error := ParseInt s.

(** * Package strings *)

(** [strings.Split(s, sep)] for a one-byte separator. *)
Fixpoint split_go (sep : ascii) (cur : string) (s : string) : list string :=
  match s with
  | "" => [cur]
  | String c s' =>
      if Ascii.eqb c sep then cur :: split_go sep "" s'
      else split_go sep (cur +:+ String c "") s'
  end.
Definition Split (s : string) (sep : ascii) : list string := split_go sep "" s.

Definition HasPrefix (s pre : string) : bool := String.prefix pre s.

(** [strings.ToLower] of an ASCII text. *)
Fixpoint ToLower (s : string) : string :=
  match s with
  | "" => ""
  | String c s' => String (if (65 <=? byte_of c) && (byte_of c <=? 90) then chr (byte_of c + 32) else c) (ToLower s')
  end.

Fixpoint Contains (s sub : string) : bool :=
  String.prefix sub s ||
  match s with "" => false | String _ s' => Contains s' sub end.

(** * Lemmas *)

Lemma byte_of_range c : 0 <= byte_of c < 256.
Proof.
  unfold byte_of. pose proof (N_ascii_bounded c). lia.
Qed.

Lemma chr_byte_of c : chr (byte_of c) = c.
Proof. unfold chr, byte_of. rewrite N2Z.id. apply ascii_N_embedding. Qed.

Lemma byte_of_chr z : 0 <= z < 256 -> byte_of (chr z) = z.
Proof.
  intros H. unfold chr, byte_of. rewrite N_ascii_embedding by lia. lia.
Qed.

Lemma byte_of_digit d : 0 <= d < 10 -> byte_of (digit_char d) = 48 + d.
Proof. intros H. apply byte_of_chr. lia. Qed.

Lemma is_digit_char d : 0 <= d < 10 -> is_digit (digit_char d) = true.
Proof. intros H. unfold is_digit. rewrite byte_of_digit by done. lia. Qed.

Lemma digit_val_char d : 0 <= d < 10 -> digit_val (digit_char d) = d.
Proof. intros H. unfold digit_val. rewrite byte_of_digit by done. lia. Qed.

#[export] Hint Rewrite is_digit_char digit_val_char using lia : go.

(** The loop of [ParseUint] reads back digits printed in front of a string. *)
Lemma parse_fmt_digits fuel z acc :
  0 <= z < 10 ^ Z.of_nat fuel -> z <= maxUint64 ->
  parse_uint_loop (fmt_digits fuel z acc) 0 = parse_uint_loop acc z.
Proof.
  revert z acc. induction fuel as [|f IH]; intros z acc Hz Hm.
  { simpl in *. f_equal. lia. }
  assert (Hmod : 0 <= z mod 10 < 10) by (apply Z.mod_pos_bound; lia).
  assert (Hdm := Z.div_mod z 10 ltac:(done)). rewrite Nat2Z.inj_succ, Z.pow_succ_r in Hz by lia.
  assert (Hq : 0 <= z / 10) by (apply Z.div_pos; lia).
  assert (Hstep : forall a, a = z / 10 -> parse_uint_loop (String (digit_char (z mod 10)) acc) a
                          = parse_uint_loop acc z).
  { intros a ->. cbn [parse_uint_loop]. autorewrite with go.
    change cutoff10 with 1844674407370955162. change maxUint64 with (2 ^ 64 - 1) in *.
    case_match; [lia|]. cbn zeta. case_match; [lia|]. f_equal. lia. }
  simpl. case (Z.ltb_spec z 10); intros Hlt.
  - apply Hstep. rewrite Z.div_small; lia.
  - rewrite IH; [by apply Hstep| |]; lia.
Qed.

Lemma fmt_digits_nonempty fuel z acc :
  exists c s, fmt_digits (S fuel) z acc = String c s /\ is_digit c = true.
Proof.
  revert z acc. induction fuel as [|f IH]; intros z acc.
  - simpl. destruct (z <? 10); eexists _, _; (split; [done|]);
      apply is_digit_char, Z.mod_pos_bound; lia.
  - remember (S f) as f' eqn:Ef. cbn [fmt_digits]. destruct (z <? 10).
    + eexists _, _. split; [done|]. apply is_digit_char, Z.mod_pos_bound; lia.
    + subst f'. apply IH.
Qed.

Lemma FormatUint_head z :
  exists c s, FormatUint z = String c s /\ is_digit c = true.
Proof. apply fmt_digits_nonempty. Qed.

Lemma ParseUint_FormatUint z : is_u64 z -> ParseUint (FormatUint z) = (z, None).
Proof.
  intros Hz. unfold ParseUint. destruct (FormatUint_head z) as (c & s & E & _).
  rewrite E. rewrite <- E. unfold FormatUint.
  unfold is_u64 in Hz. rewrite parse_fmt_digits; [done| |]; unfold maxUint64; lia.
Qed.

Lemma digit_val_range c : is_digit c = true -> 0 <= digit_val c < 10.
Proof. unfold is_digit, digit_val. lia. Qed.

Lemma parse_uint_loop_range s n z :
  is_u64 n -> parse_uint_loop s n = (z, None) -> is_u64 z.
Proof.
  revert n. induction s as [|c s IH]; intros n Hn; simpl; [intros [= <-]; done|].
  destruct (is_digit c) eqn:Ed; [|done]. apply digit_val_range in Ed.
  case_match eqn:E1; [done|]. case_match eqn:E2; [done|]. apply IH.
  unfold is_u64, maxUint64 in *. lia.
Qed.

Lemma ParseUint_range s z : ParseUint s = (z, None) -> is_u64 z.
Proof. destruct s as [|c s]; [done|]. by apply parse_uint_loop_range. Qed.

Lemma ParseUint_nonneg s : 0 <= (ParseUint s).1.
Proof.
  destruct s as [|c s]; [done|]. change (ParseUint (String c s)) with (parse_uint_loop (String c s) 0).
  assert (H : forall t n, 0 <= n -> 0 <= (parse_uint_loop t n).1); [|by apply H].
  induction t as [|d t IH]; intros n Hn; [done|]. cbn [parse_uint_loop].
  destruct (is_digit d) eqn:Ed; [|done]. apply digit_val_range in Ed.
  case_match; [done|]. case_match; [done|]. apply IH. lia.
Qed.

Lemma ParseInt_range s z : ParseInt s = (z, None) -> is_s64 z.
Proof.
  destruct s as [|c s]; [done|]. unfold ParseInt.
  match goal with |- context [ParseUint ?b] => pose proof (ParseUint_nonneg b) as Hun; destruct (ParseUint b) as [un err] end.
  simpl in Hun. unfold is_s64. repeat (case_match; try done); intros [= <-]; lia.
Qed.

Lemma FormatUint_inj a b : is_u64 a -> is_u64 b -> FormatUint a = FormatUint b -> a = b.
Proof.
  intros Ha Hb E. apply ParseUint_FormatUint in Ha, Hb. rewrite E in Ha. congruence.
Qed.

Lemma Atoi_Itoa z : is_s64 z -> Atoi (Itoa z) = (z, None).
Proof.
  intros Hz. unfold is_s64 in Hz. unfold Atoi, Itoa.
  case (Z.ltb_spec z 0); intros Hneg.
  - cbn [ParseInt]. change (Ascii.eqb "-" "-") with true. cbn [orb].
    rewrite ParseUint_FormatUint by (unfold is_u64; lia). cbn [andb negb].
    rewrite (proj2 (Z.ltb_ge _ _)) by lia. f_equal. lia.
  - destruct (FormatUint_head z) as (c & s & E & Hc).
    assert (Hs : Ascii.eqb c "-" = false /\ Ascii.eqb c "+" = false).
    { split; apply Ascii.eqb_neq; intros ->; vm_compute in Hc; done. }
    rewrite E. cbn [ParseInt]. destruct Hs as [-> ->]. cbn [orb]. rewrite <- E.
    rewrite ParseUint_FormatUint by (unfold is_u64; lia). cbn [andb negb].
    rewrite (proj2 (Z.leb_gt _ _)) by lia. done.
Qed.

#[export] Hint Rewrite ParseUint_FormatUint Atoi_Itoa using done : go.

(** Splitting a string that has no separator gives it back whole. *)
Fixpoint no_char (sep : ascii) (s : string) : bool :=
  match s with
  | "" => true
  | String c s' => negb (Ascii.eqb c sep) && no_char sep s'
  end.

Lemma split_go_app sep cur a b :
  no_char sep a = true ->
  split_go sep cur (a +:+ String sep b) = (cur +:+ a) :: split_go sep "" b.
Proof.
  revert cur. induction a as [|c a IH]; intros cur Ha.
  - simpl. rewrite Ascii.eqb_refl, string_app_nil_r. done.
  - simpl in Ha. apply andb_prop in Ha as [Hc Ha]. rewrite string_app_cons. cbn [split_go].
    apply negb_true_iff in Hc. rewrite Hc, IH by done. by rewrite string_app_assoc.
Qed.

Lemma split_go_last sep cur a :
  no_char sep a = true -> split_go sep cur a = [cur +:+ a].
Proof.
  revert cur. induction a as [|c a IH]; intros cur Ha.
  - simpl. by rewrite string_app_nil_r.
  - simpl in Ha. apply andb_prop in Ha as [Hc Ha]. cbn [split_go].
    apply negb_true_iff in Hc. rewrite Hc, IH by done. by rewrite string_app_assoc.
Qed.

Lemma no_char_app sep a b : no_char sep (a +:+ b) = no_char sep a && no_char sep b.
Proof. induction a as [|x a IH]; [done|]. rewrite string_app_cons. simpl. by rewrite IH, andb_assoc. Qed.
