(* ===== verification/GoIo.v ===== *)
(** Go's [encoding/binary] and [io] as the program uses them: little- and
    big-endian integers, the unsigned varint, byte sources that deliver their
    bytes in arbitrary chunks, and [io.ReadFull] on them.  A byte is a [Z] in
    [0, 256).  The main lemmas: [ReadFull] does not depend on the chunking, and
    the integer encodings read back. *)
From Stdlib Require Import Zbitwise.
From S2P Require Import Prelude GoText.

Abbreviation bytes := (list Z).

Definition is_byte (b : Z) : Prop := 0 <= b < 256.
#[export] Instance is_byte_dec b : Decision (is_byte b).
Proof. unfold is_byte. apply _. Defined.

(** * Fixed-width integers *)

Fixpoint le_bytes (n : nat) (z : Z) : bytes :=
  match n with O => [] | S n' => z mod 256 :: le_bytes n' (z / 256) end.
Fixpoint le_int (l : bytes) : Z :=
  match l with [] => 0 | b :: l' => b + 256 * le_int l' end.

(** [binary.LittleEndian.PutUint64] and [Uint64]. *)
Definition LE_PutUint64 (z : Z) : bytes := le_bytes 8 z.
Definition LE_Uint64 (l : bytes) : Z := le_int l.

(** [binary.BigEndian] on two bytes. *)
Definition BE_PutUint16 (z : Z) : bytes := [(z / 256) mod 256; z mod 256].
Definition BE_Uint16 (l : bytes) : Z :=
  match l with [a; b] => a * 256 + b | _ => 0 end.

(** * Varints *)

Definition MaxVarintLen64 : nat := 10.

(** [binary.PutUvarint]: seven bits a byte, least significant first. *)
Fixpoint uvarint_go (fuel : nat) (x : Z) : bytes :=
  match fuel with
  | O => []
  | S f => if x <? 128 then [x] else x mod 128 + 128 :: uvarint_go f (x / 128)
  end.
Definition PutUvarint (x : Z) : bytes := uvarint_go MaxVarintLen64 x.

(** * Byte sources *)

(** What a reader will deliver: the chunks that arrive, one per [Read], and
    the error that follows them. *)
Record Source := mkSource { chunks : list bytes; end_err : error }.
Definition content (s : Source) : bytes := concat (chunks s).

(** One [Read] into a buffer of [n] bytes: the bytes read, the error. *)
Definition Read (n : nat) (s : Source) : (bytes * option error) * Source :=
  match chunks s with
  | [] => (([], Some (end_err s)), s)
  | c :: cs =>
      if (length c <=? n)%nat then ((c, None), mkSource cs (end_err s))
      else ((take n c, None), mkSource (drop n c :: cs) (end_err s))
  end.

(** [io.ReadFull] into [n] bytes: [Read] until the buffer is full, an EOF
    after the first byte becomes [ErrUnexpectedEOF]. *)
Fixpoint read_atleast (cs : list bytes) (n : nat) : bytes * bool * list bytes :=
  match n with
  | O => ([], true, cs)
  | _ =>
      match cs with
      | [] => ([], false, [])
      | c :: cs' =>
          if (length c <=? n)%nat then
            let '(got, full, rest) := read_atleast cs' (n - length c) in
            (c ++ got, full, rest)
          else (take n c, true, drop n c :: cs')
      end
  end.

Definition ReadFull (n : nat) (s : Source) : (bytes * option error) * Source :=
  let '(got, full, rest) := read_atleast (chunks s) n in
  let err :=
    if full then None
    else match got, end_err s with
         | _ :: _, EOF => Some ErrUnexpectedEOF
         | _, e => Some e
         end in
  ((got, err), mkSource rest (end_err s)).

(** * Errors and varint reading *)

Definition errOverflow : error := ErrText "binary: varint overflows a 64-bit integer".

(** [binary.ReadUvarint] over a byte reader [rb]; [i] is the index of the
    byte, [k] the remaining rounds of its loop. *)
Fixpoint uvarint_loop {S} (rb : S -> (Z * option error) * S)
    (k : nat) (i : nat) (x sh : Z) (s : S) : (Z * option error) * S :=
  match k with
  | O => ((x, Some errOverflow), s)
  | Datatypes.S k' =>
      let '((b, err), s') := rb s in
      match err with
      | Some e =>
          ((x, Some (match i, e with Datatypes.S _, EOF => ErrUnexpectedEOF | _, _ => e end)), s')
      | None =>
          if b <? 128 then
            if (i =? MaxVarintLen64 - 1)%nat && (1 <? b) then ((x, Some errOverflow), s')
            else ((Z.lor x (u64 (Z.shiftl b sh)), None), s')
          else uvarint_loop rb k' (Datatypes.S i)
                 (Z.lor x (u64 (Z.shiftl (Z.land b 127) sh))) (sh + 7) s'
      end
  end.
Definition ReadUvarint {S} (rb : S -> (Z * option error) * S) (s : S)
  : (Z * option error) * S := uvarint_loop rb MaxVarintLen64 0 0 0 s.

(** * Buffers

    A Go slice with spare capacity: the backing array from the slice's start
    and the slice's length. *)
Record Slice := mkSlice { arr : bytes; slen : nat }.
Definition scap (p : Slice) : nat := length (arr p).
Definition sview (p : Slice) : bytes := take (slen p) (arr p).
(** Overwrite the first bytes of the backing array. *)
Definition sfill (p : Slice) (data : bytes) : Slice :=
  mkSlice (data ++ drop (length data) (arr p)) (slen p).

(** * Lemmas *)

Lemma length_le_bytes n z : length (le_bytes n z) = n.
Proof. revert z. induction n as [|n IH]; intros z; simpl; [done|]. by rewrite IH. Qed.

Lemma le_bytes_byte n z : Forall is_byte (le_bytes n z).
Proof.
  revert z. induction n as [|n IH]; intros z; simpl; constructor; [|done].
  apply Z.mod_pos_bound. lia.
Qed.

Lemma le_int_bytes n z : 0 <= z < 256 ^ Z.of_nat n -> le_int (le_bytes n z) = z.
Proof.
  revert z. induction n as [|n IH]; intros z Hz; [simpl in *; lia|].
  rewrite Nat2Z.inj_succ, Z.pow_succ_r in Hz by lia.
  cbn [le_bytes le_int]. pose proof (Z.div_mod z 256 ltac:(done)).
  rewrite IH; [lia|]. split; [apply Z.div_pos; lia|]. apply Z.div_lt_upper_bound; lia.
Qed.

Lemma LE_roundtrip z : is_u64 z -> LE_Uint64 (LE_PutUint64 z) = z.
Proof. intros H. apply le_int_bytes, H. Qed.

Lemma BE_roundtrip z : is_u16 z -> BE_Uint16 (BE_PutUint16 z) = z.
Proof.
  unfold is_u16, BE_Uint16, BE_PutUint16. intros H.
  rewrite (Z.mod_small (z / 256)).
  - pose proof (Z.div_mod z 256 ltac:(done)). lia.
  - split; [apply Z.div_pos; lia|]. apply Z.div_lt_upper_bound; lia.
Qed.

Lemma BE_range a b : is_byte a -> is_byte b -> is_u16 (BE_Uint16 [a; b]).
Proof. unfold is_byte, is_u16, BE_Uint16. lia. Qed.

(** The bytes [io.ReadFull] gets and the ones it leaves depend only on the
    concatenation of the chunks. *)
Lemma read_atleast_concat cs n :
  let '(got, full, rest) := read_atleast cs n in
  got = take n (concat cs) /\ concat rest = drop n (concat cs) /\
  full = bool_decide (n <= length (concat cs))%nat.
Proof.
  revert n. induction cs as [|c cs IH]; intros [|n]; simpl;
    rewrite ?take_nil, ?drop_nil; try done.
  case (Nat.leb_spec (length c) (S n)); intros Hle.
  - specialize (IH (S n - length c)%nat).
    destruct (read_atleast cs (S n - length c)) as [[got full] rest].
    destruct IH as (-> & -> & ->).
    rewrite take_app_ge, drop_app_ge by lia. repeat split.
    apply bool_decide_ext. rewrite length_app. lia.
  - rewrite take_app_le, drop_app_le by lia. repeat split.
    rewrite bool_decide_eq_true_2; [done|]. rewrite length_app. lia.
Qed.

(** A full read: the source holds enough bytes. *)
Lemma ReadFull_ok n s data rest :
  content s = data ++ rest -> length data = n ->
  exists s', ReadFull n s = ((data, None), s') /\ content s' = rest /\ end_err s' = end_err s.
Proof.
  intros Hc Hn. unfold ReadFull. pose proof (read_atleast_concat (chunks s) n) as H.
  destruct (read_atleast (chunks s) n) as [[got full] r]. destruct H as (-> & Hr & ->).
  unfold content in Hc. rewrite Hc in Hr |- *.
  rewrite take_app_length' by done. rewrite drop_app_length' in Hr by done.
  rewrite bool_decide_eq_true_2 by (rewrite length_app; lia). eauto.
Qed.

(** A short read: the bytes there were, and the source's error. *)
Lemma ReadFull_short n s :
  (length (content s) < n)%nat ->
  exists s' e, ReadFull n s = ((content s, Some e), s') /\
    e = match content s, end_err s with _ :: _, EOF => ErrUnexpectedEOF | _, e => e end.
Proof.
  intros Hn. unfold ReadFull. pose proof (read_atleast_concat (chunks s) n) as H.
  destruct (read_atleast (chunks s) n) as [[got full] r]. destruct H as (-> & Hr & ->).
  fold (content s). rewrite take_ge by lia.
  rewrite bool_decide_eq_false_2 by (unfold content in *; lia).
  destruct (content s) as [|? ?], (end_err s); eauto.
Qed.

(** [io.ReadFull] gives the same bytes and error for two sources that differ
    only in how their bytes are cut into chunks. *)
Lemma ReadFull_chunking n s1 s2 :
  content s1 = content s2 -> end_err s1 = end_err s2 ->
  (ReadFull n s1).1 = (ReadFull n s2).1 /\
  content (ReadFull n s1).2 = content (ReadFull n s2).2.
Proof.
  intros Hc He. unfold ReadFull.
  pose proof (read_atleast_concat (chunks s1) n) as H1.
  pose proof (read_atleast_concat (chunks s2) n) as H2.
  destruct (read_atleast (chunks s1) n) as [[g1 f1] r1].
  destruct (read_atleast (chunks s2) n) as [[g2 f2] r2].
  destruct H1 as (-> & Hr1 & ->), H2 as (-> & Hr2 & ->).
  unfold content in *. simpl. by rewrite Hr1, Hr2, Hc, He.
Qed.

Lemma ReadFull_end_err n s : end_err (ReadFull n s).2 = end_err s.
Proof. unfold ReadFull. by destruct (read_atleast _ _) as [[? ?] ?]. Qed.

Lemma length_uvarint_go fuel x : (length (uvarint_go fuel x) <= fuel)%nat.
Proof.
  revert x. induction fuel as [|f IH]; intros x; simpl; [lia|].
  destruct (x <? 128); simpl; [lia|]. specialize (IH (x / 128)). lia.
Qed.

Lemma uvarint_go_byte fuel x : 0 <= x -> Forall is_byte (uvarint_go fuel x).
Proof.
  revert x. induction fuel as [|f IH]; intros x Hx; simpl; [done|].
  unfold is_byte. case (Z.ltb_spec x 128); intros Hlt.
  - constructor; [lia|done].
  - constructor; [|apply IH, Z.div_pos; lia].
    pose proof (Z.mod_pos_bound x 128). lia.
Qed.

Lemma uvarint_go_nonempty fuel x : uvarint_go (S fuel) x <> [].
Proof. simpl. by destruct (x <? 128). Qed.

(** A one-byte header exactly for lengths below 128. *)
Lemma length_PutUvarint_1 x : length (PutUvarint x) = 1%nat <-> x < 128.
Proof.
  unfold PutUvarint, MaxVarintLen64. remember 9%nat as k eqn:Ek.
  cbn [uvarint_go]. case (Z.ltb_spec x 128); intros Hlt; [done|].
  split; [|lia]. subst k. simpl. by destruct (_ <? _).
Qed.

Lemma sfill_cap p data : (length data <= scap p)%nat -> scap (sfill p data) = scap p.
Proof. unfold scap, sfill. simpl. rewrite length_app, length_drop. lia. Qed.

Lemma sfill_take p data : take (length data) (arr (sfill p data)) = data.
Proof. unfold sfill. simpl. by rewrite take_app_length. Qed.

(** [x lor (b << sh)] is addition when [x] stays below the shifted bits. *)
Lemma lor_shift_add x b sh :
  0 <= sh -> 0 <= x < 2 ^ sh -> 0 <= b -> b * 2 ^ sh < 2 ^ 64 ->
  Z.lor x (u64 (Z.shiftl b sh)) = x + b * 2 ^ sh.
Proof.
  intros Hsh Hx Hb Hlt. rewrite Z.shiftl_mul_pow2 by done. unfold u64.
  rewrite Z.mod_small by nia.
  rewrite <- (Z.add_lor_land x). enough (Z.land x (b * 2 ^ sh) = 0) as ->; [lia|].
  destruct (decide (x = 0)) as [->|Hx0]; [apply Z.land_0_l|].
  apply Z.bits_inj'. intros n Hn. rewrite Z.land_spec, Z.bits_0.
  case (Z.ltb_spec n sh); intros Hc.
  - rewrite Z.mul_pow2_bits_low by lia. by rewrite andb_false_r.
  - rewrite (Z.bits_above_log2 x n); [done|lia|].
    apply Z.log2_lt_pow2; [lia|]. eapply Z.lt_le_trans; [apply Hx|].
    apply Z.pow_le_mono_r; lia.
Qed.

(** A byte reader that hands out the bytes of [cont s] one by one. *)
Definition delivers {S} (cont : S -> bytes) (rb : S -> (Z * option error) * S) : Prop :=
  forall s b rest, cont s = b :: rest ->
    exists s', rb s = ((b, None), s') /\ cont s' = rest.

Lemma uvarint_loop_go {S} (cont : S -> bytes) rb k i x y s rest :
  delivers cont rb -> (k + i = MaxVarintLen64)%nat ->
  0 <= x < 2 ^ (7 * Z.of_nat i) -> 0 <= y -> y * 2 ^ (7 * Z.of_nat i) < 2 ^ 64 ->
  cont s = uvarint_go k y ++ rest -> (0 < k)%nat ->
  exists s', uvarint_loop rb k i x (7 * Z.of_nat i) s
             = ((x + y * 2 ^ (7 * Z.of_nat i), None), s') /\ cont s' = rest.
Proof.
  intros Hrb. revert i x y s.
  induction k as [|k IH]; intros i x y s Hk Hx Hy Hlt Hc Hpos; [lia|].
  cbn [uvarint_go uvarint_loop] in *.
  case (Z.ltb_spec y 128) as [Hs|Hs]; simpl in Hc.
  - destruct (Hrb _ _ _ Hc) as (s' & -> & Hc').
    rewrite (proj2 (Z.ltb_lt _ _)) by lia.
    assert (Hno : ((i =? MaxVarintLen64 - 1)%nat && (1 <? y)) = false).
    { apply andb_false_iff. destruct (decide (i = 9%nat)) as [->|Hi].
      - right. apply Z.ltb_ge. change (7 * Z.of_nat 9) with 63 in Hlt. lia.
      - left. apply Nat.eqb_neq. unfold MaxVarintLen64. lia. }
    rewrite Hno. exists s'. split; [|done]. rewrite lor_shift_add; [done|lia..].
  - destruct (Hrb _ _ _ Hc) as (s' & -> & Hc').
    pose proof (Z.mod_pos_bound y 128 ltac:(lia)) as Hm.
    pose proof (Z.div_mod y 128 ltac:(done)) as Hdm.
    rewrite (proj2 (Z.ltb_ge _ _)) by lia.
    assert (Hland : Z.land (y mod 128 + 128) 127 = y mod 128).
    { change 127 with (Z.ones 7). rewrite Z.land_ones by lia.
      change (2 ^ 7) with 128. rewrite <- Z.add_mod_idemp_r by lia.
      rewrite Z.mod_same, Z.add_0_r by lia. by apply Z.mod_mod. }
    rewrite Hland.
    assert (Hp : 2 ^ (7 * Z.of_nat (Datatypes.S i)) = 128 * 2 ^ (7 * Z.of_nat i)).
    { rewrite Nat2Z.inj_succ, Z.mul_succ_r, Z.pow_add_r by lia. lia. }
    rewrite lor_shift_add by (lia || nia).
    replace (7 * Z.of_nat i + 7) with (7 * Z.of_nat (Datatypes.S i)) by lia.
    assert (0 <= y / 128) by (apply Z.div_pos; lia).
    assert (Hk0 : (0 < k)%nat).
    { destruct k; [|lia]. exfalso. assert (i = 9%nat) as -> by (unfold MaxVarintLen64 in *; lia).
      change (7 * Z.of_nat 9) with 63 in Hlt. lia. }
    destruct (IH (Datatypes.S i) (x + y mod 128 * 2 ^ (7 * Z.of_nat i)) (y / 128) s')
      as (s2 & Hs2 & Hc2); try done; try (rewrite Hp; nia); try lia.
    exists s2. split; [|done]. rewrite Hs2. do 2 f_equal. rewrite Hp. nia.
Qed.

(** [binary.ReadUvarint] reads back what [binary.PutUvarint] wrote. *)
Lemma ReadUvarint_PutUvarint {S} (cont : S -> bytes) rb x s rest :
  delivers cont rb -> is_u64 x -> cont s = PutUvarint x ++ rest ->
  exists s', ReadUvarint rb s = ((x, None), s') /\ cont s' = rest.
Proof.
  intros Hrb Hx Hc. unfold is_u64 in Hx.
  destruct (uvarint_loop_go cont rb MaxVarintLen64 0 0 x s rest)
    as (s' & Hs & Hc'); try done; try (simpl; lia); [unfold MaxVarintLen64; lia|].
  exists s'. split; [|done]. unfold ReadUvarint. change (7 * Z.of_nat 0) with 0 in Hs.
  rewrite Hs. do 3 f_equal. lia.
Qed.

(** * Connections

    One end of a stream: what it will still read, what it has written, the
    error its writes return once the peer is gone, and whether it was closed
    or reset. *)
Record Conn := mkConn {
  rx : Source;
  tx : bytes;
  werr : option error;
  closed : bool;
  reset : bool
}.

Definition Conn_ReadFull (n : nat) : GoM Conn (bytes * option error) :=
  fun c => let '(r, s') := ReadFull n (rx c) in
           (Ret r, mkConn s' (tx c) (werr c) (closed c) (reset c)).
Definition Conn_Read (n : nat) : GoM Conn (bytes * option error) :=
  fun c => let '(r, s') := Read n (rx c) in
           (Ret r, mkConn s' (tx c) (werr c) (closed c) (reset c)).
Definition Conn_Write (p : bytes) : GoM Conn (Z * option error) :=
  fun c => match werr c with
           | Some e => (Ret (0, Some e), c)
           | None => (Ret (Z.of_nat (length p), None),
                      mkConn (rx c) (tx c ++ p) None (closed c) (reset c))
           end.
Definition Conn_Close : GoM Conn unit :=
  modify (fun c => mkConn (rx c) (tx c) (werr c) true (reset c)).
Definition Conn_Reset : GoM Conn unit :=
  modify (fun c => mkConn (rx c) (tx c) (werr c) (closed c) true).

Lemma Conn_ReadFull_ok n c data rest :
  content (rx c) = data ++ rest -> length data = n ->
  exists c', Conn_ReadFull n c = (Ret (data, None), c') /\ content (rx c') = rest /\
    tx c' = tx c /\ werr c' = werr c /\ closed c' = closed c /\ reset c' = reset c /\
    end_err (rx c') = end_err (rx c).
Proof.
  intros Hc Hn. destruct (ReadFull_ok n (rx c) data rest Hc Hn) as (s' & Hs & Hr & He).
  unfold Conn_ReadFull. rewrite Hs. eexists. split; [done|]. simpl. done.
Qed.

(** A connection that delivers [data] in one chunk and then ends. *)
Definition conn_of (data : bytes) : Conn := mkConn (mkSource [data] EOF) [] None false false.

(** * Conversions between strings and byte slices *)

Fixpoint bytes_of_string (s : string) : bytes :=
  match s with "" => [] | String c s' => byte_of c :: bytes_of_string s' end.
Fixpoint string_of_bytes (l : bytes) : string :=
  match l with [] => "" | b :: l' => String (chr b) (string_of_bytes l') end.

Lemma string_of_bytes_of_string s : string_of_bytes (bytes_of_string s) = s.
Proof. induction s as [|c s IH]; [done|]. simpl. by rewrite chr_byte_of, IH. Qed.

Lemma length_bytes_of_string s : length (bytes_of_string s) = String.length s.
Proof. induction s as [|c s IH]; [done|]. simpl. by rewrite IH. Qed.

Lemma bytes_of_string_byte s : Forall is_byte (bytes_of_string s).
Proof. induction s as [|c s IH]; [done|]. constructor; [apply byte_of_range|done]. Qed.

(** One [Read] when the whole message is there in one chunk. *)
Lemma Read_one_chunk n m cs e :
  (length m <= n)%nat -> Read n (mkSource (m :: cs) e) = ((m, None), mkSource cs e).
Proof. intros H. unfold Read. cbn [chunks end_err]. by rewrite (proj2 (Nat.leb_le _ _)). Qed.
