(* ===== verification/GoNet.v ===== *)
(** The parts of Go's [net] and [net/netip] the program calls: IP addresses as
    byte slices, masks, the text syntax of addresses and CIDR networks, and
    host:port strings. *)
From S2P Require Import Prelude GoText GoIo.

(** * Addresses and masks *)

(** A [net.IP] is a byte slice of length 4 or 16 (or nil). *)
Definition v4InV6Prefix : bytes := replicate 10 0 ++ [255; 255].

Definition To4 (ip : bytes) : option bytes :=
  if (length ip =? 4)%nat then Some ip
  else if (length ip =? 16)%nat && bool_decide (take 12 ip = v4InV6Prefix) then Some (drop 12 ip)
  else None.

Definition To16 (ip : bytes) : option bytes :=
  if (length ip =? 4)%nat then Some (v4InV6Prefix ++ ip)
  else if (length ip =? 16)%nat then Some ip
  else None.

(** [net.IPv4zero] is the sixteen-byte form of 0.0.0.0. *)
Definition IPv4zero : bytes := v4InV6Prefix ++ [0; 0; 0; 0].
Definition IPv6zero : bytes := replicate 16 0.

(** [net.CIDRMask(ones, 8 * len)]. *)
Fixpoint CIDRMask (ones : nat) (len : nat) : bytes :=
  match len with
  | O => []
  | S l =>
      if (8 <=? ones)%nat then 255 :: CIDRMask (ones - 8) l
      else (256 - 2 ^ (8 - Z.of_nat ones)) :: CIDRMask 0 l
  end.

(** The number of leading one bits of a byte, or [None] when a one follows a
    zero. *)
Fixpoint byte_ones (k : nat) (b : Z) : option nat :=
  match k with
  | O => if b =? 0 then Some 0%nat else None
  | S k' =>
      if b =? 0 then Some 0%nat
      else if 128 <=? b then
        match byte_ones k' ((b * 2) mod 256) with Some n => Some (S n) | None => None end
      else None
  end.

(** [net.simpleMaskLength]. *)
Fixpoint simpleMaskLength (m : bytes) : option nat :=
  match m with
  | [] => Some 0%nat
  | v :: m' =>
      if v =? 255 then match simpleMaskLength m' with Some n => Some (8 + n)%nat | None => None end
      else match byte_ones 8 v with
           | Some n => if forallb (Z.eqb 0) m' then Some n else None
           | None => None
           end
  end.

(** [IPMask.Size]: the ones and the bits, both 0 for a mask not in prefix
    form. *)
Definition Mask_Size (m : bytes) : nat * nat :=
  match simpleMaskLength m with
  | Some n => (n, 8 * length m)%nat
  | None => (0, 0)%nat
  end.

Record IPNet := mkIPNet { net_ip : bytes; net_mask : bytes }.

#[export] Instance IPNet_eq_dec : EqDecision IPNet.
Proof. solve_decision. Defined.

(** [IP.Mask] *)
Definition IP_Mask (ip mask : bytes) : option bytes :=
  let mask := if (length mask =? 16)%nat && (length ip =? 4)%nat
                 && forallb (Z.eqb 255) (take 12 mask) then drop 12 mask else mask in
  let ip := if (length mask =? 4)%nat && (length ip =? 16)%nat
               && bool_decide (take 12 ip = v4InV6Prefix) then drop 12 ip else ip in
  if (length ip =? length mask)%nat then Some (zip_with Z.land ip mask) else None.

(** [big.Int.SetBytes]: big-endian bytes as an integer. *)
Definition SetBytes (l : bytes) : Z := foldl (fun a b => a * 256 + b) 0 l.

(** * Text of addresses *)

(** [netip.parseIPv4Fields] from the left: [prev] is the previous character,
    [val] and [dig] the octet so far, [fields] the octets done. *)
Fixpoint parseIPv4Fields (s : string) (prev : option ascii) (val : Z) (dig : nat)
    (fields : bytes) : option bytes :=
  match s with
  | "" => if (length fields =? 3)%nat then Some (fields ++ [val]) else None
  | String c s' =>
      if is_digit c then
        if (dig =? 1)%nat && (val =? 0) then None
        else
          let val' := val * 10 + digit_val c in
          if 255 <? val' then None
          else parseIPv4Fields s' (Some c) val' (S dig) fields
      else if Ascii.eqb c "." then
        match prev, s' with
        | None, _ => None
        | _, "" => None
        | Some p, _ =>
            if Ascii.eqb p "." then None
            else if (length fields =? 3)%nat then None
            else parseIPv4Fields s' (Some c) 0 0 (fields ++ [val])
        end
      else None
  end.

Definition hex_val (c : ascii) : option Z :=
  let b := byte_of c in
  if (48 <=? b) && (b <=? 57) then Some (b - 48)
  else if (97 <=? b) && (b <=? 102) then Some (b - 87)
  else if (65 <=? b) && (b <=? 70) then Some (b - 55)
  else None.

(** A hex group of an IPv6 address: its value, the number of digits, the
    rest; [None] when it has more than four digits. *)
Fixpoint hex_group (s : string) (acc : Z) (off : nat) : option (Z * nat * string) :=
  match s with
  | "" => Some (acc, off, "")
  | String c s' =>
      match hex_val c with
      | Some v => if (3 <? off)%nat then None else hex_group s' (acc * 16 + v) (S off)
      | None => Some (acc, off, s)
      end
  end.

(** The loop of [netip.parseIPv6] over [s]: the bytes so far and where the
    ellipsis is; gives the bytes, the ellipsis and the unread text.  Each
    round adds two bytes, so eight rounds are all there are. *)
Fixpoint parseIPv6_loop (fuel : nat) (s : string) (ip : bytes) (ell : option nat)
  : option (bytes * option nat * string) :=
  match fuel with
  | O => Some (ip, ell, s)
  | S f =>
      match hex_group s 0 0 with
      | None => None
      | Some (acc, off, rest) =>
          if (off =? 0)%nat then None
          else if HasPrefix rest "." then
            if (match ell with None => negb (length ip =? 12)%nat | _ => false end) then None
            else if (16 <? length ip + 4)%nat then None
            else match parseIPv4Fields s None 0 0 [] with
                 | Some f4 => Some (ip ++ f4, ell, "")
                 | None => None
                 end
          else
            let ip := ip ++ [acc / 256; acc mod 256] in
            match rest with
            | "" => Some (ip, ell, "")
            | String c r1 =>
                if negb (Ascii.eqb c ":") then None
                else match r1 with
                     | "" => None
                     | String c2 r2 =>
                         if Ascii.eqb c2 ":" then
                           match ell with
                           | Some _ => None
                           | None =>
                               match r2 with
                               | "" => Some (ip, Some (length ip), "")
                               | _ => parseIPv6_loop f r2 ip (Some (length ip))
                               end
                           end
                         else parseIPv6_loop f r1 ip ell
                     end
            end
      end
  end.

(** [netip.parseIPv6] without a zone. *)
Definition parseIPv6 (s : string) : option bytes :=
  let start := HasPrefix s "::" in
  let s1 := if start then String.substring 2 (String.length s - 2) s else s in
  if start && bool_decide (s1 = "") then Some (replicate 16 0)
  else
    match parseIPv6_loop 8 s1 [] (if start then Some 0%nat else None) with
    | None => None
    | Some (ip, ell, rest) =>
        if negb (bool_decide (rest = "")) then None
        else if (length ip <? 16)%nat then
          match ell with
          | None => None
          | Some e => Some (take e ip ++ replicate (16 - length ip) 0 ++ drop e ip)
          end
        else match ell with Some _ => None | None => Some ip end
    end.

(** [netip.ParseAddr] for addresses without a zone (the callers refuse a
    zone): the bytes, 4 for an IPv4 address. *)
Fixpoint addr_kind (s : string) : option ascii :=
  match s with
  | "" => None
  | String c s' =>
      if Ascii.eqb c "." || Ascii.eqb c ":" || Ascii.eqb c "%" then Some c else addr_kind s'
  end.

Definition ParseAddr (s : string) : option bytes :=
  match addr_kind s with
  | Some c =>
      if Ascii.eqb c "." then parseIPv4Fields s None 0 0 []
      else if Ascii.eqb c ":" && negb (Contains s "%") then parseIPv6 s
      else None
  | None => None
  end.

(** [net.ParseIP]: always the sixteen-byte form. *)
Definition ParseIP (s : string) : option bytes :=
  match ParseAddr s with Some ip => To16 ip | None => None end.

(** [net.dtoi] on the whole string. *)
Fixpoint dtoi_go (s : string) (n : Z) : option Z :=
  match s with
  | "" => Some n
  | String c s' =>
      if is_digit c then
        let n' := n * 10 + digit_val c in
        if 16777215 <=? n' then None else dtoi_go s' n'
      else None
  end.
Definition dtoi (s : string) : option Z := match s with "" => None | _ => dtoi_go s 0 end.

(** [strings.Cut] at the first [c]. *)
Fixpoint Cut (s : string) (c : ascii) : option (string * string) :=
  match s with
  | "" => None
  | String x s' =>
      if Ascii.eqb x c then Some ("", s')
      else match Cut s' c with Some (a, b) => Some (String x a, b) | None => None end
  end.

(** [net.ParseCIDR]: the address and the network. *)
Definition ParseCIDR (s : string) : option (bytes * IPNet) :=
  match Cut s "/" with
  | None => None
  | Some (addr, mask) =>
      match ParseAddr addr, dtoi mask with
      | Some ip, Some n =>
          if 8 * Z.of_nat (length ip) <? n then None
          else
            let m := CIDRMask (Z.to_nat n) (length ip) in
            match To16 ip with
            | None => None
            | Some ip16 =>
                match IP_Mask ip16 m with
                | Some masked => Some (ip16, mkIPNet masked m)
                | None => None
                end
            end
      | _, _ => None
      end
  end.

(** * Checks on concrete addresses *)

Example cidr_v4 : ParseCIDR "10.1.2.3/8" = Some (v4InV6Prefix ++ [10; 1; 2; 3], mkIPNet [10; 0; 0; 0] [255; 0; 0; 0]).
Proof. vm_compute. reflexivity. Qed.
Example cidr_v6 : snd <$> ParseCIDR "2001:db8::/32" =
  Some (mkIPNet ([32; 1; 13; 184] ++ replicate 12 0) (replicate 4 255 ++ replicate 12 0)).
Proof. vm_compute. reflexivity. Qed.
Example ip_bad : ParseIP "1.2.3" = None /\ ParseIP "1.2.3.256" = None /\ ParseIP "01.2.3.4" = None.
Proof. vm_compute. done. Qed.
Example ip_mixed : ParseIP "::ffff:1.2.3.4" = Some (v4InV6Prefix ++ [1; 2; 3; 4]) /\
  ParseIP "1::2:3" = Some ([0; 1] ++ replicate 10 0 ++ [0; 2; 0; 3]).
Proof. vm_compute. done. Qed.

(** * Lemmas *)

Lemma length_CIDRMask n l : length (CIDRMask n l) = l.
Proof. revert n. induction l as [|l IH]; intros n; simpl; [done|]. case_match; simpl; by rewrite IH. Qed.

Lemma CIDRMask_zero_tail l : forallb (Z.eqb 0) (CIDRMask 0 l) = true.
Proof. by induction l. Qed.

(** A prefix mask has the size it was made with. *)
Lemma Mask_Size_CIDRMask n l : (n <= 8 * l)%nat -> Mask_Size (CIDRMask n l) = (n, 8 * l)%nat.
Proof.
  intros Hn. unfold Mask_Size. rewrite length_CIDRMask.
  enough (simpleMaskLength (CIDRMask n l) = Some n) as -> by done.
  revert n Hn. induction l as [|l IH]; intros n Hn; [simpl; f_equal; lia|].
  cbn [CIDRMask]. case (Nat.leb_spec 8 n); intros H8.
  - simpl. rewrite IH by lia. f_equal. lia.
  - do 8 (destruct n as [|n]; [cbn [simpleMaskLength]; rewrite CIDRMask_zero_tail; vm_compute; done|]).
    lia.
Qed.

Lemma SetBytes4 a b c d : SetBytes [a; b; c; d] = ((a * 256 + b) * 256 + c) * 256 + d.
Proof. unfold SetBytes. simpl. lia. Qed.

Lemma SetBytes_is_u32 l : Forall is_byte l -> length l = 4%nat -> is_u32 (SetBytes l).
Proof.
  intros H Hl. destruct l as [|a [|b [|c [|d [|]]]]]; try done.
  repeat match goal with H : Forall _ (_ :: _) |- _ => inversion_clear H end.
  rewrite SetBytes4. unfold is_byte, is_u32 in *. lia.
Qed.

(** * host:port *)

(** The text before the last [c] and after it. *)
Fixpoint split_last (c : ascii) (s : string) : option (string * string) :=
  match s with
  | "" => None
  | String x s' =>
      match split_last c s' with
      | Some (a, b) => Some (String x a, b)
      | None => if Ascii.eqb x c then Some ("", s') else None
      end
  end.
(** The text before the first [c] and after it. *)
Fixpoint split_first (c : ascii) (s : string) : option (string * string) :=
  match s with
  | "" => None
  | String x s' =>
      if Ascii.eqb x c then Some ("", s')
      else match split_first c s' with Some (a, b) => Some (String x a, b) | None => None end
  end.
Definition has_char (c : ascii) (s : string) : bool := negb (no_char c s).

Definition AddrError (why addr : string) : error :=
  ErrText (if String.eqb addr "" then why else "address " +:+ addr +:+ ": " +:+ why).

(** [net.SplitHostPort]. *)
Definition SplitHostPort (hostport : string) : (string * string) + error :=
  let missingPort := inr (AddrError "missing port in address" hostport) in
  let tooManyColons := inr (AddrError "too many colons in address" hostport) in
  match split_last ":" hostport with
  | None => missingPort
  | Some (before, port) =>
      match hostport with
      | String "[" r =>
          match split_first "]" r with
          | None => inr (AddrError "missing ']' in address" hostport)
          | Some (host, after) =>
              match after with
              | "" => missingPort
              | String c after' =>
                  if Ascii.eqb c ":" then
                    if has_char ":" after' then tooManyColons
                    else if has_char "[" r then inr (AddrError "unexpected '[' in address" hostport)
                    else if has_char "]" after then inr (AddrError "unexpected ']' in address" hostport)
                    else inl (host, port)
                  else missingPort
              end
          end
      | _ =>
          if has_char ":" before then tooManyColons
          else if has_char "[" hostport then inr (AddrError "unexpected '[' in address" hostport)
          else if has_char "]" hostport then inr (AddrError "unexpected ']' in address" hostport)
          else inl (before, port)
      end
  end.

(** [net.JoinHostPort]. *)
Definition JoinHostPort (host port : string) : string :=
  if has_char ":" host then "[" +:+ host +:+ "]:" +:+ port else host +:+ ":" +:+ port.

Example split_v4 : SplitHostPort "10.0.0.1:80" = inl ("10.0.0.1", "80").
Proof. reflexivity. Qed.
Example split_v6 : SplitHostPort "[::1]:53" = inl ("::1", "53").
Proof. reflexivity. Qed.
Example split_colons : SplitHostPort "::1:53" = inr (ErrText "address ::1:53: too many colons in address").
Proof. reflexivity. Qed.
Example split_missing : SplitHostPort "[::1]53" = inr (ErrText "address [::1]53: missing port in address").
Proof. reflexivity. Qed.

(** [IP.String] of a four-byte address. *)
Definition IP4_String (ip : bytes) : string :=
  match ip with
  | [a; b; c; d] =>
      FormatUint a +:+ "." +:+ FormatUint b +:+ "." +:+ FormatUint c +:+ "." +:+ FormatUint d
  | _ => ""
  end.

Definition hex_digit_char (d : Z) : ascii := chr (if d <? 10 then 48 + d else 87 + d).
(** A group of an IPv6 address without leading zeros. *)
Definition hex16 (z : Z) : string :=
  let d k := hex_digit_char (z / 16 ^ k mod 16) in
  if z <? 16 then String (d 0) ""
  else if z <? 256 then String (d 1) (String (d 0) "")
  else if z <? 4096 then String (d 2) (String (d 1) (String (d 0) ""))
  else String (d 3) (String (d 2) (String (d 1) (String (d 0) ""))).

Fixpoint groups (ip : bytes) : list Z :=
  match ip with a :: b :: r => a * 256 + b :: groups r | _ => [] end.
Fixpoint zero_run (l : list Z) : nat := match l with 0 :: l' => S (zero_run l') | _ => 0 end.
(** Start and length of the first longest run of zero groups. *)
Fixpoint longest_run (i : nat) (l : list Z) (best : nat * nat) : nat * nat :=
  match l with
  | [] => best
  | _ :: l' =>
      let r := zero_run l in
      longest_run (S i) l' (if (best.2 <? r)%nat then (i, r) else best)
  end.
Fixpoint join_colon (l : list string) : string :=
  match l with [] => "" | [s] => s | s :: l' => s +:+ ":" +:+ join_colon l' end.

(** [IP.String]: dotted for IPv4 and IPv4-mapped addresses, RFC 5952 for
    IPv6. *)
Definition IP_String (ip : bytes) : string :=
  match To4 ip with
  | Some ip4 => IP4_String ip4
  | None =>
      if (length ip =? 16)%nat then
        let g := groups ip in
        let '(i, r) := longest_run 0 g (0%nat, 0%nat) in
        if (r <? 2)%nat then join_colon (map hex16 g)
        else join_colon (map hex16 (take i g)) +:+ "::" +:+ join_colon (map hex16 (drop (i + r) g))
      else if (length ip =? 0)%nat then "<nil>" else "?"
  end.

Example ip_string_v6 :
  IP_String [32; 1; 13; 184; 0; 0; 0; 0; 0; 0; 0; 0; 0; 0; 0; 1] = "2001:db8::1".
Proof. reflexivity. Qed.
Example ip_string_zero : IP_String IPv6zero = "::".
Proof. reflexivity. Qed.

(** [net.ParseCIDR] with its error. *)
Definition ParseCIDR_err (s : string) : (bytes * IPNet) + error :=
  match ParseCIDR s with
  | Some r => inl r
  | None => inr (ErrText ("invalid CIDR address: " +:+ s))
  end.

(** ** Addresses as text and back *)

Lemma no_char_fmt sep fuel z acc : is_digit sep = false -> 0 <= z -> no_char sep acc = true -> no_char sep (fmt_digits fuel z acc) = true.
Proof.
  intros Hs. revert z acc. induction fuel as [|f IH]; intros z acc Hz Ha; [done|]. cbn [fmt_digits].
  assert (Hd : no_char sep (String (digit_char (z mod 10)) acc) = true).
  { cbn [no_char]. rewrite Ha, andb_true_r. apply negb_true_iff, Ascii.eqb_neq. intros E.
    assert (H : is_digit (digit_char (z mod 10)) = true) by (apply is_digit_char, Z.mod_pos_bound; lia). by rewrite E, Hs in H. }
  case_match; [done|]. apply IH; [by apply Z.div_pos|done].
Qed.

Lemma no_char_FormatUint sep z : is_digit sep = false -> 0 <= z -> no_char sep (FormatUint z) = true.
Proof. intros Hs Hz. by apply no_char_fmt. Qed.

Lemma no_char_IP4 sep a b c d : is_digit sep = false -> sep <> "."%char -> is_byte a -> is_byte b -> is_byte c -> is_byte d ->
  no_char sep (IP4_String [a; b; c; d]) = true.
Proof.
  intros Hs Hdot [Ha _] [Hb _] [Hc _] [Hd _]. unfold IP4_String.
  assert (Hp : no_char sep "." = true) by (cbn [no_char]; rewrite andb_true_r; apply negb_true_iff, Ascii.eqb_neq; congruence).
  by rewrite !no_char_app, !no_char_FormatUint, Hp.
Qed.

(** The decimal text of a byte is read as its value. *)
Lemma octet a rest prev fields : is_byte a -> exists ch dig, Ascii.eqb ch "." = false /\
  parseIPv4Fields (FormatUint a +:+ rest) prev 0 0 fields = parseIPv4Fields rest (Some ch) a dig fields.
Proof.
  intros Ha. unfold is_byte in Ha. unfold FormatUint. cbn [fmt_digits].
  assert (Hdot : forall x, 0 <= x < 10 -> Ascii.eqb (digit_char x) "." = false).
  { intros x Hx. apply Ascii.eqb_neq. intros E. pose proof (is_digit_char x Hx) as H. by rewrite E in H. }
  assert (H0 : 0 <= a mod 10 < 10) by (apply Z.mod_pos_bound; lia).
  assert (H1 : 0 <= a / 10 mod 10 < 10) by (apply Z.mod_pos_bound; lia).
  assert (H2 : 0 <= a / 10 / 10 mod 10 < 10) by (apply Z.mod_pos_bound; lia).
  pose proof (Z.div_mod a 10 ltac:(lia)) as Ea. pose proof (Z.div_mod (a / 10) 10 ltac:(lia)) as Eb.
  pose proof (Z.div_mod (a / 10 / 10) 10 ltac:(lia)) as Ec. set (d0 := a mod 10) in *. set (d1 := a / 10 mod 10) in *.
  set (d2 := a / 10 / 10 mod 10) in *. set (q1 := a / 10) in *. set (q2 := q1 / 10) in *.
  assert (Hq2 : q2 / 10 = 0) by (apply Z.div_small; lia). rewrite Hq2 in Ec.
  destruct (Z.ltb_spec a 10) as [Hl|Hl].
  - exists (digit_char d0), 1%nat. split; [by apply Hdot|]. rewrite string_app_cons. cbn [parseIPv4Fields String.append].
    rewrite is_digit_char, digit_val_char by done. cbn [Nat.eqb andb]. rewrite (proj2 (Z.ltb_ge _ _)) by lia. f_equal. lia.
  - destruct (Z.ltb_spec q1 10) as [Hl2|Hl2].
    + exists (digit_char d0), 2%nat. split; [by apply Hdot|]. rewrite !string_app_cons. cbn [parseIPv4Fields String.append].
      rewrite !is_digit_char, !digit_val_char by done. cbn [Nat.eqb andb].
      rewrite (proj2 (Z.ltb_ge _ _)) by lia. rewrite (proj2 (Z.eqb_neq _ _)) by lia. rewrite (proj2 (Z.ltb_ge _ _)) by lia. f_equal. lia.
    + assert (Hl3 : q2 < 10) by lia. rewrite (proj2 (Z.ltb_lt _ _) Hl3).
      exists (digit_char d0), 3%nat. split; [by apply Hdot|]. rewrite !string_app_cons. cbn [parseIPv4Fields String.append].
      rewrite !is_digit_char, !digit_val_char by done. cbn [Nat.eqb andb].
      rewrite (proj2 (Z.ltb_ge _ _)) by lia. rewrite (proj2 (Z.eqb_neq _ _)) by lia. rewrite (proj2 (Z.ltb_ge _ _)) by lia.
      rewrite (proj2 (Z.ltb_ge _ _)) by lia. f_equal. lia.
Qed.

Lemma next_octet ch rest v dig fields : Ascii.eqb ch "." = false -> rest <> "" -> (length fields < 3)%nat ->
  parseIPv4Fields (String "." rest) (Some ch) v dig fields = parseIPv4Fields rest (Some "."%char) 0 0 (fields ++ [v]).
Proof.
  intros Hch Hr Hl. cbn [parseIPv4Fields]. change (is_digit ".") with false. change (Ascii.eqb "." ".") with true. cbn iota.
  rewrite Hch. destruct rest; [done|]. assert (E : (length fields =? 3)%nat = false) by (apply Nat.eqb_neq; lia). by rewrite E.
Qed.

Lemma FormatUint_nonempty z rest : FormatUint z +:+ rest <> "".
Proof. destruct (FormatUint_head z) as (c & s & -> & _). done. Qed.

Lemma addr_kind_dot s rest : no_char "." s = true -> no_char ":" s = true -> no_char "%" s = true -> addr_kind (s +:+ String "." rest) = Some "."%char.
Proof.
  induction s as [|c s IH]; [done|]. cbn [no_char]. intros [H1 G1]%andb_prop [H2 G2]%andb_prop [H3 G3]%andb_prop.
  rewrite string_app_cons. cbn [addr_kind]. apply negb_true_iff in H1, H2, H3. rewrite H1, H2, H3. by apply IH.
Qed.

Lemma ParseIP_IP4_String a b c d : is_byte a -> is_byte b -> is_byte c -> is_byte d ->
  ParseIP (IP4_String [a; b; c; d]) = Some (v4InV6Prefix ++ [a; b; c; d]).
Proof.
  intros Ha Hb Hc Hd. unfold ParseIP, ParseAddr, IP4_String. assert (Hdot : forall s, "." +:+ s = String "." s) by done. rewrite !Hdot.
  rewrite addr_kind_dot by (apply no_char_FormatUint; [done|apply Ha]). change (Ascii.eqb "." ".") with true. cbn iota.
  destruct (octet a (String "." (FormatUint b +:+ String "." (FormatUint c +:+ String "." (FormatUint d)))) None [] Ha) as (ch & dig & Hch & ->).
  rewrite next_octet by (first [done|apply FormatUint_nonempty|cbn; lia]).
  destruct (octet b (String "." (FormatUint c +:+ String "." (FormatUint d))) (Some "."%char) ([] ++ [a]) Hb) as (ch2 & dig2 & Hch2 & ->).
  rewrite next_octet by (first [done|apply FormatUint_nonempty|cbn; lia]).
  destruct (octet c (String "." (FormatUint d)) (Some "."%char) (([] ++ [a]) ++ [b]) Hc) as (ch3 & dig3 & Hch3 & ->).
  rewrite next_octet; [|done|intros E; by apply (FormatUint_nonempty d ""); rewrite string_app_nil_r|cbn; lia].
  destruct (octet d "" (Some "."%char) ((([] ++ [a]) ++ [b]) ++ [c]) Hd) as (ch4 & dig4 & _ & E). rewrite string_app_nil_r in E. rewrite E.
  reflexivity.
Qed.

Lemma split_last_app ch s t : no_char ch t = true -> split_last ch (s +:+ String ch t) = Some (s, t).
Proof.
  intros Ht. assert (H : split_last ch t = None).
  { induction t as [|x t IH]; [done|]. cbn [no_char split_last] in *. apply andb_prop in Ht as [Hx Ht]. rewrite IH by done.
    apply negb_true_iff in Hx. by rewrite Hx. }
  induction s as [|x s IH]; [change ("" +:+ String ch t) with (String ch t); cbn [split_last]; by rewrite H, Ascii.eqb_refl|].
  rewrite string_app_cons. cbn [split_last]. by rewrite IH.
Qed.

(** What [JoinHostPort] makes of a host without colons and brackets is split
    again. *)
Lemma SplitHostPort_Join h p : no_char ":" h = true -> no_char "[" h = true -> no_char "]" h = true ->
  no_char ":" p = true -> no_char "[" p = true -> no_char "]" p = true -> h <> "" ->
  SplitHostPort (JoinHostPort h p) = inl (h, p).
Proof.
  intros H1 H2 H3 P1 P2 P3 Hne. unfold JoinHostPort, has_char. rewrite H1. cbn [negb]. change (":" +:+ p) with (String ":" p).
  unfold SplitHostPort, has_char. rewrite split_last_app by done.
  assert (G2 : no_char "[" (h +:+ String ":" p) = true) by (rewrite no_char_app, H2; cbn; by rewrite P2).
  assert (G3 : no_char "]" (h +:+ String ":" p) = true) by (rewrite no_char_app, H3; cbn; by rewrite P3).
  rewrite H1, G2, G3. cbn [negb]. destruct h as [|x h]; [done|]. rewrite string_app_cons.
  cbn [no_char] in H2. apply andb_prop in H2 as [Hx _]. destruct (Ascii.eqb_spec x "[") as [->|Hn]; [done|].
  by destruct x as [[] [] [] [] [] [] [] []].
Qed.
