(* ===== verification/Json.v ===== *)
(** Go's [encoding/json] on text: values, the printer with Go's escapes, the
    scanner and string decoder, for the configuration records, requests and
    handshakes the program stores and sends.  The lemmas: parsing a printed
    value gives it back ([Parse_print]) and the parser's fuel is never what
    stops it ([parse_fuel]). *)
From S2P Require Import Prelude GoText.

(** * Runes

    A text is read rune by rune: [Some u] is the bytes of one valid UTF-8
    encoding, [None] one byte that starts none. *)
Definition between (a b : Z) (c : ascii) : bool := (a <=? byte_of c) && (byte_of c <=? b).
Definition is_ascii (c : ascii) : bool := byte_of c <? 128.
Definition valid2 (c1 c2 : ascii) : bool := between 194 223 c1 && between 128 191 c2.
Definition valid3 (c1 c2 c3 : ascii) : bool :=
  (if byte_of c1 =? 224 then between 160 191 c2
   else if byte_of c1 =? 237 then between 128 159 c2
   else between 225 239 c1 && between 128 191 c2) && between 128 191 c3.
Definition valid4 (c1 c2 c3 c4 : ascii) : bool :=
  (if byte_of c1 =? 240 then between 144 191 c2
   else if byte_of c1 =? 244 then between 128 143 c2
   else between 241 243 c1 && between 128 191 c2) && between 128 191 c3 && between 128 191 c4.

Fixpoint runes (s : string) : list (option string) :=
  match s with
  | "" => []
  | String c1 s1 =>
      if is_ascii c1 then Some (String c1 "") :: runes s1
      else match s1 with
      | "" => [None]
      | String c2 s2 =>
          if valid2 c1 c2 then Some (String c1 (String c2 "")) :: runes s2
          else match s2 with
          | "" => None :: runes s1
          | String c3 s3 =>
              if valid3 c1 c2 c3 then Some (String c1 (String c2 (String c3 ""))) :: runes s3
              else match s3 with
              | "" => None :: runes s1
              | String c4 s4 =>
                  if valid4 c1 c2 c3 c4
                  then Some (String c1 (String c2 (String c3 (String c4 "")))) :: runes s4
                  else None :: runes s1
              end
          end
      end
  end.

Definition rune_ok (u : string) : bool :=
  match u with
  | String c1 "" => is_ascii c1
  | String c1 (String c2 "") => valid2 c1 c2
  | String c1 (String c2 (String c3 "")) => valid3 c1 c2 c3
  | String c1 (String c2 (String c3 (String c4 ""))) => valid4 c1 c2 c3 c4
  | _ => false
  end.

Definition valid_utf8 (s : string) : bool :=
  forallb (fun u => match u with Some _ => true | None => false end) (runes s).

(** [utf8.EncodeRune] for a code point that is not a surrogate. *)
Definition EncodeRune (r : Z) : string :=
  if r <? 128 then String (chr r) ""
  else if r <? 2048 then String (chr (192 + r / 64)) (String (chr (128 + r mod 64)) "")
  else if r <? 65536 then
    String (chr (224 + r / 4096)) (String (chr (128 + r / 64 mod 64)) (String (chr (128 + r mod 64)) ""))
  else
    String (chr (240 + r / 262144)) (String (chr (128 + r / 4096 mod 64))
      (String (chr (128 + r / 64 mod 64)) (String (chr (128 + r mod 64)) ""))).

Definition RuneError : Z := 65533.

(** * Values *)

#[local] Set Warnings "-register-all".
Inductive json :=
  | JNull
  | JBool (b : bool)
  | JNum (lit : string)
  | JStr (s : string)
  | JArr (l : list json)
  | JObj (l : list (string * json)).

(** * Printing *)

Definition dquote : ascii := "034".
Definition bslash : ascii := "092".
Definition esc1 (c : ascii) : string := String bslash (String c "").

Definition hex_char (d : Z) : ascii := chr (if d <? 10 then 48 + d else 87 + d).
Definition u_esc (r : Z) : string :=
  String bslash (String "u" (String (hex_char (r / 4096)) (String (hex_char (r / 256 mod 16))
    (String (hex_char (r / 16 mod 16)) (String (hex_char (r mod 16)) ""))))).

(** [encodeState.string] with HTML escaping. *)
Definition esc_ascii (c : ascii) : string :=
  let b := byte_of c in
  if (b =? 34) || (b =? 92) then esc1 c
  else if b =? 8 then esc1 "b"
  else if b =? 12 then esc1 "f"
  else if b =? 10 then esc1 "n"
  else if b =? 13 then esc1 "r"
  else if b =? 9 then esc1 "t"
  else if (b <? 32) || (b =? 60) || (b =? 62) || (b =? 38) then u_esc b
  else String c "".

Definition esc_rune (u : option string) : string :=
  match u with
  | None => u_esc RuneError
  | Some (String c "") => esc_ascii c
  | Some u =>
      if String.eqb u (EncodeRune 8232) then u_esc 8232
      else if String.eqb u (EncodeRune 8233) then u_esc 8233
      else u
  end.

Fixpoint concat_str (l : list string) : string :=
  match l with [] => "" | s :: l' => s +:+ concat_str l' end.

Definition quote (s : string) : string :=
  String dquote (concat_str (map esc_rune (runes s)) +:+ String dquote "").

Fixpoint join (l : list string) : string :=
  match l with
  | [] => ""
  | [s] => s
  | s :: l' => s +:+ String "," (join l')
  end.

Fixpoint print (j : json) : string :=
  match j with
  | JNull => "null"
  | JBool true => "true"
  | JBool false => "false"
  | JNum lit => lit
  | JStr s => quote s
  | JArr l => String "[" (join (map print l) +:+ "]")
  | JObj l => String "{" (join (map (fun kv => quote kv.1 +:+ String ":" (print kv.2)) l) +:+ "}")
  end.

(** * Parsing *)

Definition is_hex (c : ascii) : bool := between 48 57 c || between 97 102 c || between 65 70 c.
Definition hex_digit (c : ascii) : Z :=
  if between 48 57 c then byte_of c - 48
  else if between 97 102 c then byte_of c - 87 else byte_of c - 55.

Definition simple_escape (c : ascii) : bool :=
  existsb (Ascii.eqb c) [dquote; bslash; "/"; "b"; "f"; "n"; "r"; "t"]%char.

(** The text of a string literal up to its closing quote, escapes checked but
    not decoded, and what follows it. *)
Fixpoint scan_str (s : string) : option (string * string) :=
  let cons pre r := match r with Some (a, b) => Some (pre +:+ a, b) | None => None end in
  match s with
  | "" => None
  | String c s1 =>
      if Ascii.eqb c dquote then Some ("", s1)
      else if Ascii.eqb c bslash then
        match s1 with
        | "" => None
        | String e s2 =>
            if simple_escape e then cons (String c (String e "")) (scan_str s2)
            else if Ascii.eqb e "u" then
              match s2 with
              | String a (String b (String d (String f s6))) =>
                  if is_hex a && is_hex b && is_hex d && is_hex f
                  then cons (String c (String e (String a (String b (String d (String f ""))))))
                         (scan_str s6)
                  else None
              | _ => None
              end
            else None
        end
      else if byte_of c <? 32 then None
      else cons (String c "") (scan_str s1)
  end.

Definition unescape (e : ascii) : string :=
  String (if Ascii.eqb e "b" then "008"
          else if Ascii.eqb e "f" then "012"
          else if Ascii.eqb e "n" then "010"
          else if Ascii.eqb e "r" then "013"
          else if Ascii.eqb e "t" then "009" else e)%char "".

Definition unit_char (u : option string) : ascii :=
  match u with Some (String c "") => c | _ => "000" end.
Definition hex4 (a b c d : option string) : Z :=
  let h u := hex_digit (unit_char u) in
  ((h a * 16 + h b) * 16 + h c) * 16 + h d.

Definition is_unit (u : option string) (c : ascii) : bool :=
  match u with Some s => String.eqb s (String c "") | None => false end.

(** [utf16.DecodeRune], [None] when the two are no surrogate pair. *)
Definition surrogates (r1 r2 : Z) : option Z :=
  if (55296 <=? r1) && (r1 <? 56320) && (56320 <=? r2) && (r2 <? 57344)
  then Some ((r1 - 55296) * 1024 + (r2 - 56320) + 65536) else None.

(** [unquoteBytes] on a scanned literal. *)
Fixpoint unquote (us : list (option string)) : string :=
  match us with
  | [] => ""
  | None :: r => EncodeRune RuneError +:+ unquote r
  | Some u :: r =>
      if String.eqb u (String bslash "") then
        match r with
        | [] => ""
        | e :: r1 =>
            if is_unit e "u" then
              match r1 with
              | a :: b :: c :: d :: r5 =>
                  let x := hex4 a b c d in
                  if (55296 <=? x) && (x <? 57344) then
                    match r5 with
                    | bs :: u2 :: a2 :: b2 :: c2 :: d2 :: r11 =>
                        match (if is_unit bs bslash && is_unit u2 "u"
                               then surrogates x (hex4 a2 b2 c2 d2) else None) with
                        | Some y => EncodeRune y +:+ unquote r11
                        | None => EncodeRune RuneError +:+ unquote r5
                        end
                    | _ => EncodeRune RuneError +:+ unquote r5
                    end
                  else EncodeRune x +:+ unquote r5
              | _ => ""
              end
            else unescape (unit_char e) +:+ unquote r1
        end
      else u +:+ unquote r
  end.

Fixpoint span_digits (s : string) : string * string :=
  match s with
  | "" => ("", "")
  | String c s' =>
      if is_digit c then let '(d, r) := span_digits s' in (String c d, r) else ("", s)
  end.

(** The fraction and exponent of a number. *)
Definition scan_frac (s : string) : option (string * string) :=
  match s with
  | String "." s' =>
      match span_digits s' with
      | ("", _) => None
      | (d, r) => Some (String "." d, r)
      end
  | _ => Some ("", s)
  end.
Definition scan_exp (s : string) : option (string * string) :=
  match s with
  | String c s' =>
      if Ascii.eqb c "e" || Ascii.eqb c "E" then
        let '(sg, s2) := match s' with
                         | String g s2 =>
                             if Ascii.eqb g "+" || Ascii.eqb g "-" then (String g "", s2) else ("", s')
                         | _ => ("", s')
                         end in
        match span_digits s2 with
        | ("", _) => None
        | (d, r) => Some (String c "" +:+ sg +:+ d, r)
        end
      else Some ("", s)
  | _ => Some ("", s)
  end.
Definition scan_uint (s : string) : option (string * string) :=
  match s with
  | String c s' =>
      if Ascii.eqb c "0" then Some ("0", s')
      else if is_digit c then let '(d, r) := span_digits s' in Some (String c d, r)
      else None
  | "" => None
  end.
Definition scan_number (s : string) : option (string * string) :=
  let '(sg, s1) := match s with String "-" s' => ("-", s') | _ => ("", s) end in
  match scan_uint s1 with
  | None => None
  | Some (i, s2) =>
      match scan_frac s2 with
      | None => None
      | Some (f, s3) =>
          match scan_exp s3 with
          | None => None
          | Some (e, s4) => Some (sg +:+ i +:+ f +:+ e, s4)
          end
      end
  end.

Definition is_ws (c : ascii) : bool :=
  Ascii.eqb c " " || Ascii.eqb c "009" || Ascii.eqb c "010" || Ascii.eqb c "013".
Fixpoint skip_ws (s : string) : string :=
  match s with String c s' => if is_ws c then skip_ws s' else s | "" => "" end.

(** What follows a word, when the text starts with it. *)
Fixpoint drop_word (w s : string) : option string :=
  match w, s with
  | "", _ => Some s
  | String a w', String b s' => if Ascii.eqb a b then drop_word w' s' else None
  | _, "" => None
  end.

Definition scan_string_lit (s : string) : option (string * string) :=
  match s with
  | String c s' =>
      if Ascii.eqb c dquote then
        match scan_str s' with Some (raw, r) => Some (unquote (runes raw), r) | None => None end
      else None
  | "" => None
  end.

(** [maxNestingDepth] of the scanner. *)
Definition maxNestingDepth : Z := 10000.

(** A value at the start of the text, and the rest.  [depth] counts the
    enclosing arrays and objects. *)
Fixpoint parse_value (fuel : nat) (depth : Z) (s0 : string) : option (json * string) :=
  match fuel with
  | O => None
  | S f =>
      match skip_ws s0 with
      | "" => None
      | String c s =>
          if Ascii.eqb c "{" then
            if maxNestingDepth <=? depth then None
            else match skip_ws s with
                 | String "}" r => Some (JObj [], r)
                 | s1 => match parse_members f (depth + 1) s1 with
                         | Some (l, r) => Some (JObj l, r)
                         | None => None
                         end
                 end
          else if Ascii.eqb c "[" then
            if maxNestingDepth <=? depth then None
            else match skip_ws s with
                 | String "]" r => Some (JArr [], r)
                 | s1 => match parse_elems f (depth + 1) s1 with
                         | Some (l, r) => Some (JArr l, r)
                         | None => None
                         end
                 end
          else if Ascii.eqb c dquote then
            match scan_string_lit (String c s) with Some (v, r) => Some (JStr v, r) | None => None end
          else if Ascii.eqb c "n" then
            match drop_word "ull" s with Some r => Some (JNull, r) | None => None end
          else if Ascii.eqb c "t" then
            match drop_word "rue" s with Some r => Some (JBool true, r) | None => None end
          else if Ascii.eqb c "f" then
            match drop_word "alse" s with Some r => Some (JBool false, r) | None => None end
          else match scan_number (String c s) with
               | Some (lit, r) => Some (JNum lit, r)
               | None => None
               end
      end
  end
with parse_members (fuel : nat) (depth : Z) (s0 : string) : option (list (string * json) * string) :=
  match fuel with
  | O => None
  | S f =>
      match scan_string_lit (skip_ws s0) with
      | None => None
      | Some (k, s1) =>
          match skip_ws s1 with
          | String ":" s2 =>
              match parse_value f depth s2 with
              | None => None
              | Some (v, s3) =>
                  match skip_ws s3 with
                  | String "}" r => Some ([(k, v)], r)
                  | String "," s4 =>
                      match parse_members f depth s4 with
                      | Some (l, r) => Some ((k, v) :: l, r)
                      | None => None
                      end
                  | _ => None
                  end
              end
          | _ => None
          end
      end
  end
with parse_elems (fuel : nat) (depth : Z) (s0 : string) : option (list json * string) :=
  match fuel with
  | O => None
  | S f =>
      match parse_value f depth s0 with
      | None => None
      | Some (v, s3) =>
          match skip_ws s3 with
          | String "]" r => Some ([v], r)
          | String "," s4 =>
              match parse_elems f depth s4 with
              | Some (l, r) => Some (v :: l, r)
              | None => None
              end
          | _ => None
          end
      end
  end.

(** [json.Unmarshal]'s reading of a whole text: every nested call follows at
    least one character, so two units of fuel a character are enough. *)
Definition Parse (s : string) : option json :=
  match parse_value (S (String.length s * 2)) 0 s with
  | Some (j, r) => match skip_ws r with "" => Some j | _ => None end
  | None => None
  end.

(** [json.NewDecoder(r).Decode]: the first value of the text; what follows it
    stays unread. *)
Definition ParseFirst (s : string) : option json :=
  match parse_value (S (String.length s * 2)) 0 s with
  | Some (j, _) => Some j
  | None => None
  end.


(** * Lemmas: strings *)

Lemma byte_of_inj a b : byte_of a = byte_of b -> a = b.
Proof. intros E. rewrite <- (chr_byte_of a), <- (chr_byte_of b). by rewrite E. Qed.

(** Reflect the byte tests into inequalities. *)
Ltac byte_lia :=
  unfold rune_ok, valid2, valid3, valid4, is_ascii, between in *;
  repeat case_match; repeat rewrite ?andb_true_iff, ?andb_false_iff in *;
  rewrite ?Z.leb_le, ?Z.leb_gt, ?Z.ltb_lt, ?Z.ltb_ge, ?Z.eqb_eq, ?Z.eqb_neq in *; try lia.

Lemma runes_step u s : rune_ok u = true -> runes (u +:+ s) = Some u :: runes s.
Proof.
  intros Hu. destruct u as [|a [|b [|c [|d [|]]]]]; try done.
  - rewrite !string_app_cons, string_app_nil_l. cbn [runes]. cbn [rune_ok] in Hu. by rewrite Hu.
  - rewrite !string_app_cons, string_app_nil_l. cbn [runes]. cbn [rune_ok] in Hu.
    assert (is_ascii a = false) as -> by byte_lia. by rewrite Hu.
  - rewrite !string_app_cons, string_app_nil_l. cbn [runes]. cbn [rune_ok] in Hu.
    assert (is_ascii a = false) as -> by byte_lia.
    assert (valid2 a b = false) as -> by byte_lia. by rewrite Hu.
  - rewrite !string_app_cons, string_app_nil_l. cbn [runes]. cbn [rune_ok] in Hu.
    assert (is_ascii a = false) as -> by byte_lia.
    assert (valid2 a b = false) as -> by byte_lia.
    assert (valid3 a b c = false) as -> by byte_lia. by rewrite Hu.
Qed.

(** Induction over the runes of a text. *)
Lemma runes_ind (P : string -> Prop) :
  P "" ->
  (forall u s, rune_ok u = true -> P s -> P (u +:+ s)) ->
  (forall c s, runes (String c s) = None :: runes s -> P s -> P (String c s)) ->
  forall s, P s.
Proof.
  intros H0 Hu Hb s. induction s as [s IH] using (induction_ltof1 _ String.length).
  assert (Hlt : forall c r, s = String c r -> P r) by (intros c r ->; apply IH; unfold ltof; simpl; lia).
  destruct s as [|c1 s1]; [done|]. assert (IHl : forall t, (String.length t <= String.length s1)%nat -> P t)
    by (intros t Ht; apply IH; unfold ltof; simpl; lia).
  pose proof (IHl s1 (le_n _)) as P1.
  destruct (is_ascii c1) eqn:E1; [apply (Hu (String c1 "")); done|].
  destruct s1 as [|c2 s2]; [apply Hb; [simpl; by rewrite E1|done]|].
  destruct (valid2 c1 c2) eqn:E2;
    [apply (Hu (String c1 (String c2 ""))); [done|apply IHl; simpl; lia]|].
  destruct s2 as [|c3 s3]; [apply Hb; [simpl; by rewrite E1, E2|done]|].
  destruct (valid3 c1 c2 c3) eqn:E3;
    [apply (Hu (String c1 (String c2 (String c3 "")))); [done|apply IHl; simpl; lia]|].
  destruct s3 as [|c4 s4]; [apply Hb; [simpl; by rewrite E1, E2, E3|done]|].
  destruct (valid4 c1 c2 c3 c4) eqn:E4;
    [apply (Hu (String c1 (String c2 (String c3 (String c4 ""))))); [done|apply IHl; simpl; lia]|].
  apply Hb; [cbn [runes]; by rewrite E1, E2, E3, E4|done].
Qed.

Lemma valid_utf8_ind (P : string -> Prop) :
  P "" ->
  (forall u s, rune_ok u = true -> valid_utf8 s = true -> P s -> P (u +:+ s)) ->
  forall s, valid_utf8 s = true -> P s.
Proof.
  intros H0 Hu. apply (runes_ind (fun s => valid_utf8 s = true -> P s)); [done| |].
  - intros u s Ho IH. unfold valid_utf8 in *. rewrite runes_step by done. simpl. auto.
  - intros c s E _. unfold valid_utf8. by rewrite E.
Qed.

(** A property of every ASCII character, by computation. *)
Lemma ascii_all (P : ascii -> bool) :
  forallb (fun n => P (chr (Z.of_nat n))) (seq 0 128) = true ->
  forall c, is_ascii c = true -> P c = true.
Proof.
  intros H c Hc. rewrite forallb_forall in H. rewrite <- (chr_byte_of c).
  pose proof (byte_of_range c). unfold is_ascii in Hc. rewrite Z.ltb_lt in Hc.
  rewrite <- (Z2Nat.id (byte_of c)) by lia. apply H. apply in_seq. lia.
Qed.

Lemma chr_case (P : ascii -> Prop) :
  (forall n, (n < 128)%nat -> P (chr (Z.of_nat n))) -> forall c, is_ascii c = true -> P c.
Proof.
  intros H c Hc. rewrite <- (chr_byte_of c).
  pose proof (byte_of_range c). unfold is_ascii in Hc. rewrite Z.ltb_lt in Hc.
  rewrite <- (Z2Nat.id (byte_of c)) by lia. apply H. lia.
Qed.

Definition scan_cons (pre : string) (r : option (string * string)) : option (string * string) :=
  match r with Some (a, b) => Some (pre +:+ a, b) | None => None end.

Lemma scan_plain c s :
  Ascii.eqb c dquote = false -> Ascii.eqb c bslash = false -> 32 <= byte_of c ->
  scan_str (String c s) = scan_cons (String c "") (scan_str s).
Proof. intros H1 H2 H3. simpl. rewrite H1, H2. by rewrite (proj2 (Z.ltb_ge _ _)). Qed.

Lemma scan_high c s : is_ascii c = false ->
  scan_str (String c s) = scan_cons (String c "") (scan_str s).
Proof.
  unfold is_ascii. rewrite Z.ltb_ge. intros H. apply scan_plain; [| |lia];
    apply Ascii.eqb_neq; intros ->; vm_compute in H; done.
Qed.

Lemma scan_cons_app p1 p2 r : scan_cons p1 (scan_cons p2 r) = scan_cons (p1 +:+ p2) r.
Proof. destruct r as [[a b]|]; [|done]. simpl. by rewrite string_app_assoc. Qed.

Lemma esc_rune_spec u : rune_ok u = true ->
  (forall s, scan_str (esc_rune (Some u) +:+ s) = scan_cons (esc_rune (Some u)) (scan_str s)) /\
  (forall s, unquote (runes (esc_rune (Some u) +:+ s)) = u +:+ unquote (runes s)).
Proof.
  intros Hu. destruct u as [|a [|b r]]; [done| |].
  - cbn [rune_ok] in Hu. cbn [esc_rune]. revert a Hu. apply chr_case. intros n Hn.
    do 128 (destruct n as [|n]; [split; intros s; reflexivity|]). lia.
  - cbn [esc_rune]. destruct (String.eqb _ (EncodeRune 8232)) eqn:E8;
      [apply String.eqb_eq in E8; rewrite E8; split; intros s; reflexivity|].
    destruct (String.eqb _ (EncodeRune 8233)) eqn:E9;
      [apply String.eqb_eq in E9; rewrite E9; split; intros s; reflexivity|].
    split; intros s.
    + assert (Hh : is_ascii a = false /\ is_ascii b = false) by (destruct r as [|? [|? [|]]]; split; byte_lia).
      assert (Hr : forall c, r = String c "" -> is_ascii c = false)
        by (intros c ->; byte_lia).
      assert (Hr2 : forall c d, r = String c (String d "") -> is_ascii c = false /\ is_ascii d = false)
        by (intros c d ->; split; byte_lia).
      destruct Hh as [Ha Hb'].
      destruct r as [|c [|d [|]]]; [| | |done]; rewrite !string_app_cons, string_app_nil_l;
        rewrite (scan_high a), (scan_high b) by done.
      * by rewrite scan_cons_app.
      * by rewrite (scan_high c), !scan_cons_app by auto.
      * destruct (Hr2 _ _ eq_refl). by rewrite (scan_high c), (scan_high d), !scan_cons_app by done.
    + rewrite runes_step by done. cbn [unquote].
      destruct (String.eqb_spec (String a (String b r)) (String bslash "")); [done|]. done.
Qed.

Lemma valid_app u s : rune_ok u = true -> valid_utf8 (u +:+ s) = valid_utf8 s.
Proof. intros H. unfold valid_utf8. by rewrite runes_step. Qed.

Definition escaped (s : string) : string := concat_str (map esc_rune (runes s)).

Lemma escaped_app u s : rune_ok u = true -> escaped (u +:+ s) = esc_rune (Some u) +:+ escaped s.
Proof. intros H. unfold escaped. by rewrite runes_step. Qed.

Lemma scan_escaped s rest : valid_utf8 s = true ->
  scan_str (escaped s +:+ String dquote rest) = Some (escaped s, rest).
Proof.
  intros H. revert s H. apply valid_utf8_ind; [done|]. intros u s Hu _ IH.
  rewrite escaped_app, string_app_assoc by done.
  by rewrite (proj1 (esc_rune_spec u Hu)), IH.
Qed.

Lemma unquote_escaped s : valid_utf8 s = true -> unquote (runes (escaped s)) = s.
Proof.
  revert s. apply valid_utf8_ind; [done|]. intros u s Hu _ IH.
  rewrite escaped_app by done. by rewrite (proj2 (esc_rune_spec u Hu)), IH.
Qed.

Lemma scan_quote s rest : valid_utf8 s = true ->
  scan_string_lit (quote s +:+ rest) = Some (s, rest).
Proof.
  intros H. unfold quote, scan_string_lit. rewrite string_app_cons.
  change (Ascii.eqb dquote dquote) with true. cbn iota.
  fold (escaped s). rewrite string_app_assoc. cbn [String.append].
  change (String dquote "" +:+ rest) with (String dquote rest).
  by rewrite scan_escaped, unquote_escaped.
Qed.

(** * Lemmas: values *)

Fixpoint all_digits (s : string) : bool :=
  match s with "" => true | String c s' => is_digit c && all_digits s' end.
Definition uint_lit (s : string) : bool :=
  match s with
  | String c s' => if Ascii.eqb c "0" then String.eqb s' "" else is_digit c && all_digits s'
  | "" => false
  end.
(** An integer literal: the numbers the program's types print. *)
Definition int_lit (s : string) : bool :=
  match s with String "-" s' => uint_lit s' | _ => uint_lit s end.

Fixpoint json_ok (j : json) : bool :=
  match j with
  | JNull | JBool _ => true
  | JNum lit => int_lit lit
  | JStr s => valid_utf8 s
  | JArr l => forallb json_ok l
  | JObj l => forallb (fun kv => valid_utf8 kv.1 && json_ok kv.2) l
  end.

Fixpoint depth (j : json) : nat :=
  match j with
  | JArr l => S (max_list (map depth l))
  | JObj l => S (max_list (map (fun kv => depth kv.2) l))
  | _ => 0
  end.

(** The text after a value does not continue a number. *)
Definition ends (s : string) : bool :=
  match s with
  | "" => true
  | String c _ => negb (is_digit c || Ascii.eqb c "." || Ascii.eqb c "e" || Ascii.eqb c "E")
  end.

Fixpoint json_ind' (P : json -> Prop) (H0 : P JNull) (Hb : forall b, P (JBool b))
    (Hn : forall s, P (JNum s)) (Hs : forall s, P (JStr s))
    (Ha : forall l, Forall P l -> P (JArr l))
    (Ho : forall l, Forall (fun kv => P kv.2) l -> P (JObj l)) (j : json) : P j :=
  let rec := json_ind' P H0 Hb Hn Hs Ha Ho in
  match j with
  | JNull => H0 | JBool b => Hb b | JNum s => Hn s | JStr s => Hs s
  | JArr l => Ha l ((fix go l : Forall P l :=
                       match l with [] => Forall_nil_2 _ | x :: l' => Forall_cons_2 _ _ _ (rec x) (go l') end) l)
  | JObj l => Ho l ((fix go l : Forall (fun kv => P kv.2) l :=
                       match l with [] => Forall_nil_2 _ | x :: l' => Forall_cons_2 _ _ _ (rec x.2) (go l') end) l)
  end.

Lemma span_digits_app s rest :
  all_digits s = true -> (match rest with String c _ => is_digit c = false | _ => True end) ->
  span_digits (s +:+ rest) = (s, rest).
Proof.
  intros Hs Hr. induction s as [|c s IH].
  - rewrite string_app_nil_l. destruct rest as [|c r]; [done|]. simpl. by rewrite Hr.
  - simpl in Hs. apply andb_prop in Hs as [Hc Hs]. rewrite string_app_cons. simpl.
    by rewrite Hc, IH.
Qed.

Lemma ends_inv rest : ends rest = true ->
  match rest with String c _ => is_digit c = false | _ => True end /\
  scan_frac rest = Some ("", rest) /\ scan_exp rest = Some ("", rest).
Proof.
  destruct rest as [|c r]; [done|]. cbn [ends]. rewrite negb_true_iff, !orb_false_iff.
  intros [[[Hd Hp] He] HE]. split; [done|]. split.
  - destruct c as [[] [] [] [] [] [] [] []]; done.
  - cbn [scan_exp]. by rewrite He, HE.
Qed.

Lemma scan_uint_app s rest : uint_lit s = true -> ends rest = true ->
  scan_uint (s +:+ rest) = Some (s, rest).
Proof.
  intros Hs Hr. apply ends_inv in Hr as (Hd & _). destruct s as [|c s]; [done|]. simpl in Hs.
  rewrite string_app_cons. simpl. destruct (Ascii.eqb_spec c "0") as [->|_].
  - by destruct (String.eqb_spec s "") as [->|].
  - apply andb_prop in Hs as [-> Hs]. by rewrite span_digits_app.
Qed.

Lemma scan_number_app s rest : int_lit s = true -> ends rest = true ->
  scan_number (s +:+ rest) = Some (s, rest).
Proof.
  intros Hs Hr. pose proof (ends_inv rest Hr) as (_ & Hf & He).
  assert (Hu : forall s, uint_lit s = true -> match scan_uint (s +:+ rest) with
     | Some (i, s2) => i = s /\ s2 = rest | None => False end)
    by (intros s' Hs'; by rewrite scan_uint_app).
  unfold scan_number. destruct s as [|c s]; [done|]. rewrite string_app_cons.
  destruct (Ascii.eqb_spec c "-") as [->|Hc].
  - specialize (Hu s Hs). destruct (scan_uint _) as [[i s2]|]; [|done].
    destruct Hu as [-> ->]. rewrite Hf, He. cbn iota beta. by autorewrite with strings.
  - assert (Hs' : uint_lit (String c s) = true)
      by (clear -Hs Hc; destruct c as [[] [] [] [] [] [] [] []]; done).
    specialize (Hu _ Hs'). rewrite string_app_cons in Hu.
    assert (E : (let '(sg, s1) := match String c (s +:+ rest) with
                  | String "-" s' => ("-", s') | _ => ("", String c (s +:+ rest)) end in (sg, s1))
                = ("", String c (s +:+ rest)))
      by (clear -Hc; destruct c as [[] [] [] [] [] [] [] []]; done).
    destruct (match String c (s +:+ rest) with
                  | String "-" s' => ("-", s') | _ => ("", String c (s +:+ rest)) end) as [sg s1].
    injection E as -> ->. destruct (scan_uint _) as [[i s2]|]; [|done].
    destruct Hu as [-> ->]. rewrite Hf, He. by autorewrite with strings.
Qed.

Lemma all_digits_fmt fuel z acc : all_digits acc = true -> all_digits (fmt_digits fuel z acc) = true.
Proof.
  revert z acc. induction fuel as [|f IH]; intros z acc Ha; [done|]. cbn [fmt_digits].
  assert (Hd : all_digits (String (digit_char (z mod 10)) acc) = true).
  { cbn [all_digits]. rewrite is_digit_char by (apply Z.mod_pos_bound; lia). done. }
  destruct (z <? 10); auto.
Qed.

Lemma fmt_digits_lead fuel z acc : 0 < z < 10 ^ Z.of_nat fuel ->
  exists c s, fmt_digits fuel z acc = String c s /\ c <> "0"%char.
Proof.
  revert z acc. induction fuel as [|f IH]; intros z acc Hz; [simpl in Hz; lia|]. cbn [fmt_digits].
  rewrite Nat2Z.inj_succ, Z.pow_succ_r in Hz by lia.
  case (Z.ltb_spec z 10); intros H.
  - eexists _, _. split; [done|]. rewrite Z.mod_small by lia. intros E.
    apply (f_equal byte_of) in E. rewrite byte_of_digit in E by lia. change (byte_of "0") with 48 in E. lia.
  - apply IH. split; [apply Z.div_str_pos; lia|apply Z.div_lt_upper_bound; lia].
Qed.

Lemma FormatUint_lit z : is_u64 z -> uint_lit (FormatUint z) = true.
Proof.
  unfold is_u64. intros Hz. destruct (decide (z = 0)) as [->|Hn]; [done|].
  pose proof (all_digits_fmt 20 z "" eq_refl) as Ha. fold (FormatUint z) in Ha.
  destruct (fmt_digits_lead 20 z "") as (c & s & E & Hc); [lia|]. fold (FormatUint z) in E.
  rewrite E in *. unfold uint_lit. destruct (Ascii.eqb_spec c "0"); [done|exact Ha].
Qed.

Lemma uint_int_lit s : uint_lit s = true -> int_lit s = true.
Proof. destruct s as [|c s]; [done|]. intros H. destruct c as [[] [] [] [] [] [] [] []]; done. Qed.

Lemma Itoa_lit z : is_s64 z -> int_lit (Itoa z) = true.
Proof.
  unfold is_s64, Itoa. intros Hz. case (Z.ltb_spec z 0); intros H.
  - apply FormatUint_lit. unfold is_u64. lia.
  - apply uint_int_lit, FormatUint_lit. unfold is_u64. lia.
Qed.

(** A printed value starts with a character that is no space and closes
    nothing. *)
Definition starts (s : string) : Prop :=
  exists c r, s = String c r /\ is_ws c = false /\ c <> "]"%char /\ c <> "}"%char.

Lemma starts_app a b : starts a -> starts (a +:+ b).
Proof. intros (c & r & -> & H). exists c, (r +:+ b). done. Qed.

Lemma starts_skip s : starts s -> skip_ws s = s.
Proof. intros (c & r & -> & H & _). simpl. by rewrite H. Qed.

Lemma int_lit_starts s : int_lit s = true ->
  exists c r, s = String c r /\ (c = "-"%char \/ is_digit c = true).
Proof.
  intros H. destruct s as [|c s]; [done|]. exists c, s. split; [done|].
  destruct c as [[] [] [] [] [] [] [] []]; try done; auto.
Qed.

Lemma quote_starts s : starts (quote s).
Proof. by eexists dquote, _. Qed.

Lemma print_starts j : json_ok j = true -> starts (print j).
Proof.
  destruct j as [|[]|lit|s|l|l]; intros H; try by eexists _, _.
  cbn [print]. destruct (int_lit_starts lit H) as (c & r & -> & [->|Hc]); [by eexists _, _|].
  exists c, r. split; [done|]. destruct c as [[] [] [] [] [] [] [] []]; done.
Qed.

(** The reader of a value on each kind of first character. *)
Lemma parse_number fuel d s rest :
  int_lit s = true -> ends rest = true -> parse_value (S fuel) d (s +:+ rest) = Some (JNum s, rest).
Proof.
  intros Hs Hr. pose proof (scan_number_app s rest Hs Hr) as E.
  destruct (int_lit_starts s Hs) as (c & r & -> & Hc). rewrite string_app_cons in *.
  assert (Hw : is_ws c = false) by (destruct Hc as [->|Hc]; [done|]; destruct c as [[] [] [] [] [] [] [] []]; done).
  cbn [parse_value skip_ws]. rewrite Hw, E.
  destruct Hc as [->|Hc]; [done|]. destruct c as [[] [] [] [] [] [] [] []]; done.
Qed.

Lemma parse_string fuel d s rest :
  valid_utf8 s = true -> parse_value (S fuel) d (quote s +:+ rest) = Some (JStr s, rest).
Proof.
  intros Hs. pose proof (scan_quote s rest Hs) as E.
  unfold quote in E |- *. rewrite string_app_cons in *. cbn [parse_value skip_ws].
  change (is_ws dquote) with false. cbn iota. by rewrite E.
Qed.

Definition reads (j : json) : Prop :=
  forall fuel d rest, json_ok j = true -> ends rest = true -> (2 * String.length (print j) + 1 <= fuel)%nat ->
    d + Z.of_nat (depth j) <= maxNestingDepth -> parse_value fuel d (print j +:+ rest) = Some (j, rest).

Lemma length_pos s : starts s -> (1 <= String.length s)%nat.
Proof. intros (c & r & -> & _). simpl. lia. Qed.

Lemma string_length_cons c s : String.length (String c s) = S (String.length s).
Proof. done. Qed.

Lemma join_cons a b l : join (a :: b :: l) = a +:+ String "," (join (b :: l)).
Proof. done. Qed.

Lemma depth_max d a b m : d + Z.of_nat (a `max` b) <= m -> d + Z.of_nat a <= m /\ d + Z.of_nat b <= m.
Proof. lia. Qed.

Lemma parse_elems_ok l fuel d rest :
  l <> [] -> Forall reads l -> forallb json_ok l = true ->
  (2 * String.length (join (map print l)) + 2 <= fuel)%nat ->
  d + Z.of_nat (max_list (map depth l)) <= maxNestingDepth ->
  parse_elems fuel d (join (map print l) +:+ String "]" rest) = Some (l, rest).
Proof.
  intros Hne Hl. revert fuel. induction Hl as [|j l Hj Hl IH]; intros fuel Hok Hf Hd; [done|].
  simpl in Hok. apply andb_prop in Hok as [Hok1 Hok2]. destruct fuel as [|f]; [lia|].
  change (max_list (map depth (j :: l))) with (Nat.max (depth j) (max_list (map depth l))) in Hd.
  apply depth_max in Hd as [Hd1 Hd2].
  destruct l as [|j2 l].
  - cbn [map join parse_elems] in *. rewrite Hj by (done || lia). done.
  - cbn [map] in Hf |- *. cbn [map] in IH. rewrite join_cons in Hf |- *.
    set (J := join (_ :: _)) in *.
    rewrite string_length_app, string_length_cons in Hf. cbn [parse_elems].
    rewrite string_app_assoc, string_app_cons, Hj by (done || lia). cbn [skip_ws].
    change (is_ws ",") with false. cbn iota. rewrite IH; (done || lia).
Qed.

Lemma parse_members_ok l fuel d rest :
  l <> [] -> Forall (fun kv => reads kv.2) l ->
  forallb (fun kv => valid_utf8 kv.1 && json_ok kv.2) l = true ->
  (2 * String.length (join (map (fun kv => quote kv.1 +:+ String ":" (print kv.2)) l)) + 1 <= fuel)%nat ->
  d + Z.of_nat (max_list (map (fun kv => depth kv.2) l)) <= maxNestingDepth ->
  parse_members fuel d (join (map (fun kv => quote kv.1 +:+ String ":" (print kv.2)) l)
                        +:+ String "}" rest) = Some (l, rest).
Proof.
  intros Hne Hl. revert fuel. induction Hl as [|[k j] l Hj Hl IH]; intros fuel Hok Hf Hd; [done|].
  cbn [forallb fst snd] in Hok. apply andb_prop in Hok as [Hok1 Hok2]. apply andb_prop in Hok1 as [Hk Hok1].
  destruct fuel as [|f]; [lia|]. simpl in Hj.
  assert (Hsk : forall t, skip_ws (quote k +:+ t) = quote k +:+ t).
  { intros t. apply starts_skip, starts_app, quote_starts. }
  change (max_list (map (fun kv => depth kv.2) ((k, j) :: l)))
    with (Nat.max (depth j) (max_list (map (fun kv => depth kv.2) l))) in Hd.
  apply depth_max in Hd as [Hd1 Hd2].
  destruct l as [|kv2 l].
  - cbn [map join parse_members fst snd] in *. rewrite string_length_app, string_length_cons in Hf.
    rewrite string_app_assoc, Hsk, scan_quote, string_app_cons by done. cbn [skip_ws].
    change (is_ws ":") with false. cbn iota. rewrite Hj by (done || lia). done.
  - cbn [map fst snd] in Hf |- *. cbn [map] in IH. rewrite join_cons in Hf |- *.
    set (J := join (_ :: _)) in *.
    rewrite !string_length_app, !string_length_cons in Hf. cbn [parse_members].
    rewrite !string_app_assoc, Hsk, scan_quote, !string_app_cons by done. cbn [skip_ws].
    change (is_ws ":") with false. cbn iota. rewrite Hj by (done || lia).
    cbn [skip_ws]. change (is_ws ",") with false. cbn iota. rewrite IH; (done || lia).
Qed.

Lemma join_starts l x rest : starts x -> starts (join (x :: l) +:+ rest).
Proof. intros H. apply starts_app. destruct l; [done|]. by apply starts_app. Qed.

Lemma print_reads j : reads j.
Proof.
  induction j as [|b|s|s|l IH|l IH] using json_ind'; intros fuel d rest Hok Hr Hf Hd;
    (destruct fuel as [|f]; [lia|]).
  - done.
  - by destruct b.
  - by apply parse_number.
  - by apply parse_string.
  - cbn [print] in Hf |- *. rewrite string_length_cons, string_length_app in Hf. simpl in Hd, Hok.
    rewrite string_app_cons, string_app_assoc. cbn [parse_value skip_ws].
    change (is_ws "[") with false. cbn iota. cbn [Ascii.eqb Bool.eqb].
    rewrite (proj2 (Z.leb_gt _ _)) by lia.
    change ("]" +:+ rest) with (String "]" rest).
    destruct l as [|x l]; [done|].
    assert (Hs : starts (join (map print (x :: l)) +:+ String "]" rest)).
    { apply join_starts, print_starts. simpl in Hok. by apply andb_prop in Hok as [? _]. }
    rewrite (starts_skip _ Hs).
    pose proof (parse_elems_ok (x :: l) f (d + 1) rest) as E.
    destruct Hs as (c & r & Hs & _ & Hc & _). rewrite Hs in E |- *.
    specialize (E ltac:(done) ltac:(done) ltac:(done) ltac:(lia) ltac:(lia)).
    destruct c as [[] [] [] [] [] [] [] []]; try (by rewrite E); by destruct Hc.
  - cbn [print] in Hf |- *. rewrite string_length_cons, string_length_app in Hf. simpl in Hd, Hok.
    rewrite string_app_cons, string_app_assoc. cbn [parse_value skip_ws].
    change (is_ws "{") with false. cbn iota. cbn [Ascii.eqb Bool.eqb].
    rewrite (proj2 (Z.leb_gt _ _)) by lia.
    change ("}" +:+ rest) with (String "}" rest).
    destruct l as [|x l]; [done|].
    assert (Hs : starts (join (map (fun kv => quote kv.1 +:+ String ":" (print kv.2)) (x :: l)) +:+ String "}" rest)).
    { apply (join_starts _ (quote x.1 +:+ _)), starts_app, quote_starts. }
    rewrite (starts_skip _ Hs).
    pose proof (parse_members_ok (x :: l) f (d + 1) rest) as E.
    destruct Hs as (c & r & Hs & _ & _ & Hc). rewrite Hs in E |- *.
    specialize (E ltac:(done) ltac:(done) ltac:(done) ltac:(lia) ltac:(lia)).
    destruct c as [[] [] [] [] [] [] [] []]; try (by rewrite E); by destruct Hc.
Qed.

Lemma Parse_print j : json_ok j = true -> Z.of_nat (depth j) <= maxNestingDepth ->
  Parse (print j) = Some j.
Proof.
  intros Hok Hd. unfold Parse. rewrite <- (string_app_nil_r (print j)) at 2.
  rewrite print_reads; [done|done|done|lia|lia].
Qed.

Lemma ParseFirst_print j rest : json_ok j = true -> Z.of_nat (depth j) <= maxNestingDepth ->
  ends rest = true -> ParseFirst (print j +:+ rest) = Some j.
Proof.
  intros Hok Hd Hr. unfold ParseFirst.
  rewrite print_reads; [done|done|done|rewrite string_length_app; lia|lia].
Qed.

(** * Fuel *)

Abbreviation len := String.length.

Lemma skip_ws_len s : (len (skip_ws s) <= len s)%nat.
Proof. induction s as [|c s IH]; [done|]. simpl. destruct (is_ws c); simpl; lia. Qed.

Lemma scan_str_len s a b : scan_str s = Some (a, b) -> (len b < len s)%nat.
Proof.
  revert a b. induction s as [s IH] using (induction_ltof1 _ String.length). intros a b. unfold ltof in IH.
  destruct s as [|c s1]; [done|]. cbn [scan_str].
  destruct (Ascii.eqb c dquote); [intros [= <- <-]; simpl; lia|].
  assert (Hrec : forall t p, (len t <= len s1)%nat ->
            match scan_str t with Some (x, y) => Some (p +:+ x, y) | None => None end = Some (a, b) ->
            (len b < len (String c s1))%nat).
  { intros t p Ht Hs. destruct (scan_str t) as [[x y]|] eqn:E; [|done]. injection Hs as _ <-.
    apply IH in E; simpl; lia. }
  destruct (Ascii.eqb c bslash).
  - destruct s1 as [|e s2]; [done|]. destruct (simple_escape e); [apply Hrec; simpl; lia|].
    destruct (Ascii.eqb e "u"); [|done]. destruct s2 as [|x1 [|x2 [|x3 [|x4 s6]]]]; try done.
    destruct (_ && _); [|done]. apply Hrec; simpl; lia.
  - destruct (byte_of c <? 32); [done|]. apply Hrec. lia.
Qed.

Lemma scan_string_lit_len s k r : scan_string_lit s = Some (k, r) -> (len r < len s)%nat.
Proof.
  destruct s as [|c s]; [done|]. simpl. destruct (Ascii.eqb c dquote); [|done].
  destruct (scan_str s) as [[a b]|] eqn:E; [|done]. intros [= _ <-]. apply scan_str_len in E. lia.
Qed.

Lemma drop_word_len w s r : drop_word w s = Some r -> (len r <= len s)%nat.
Proof.
  revert s. induction w as [|a w IH]; intros s; simpl; [intros [= ->]; done|].
  destruct s as [|b s]; [done|]. destruct (Ascii.eqb a b); [|done]. intros H%IH. simpl. lia.
Qed.

Lemma span_digits_len s : (len (span_digits s).2 <= len s)%nat.
Proof.
  induction s as [|c s IH]; [done|]. simpl. destruct (is_digit c); [|done].
  destruct (span_digits s). simpl in *. lia.
Qed.

Lemma scan_frac_len s a r : scan_frac s = Some (a, r) -> (len r <= len s)%nat.
Proof.
  unfold scan_frac. destruct s as [|c s]; [by intros [= _ <-]|].
  pose proof (span_digits_len s) as H.
  assert (Hd : forall b, match c with "."%char => b | _ => Some ("", String c s) end = Some (a, r) ->
            b = Some (a, r) \/ Some ("", String c s) = Some (a, r))
    by (intros b; destruct c as [[] [] [] [] [] [] [] []]; auto).
  intros E. apply Hd in E as [E|[= _ <-]]; [|done]. destruct (span_digits s) as [[|x d] r']; [done|].
  injection E as _ <-. simpl in *. lia.
Qed.

Lemma scan_exp_len s a r : scan_exp s = Some (a, r) -> (len r <= len s)%nat.
Proof.
  unfold scan_exp. destruct s as [|c s]; [by intros [= _ <-]|]. destruct (_ || _); [|by intros [= _ <-]].
  assert (H : (len (match s with String g s2 => if Ascii.eqb g "+" || Ascii.eqb g "-" then (String g "", s2)
                     else ("", s) | _ => ("", s) end).2 <= len s)%nat)
    by (destruct s as [|g s2]; [done|]; destruct (_ || _); simpl; lia).
  destruct (match s with String g s2 => _ | _ => _ end) as [sg s2]. simpl in H.
  pose proof (span_digits_len s2) as H2. destruct (span_digits s2) as [[|x d] r']; [done|].
  intros [= _ <-]. simpl in *. lia.
Qed.

Lemma scan_uint_len s a r : scan_uint s = Some (a, r) -> (len r < len s)%nat.
Proof.
  destruct s as [|c s]; [done|]. simpl. pose proof (span_digits_len s).
  destruct (Ascii.eqb c "0"); [intros [= _ <-]; lia|]. destruct (is_digit c); [|done].
  destruct (span_digits s). intros [= _ <-]. simpl in *. lia.
Qed.

Lemma scan_number_len s a r : scan_number s = Some (a, r) -> (len r < len s)%nat.
Proof.
  unfold scan_number.
  assert (H : (len (match s with String "-" s' => ("-", s') | _ => ("", s) end).2 <= len s)%nat)
    by (destruct s as [|[[] [] [] [] [] [] [] []] ?]; simpl; lia).
  destruct (match s with String "-" s' => _ | _ => _ end) as [sg s1]. simpl in H.
  destruct (scan_uint s1) as [[i s2]|] eqn:E1; [|done].
  destruct (scan_frac s2) as [[f s3]|] eqn:E2; [|done].
  destruct (scan_exp s3) as [[e s4]|] eqn:E3; [|done]. intros [= _ <-].
  apply scan_uint_len in E1. apply scan_frac_len in E2. apply scan_exp_len in E3. lia.
Qed.

(** The three readers consume something. *)
Definition shrinks {A} (p : string -> option (A * string)) : Prop :=
  forall s a r, p s = Some (a, r) -> (len r < len s)%nat.


Ltac ascii_cases c := destruct c as [[] [] [] [] [] [] [] []].

(** One layer of each reader, with the inner readers as arguments. *)
Definition value_step (mem : string -> option (list (string * json) * string))
    (els : string -> option (list json * string)) (depth : Z) (s0 : string) : option (json * string) :=
  match skip_ws s0 with
  | "" => None
  | String c s =>
      if Ascii.eqb c "{" then
        if maxNestingDepth <=? depth then None
        else match skip_ws s with
             | String "}" r => Some (JObj [], r)
             | s1 => match mem s1 with Some (l, r) => Some (JObj l, r) | None => None end
             end
      else if Ascii.eqb c "[" then
        if maxNestingDepth <=? depth then None
        else match skip_ws s with
             | String "]" r => Some (JArr [], r)
             | s1 => match els s1 with Some (l, r) => Some (JArr l, r) | None => None end
             end
      else if Ascii.eqb c dquote then
        match scan_string_lit (String c s) with Some (v, r) => Some (JStr v, r) | None => None end
      else if Ascii.eqb c "n" then
        match drop_word "ull" s with Some r => Some (JNull, r) | None => None end
      else if Ascii.eqb c "t" then
        match drop_word "rue" s with Some r => Some (JBool true, r) | None => None end
      else if Ascii.eqb c "f" then
        match drop_word "alse" s with Some r => Some (JBool false, r) | None => None end
      else match scan_number (String c s) with Some (lit, r) => Some (JNum lit, r) | None => None end
  end.

Lemma value_step_len mem els d s a r :
  shrinks mem -> shrinks els -> value_step mem els d s = Some (a, r) -> (len r < len s)%nat.
Proof.
  intros Hm He. unfold value_step. pose proof (skip_ws_len s) as Hs.
  destruct (skip_ws s) as [|c t]; [done|]. simpl in Hs. pose proof (skip_ws_len t) as Ht.
  destruct (Ascii.eqb c "{").
  { destruct (_ <=? d); [done|]. revert Ht. destruct (skip_ws t) as [|x t']; intros Ht.
    - destruct (mem "") as [[l r']|] eqn:E; [|done]. intros [= _ <-]. apply Hm in E. simpl in *. lia.
    - destruct (mem (String x t')) as [[l r']|] eqn:E; [pose proof (Hm _ _ _ E)|];
        ascii_cases x; intros H1; rewrite ?E in H1; simplify_eq; simpl in *; lia. }
  destruct (Ascii.eqb c "[").
  { destruct (_ <=? d); [done|]. revert Ht. destruct (skip_ws t) as [|x t']; intros Ht.
    - destruct (els "") as [[l r']|] eqn:E; [|done]. intros [= _ <-]. apply He in E. simpl in *. lia.
    - destruct (els (String x t')) as [[l r']|] eqn:E; [pose proof (He _ _ _ E)|];
        ascii_cases x; intros H1; rewrite ?E in H1; simplify_eq; simpl in *; lia. }
  destruct (Ascii.eqb c dquote).
  { destruct (scan_string_lit _) as [[v r']|] eqn:E; [|done]. intros [= _ <-].
    apply scan_string_lit_len in E. simpl in *. lia. }
  destruct (Ascii.eqb c "n"); [|destruct (Ascii.eqb c "t"); [|destruct (Ascii.eqb c "f")]].
  1-3: destruct (drop_word _ t) eqn:E; [|done]; intros [= _ <-]; apply drop_word_len in E; lia.
  destruct (scan_number _) as [[v r']|] eqn:E; [|done]. intros [= _ <-].
  apply scan_number_len in E. simpl in *. lia.
Qed.

Lemma value_step_ext mem1 mem2 els1 els2 d s :
  (forall t, (len t < len s)%nat -> mem1 t = mem2 t /\ els1 t = els2 t) ->
  value_step mem1 els1 d s = value_step mem2 els2 d s.
Proof.
  intros H. unfold value_step. pose proof (skip_ws_len s) as Hs.
  destruct (skip_ws s) as [|c t]; [done|]. simpl in Hs. pose proof (skip_ws_len t) as Ht.
  destruct (H (skip_ws t)) as [Hm He]; [lia|]. revert Hm He.
  destruct (skip_ws t) as [|x t']; [by intros -> ->|].
  ascii_cases x; intros Hm He; rewrite ?Hm, ?He; reflexivity.
Qed.

Definition members_step (val : string -> option (json * string))
    (mem : string -> option (list (string * json) * string)) (s0 : string) :=
  match scan_string_lit (skip_ws s0) with
  | None => None
  | Some (k, s1) =>
      match skip_ws s1 with
      | String ":" s2 =>
          match val s2 with
          | None => None
          | Some (v, s3) =>
              match skip_ws s3 with
              | String "}" r => Some ([(k, v)], r)
              | String "," s4 =>
                  match mem s4 with Some (l, r) => Some ((k, v) :: l, r) | None => None end
              | _ => None
              end
          end
      | _ => None
      end
  end.

Lemma members_step_len val mem s a r :
  shrinks val -> shrinks mem -> members_step val mem s = Some (a, r) -> (len r < len s)%nat.
Proof.
  intros Hv Hm. unfold members_step. pose proof (skip_ws_len s) as Hs.
  destruct (scan_string_lit (skip_ws s)) as [[k s1]|] eqn:E1; [|done]. apply scan_string_lit_len in E1.
  pose proof (skip_ws_len s1) as Hs1. destruct (skip_ws s1) as [|c s2]; [done|].
  destruct (Ascii.eqb_spec c ":") as [->|Hc]; [|ascii_cases c; done].
  destruct (val s2) as [[v s3]|] eqn:E2; [|done]. apply Hv in E2.
  pose proof (skip_ws_len s3) as Hs3. destruct (skip_ws s3) as [|c s4]; [done|]. simpl in *.
  destruct (Ascii.eqb_spec c "}") as [->|Hc1]; [intros [= _ <-]; lia|].
  destruct (Ascii.eqb_spec c ",") as [->|Hc2]; [|ascii_cases c; done].
  destruct (mem s4) as [[l r']|] eqn:E3; [|done]. intros [= _ <-]. apply Hm in E3. lia.
Qed.

Lemma members_step_ext val1 val2 mem1 mem2 s :
  shrinks val1 ->
  (forall t, (len t < len s)%nat -> val1 t = val2 t /\ mem1 t = mem2 t) ->
  members_step val1 mem1 s = members_step val2 mem2 s.
Proof.
  intros Hv H. unfold members_step. pose proof (skip_ws_len s) as Hs.
  destruct (scan_string_lit (skip_ws s)) as [[k s1]|] eqn:E1; [|done]. apply scan_string_lit_len in E1.
  pose proof (skip_ws_len s1) as Hs1. destruct (skip_ws s1) as [|c s2]; [done|]. simpl in Hs1.
  destruct (H s2) as [<- _]; [lia|].
  destruct (val1 s2) as [[v s3]|] eqn:E2; [|done]. apply Hv in E2.
  pose proof (skip_ws_len s3) as Hs3. destruct (skip_ws s3) as [|c' s4]; [done|]. simpl in *.
  destruct (H s4) as [_ ->]; [lia|]. done.
Qed.

Definition elems_step (val : string -> option (json * string))
    (els : string -> option (list json * string)) (s0 : string) :=
  match val s0 with
  | None => None
  | Some (v, s3) =>
      match skip_ws s3 with
      | String "]" r => Some ([v], r)
      | String "," s4 => match els s4 with Some (l, r) => Some (v :: l, r) | None => None end
      | _ => None
      end
  end.

Lemma elems_step_len val els s a r :
  shrinks val -> shrinks els -> elems_step val els s = Some (a, r) -> (len r < len s)%nat.
Proof.
  intros Hv Hm. unfold elems_step. destruct (val s) as [[v s3]|] eqn:E2; [|done]. apply Hv in E2.
  pose proof (skip_ws_len s3) as Hs3. destruct (skip_ws s3) as [|c s4]; [done|]. simpl in *.
  destruct (Ascii.eqb_spec c "]") as [->|Hc1]; [intros [= _ <-]; lia|].
  destruct (Ascii.eqb_spec c ",") as [->|Hc2]; [|ascii_cases c; done].
  destruct (els s4) as [[l r']|] eqn:E3; [|done]. intros [= _ <-]. apply Hm in E3. lia.
Qed.

Lemma elems_step_ext val1 val2 els1 els2 s :
  shrinks val1 -> val1 s = val2 s ->
  (forall t, (len t < len s)%nat -> els1 t = els2 t) ->
  elems_step val1 els1 s = elems_step val2 els2 s.
Proof.
  intros Hv Hs H. unfold elems_step. rewrite <- Hs. destruct (val1 s) as [[v s3]|] eqn:E2; [|done].
  apply Hv in E2. pose proof (skip_ws_len s3) as Hs3. destruct (skip_ws s3) as [|c s4]; [done|].
  simpl in *. rewrite (H s4) by lia. done.
Qed.

Lemma parse_len f d :
  shrinks (parse_value f d) /\ shrinks (parse_members f d) /\ shrinks (parse_elems f d).
Proof.
  revert d. induction f as [|f IH]; intros d; [done|]. split; [|split].
  - intros s a r H. change (value_step (parse_members f (d + 1)) (parse_elems f (d + 1)) d s = Some (a, r)) in H.
    eapply value_step_len; [| |exact H]; apply IH.
  - intros s a r H. change (members_step (parse_value f d) (parse_members f d) s = Some (a, r)) in H.
    eapply members_step_len; [| |exact H]; apply IH.
  - intros s a r H. change (elems_step (parse_value f d) (parse_elems f d) s = Some (a, r)) in H.
    eapply elems_step_len; [| |exact H]; apply IH.
Qed.

(** More fuel than two units a character changes nothing. *)
Lemma parse_fuel f1 f2 d s :
  ((2 * len s + 1 <= f1)%nat -> (2 * len s + 1 <= f2)%nat ->
     parse_value f1 d s = parse_value f2 d s /\ parse_members f1 d s = parse_members f2 d s) /\
  ((2 * len s + 2 <= f1)%nat -> (2 * len s + 2 <= f2)%nat -> parse_elems f1 d s = parse_elems f2 d s).
Proof.
  revert f2 d s. induction f1 as [|f1 IH]; intros f2 d s; [split; lia|].
  destruct f2 as [|f2]; [split; lia|]. split; intros H1 H2; [split|].
  - change (value_step (parse_members f1 (d + 1)) (parse_elems f1 (d + 1)) d s =
            value_step (parse_members f2 (d + 1)) (parse_elems f2 (d + 1)) d s).
    apply value_step_ext. intros t Ht. split; [apply IH; lia|]. apply IH; lia.
  - change (members_step (parse_value f1 d) (parse_members f1 d) s =
            members_step (parse_value f2 d) (parse_members f2 d) s).
    apply members_step_ext; [apply parse_len|]. intros t Ht. apply IH; lia.
  - change (elems_step (parse_value f1 d) (parse_elems f1 d) s =
            elems_step (parse_value f2 d) (parse_elems f2 d) s).
    apply elems_step_ext; [apply parse_len|apply IH; lia|]. intros t Ht. apply IH; lia.
Qed.
