(* ===== verification/Codec.v ===== *)
(** How Go's [encoding/json] maps the program's data to values: a class of
    codecs with the round-trip law, the codecs of the basic types, of maps with
    integer keys, and of structs described field by field.  [Unmarshal] decodes
    into an existing variable, so decoding takes the value already there. *)
From S2P Require Import Prelude GoText Json.

Class JsonCodec (A : Type) := {
  json_of : A -> json;
  json_into : json -> A -> option A;
  zero : A;
  json_fits : A -> Prop;
  json_norm : A -> A;
  json_depth : nat
}.

(** A value that fits prints as valid JSON of bounded nesting, and decoding it
    into a zero variable gives it back, [json_norm] being what JSON carries of
    it: all, except for struct fields with the tag "-". *)
Class CodecLaws (A : Type) `{JsonCodec A} := {
  codec_ok a : json_fits a -> json_ok (json_of a) = true;
  codec_depth a : (depth (json_of a) <= json_depth (A := A))%nat;
  codec_into a : json_fits a -> json_into (json_of a) zero = Some (json_norm a)
}.

(** [json.Marshal] and [json.Unmarshal]. *)
Definition Marshal {A} `{JsonCodec A} (a : A) : string := print (json_of a).
Definition Unmarshal {A} `{JsonCodec A} (s : string) (a : A) : A + error :=
  match Parse s with
  | Some j => match json_into j a with Some a' => inl a' | None => inr ErrJSON end
  | None => inr ErrJSON
  end.
(** [json.NewDecoder(r).Decode]. *)
Definition Decode {A} `{JsonCodec A} (s : string) (a : A) : A + error :=
  match ParseFirst s with
  | Some j => match json_into j a with Some a' => inl a' | None => inr ErrJSON end
  | None => inr ErrJSON
  end.

Lemma Unmarshal_Marshal {A} `{CodecLaws A} (a : A) :
  json_fits a -> (json_depth (A := A) <= 100)%nat -> Unmarshal (Marshal a) zero = inl (json_norm a).
Proof.
  intros Ha Hd. unfold Unmarshal, Marshal. pose proof (codec_depth a).
  rewrite Parse_print; [by rewrite codec_into|by apply codec_ok|unfold maxNestingDepth; lia].
Qed.

Lemma Decode_Marshal {A} `{CodecLaws A} (a : A) rest :
  json_fits a -> (json_depth (A := A) <= 100)%nat -> ends rest = true ->
  Decode (Marshal a +:+ rest) zero = inl (json_norm a).
Proof.
  intros Ha Hd Hr. unfold Decode, Marshal. pose proof (codec_depth a).
  rewrite ParseFirst_print; [by rewrite codec_into|by apply codec_ok|unfold maxNestingDepth; lia|done].
Qed.

(** * Basic types: [null] leaves the variable as it is. *)

#[export] Instance string_codec : JsonCodec string := {
  json_of := JStr;
  json_into j a := match j with JStr s => Some s | JNull => Some a | _ => None end;
  zero := "";
  json_fits s := valid_utf8 s = true;
  json_norm := id;
  json_depth := 0
}.
#[export] Instance string_laws : CodecLaws string.
Proof. split; done. Qed.

#[export] Instance bool_codec : JsonCodec bool := {
  json_of := JBool;
  json_into j a := match j with JBool b => Some b | JNull => Some a | _ => None end;
  zero := false;
  json_fits _ := True;
  json_norm := id;
  json_depth := 0
}.
#[export] Instance bool_laws : CodecLaws bool.
Proof. split; done. Qed.

(** Go's [int] and [int64]. *)
#[export] Instance int_codec : JsonCodec Z := {
  json_of z := JNum (Itoa z);
  json_into j a := match j with
                   | JNum lit => match ParseInt lit with (z, None) => Some z | _ => None end
                   | JNull => Some a | _ => None end;
  zero := 0;
  json_fits z := is_s64 z;
  json_norm := id;
  json_depth := 0
}.
#[export] Instance int_laws : CodecLaws Z.
Proof.
  split; [intros z; apply Itoa_lit|done|]. intros z Hz. simpl.
  pose proof (Atoi_Itoa z Hz) as E. unfold Atoi in E. by rewrite E.
Qed.

(** [uint64], in a type of its own. *)
Record uint64 := U64 { uint64_val : Z }.
#[export] Instance uint64_eq_dec : EqDecision uint64.
Proof. solve_decision. Defined.
#[export] Instance uint64_codec : JsonCodec uint64 := {
  json_of u := JNum (FormatUint (uint64_val u));
  json_into j a := match j with
                   | JNum lit => match ParseUint lit with (z, None) => Some (U64 z) | _ => None end
                   | JNull => Some a | _ => None end;
  zero := U64 0;
  json_fits u := is_u64 (uint64_val u);
  json_norm := id;
  json_depth := 0
}.
#[export] Instance uint64_laws : CodecLaws uint64.
Proof.
  split; [intros [z] Hz; apply uint_int_lit, FormatUint_lit, Hz|done|]. intros [z] Hz. simpl in *.
  by rewrite ParseUint_FormatUint.
Qed.

(** * Lists: an array replaces the slice, [null] empties it.  Nil and empty
    slices are one value here and print as an array. *)
Definition list_json_into {A} `{JsonCodec A} (l : list json) : option (list A) :=
  mapM (fun j => json_into j zero) l.
#[export] Instance list_codec A `{JsonCodec A} : JsonCodec (list A) := {
  json_of l := JArr (map json_of l);
  json_into j a := match j with
                   | JArr l => list_json_into l
                   | JNull => Some [] | _ => None end;
  zero := [];
  json_fits l := Forall json_fits l;
  json_norm := map json_norm;
  json_depth := S (json_depth (A := A))
}.

Lemma max_list_bound l n : Forall (fun x => (x <= n)%nat) l -> (max_list l <= n)%nat.
Proof. induction 1 as [|x l Hx _ IH]; [apply Nat.le_0_l|]. change (max_list (x :: l)) with (x `max` max_list l)%nat. lia. Qed.

#[export] Instance list_laws A `{CodecLaws A} : CodecLaws (list A).
Proof.
  split.
  - intros l Hl. simpl. induction Hl as [|x l Hx Hl IH]; [done|]. simpl.
    by rewrite (codec_ok x Hx), IH.
  - intros l. simpl. apply le_n_S, max_list_bound. rewrite !Forall_fmap. apply Forall_forall.
    intros x _. apply codec_depth.
  - intros l Hl. simpl. unfold list_json_into. induction Hl as [|x l Hx Hl IH]; [done|].
    simpl. by rewrite (codec_into x Hx), IH.
Qed.

(** * Maps with uint64 keys

    The keys print in the order of their decimal text; each pair read is put
    in the map that is there, its value decoded from zero. *)
Definition key_le (a b : string * json) : Prop := String.leb a.1 b.1 = true.
#[export] Instance key_le_dec : RelDecision key_le.
Proof. intros a b. unfold key_le. apply _. Defined.

Definition map_into {A} `{JsonCodec A} (l : list (string * json)) (m : gmap Z A) : option (gmap Z A) :=
  foldl (fun acc kv =>
    match acc with
    | None => None
    | Some m =>
        match json_into kv.2 zero, ParseUint kv.1 with
        | Some a, (k, None) => Some (<[k := a]> m)
        | _, _ => None
        end
    end) (Some m) l.

#[export] Instance map_codec A `{JsonCodec A} : JsonCodec (gmap Z A) := {
  json_of m := JObj (merge_sort key_le (map (fun kv => (FormatUint kv.1, json_of kv.2)) (map_to_list m)));
  json_into j m := match j with JObj l => map_into l m | JNull => Some ∅ | _ => None end;
  zero := ∅;
  json_fits m := map_Forall (fun k a => is_u64 k /\ json_fits a) m;
  json_norm m := json_norm <$> m;
  json_depth := S (json_depth (A := A))
}.

Lemma digits_utf8 s : all_digits s = true -> valid_utf8 s = true.
Proof.
  induction s as [|c s IH]; [done|]. simpl. intros [Hc Hs]%andb_prop.
  change (String c s) with (String c "" +:+ s). rewrite valid_app; [auto|].
  unfold is_digit in Hc. cbn [rune_ok]. unfold is_ascii. lia.
Qed.

Lemma FormatUint_utf8 z : valid_utf8 (FormatUint z) = true.
Proof. apply digits_utf8, all_digits_fmt. done. Qed.

Lemma map_into_pairs {A} `{CodecLaws A} (l : list (Z * A)) (pairs : list (string * json)) (m : gmap Z A) :
  Forall (fun kv => is_u64 kv.1 /\ json_fits kv.2) l -> NoDup l.*1 ->
  pairs ≡ₚ map (fun kv => (FormatUint kv.1, json_of kv.2)) l ->
  (forall k, k ∈ l.*1 -> m !! k = None) ->
  map_into pairs m = Some ((json_norm <$> list_to_map l) ∪ m).
Proof.
  revert l m. induction pairs as [|p pairs IH]; intros l m Hl Hn Hp Hm.
  { apply Permutation_nil, map_eq_nil in Hp as ->. simpl. by rewrite fmap_empty, (left_id_L ∅ (∪)). }
  assert (Hin : p ∈ map (fun kv => (FormatUint kv.1, json_of kv.2)) l) by (rewrite <- Hp; left).
  apply list_elem_of_fmap in Hin as ([k a] & -> & Hin). simpl in Hp |- *.
  apply list_elem_of_split in Hin as (l1 & l2 & ->).
  pose proof Hl as Hka. rewrite Forall_app, Forall_cons in Hka. destruct Hka as (_ & [Hk Ha] & _). simpl in Hk, Ha.
  unfold map_into. simpl. rewrite (codec_into a Ha), ParseUint_FormatUint by done.
  fold (map_into (A := A) pairs (<[k := json_norm a]> m)).
  rewrite fmap_app, fmap_cons in Hn. simpl in Hn.
  apply NoDup_app in Hn as (Hn1 & Hd & Hn2). apply NoDup_cons in Hn2 as [Hk2 Hn2].
  rewrite (IH (l1 ++ l2)).
  - f_equal. rewrite !list_to_map_app. simpl. apply map_eq. intros i.
    destruct (decide (i = k)) as [->|Hik].
    + assert (E1 : (list_to_map l1 : gmap Z A) !! k = None)
        by (apply not_elem_of_list_to_map; intros X; apply (Hd k); [done|left]).
      assert (E2 : (list_to_map l2 : gmap Z A) !! k = None) by (by apply not_elem_of_list_to_map).
      rewrite !lookup_union, !lookup_fmap, !lookup_union, lookup_insert_eq, E1, E2. simpl.
      rewrite lookup_insert_eq. by destruct (m !! k).
    + rewrite !lookup_union, !lookup_fmap, !lookup_union, !lookup_insert_ne by done. done.
  - apply Forall_app in Hl as [? Hl]. apply Forall_cons in Hl as [_ ?]. by apply Forall_app.
  - rewrite fmap_app. apply NoDup_app. split_and!; [done| |done]. intros x Hx Hx2. apply (Hd x); [done|by right].
  - apply (Permutation_cons_inv (a := (FormatUint k, json_of a))). rewrite Hp, !map_app. simpl.
    by rewrite Permutation_middle.
  - intros k' Hk'. rewrite lookup_insert_ne.
    + apply Hm. rewrite fmap_app, fmap_cons in *. rewrite elem_of_app, elem_of_cons in *. tauto.
    + intros <-. rewrite fmap_app, elem_of_app in Hk'. destruct Hk' as [Hk'|Hk']; [|done].
      apply (Hd k); [done|left].
Qed.

#[export] Instance map_laws A `{CodecLaws A} : CodecLaws (gmap Z A).
Proof.
  split.
  - intros m Hm. simpl. apply forallb_forall. intros kv Hkv. apply list_elem_of_In in Hkv.
    rewrite merge_sort_Permutation in Hkv. apply list_elem_of_fmap in Hkv as ([k a] & -> & Hka).
    apply elem_of_map_to_list in Hka. destruct (Hm k a Hka) as [_ Ha]. simpl.
    by rewrite FormatUint_utf8, codec_ok.
  - intros m. simpl. apply le_n_S, max_list_bound. apply Forall_forall. intros n Hn.
    apply list_elem_of_fmap in Hn as (kv & -> & Hkv). rewrite merge_sort_Permutation in Hkv.
    apply list_elem_of_fmap in Hkv as ([k a] & -> & _). apply codec_depth.
  - intros m Hm. simpl. rewrite (map_into_pairs (map_to_list m)).
    + by rewrite list_to_map_to_list, (right_id_L ∅ (∪)).
    + apply Forall_forall. intros [k a] Hka%elem_of_map_to_list. by apply (Hm k a).
    + apply NoDup_fst_map_to_list.
    + apply merge_sort_Permutation.
    + intros k _. apply lookup_empty.
Qed.

(** A map variable that may be nil prints as [null] when it is. *)
#[export] Instance nil_map_codec A `{JsonCodec A} : JsonCodec (option (gmap Z A)) := {
  json_of m := match m with Some m => json_of m | None => JNull end;
  json_into j m := match j with
                   | JObj l => match map_into l (default ∅ m) with Some m => Some (Some m) | None => None end
                   | JNull => Some None | _ => None end;
  zero := None;
  json_fits m := match m with Some m => json_fits m | None => True end;
  json_norm m := match m with Some m => Some (json_norm m) | None => None end;
  json_depth := S (json_depth (A := A))
}.
#[export] Instance nil_map_laws A `{CodecLaws A} : CodecLaws (option (gmap Z A)).
Proof.
  split.
  - intros [m|] Hm; [exact (codec_ok (A := gmap Z A) m Hm)|done].
  - intros [m|]; [exact (codec_depth (A := gmap Z A) m)|simpl; lia].
  - intros [m|] Hm; [|done]. pose proof (codec_into (A := gmap Z A) m Hm) as E. simpl in *. by rewrite E.
Qed.

(** * Structs

    Field names match exactly or up to case, in Go's folding of runes: beside
    ASCII letters, U+017F folds to S and U+212A to K. *)
Definition fold_unit (u : option string) : string :=
  match u with
  | None => ""
  | Some (String c "") => String (if between 97 122 c then chr (byte_of c - 32) else c) ""
  | Some u => if String.eqb u (EncodeRune 383) then "S"
              else if String.eqb u (EncodeRune 8490) then "K" else u
  end.
Definition fold_name (s : string) : string := concat_str (map fold_unit (runes s)).

Record field (A : Type) := mkField {
  fname : string;
  fget : A -> json;
  finto : json -> A -> option A
}.
Arguments mkField {A} fname fget finto.
Arguments fname {A} f.
Arguments fget {A} f.
Arguments finto {A} f.

(** A field of type [B] given by its accessor and update. *)
Definition jfield {A B} `{JsonCodec B} (name : string) (get : A -> B) (set : B -> A -> A) : field A :=
  mkField name (fun a => json_of (get a))
    (fun j a => match json_into j (get a) with Some b => Some (set b a) | None => None end).

(** A field that is a pointer: [null] makes it nil, any other value is decoded
    into what it points to, a new zero value if it is nil. *)
Definition ptr_into {B} `{JsonCodec B} (j : json) (p : option B) : option (option B) :=
  match j with
  | JNull => Some None
  | _ => match json_into j (default zero p) with Some b => Some (Some b) | None => None end
  end.
Definition pfield {A B} `{JsonCodec B} (name : string) (get : A -> option B) (set : option B -> A -> A) : field A :=
  mkField name (fun a => match get a with Some b => json_of b | None => JNull end)
    (fun j a => match ptr_into j (get a) with Some b => Some (set b a) | None => None end).

(** Its member with [omitempty], and what it must satisfy to be carried. *)
Definition opt_member {B} `{JsonCodec B} (name : string) (p : option B) : list (string * json) :=
  match p with Some b => [(name, json_of b)] | None => [] end.
Definition opt_fits {B} `{JsonCodec B} (p : option B) : Prop :=
  match p with Some b => json_fits b /\ json_norm b = b /\ json_of b <> JNull | None => True end.

Lemma opt_member_ok {B} `{CodecLaws B} name (p : option B) :
  valid_utf8 name = true -> opt_fits p ->
  forallb (fun kv => valid_utf8 kv.1 && json_ok kv.2) (opt_member name p) = true.
Proof. intros Hn. destruct p as [b|]; [|done]. intros (Hb & _). simpl. by rewrite Hn, codec_ok. Qed.

Lemma ptr_into_ok {B} `{CodecLaws B} (b : B) (p : option B) :
  opt_fits (Some b) -> p = None -> ptr_into (json_of b) p = Some (Some b).
Proof.
  intros (Hb & Hn & Hj) ->. unfold ptr_into. cbn. rewrite codec_into, Hn by done.
  by destruct (json_of b).
Qed.

Definition find_field {A} (fs : list (field A)) (k : string) : option (field A) :=
  snd <$> list_find (fun f => fold_name (fname f) = fold_name k) fs.

Definition struct_json {A} (fs : list (field A)) (a : A) : json :=
  JObj (map (fun f => (fname f, fget f a)) fs).

Definition obj_into {A} (fs : list (field A)) (l : list (string * json)) (a : A) : option A :=
  foldl (fun acc kv =>
    match acc with
    | None => None
    | Some a => match find_field fs kv.1 with Some f => finto f kv.2 a | None => Some a end
    end) (Some a) l.

Definition struct_into {A} (fs : list (field A)) (j : json) (a : A) : option A :=
  match j with
  | JNull => Some a
  | JObj l => obj_into fs l a
  | _ => None
  end.

(** What every field's decoder keeps, decoding the struct keeps. *)
Lemma struct_into_inv {A} (P : A -> Prop) (fs : list (field A)) j a b :
  Forall (fun f => forall j a b, P a -> finto f j a = Some b -> P b) fs -> P a -> struct_into fs j a = Some b -> P b.
Proof.
  intros Hfs. rewrite Forall_forall in Hfs. destruct j as [| | | | |l]; simpl; try done.
  - by intros Ha [= <-].
  - unfold obj_into. revert a. induction l as [|[k v] l IH]; intros a Ha; simpl; [by intros [= <-]|].
    unfold find_field. destruct (list_find _ fs) as [[i f]|] eqn:E; simpl; [|by apply IH].
    apply list_find_Some in E as (Hi & _). destruct (finto f v a) as [a'|] eqn:Ef.
    + apply IH. apply (Hfs f (list_elem_of_lookup_2 _ _ _ Hi) v a a' Ha Ef).
    + clear. intros H. exfalso. revert H. by induction l.
Qed.

(** The printed fields meet their own decoders, one after the other. *)
Fixpoint decode_fields {A} (fs : list (field A)) (a z : A) : option A :=
  match fs with
  | [] => Some z
  | f :: fs' => match finto f (fget f a) z with Some z' => decode_fields fs' a z' | None => None end
  end.

Lemma obj_into_none {A} (fs : list (field A)) l :
  foldl (fun acc kv => match acc with
     | None => None
     | Some a => match find_field fs kv.1 with Some f => finto f kv.2 a | None => Some a end
     end) None l = None.
Proof. by induction l. Qed.

Definition distinct_names {A} (fs : list (field A)) : bool :=
  bool_decide (NoDup (map (fun f => fold_name (fname f)) fs)).

Lemma find_field_self {A} (fs : list (field A)) i f :
  distinct_names fs = true -> fs !! i = Some f -> find_field fs (fname f) = Some f.
Proof.
  unfold distinct_names. rewrite bool_decide_eq_true. intros Hn Hi. unfold find_field.
  assert (E : list_find (fun g => fold_name (fname g) = fold_name (fname f)) fs = Some (i, f)).
  { apply list_find_Some. split_and!; [done|done|]. intros j g Hg Hj E.
    assert (j = i); [|lia]. eapply (NoDup_lookup _ j i _ Hn); rewrite list_lookup_fmap, ?Hg, ?Hi; simpl; [by rewrite E|done]. }
  by rewrite E.
Qed.

Lemma struct_into_decode {A} (fs : list (field A)) (a z : A) :
  distinct_names fs = true -> struct_into fs (struct_json fs a) z = decode_fields fs a z.
Proof.
  intros Hn. unfold struct_into, struct_json, obj_into.
  assert (H : forall pre l z, fs = pre ++ l ->
    foldl (fun acc kv => match acc with
       | None => None
       | Some a => match find_field fs kv.1 with Some f => finto f kv.2 a | None => Some a end
       end) (Some z) (map (fun f => (fname f, fget f a)) l) = decode_fields l a z).
  { intros pre l. revert pre. induction l as [|f l IH]; intros pre z' E; [done|].
    cbn [map foldl decode_fields fst snd].
    rewrite (find_field_self fs (length pre) f Hn) by (rewrite E; by apply list_lookup_middle).
    destruct (finto f (fget f a) z'); [|apply obj_into_none]. apply (IH (pre ++ [f])).
    by rewrite <- app_assoc. }
  by apply (H []).
Qed.

(** One field: its variable still has the zero value. *)
Lemma decode_step {A B} `{CodecLaws B} k (get : A -> B) (set : B -> A -> A) fs a z r :
  get z = zero -> json_fits (get a) -> decode_fields fs a (set (json_norm (get a)) z) = r ->
  decode_fields (jfield k get set :: fs) a z = r.
Proof.
  intros Hz Hf Hr. cbn [decode_fields jfield fget finto]. by rewrite Hz, codec_into.
Qed.

Lemma struct_ok {A} (fs : list (field A)) a :
  Forall (fun f => valid_utf8 (fname f) = true /\ json_ok (fget f a) = true) fs ->
  json_ok (struct_json fs a) = true.
Proof.
  intros H. simpl. induction H as [|f fs [H1 H2] _ IH]; [done|]. simpl. by rewrite H1, H2, IH.
Qed.

Lemma struct_depth {A} (fs : list (field A)) a n :
  Forall (fun f => (depth (fget f a) <= n)%nat) fs -> (depth (struct_json fs a) <= S n)%nat.
Proof.
  intros H. simpl. apply le_n_S, max_list_bound. rewrite map_map. simpl. by rewrite Forall_fmap.
Qed.

(** Where JSON carries everything. *)
Lemma norm_map_id {A} `{JsonCodec A} (m : gmap Z A) :
  (forall a : A, json_norm a = a) -> json_norm m = m.
Proof.
  intros Hn. apply map_eq. intros k. simpl. rewrite lookup_fmap.
  destruct (m !! k); [|done]. simpl. by rewrite Hn.
Qed.

(** Proves the laws of a struct whose [json_fits] is the conjunction of its
    fields'. *)
Ltac split_fits H :=
  hnf in H; repeat match goal with H' : _ /\ _ |- _ => destruct H' end.
Ltac use_fits := match goal with H : @json_fits ?A ?C ?x |- @json_fits _ _ ?x => exact H end.
Ltac struct_laws :=
  split;
  [ let Hf := fresh in intros ? Hf; split_fits Hf; apply struct_ok;
    repeat apply Forall_cons_2; [..|apply Forall_nil_2];
    (split; [vm_compute; reflexivity|]); cbn [fname fget jfield]; apply codec_ok; use_fits
  | let a := fresh in intros a; apply struct_depth;
    repeat apply Forall_cons_2; [..|apply Forall_nil_2]; cbn [fget jfield];
    (eapply Nat.le_trans; [apply codec_depth|cbn; lia])
  | let a := fresh in let Hf := fresh in intros a Hf; split_fits Hf;
    refine (eq_trans (struct_into_decode _ _ _ _) _); [vm_compute; reflexivity|];
    match goal with |- decode_fields ?fs _ _ = _ => let fs' := eval hnf in fs in change fs with fs' end;
    repeat lazymatch goal with |- decode_fields (_ :: _) _ _ = _ =>
      eapply decode_step; [reflexivity|use_fits|];
      match goal with |- decode_fields ?fs ?a ?z = ?r =>
        let z' := eval cbn in z in change (decode_fields fs a z' = r) end end;
    destruct a; reflexivity ].
