(* ===== verification/Stream.v ===== *)
(** src/stream/var_length_packet.go: packets with a varint length header over
    a byte stream.  The record holds the stream's state, one definition each its
    operations; the theorems show that packets written one after the other are
    read back one by one whatever the chunking, which sizes are accepted, what
    the error branches do, and where [Write] panics. *)
From S2P Require Import Prelude GoText GoIo.


(** The [conn] is one end of a connection; [buf] is the buffer [Write]
    assembles a frame in. *)
Record VarLenPacketStream := mkVL {
  conn : Conn;
  readBuf : bytes;
  buf : bytes;
  maxSize : Z
}.

Definition set_conn (c : Conn) (s : VarLenPacketStream) : VarLenPacketStream :=
  mkVL c (readBuf s) (buf s) (maxSize s).

Definition NewVarLenPacketStream (c : Conn) (maxPacketSize : Z) : VarLenPacketStream :=
  mkVL c [0] (replicate (Z.to_nat maxPacketSize) 0) maxPacketSize.

Definition on_conn {A} : GoM Conn A -> GoM VarLenPacketStream A := zoom conn set_conn.

(** [ErrInvalidHeader] wrapped with the cause: [fmt.Errorf("%w: %s", ...)]. *)
Definition ErrInvalidHeader (cause : error) : error :=
  ErrText ("invalid header: " +:+ Error cause).

(** [ReadByte]: one byte through [readBuf]; on an error the byte is whatever
    [readBuf] held. *)
Definition ReadByte (s : VarLenPacketStream) : (Z * option error) * VarLenPacketStream :=
  let '((data, err), src') := ReadFull 1 (rx (conn s)) in
  let c := conn s in
  let c' := mkConn src' (tx c) (werr c) (closed c) (reset c) in
  let rb := data ++ drop (length data) (readBuf s) in
  ((hd 0 rb, err), mkVL c' rb (buf s) (maxSize s)).

(** [Read(p)] for a [p] of [plen] bytes: the bytes put in [p], the error. *)
Definition Read (plen : nat) : GoM VarLenPacketStream (bytes * option error) :=
  let* (len, err) := (fun s => let '(r, s') := ReadUvarint ReadByte s in (Ret r, s')) in
  match err with
  | Some e => ret ([], Some (ErrInvalidHeader e))
  | None =>
      max <- gets maxSize ;;
      if max <? len then ret ([], Some ErrShortBuffer)
      else if Z.of_nat plen <? len then ret ([], Some ErrShortBuffer)
      else on_conn (Conn_ReadFull (Z.to_nat len))
  end.

(** [Write(p)].  [PutUvarint] panics when the header overruns [buf], the
    reslice [s.buf[:l+headerOff]] when the frame does. *)
Definition Write (p : bytes) : GoM VarLenPacketStream (Z * option error) :=
  s <- get ;;
  let l := length p in
  if maxSize s <? Z.of_nat l then ret (0, Some ErrShortBuffer)
  else
    let header := PutUvarint (Z.of_nat l) in
    let headerOff := length header in
    if (length (buf s) <? headerOff)%nat then panic
    else
      let buf1 := header ++ drop headerOff (buf s) in
      let room := take (length (buf s) - headerOff) p in
      let buf2 := take headerOff buf1 ++ room ++ drop (headerOff + length room) buf1 in
      put (mkVL (conn s) (readBuf s) buf2 (maxSize s)) ;;;
      if (length (buf s) <? l + headerOff)%nat then panic
      else on_conn (Conn_Write (take (l + headerOff) buf2)).

Definition Close : GoM VarLenPacketStream unit := on_conn Conn_Close.

(** The frame of a packet on the wire. *)
Definition frame (p : bytes) : bytes := PutUvarint (Z.of_nat (length p)) ++ p.

(** Reading packets one after the other until an error. *)
Fixpoint read_packets (n plen : nat) : GoM VarLenPacketStream (list bytes * option error) :=
  match n with
  | O => ret ([], None)
  | S n' =>
      let* (p, err) := Read plen in
      match err with
      | Some e => ret ([], Some e)
      | None => let* (ps, e) := read_packets n' plen in ret (p :: ps, e)
      end
  end.

(** Writing packets one after the other until an error. *)
Fixpoint write_packets (ps : list bytes) : GoM VarLenPacketStream (option error) :=
  match ps with
  | [] => ret None
  | p :: ps' =>
      let* (_, err) := Write p in
      match err with Some e => ret (Some e) | None => write_packets ps' end
  end.

(** The stream's buffer has the size [NewVarLenPacketStream] gave it. *)
Definition wf (s : VarLenPacketStream) : Prop :=
  length (buf s) = Z.to_nat (maxSize s) /\ is_u64 (maxSize s) /\ length (readBuf s) = 1%nat.

(** A packet fits when its frame, header included, fits the buffer. *)
Definition fits (s : VarLenPacketStream) (p : bytes) : Prop :=
  Z.of_nat (length (frame p)) <= maxSize s.

#[export] Instance fits_dec s p : Decision (fits s p).
Proof. unfold fits. apply _. Defined.

(** ** Lemmas *)

Lemma ReadByte_delivers : delivers (fun s => content (rx (conn s))) ReadByte.
Proof.
  intros s b rest Hc. unfold ReadByte.
  destruct (ReadFull_ok 1 (rx (conn s)) [b] rest Hc eq_refl) as (s' & -> & Hr & _).
  eexists. split; [done|]. done.
Qed.

Lemma length_frame p : length (frame p) = (length (PutUvarint (Z.of_nat (length p))) + length p)%nat.
Proof. apply length_app. Qed.

(** What [ReadByte] leaves alone. *)
Definition same_but_rx (s s' : VarLenPacketStream) : Prop :=
  tx (conn s') = tx (conn s) /\ werr (conn s') = werr (conn s) /\
  end_err (rx (conn s')) = end_err (rx (conn s)) /\ maxSize s' = maxSize s /\ length (buf s') = length (buf s).

Lemma uvarint_loop_frame k i x sh s :
  same_but_rx s (uvarint_loop ReadByte k i x sh s).2.
Proof.
  revert i x sh s. induction k as [|k IH]; intros i x sh s; [done|].
  cbn [uvarint_loop]. unfold ReadByte at 1.
  pose proof (ReadFull_end_err 1 (rx (conn s))) as He.
  destruct (ReadFull 1 (rx (conn s))) as [[data err] src']. simpl in He.
  destruct err; [done|].
  destruct (_ <? 128); [by case_match|].
  match goal with |- same_but_rx _ (uvarint_loop _ _ _ ?x1 ?sh1 ?s1).2 =>
    destruct (IH (S i) x1 sh1 s1) as (H1 & H2 & H3 & H4 & H5) end.
  split_and!; [exact H1|exact H2|etrans; [exact H3|exact He]|exact H4|exact H5].
Qed.

(** Reading one packet whose frame is at the front of the source. *)
Lemma read_one s p rest plen :
  content (rx (conn s)) = frame p ++ rest ->
  Z.of_nat (length p) <= maxSize s -> is_u64 (maxSize s) -> (length p <= plen)%nat ->
  exists s', Read plen s = (Ret (p, None), s') /\ content (rx (conn s')) = rest /\
    same_but_rx s s'.
Proof.
  intros Hc Hl Hm Hp. unfold is_u64 in Hm. unfold frame in Hc. rewrite <- app_assoc in Hc.
  edestruct (ReadUvarint_PutUvarint _ ReadByte (Z.of_nat (length p)) s (p ++ rest) ReadByte_delivers)
    as (s1 & Hs1 & Hc1); [unfold is_u64; lia|exact Hc|]. cbn beta in Hc1.
  pose proof (uvarint_loop_frame MaxVarintLen64 0 0 0 s) as Hf.
  fold (ReadUvarint ReadByte s) in Hf. rewrite Hs1 in Hf.
  unfold Read, bind, gets, ret. rewrite Hs1. destruct Hf as (Ht & Hw & Hee & Hms & Hb). simpl in *.
  rewrite Hms. rewrite !(proj2 (Z.ltb_ge _ _)) by lia.
  unfold on_conn, zoom. rewrite Nat2Z.id.
  destruct (Conn_ReadFull_ok (length p) (conn s1) p rest Hc1 eq_refl)
    as (c' & -> & Hr & Htx & Hwe & _ & _ & Her).
  eexists. split; [done|]. unfold same_but_rx. simpl. rewrite Hr, Htx, Hwe, Her, Ht, Hw. done.
Qed.

(** The frame [Write] assembles in its buffer. *)
Lemma write_frame s p :
  wf s -> fits s p ->
  exists s', Write p s = on_conn (Conn_Write (frame p)) s' /\ conn s' = conn s /\
    wf s' /\ maxSize s' = maxSize s.
Proof.
  intros (Hb & Hm & Hrb) Hf. unfold fits in Hf. unfold is_u64 in Hm.
  pose proof (length_frame p) as HL.
  unfold Write, bind, get, put, ret.
  rewrite (proj2 (Z.ltb_ge _ _)) by lia.
  set (h := PutUvarint _) in *.
  rewrite (proj2 (Nat.ltb_ge _ _)) by lia.
  rewrite (proj2 (Nat.ltb_ge _ _)) by lia.
  rewrite (take_ge p) by lia.
  rewrite (take_app_length h).
  set (buf2 := h ++ p ++ _). assert (Ht : take (length p + length h) buf2 = frame p).
  { unfold buf2. rewrite app_assoc. rewrite take_app_length'; [done|]. rewrite length_app. lia. }
  rewrite Ht. eexists (mkVL _ _ _ _). split; [reflexivity|]. split; [done|]. split; [|done].
  split; [|done]. cbn [buf maxSize]. unfold buf2. rewrite !length_app, length_drop, length_app, length_drop. lia.
Qed.

Lemma write_ok s p :
  wf s -> fits s p -> werr (conn s) = None ->
  exists s', Write p s = (Ret (Z.of_nat (length (frame p)), None), s') /\
    tx (conn s') = tx (conn s) ++ frame p /\ werr (conn s') = None /\
    rx (conn s') = rx (conn s) /\ wf s' /\ maxSize s' = maxSize s.
Proof.
  intros Hwf Hf Hw. destruct (write_frame s p Hwf Hf) as (s1 & -> & Hc & Hwf1 & Hm1).
  unfold on_conn, zoom, Conn_Write. rewrite Hc, Hw. eexists. split; [reflexivity|].
  done.
Qed.

Lemma write_packets_ok ps s :
  wf s -> Forall (fits s) ps -> werr (conn s) = None ->
  exists s', write_packets ps s = (Ret None, s') /\
    tx (conn s') = tx (conn s) ++ concat (frame <$> ps).
Proof.
  revert s. induction ps as [|p ps IH]; intros s Hwf Hf Hw.
  { exists s. simpl. by rewrite app_nil_r. }
  inversion_clear Hf as [|? ? Hp Hps].
  destruct (write_ok s p Hwf Hp Hw) as (s1 & Hs1 & Ht1 & Hw1 & _ & Hwf1 & Hm1).
  destruct (IH s1 Hwf1) as (s2 & Hs2 & Ht2); [|done|].
  { eapply Forall_impl; [exact Hps|]. intros q. unfold fits. by rewrite Hm1. }
  exists s2. cbn [write_packets]. rewrite (bind_Ret _ _ _ _ _ Hs1), Hs2.
  split; [done|]. rewrite Ht2, Ht1. simpl. by rewrite app_assoc.
Qed.

Lemma read_packets_ok ps plen s rest :
  content (rx (conn s)) = concat (frame <$> ps) ++ rest -> is_u64 (maxSize s) ->
  Forall (fun p => Z.of_nat (length p) <= maxSize s /\ (length p <= plen)%nat) ps ->
  exists s', read_packets (length ps) plen s = (Ret (ps, None), s') /\
    content (rx (conn s')) = rest.
Proof.
  revert s. induction ps as [|p ps IH]; intros s Hc Hm Hf.
  { exists s. done. }
  inversion_clear Hf as [|? ? [Hl Hp] Hps]. simpl in Hc. rewrite <- app_assoc in Hc.
  destruct (read_one s p _ plen Hc Hl Hm Hp) as (s1 & Hs1 & Hc1 & _ & _ & _ & Hm1 & _).
  destruct (IH s1 Hc1) as (s2 & Hs2 & Hc2); [by rewrite Hm1| |].
  { eapply Forall_impl; [exact Hps|]. intros q. by rewrite Hm1. }
  exists s2. cbn [length read_packets]. rewrite (bind_Ret _ _ _ _ _ Hs1).
  cbn beta iota. rewrite (bind_Ret _ _ _ _ _ Hs2). done.
Qed.

(** ** Properties *)

(** C1. Packet framing is a round trip: a sender whose packets all fit its
    buffer writes them without error, and a receiver that gets the bytes the
    sender wrote, cut into chunks in any way and followed by any bytes, reads
    back exactly the sequence of packets, boundaries included, and leaves the
    bytes that follow. *)
Theorem packets_roundtrip (ps : list bytes) (snd rcv : VarLenPacketStream) (plen : nat) rest :
  wf snd -> Forall (fits snd) ps -> werr (conn snd) = None -> tx (conn snd) = [] ->
  wf rcv -> Forall (fun p => Z.of_nat (length p) <= maxSize rcv /\ (length p <= plen)%nat) ps ->
  content (rx (conn rcv)) = tx (conn (write_packets ps snd).2) ++ rest ->
  (write_packets ps snd).1 = Ret None /\
  exists rcv', read_packets (length ps) plen rcv = (Ret (ps, None), rcv') /\
    content (rx (conn rcv')) = rest.
Proof.
  intros Hwf Hf Hw Ht (Hb & Hm & _) Hr Hc.
  destruct (write_packets_ok ps snd Hwf Hf Hw) as (s' & Hs & Htx).
  rewrite Hs in Hc |- *. simpl in Hc. rewrite Htx, Ht in Hc. split; [done|].
  exact (read_packets_ok ps plen rcv rest Hc Hm Hr).
Qed.

Definition ex_snd : VarLenPacketStream := NewVarLenPacketStream (conn_of []) 8.
(** The receiver gets the frames of [1;2;3] and of the empty packet in three
    chunks, then a stray byte. *)
Definition ex_rcv : VarLenPacketStream :=
  NewVarLenPacketStream (mkConn (mkSource [[3]; [1; 2]; [3; 0; 9]] EOF) [] None false false) 8.

Lemma packets_roundtrip_witness :
  (write_packets [[1; 2; 3]; []] ex_snd).1 = Ret None /\
  exists rcv', read_packets 2 8 ex_rcv = (Ret ([[1; 2; 3]; []], None), rcv') /\
    content (rx (conn rcv')) = [9].
Proof.
  apply (packets_roundtrip [[1; 2; 3]; []] ex_snd ex_rcv 8 [9]); try reflexivity.
  - repeat split; done.
  - repeat constructor; vm_compute; discriminate.
  - repeat split; done.
  - repeat constructor; vm_compute; discriminate.
Defined.

(** C2. [Write] accepts a packet exactly when header and payload fit its
    buffer of [maxSize] bytes: a payload above [maxSize] is refused with
    [ErrShortBuffer] and nothing is written, a payload within [maxSize] whose
    frame is longer than [maxSize] panics, and any other payload is written
    whole as one frame (the count returned is the frame's length). *)
Theorem write_outcomes s p :
  wf s -> werr (conn s) = None ->
  (maxSize s < Z.of_nat (length p) -> Write p s = (Ret (0, Some ErrShortBuffer), s)) /\
  (Z.of_nat (length p) <= maxSize s -> ~ fits s p ->
     (Write p s).1 = Panic /\ tx (conn (Write p s).2) = tx (conn s)) /\
  (fits s p -> exists s', Write p s = (Ret (Z.of_nat (length (frame p)), None), s') /\
     tx (conn s') = tx (conn s) ++ frame p).
Proof.
  intros Hwf Hw. split; [|split].
  - intros Hl. unfold Write, bind, get, ret. by rewrite (proj2 (Z.ltb_lt _ _)).
  - intros Hl Hnf. unfold fits in Hnf. rewrite length_frame in Hnf.
    destruct Hwf as (Hb & Hm & _). unfold is_u64 in Hm.
    unfold Write, bind, get, put, ret, panic. rewrite (proj2 (Z.ltb_ge _ _)) by lia.
    case_match eqn:E1; [done|]. rewrite (proj2 (Nat.ltb_lt _ _)) by lia. done.
  - intros Hf. destruct (write_ok s p Hwf Hf Hw) as (s' & ? & ? & _). eauto.
Qed.

Definition ex_vl (n : Z) : VarLenPacketStream := NewVarLenPacketStream (conn_of []) n.

Lemma write_outcomes_witness :
  Write [7] (ex_vl 0) = (Ret (0, Some ErrShortBuffer), ex_vl 0) /\
  (Write [7; 7; 7; 7] (ex_vl 4)).1 = Panic /\
  exists s', Write [7; 7; 7] (ex_vl 4) = (Ret (4, None), s') /\ tx (conn s') = [3; 7; 7; 7].
Proof.
  split; [|split].
  - apply (write_outcomes (ex_vl 0) [7]); [repeat split; done|done|done].
  - apply (write_outcomes (ex_vl 4) [7; 7; 7; 7]);
      [repeat split; done|done|vm_compute; discriminate|vm_compute; intros H; by apply H].
  - apply (write_outcomes (ex_vl 4) [7; 7; 7]); [repeat split; done|done|vm_compute; discriminate].
Defined.

(** [Read] never hands out more than a declared packet: a header above
    [maxSize] or above the caller's buffer gives [ErrShortBuffer] with the
    payload left in the stream, and a payload cut short by the end of the
    stream gives the bytes there were with [ErrUnexpectedEOF] (or EOF when
    there were none). *)
Theorem read_errors s x rest plen :
  is_u64 x -> content (rx (conn s)) = PutUvarint x ++ rest ->
  (maxSize s < x \/ Z.of_nat plen < x ->
     exists s', Read plen s = (Ret ([], Some ErrShortBuffer), s') /\
       content (rx (conn s')) = rest) /\
  (x <= maxSize s -> x <= Z.of_nat plen -> Z.of_nat (length rest) < x ->
     exists s' e, Read plen s = (Ret (rest, Some e), s') /\
       (end_err (rx (conn s)) = EOF ->
        e = if decide (rest = []) then EOF else ErrUnexpectedEOF)).
Proof.
  intros Hx Hc.
  destruct (ReadUvarint_PutUvarint _ ReadByte x s rest ReadByte_delivers Hx Hc)
    as (s1 & Hs1 & Hc1). cbn beta in Hc1.
  pose proof (uvarint_loop_frame MaxVarintLen64 0 0 0 s) as Hf.
  fold (ReadUvarint ReadByte s) in Hf. rewrite Hs1 in Hf.
  destruct Hf as (_ & _ & Hee & Hms & _). simpl in Hee, Hms.
  unfold Read, bind, gets, ret. rewrite Hs1, Hms. split.
  - intros Hbig. exists s1. split; [|done]. destruct (maxSize s <? x) eqn:E; [done|].
    apply Z.ltb_ge in E. rewrite (proj2 (Z.ltb_lt _ _)) by lia. done.
  - intros Hm Hp Hshort. rewrite !(proj2 (Z.ltb_ge _ _)) by lia.
    unfold on_conn, zoom, Conn_ReadFull.
    destruct (ReadFull_short (Z.to_nat x) (rx (conn s1))) as (s2 & e & -> & ->);
      [rewrite Hc1; lia|]. rewrite Hc1, Hee.
    eexists _, _. split; [done|]. intros ->. by destruct rest.
Qed.

Definition ex_cut : VarLenPacketStream :=
  NewVarLenPacketStream (mkConn (mkSource [[5; 1]; [2]] EOF) [] None false false) 8.

Lemma read_errors_witness :
  (exists s', Read 4 ex_cut = (Ret ([], Some ErrShortBuffer), s') /\
     content (rx (conn s')) = [1; 2]) /\
  exists s' e, Read 8 ex_cut = (Ret ([1; 2], Some e), s') /\
    (EOF = EOF -> e = ErrUnexpectedEOF).
Proof.
  split.
  - apply (read_errors ex_cut 5 [1; 2] 4); [done|done|]. right. done.
  - apply (read_errors ex_cut 5 [1; 2] 8); [done|done|done|done|done].
Defined.

