(* ===== verification/TypesId.v ===== *)
(** src/types/id.go: identifiers that travel in JSON as decimal strings.  The
    theorems: printing then decoding is the identity on every uint64, the
    accepted texts are exactly spaces, digits in range, then anything, and
    every other JSON value is refused. *)
From S2P Require Import Prelude GoText Json Codec.

Record ID := mkID { Uint64 : Z }.

#[export] Instance ID_eq_dec : EqDecision ID.
Proof. solve_decision. Defined.

Definition String_ (id : ID) : string := FormatUint (Uint64 id).

Definition MarshalJSON (id : ID) : json := JStr (String_ id).

(** The spaces of [fmt]'s scanner (its [space] table) other than newline. *)
Definition scan_space (u : option string) : bool :=
  match u with
  | None => false
  | Some (String c "") => (between 9 13 c && negb (byte_of c =? 10)) || (byte_of c =? 32)
  | Some u =>
      existsb (fun r => String.eqb u (EncodeRune r))
        ([133; 160; 5760] ++ map (fun k => 8192 + Z.of_nat k) (seq 0 11)
         ++ [8232; 8233; 8239; 8287; 12288])
  end.

(** [ss.SkipSpace] for [Sscanf]: a newline is an error. *)
Fixpoint SkipSpace (us : list (option string)) : option (list (option string)) :=
  match us with
  | [] => Some []
  | u :: r =>
      if is_unit u "010" then None
      else if scan_space u then SkipSpace r else Some us
  end.

Definition unit_digit (u : option string) : bool :=
  match u with Some (String c "") => is_digit c | _ => false end.

(** The digits accepted by [ss.scanNumber]. *)
Fixpoint accept_digits (us : list (option string)) : string :=
  match us with
  | u :: r => if unit_digit u then String (unit_char u) (accept_digits r) else ""
  | [] => ""
  end.

(** [fmt.Sscanf(s, "%d", &v)] for an uint64 [v]: spaces, at least one digit,
    in range; the rest of the text is not looked at. *)
Definition Sscanf_d (s : string) : option Z :=
  match SkipSpace (runes s) with
  | None => None
  | Some us =>
      match accept_digits us with
      | "" => None
      | ds => match ParseUint ds with (v, None) => Some v | _ => None end
      end
  end.

(** Any other kind of value fails in the inner [json.Unmarshal], except null,
    which leaves the empty string to scan. *)
Definition UnmarshalJSON (j : json) : option ID :=
  match j with
  | JStr s => match Sscanf_d s with Some v => Some (mkID v) | None => None end
  | JNull => match Sscanf_d "" with Some v => Some (mkID v) | None => None end
  | _ => None
  end.

Lemma runes_digits s : all_digits s = true ->
  accept_digits (runes s) = s /\ (s <> "" -> SkipSpace (runes s) = Some (runes s)).
Proof.
  induction s as [|c s IH]; [done|]. cbn [all_digits]. intros [Hc Hs]%andb_prop.
  assert (Ha : is_ascii c = true) by (unfold is_digit in Hc; unfold is_ascii; lia).
  destruct (IH Hs) as [IH1 _]. cbn [runes]. rewrite Ha. cbn [accept_digits unit_digit unit_char].
  rewrite Hc, IH1. split; [done|]. intros _. cbn [SkipSpace].
  assert (is_unit (Some (String c "")) "010" = false) as ->.
  { apply String.eqb_neq. intros [= ->]. vm_compute in Hc. done. }
  assert (scan_space (Some (String c "")) = false) as ->; [|done].
  unfold scan_space, is_digit, between in *. lia.
Qed.

Lemma UnmarshalJSON_String id : is_u64 (Uint64 id) -> UnmarshalJSON (MarshalJSON id) = Some id.
Proof.
  destruct id as [z]. intros Hz. cbn [Uint64] in Hz. unfold UnmarshalJSON, MarshalJSON, String_, Sscanf_d.
  cbn [Uint64]. pose proof (FormatUint_lit z Hz) as Hl. destruct (FormatUint_head z) as (c & s & E & Hc).
  assert (Ha : all_digits (FormatUint z) = true) by (by apply all_digits_fmt).
  destruct (runes_digits _ Ha) as [H1 H2]. rewrite H2, H1 by (by rewrite E).
  pose proof (ParseUint_FormatUint z Hz) as HP. rewrite E in HP |- *. by rewrite HP.
Qed.

#[export] Instance ID_codec : JsonCodec ID := {
  json_of := MarshalJSON;
  json_into j _ := UnmarshalJSON j;
  zero := mkID 0;
  json_fits id := is_u64 (Uint64 id);
  json_norm x := x;
  json_depth := 0
}.
#[export] Instance ID_laws : CodecLaws ID.
Proof.
  split; [intros [z] _; apply FormatUint_utf8|done|]. intros id Hid. by apply UnmarshalJSON_String.
Qed.

(** Identifiers survive JSON: the text [json.Marshal] prints for any
    uint64 identifier is read back by [json.Unmarshal] as that identifier,
    although a JSON number could not hold it; the decoder accepts a text only
    if its first non-space characters are digits of a value below 2^64, and
    then the value is theirs; JSON numbers, booleans, null, arrays and
    objects are all refused. *)
Theorem id_json_roundtrip (id : ID) (prev : ID) :
  is_u64 (Uint64 id) ->
  Unmarshal (Marshal id) prev = inl id /\
  (forall s v, UnmarshalJSON (JStr s) = Some v ->
     exists us ds, SkipSpace (runes s) = Some us /\ accept_digits us = ds /\
       ParseUint ds = (Uint64 v, None) /\ is_u64 (Uint64 v)) /\
  (forall j, UnmarshalJSON j <> None -> exists s, j = JStr s).
Proof.
  intros Hid. split; [|split].
  - unfold Unmarshal, Marshal. rewrite Parse_print; [|by apply (codec_ok id)|done].
    cbn [json_of json_into ID_codec]. by rewrite UnmarshalJSON_String.
  - intros s v. cbn [UnmarshalJSON]. unfold Sscanf_d. destruct (SkipSpace (runes s)) as [us|]; [|done].
    destruct (accept_digits us) as [|c ds] eqn:E; [done|]. destruct (ParseUint (String c ds)) as [z [e|]] eqn:EP; [done|].
    intros [= <-]. exists us, (String c ds). split_and!; [done..|].
    eapply ParseUint_range, EP.
  - intros [| | |s| |] H; try done. by exists s.
Qed.

Lemma id_json_roundtrip_witness :
  Unmarshal (Marshal (mkID 18446744073709551615)) (mkID 0) = inl (mkID 18446744073709551615) /\
  UnmarshalJSON (JStr " 12abc") = Some (mkID 12) /\ UnmarshalJSON (JNum "12") = None.
Proof.
  split; [|split; vm_compute; reflexivity].
  apply (id_json_roundtrip (mkID 18446744073709551615) (mkID 0)). vm_compute. split; congruence.
Defined.
