(* ===== verification/Version.v ===== *)
(** src/common/version.go: the comparison that decides whether a downloaded
    gateway is newer.  The theorem: on version numbers as the releases write
    them it is the lexicographic order of the components, a proper prefix being
    smaller; the example at the end shows where it is no order at all. *)
From S2P Require Import Prelude GoText Json.

Definition EQUAL : Z := 0.
Definition GREATER : Z := 1.
Definition LESS : Z := -1.

Definition GatewayVersion : string := "0.3.10".

(** The loop over [v1Arr]; [v2Arr] holds what is left of the second list. *)
Fixpoint compare_loop (v1Arr v2Arr : list string) : Z :=
  match v1Arr with
  | [] => LESS
  | subVer :: v1' =>
      match v2Arr with
      | [] => GREATER
      | sub2 :: v2' =>
          let subv1 := (Atoi subVer).1 in
          let subv2 := (Atoi sub2).1 in
          if subv2 <? subv1 then GREATER
          else if subv1 <? subv2 then LESS
          else compare_loop v1' v2'
      end
  end.

Definition CompareVersion (v1 v2 : string) : Z :=
  if String.eqb v1 v2 then EQUAL
  else compare_loop (Split v1 ".") (Split v2 ".").

(** A version as a list of components, and its text. *)
Fixpoint show_rest (l : list Z) : string :=
  match l with [] => "" | z :: l' => String "." (Itoa z +:+ show_rest l') end.
Definition show (l : list Z) : string :=
  match l with [] => "" | z :: l' => Itoa z +:+ show_rest l' end.

(** The lexicographic order, a proper prefix being smaller. *)
Fixpoint lex (a b : list Z) : Z :=
  match a, b with
  | [], [] => EQUAL
  | [], _ => LESS
  | _, [] => GREATER
  | x :: a', y :: b' => if y <? x then GREATER else if x <? y then LESS else lex a' b'
  end.

Lemma no_char_digits sep s :
  is_digit sep = false -> all_digits s = true -> no_char sep s = true.
Proof.
  intros Hsep. induction s as [|c s IH]; [done|]. simpl. intros [Hc Hs]%andb_prop.
  rewrite IH by done. rewrite andb_true_r, negb_true_iff. apply Ascii.eqb_neq. intros ->. congruence.
Qed.

Lemma Itoa_no_dot z : no_char "." (Itoa z) = true.
Proof.
  assert (H : forall z, no_char "." (FormatUint z) = true)
    by (intros x; apply no_char_digits; [done|by apply all_digits_fmt]).
  unfold Itoa. destruct (z <? 0); [|done]. simpl. by rewrite H.
Qed.

Lemma split_show z l : Split (show (z :: l)) "." = map Itoa (z :: l).
Proof.
  unfold Split. cbn [show]. revert z. induction l as [|y l IH]; intros z.
  - cbn [show_rest]. by rewrite string_app_nil_r, split_go_last by apply Itoa_no_dot.
  - cbn [show_rest]. rewrite split_go_app by apply Itoa_no_dot. rewrite IH.
    by rewrite string_app_nil_l.
Qed.

Lemma compare_loop_lex a b :
  Forall is_s64 a -> Forall is_s64 b ->
  compare_loop (map Itoa a) (map Itoa b) = if decide (a = b) then LESS else lex a b.
Proof.
  intros Ha. revert b. induction Ha as [|x a Hx Ha IH]; intros b Hb; destruct Hb as [|y b Hy Hb]; [done..|].
  cbn [map compare_loop lex]. rewrite !Atoi_Itoa by done. cbn [fst].
  case (Z.ltb_spec y x); intros H1; [|case (Z.ltb_spec x y); intros H2].
  - rewrite decide_False; [done|]. intros [= ? ?]. lia.
  - rewrite decide_False; [done|]. intros [= ? ?]. lia.
  - assert (x = y) as -> by lia. rewrite IH by done.
    destruct (decide (a = b)) as [->|Hn]; [by rewrite decide_True|].
    rewrite decide_False; [done|]. by intros [= ->].
Qed.

Lemma map_Itoa_inj a b : Forall is_s64 a -> Forall is_s64 b -> map Itoa a = map Itoa b -> a = b.
Proof.
  intros Ha. revert b. induction Ha as [|x a Hx Ha IH]; intros [|y b] Hb E; try done.
  inversion_clear Hb as [|? ? Hy Hb']. injection E as E1 E2.
  apply (f_equal Atoi) in E1. rewrite !Atoi_Itoa in E1 by done. f_equal; [congruence|auto].
Qed.

Lemma lex_refl a : lex a a = EQUAL.
Proof. induction a as [|x a IH]; [done|]. simpl. by rewrite Z.ltb_irrefl. Qed.

Lemma lex_flip a b : lex b a = - lex a b.
Proof.
  revert b. induction a as [|x a IH]; intros [|y b]; simpl; try done.
  destruct (Z.ltb_spec x y), (Z.ltb_spec y x); done || lia.
Qed.

Lemma lex_eq a b : lex a b = EQUAL -> a = b.
Proof.
  revert b. induction a as [|x a IH]; intros [|y b]; simpl; try done.
  destruct (Z.ltb_spec y x); [done|]. destruct (Z.ltb_spec x y); [done|].
  intros E%IH. f_equal; [lia|done].
Qed.

(** On non-empty versions written with plain integers [CompareVersion] is
    the lexicographic order of the components, a proper prefix being smaller:
    EQUAL only for the same version, and swapping the arguments swaps GREATER
    and LESS. *)
Theorem compare_version_lex a b :
  a <> [] -> b <> [] -> Forall is_s64 a -> Forall is_s64 b ->
  CompareVersion (show a) (show b) = lex a b /\
  (CompareVersion (show a) (show b) = EQUAL <-> a = b) /\
  CompareVersion (show b) (show a) = - CompareVersion (show a) (show b).
Proof.
  assert (H : forall a b, a <> [] -> b <> [] -> Forall is_s64 a -> Forall is_s64 b ->
            CompareVersion (show a) (show b) = lex a b).
  { clear a b. intros [|x a] [|y b] H1 H2 Ha Hb; try done. unfold CompareVersion.
    rewrite !split_show, compare_loop_lex by done.
    destruct (String.eqb_spec (show (x :: a)) (show (y :: b))) as [E|E].
    - apply (f_equal (fun s => Split s ".")) in E. rewrite !split_show in E.
      apply map_Itoa_inj in E as ->; [|done..]. by rewrite lex_refl.
    - rewrite decide_False; [done|]. intros E'. apply E. by rewrite E'. }
  intros H1 H2 Ha Hb. rewrite !H by done. split; [done|]. split; [|apply lex_flip].
  split; [apply lex_eq|intros ->; apply lex_refl].
Qed.

Lemma compare_version_lex_witness :
  CompareVersion "0.3.10" "0.3.9" = 1 /\
  (CompareVersion (show [0; 3; 10]) (show [0; 3; 9]) = lex [0; 3; 10] [0; 3; 9] /\
   (CompareVersion (show [0; 3; 10]) (show [0; 3; 9]) = EQUAL <-> [0; 3; 10] = [0; 3; 9]) /\
   CompareVersion (show [0; 3; 9]) (show [0; 3; 10]) = - CompareVersion (show [0; 3; 10]) (show [0; 3; 9])).
Proof.
  split; [vm_compute; reflexivity|].
  apply (compare_version_lex [0; 3; 10] [0; 3; 9]);
    (done || (repeat constructor; vm_compute; congruence)).
Defined.

(** Different spellings of one version are each LESS than the other. *)
Theorem compare_version_spelling :
  CompareVersion "1.0" "01.0" = LESS /\ CompareVersion "01.0" "1.0" = LESS.
Proof. by split. Qed.
