(* ===== verification/Sha256.v ===== *)
(** Go's [crypto/sha256] and [crypto/hmac]: the hash function on byte lists and
    HMAC over it, executable, checked on published test vectors. *)
From Stdlib Require String.
From S2P Require Import Prelude GoText GoIo.

Definition add32 (a b : Z) : Z := u32 (a + b).
Definition rotr (n x : Z) : Z := Z.lor (Z.shiftr x n) (u32 (Z.shiftl x (32 - n))).
Definition not32 (x : Z) : Z := 4294967295 - x.

Definition K : list Z :=
  [1116352408; 1899447441; 3049323471; 3921009573; 961987163; 1508970993; 2453635748; 2870763221;
   3624381080; 310598401; 607225278; 1426881987; 1925078388; 2162078206; 2614888103; 3248222580;
   3835390401; 4022224774; 264347078; 604807628; 770255983; 1249150122; 1555081692; 1996064986;
   2554220882; 2821834349; 2952996808; 3210313671; 3336571891; 3584528711; 113926993; 338241895;
   666307205; 773529912; 1294757372; 1396182291; 1695183700; 1986661051; 2177026350; 2456956037;
   2730485921; 2820302411; 3259730800; 3345764771; 3516065817; 3600352804; 4094571909; 275423344;
   430227734; 506948616; 659060556; 883997877; 958139571; 1322822218; 1537002063; 1747873779;
   1955562222; 2024104815; 2227730452; 2361852424; 2428436474; 2756734187; 3204031479; 3329325298].

Definition H0 : list Z :=
  [1779033703; 3144134277; 1013904242; 2773480762; 1359893119; 2600822924; 528734635; 1541459225].

(** The message schedule, newest word first. *)
Fixpoint schedule (n : nat) (w : list Z) : list Z :=
  match n with
  | O => w
  | S n' =>
      let at_ i := nth (i - 1) w 0 in
      let s0 := let x := at_ 15%nat in Z.lxor (Z.lxor (rotr 7 x) (rotr 18 x)) (Z.shiftr x 3) in
      let s1 := let x := at_ 2%nat in Z.lxor (Z.lxor (rotr 17 x) (rotr 19 x)) (Z.shiftr x 10) in
      schedule n' (u32 (at_ 16%nat + s0 + at_ 7%nat + s1) :: w)
  end.

Definition round (st : list Z) (kw : Z * Z) : list Z :=
  match st with
  | [a; b; c; d; e; f; g; h] =>
      let S1 := Z.lxor (Z.lxor (rotr 6 e) (rotr 11 e)) (rotr 25 e) in
      let ch := Z.lxor (Z.land e f) (Z.land (not32 e) g) in
      let t1 := u32 (h + S1 + ch + kw.1 + kw.2) in
      let S0 := Z.lxor (Z.lxor (rotr 2 a) (rotr 13 a)) (rotr 22 a) in
      let maj := Z.lxor (Z.lxor (Z.land a b) (Z.land a c)) (Z.land b c) in
      [add32 t1 (add32 S0 maj); a; b; c; add32 d t1; e; f; g]
  | _ => st
  end.

Fixpoint words (n : nat) (l : bytes) : list Z :=
  match n with
  | O => []
  | S n' => foldl (fun a b => a * 256 + b) 0 (take 4 l) :: words n' (drop 4 l)
  end.

Definition block (st : list Z) (b : bytes) : list Z :=
  let w := rev (schedule 48 (rev (words 16 b))) in
  zip_with add32 st (foldl round st (zip K w)).

Fixpoint be_bytes (n : nat) (z : Z) : bytes :=
  match n with O => [] | S n' => be_bytes n' (z / 256) ++ [z mod 256] end.

(** Padding: a one bit, zeros, the length in bits. *)
Definition pad (m : bytes) : bytes :=
  let l := length m in
  m ++ [128] ++ replicate ((119 - l mod 64) mod 64) 0 ++ be_bytes 8 (8 * Z.of_nat l).

Fixpoint blocks (n : nat) (st : list Z) (m : bytes) : list Z :=
  match n with
  | O => st
  | S n' => blocks n' (block st (take 64 m)) (drop 64 m)
  end.

Definition sha256 (m : bytes) : bytes :=
  let p := pad m in
  concat (map (be_bytes 4) (blocks (length p / 64) H0 p)).

(** [hmac.New(sha256.New, key)], [Write(m)], [Sum(nil)]. *)
Definition hmac_sha256 (key m : bytes) : bytes :=
  let k := if (64 <? length key)%nat then sha256 key else key in
  let k := k ++ replicate (64 - length k) 0 in
  sha256 (map (Z.lxor 92) k ++ sha256 (map (Z.lxor 54) k ++ m)).

Definition ascii_bytes (s : string) : bytes := map byte_of (String.list_ascii_of_string s).

(** FIPS 180-4, one block and two blocks. *)
Example sha256_abc : take 8 (sha256 (ascii_bytes "abc")) = [186; 120; 22; 191; 143; 1; 207; 234].
Proof. vm_compute. reflexivity. Qed.
Example sha256_two_blocks :
  take 8 (sha256 (ascii_bytes "abcdbcdecdefdefgefghfghighijhijkijkljklmklmnlmnomnopnopq"))
  = [36; 141; 106; 97; 210; 6; 56; 184].
Proof. vm_compute. reflexivity. Qed.
(** RFC 4231, test case 1. *)
Example hmac_rfc4231 :
  take 8 (hmac_sha256 (replicate 20 11) (ascii_bytes "Hi There")) = [176; 52; 76; 97; 216; 219; 56; 83].
Proof. vm_compute. reflexivity. Qed.

Lemma be_bytes_byte n z : Forall is_byte (be_bytes n z).
Proof.
  revert z. induction n as [|n IH]; intros z; [done|]. simpl. apply Forall_app. split; [done|].
  constructor; [|done]. apply Z.mod_pos_bound. lia.
Qed.

Lemma sha256_byte m : Forall is_byte (sha256 m).
Proof.
  unfold sha256. apply Forall_concat, Forall_fmap, Forall_forall. intros x _. apply be_bytes_byte.
Qed.
