(* ===== verification/Totp.v ===== *)
(** src/totp/totp.go: codes derived from a token and the time.  The theorem
    states exactly which codes [Verify] accepts; a code stays acceptable for
    one step before and after the moment it was generated. *)
From S2P Require Import Prelude GoText GoIo Sha256.

Definition StepShareValidityPeriod : Z := 300.
Definition StepRefreshToken : Z := 60 * 60 * 24 * 7.

Record TOTP := mkTOTP { Step : Z }.

(** [Gen(token, ts)]; the division panics when [Step] is 0. *)
Definition Gen (t : TOTP) (token ts : Z) : outcome Z :=
  if Step t =? 0 then Panic
  else
    let step := s64 (Z.quot ts (Step t)) in
    let tbuff := LE_PutUint64 token in
    let b := LE_PutUint64 (u64 step) in
    Ret (LE_Uint64 (take 8 (hmac_sha256 tbuff b))).

(** [Verify(code, token, ts)]: the codes of this step, the previous and the
    next are tried in that order. *)
Definition Verify (t : TOTP) (code token ts : Z) : outcome bool :=
  if code =? 0 then Ret false
  else if code =? token then Ret true
  else
    match Gen t token ts with
    | Panic => Panic
    | Ret g0 =>
        if code =? g0 then Ret true
        else match Gen t token (s64 (ts - Step t)) with
             | Panic => Panic
             | Ret g1 =>
                 if code =? g1 then Ret true
                 else match Gen t token (s64 (ts + Step t)) with
                      | Panic => Panic
                      | Ret g2 => Ret (code =? g2)
                      end
             end
    end.

(** The step number of a time. *)
Definition step_of (t : TOTP) (ts : Z) : Z := ts / Step t.

(** The code of a step number. *)
Definition code_of (token k : Z) : Z :=
  LE_Uint64 (take 8 (hmac_sha256 (LE_PutUint64 token) (LE_PutUint64 k))).

Lemma Gen_code t token ts : 0 < Step t -> 0 <= ts -> is_s64 ts ->
  Gen t token ts = Ret (code_of token (step_of t ts)).
Proof.
  intros Hs Ht Hts. unfold Gen. rewrite (proj2 (Z.eqb_neq _ _)) by lia.
  unfold code_of, step_of. rewrite Z.quot_div_nonneg by lia.
  assert (0 <= ts / Step t <= ts) by (split; [apply Z.div_pos; lia|apply Z.div_le_upper_bound; nia]).
  unfold is_s64 in Hts. rewrite s64_small, u64_small by (unfold is_u64, is_s64; lia). done.
Qed.

Lemma step_shift t ts : 0 < Step t ->
  step_of t (ts - Step t) = step_of t ts - 1 /\ step_of t (ts + Step t) = step_of t ts + 1.
Proof.
  intros Hs. unfold step_of. replace (ts - Step t) with (ts + -1 * Step t) by lia.
  replace (ts + Step t) with (ts + 1 * Step t) by lia. rewrite !Z.div_add by lia. lia.
Qed.

Lemma Ret_inj {A} (a b : A) : Ret a = Ret b -> a = b.
Proof. by intros [= ->]. Qed.

#[local] Opaque code_of hmac_sha256.

(** C8. [Verify] never panics for a positive step and accepts exactly the
    non-zero codes that are the token itself or the code of the current step,
    the previous or the next one; so the code generated at [ts0] is accepted
    at every time within one step of [ts0], unless it is 0, which never is. *)
Theorem totp_verify_window t code token ts :
  0 < Step t -> Step t <= ts -> is_s64 (ts + Step t) ->
  (exists r, Verify t code token ts = Ret r /\
     (r = true <-> code <> 0 /\ (code = token \/
        exists d, -1 <= d <= 1 /\ code = code_of token (step_of t ts + d)))) /\
  Verify t 0 token ts = Ret false /\
  (forall ts0, 0 <= ts0 -> Z.abs (ts - ts0) <= Step t ->
     Gen t token ts0 = Ret code -> code <> 0 -> Verify t code token ts = Ret true).
Proof.
  intros Hs Ht Hts. assert (is_s64 ts /\ is_s64 (ts - Step t)) as [H1 H2] by (unfold is_s64 in *; lia).
  pose proof (step_shift t ts Hs) as [E1 E2].
  assert (HV : exists r, Verify t code token ts = Ret r /\
     (r = true <-> code <> 0 /\ (code = token \/
        exists d, -1 <= d <= 1 /\ code = code_of token (step_of t ts + d)))).
  { unfold Verify. rewrite !s64_small by done. rewrite !Gen_code by (done || lia). rewrite E1, E2.
    replace (step_of t ts - 1) with (step_of t ts + -1) by lia.
    assert (HD : forall d, -1 <= d <= 1 -> d = 0 \/ d = -1 \/ d = 1) by lia.
    destruct (Z.eqb_spec code 0) as [H0|H0]; [exists false; split; [done|]; split; [done|intros [? _]; done]|].
    destruct (Z.eqb_spec code token) as [Hc|Hc]; [exists true; split; [done|split; [by auto|done]]|].
    destruct (Z.eqb_spec code (code_of token (step_of t ts))) as [Hg|Hg].
    { exists true. split; [done|]. split; [|done]. intros _. split; [done|]. right. exists 0.
      rewrite Z.add_0_r. split; [lia|done]. }
    destruct (Z.eqb_spec code (code_of token (step_of t ts + -1))) as [Hg1|Hg1].
    { exists true. split; [done|]. split; [|done]. intros _. split; [done|]. right. exists (-1). split; [lia|done]. }
    destruct (Z.eqb_spec code (code_of token (step_of t ts + 1))) as [Hg2|Hg2].
    { exists true. split; [done|]. split; [|done]. intros _. split; [done|]. right. exists 1. split; [lia|done]. }
    exists false. split; [done|]. split; [done|]. intros [_ [?|(d & Hd & E)]]; [done|].
    destruct (HD d Hd) as [->|[->| ->]]; [|by destruct Hg1|by destruct Hg2]. rewrite Z.add_0_r in E. by destruct Hg. }
  split; [exact HV|]. split; [reflexivity|]. intros ts0 H0 Hn HG Hnz.
  destruct HV as (r & -> & Hr). f_equal. apply Hr. split; [exact Hnz|]. right.
  assert (is_s64 ts0) by (unfold is_s64 in *; lia).
  rewrite Gen_code in HG by assumption.
  apply Ret_inj in HG as <-.
  exists (step_of t ts0 - step_of t ts). split;
    [|replace (step_of t ts + (step_of t ts0 - step_of t ts)) with (step_of t ts0) by lia; reflexivity].
  unfold step_of in *.
  assert (Hlo : (ts - Step t) / Step t <= ts0 / Step t) by (apply Z.div_le_mono; lia).
  assert (Hhi : ts0 / Step t <= (ts + Step t) / Step t) by (apply Z.div_le_mono; lia). lia.
Qed.

#[local] Transparent code_of hmac_sha256.

Definition ex_totp : TOTP := mkTOTP StepShareValidityPeriod.

Lemma totp_verify_window_witness :
  (exists r, Verify ex_totp 77 77 1700000000 = Ret r /\
     (r = true <-> 77 <> 0 /\ (77 = 77 \/
        exists d, -1 <= d <= 1 /\ 77 = code_of 77 (step_of ex_totp 1700000000 + d)))) /\
  Verify ex_totp 0 77 1700000000 = Ret false /\
  (forall ts0, 0 <= ts0 -> Z.abs (1700000000 - ts0) <= Step ex_totp ->
     Gen ex_totp 77 ts0 = Ret 77 -> 77 <> 0 -> Verify ex_totp 77 77 1700000000 = Ret true).
Proof.
  apply (totp_verify_window ex_totp 77 77 1700000000); vm_compute; try split; congruence.
Defined.
