(* ===== verification/Avl.v ===== *)
(** The search tree the proxy router keeps its routes in
    (github.com/emirpasic/gods/trees/avltree, a dependency): its nodes as the
    router reads them, the operations as an interface [AvlTree], the documented
    behaviour as the laws [AvlLaws], and a concrete tree that has them. *)
From S2P Require Import Prelude.

(** * Nodes: key, value and the two children. *)
Inductive node (V : Type) :=
  | Nil
  | Node (left : node V) (key : Z) (value : V) (right : node V).
Arguments Nil {V}.
Arguments Node {V} left key value right.

Fixpoint to_map {V} (n : node V) : gmap Z V :=
  match n with
  | Nil => ∅
  | Node l k v r => <[k := v]> (to_map l ∪ to_map r)
  end.

Fixpoint keys_in {V} (P : Z -> Prop) (n : node V) : Prop :=
  match n with Nil => True | Node l k _ r => keys_in P l /\ P k /\ keys_in P r end.

(** Keys are ordered, smaller on the left. *)
Fixpoint bst {V} (n : node V) : Prop :=
  match n with
  | Nil => True
  | Node l k _ r => keys_in (fun x => x < k) l /\ keys_in (fun x => k < x) r /\ bst l /\ bst r
  end.

(** * The interface *)

Class AvlTree (V T : Type) := {
  avl_empty : T;
  avl_root : T -> node V;
  avl_get : Z -> T -> option V;
  avl_put : Z -> V -> T -> T;
  avl_remove : Z -> T -> T
}.

(** What the library documents: a tree built by its operations is a search
    tree, and [Put], [Get], [Remove] act as on a finite map.  [avl_ok] is the
    library's own invariant. *)
Class AvlLaws (V T : Type) `{AvlTree V T} := {
  avl_ok : T -> Prop;
  avl_ok_empty : avl_ok avl_empty;
  avl_ok_put k v t : avl_ok t -> avl_ok (avl_put k v t);
  avl_ok_remove k t : avl_ok t -> avl_ok (avl_remove k t);
  avl_ok_bst t : avl_ok t -> bst (avl_root t);
  avl_empty_map : to_map (avl_root avl_empty) = ∅;
  avl_get_map k t : avl_ok t -> avl_get k t = to_map (avl_root t) !! k;
  avl_put_map k v t : avl_ok t ->
    to_map (avl_root (avl_put k v t)) = <[k := v]> (to_map (avl_root t));
  avl_remove_map k t : avl_ok t ->
    to_map (avl_root (avl_remove k t)) = delete k (to_map (avl_root t))
}.

(** * A concrete tree *)

Fixpoint bst_get {V} (k : Z) (n : node V) : option V :=
  match n with
  | Nil => None
  | Node l k' v r =>
      if k <? k' then bst_get k l else if k' <? k then bst_get k r else Some v
  end.

Fixpoint bst_put {V} (k : Z) (v : V) (n : node V) : node V :=
  match n with
  | Nil => Node Nil k v Nil
  | Node l k' v' r =>
      if k <? k' then Node (bst_put k v l) k' v' r
      else if k' <? k then Node l k' v' (bst_put k v r)
      else Node l k v r
  end.

(** Glue two trees whose keys are ordered. *)
Fixpoint bst_join {V} (l r : node V) : node V :=
  match l with
  | Nil => r
  | Node ll k v lr => Node ll k v (bst_join lr r)
  end.

Fixpoint bst_remove {V} (k : Z) (n : node V) : node V :=
  match n with
  | Nil => Nil
  | Node l k' v r =>
      if k <? k' then Node (bst_remove k l) k' v r
      else if k' <? k then Node l k' v (bst_remove k r)
      else bst_join l r
  end.

#[export] Instance bst_tree V : AvlTree V (node V) := {
  avl_empty := Nil;
  avl_root := id;
  avl_get := bst_get;
  avl_put := bst_put;
  avl_remove := bst_remove
}.

(** * Lemmas *)

Lemma keys_in_map {V} (P : Z -> Prop) (n : node V) :
  keys_in P n <-> (forall k v, to_map n !! k = Some v -> P k).
Proof.
  induction n as [|l IHl k v r IHr]; simpl.
  { split; [|done]. intros _ k v. by rewrite lookup_empty. }
  rewrite IHl, IHr. split.
  - intros (Hl & Hk & Hr) k' v' H. rewrite lookup_insert_Some in H.
    destruct H as [[-> _]|[_ H]]; [done|].
    apply lookup_union_Some_raw in H as [H|[_ H]]; eauto.
  - intros H. split; [|split].
    + intros k' v' Hk'. destruct (decide (k = k')) as [->|Hne].
      * apply (H k' v). apply lookup_insert_eq.
      * apply (H k' v'). rewrite lookup_insert_ne by done. by apply lookup_union_Some_l.
    + apply (H k v), lookup_insert_eq.
    + intros k' v' Hk'. destruct (decide (k = k')) as [->|Hne].
      * apply (H k' v). apply lookup_insert_eq.
      * destruct (to_map l !! k') as [v2|] eqn:E.
        -- apply (H k' v2). rewrite lookup_insert_ne by done. by apply lookup_union_Some_l.
        -- apply (H k' v'). rewrite lookup_insert_ne by done. rewrite lookup_union_r; done.
Qed.

Lemma keys_in_None {V} (P : Z -> Prop) (n : node V) k :
  keys_in P n -> ~ P k -> to_map n !! k = None.
Proof.
  rewrite keys_in_map. intros H Hn. destruct (to_map n !! k) eqn:E; [|done]. by apply H in E.
Qed.

Lemma keys_in_mono {V} (P Q : Z -> Prop) (n : node V) :
  (forall k, P k -> Q k) -> keys_in P n -> keys_in Q n.
Proof. intros HPQ. rewrite !keys_in_map. eauto. Qed.

(** Lookup in a search tree follows the order. *)
Lemma bst_lookup {V} (l : node V) k v r k' :
  bst (Node l k v r) ->
  to_map (Node l k v r) !! k' =
    if k' <? k then to_map l !! k' else if k <? k' then to_map r !! k' else Some v.
Proof.
  intros (Hl & Hr & _ & _). simpl.
  case (Z.ltb_spec k' k); intros H1; [|case (Z.ltb_spec k k'); intros H2].
  - rewrite lookup_insert_ne by lia. destruct (to_map l !! k') eqn:E.
    + by apply lookup_union_Some_l.
    + rewrite lookup_union_r by done. apply (keys_in_None _ _ _ Hr). lia.
  - rewrite lookup_insert_ne by lia. apply lookup_union_r, (keys_in_None _ _ _ Hl). lia.
  - assert (k' = k) as -> by lia. apply lookup_insert_eq.
Qed.

(** The bindings of a search tree: the root's, the smaller ones on the left,
    the larger ones on the right. *)
Lemma bst_bindings {V} (l : node V) k v r x y :
  bst (Node l k v r) ->
  to_map (Node l k v r) !! x = Some y <->
  (x = k /\ y = v) \/ (to_map l !! x = Some y /\ x < k) \/ (to_map r !! x = Some y /\ k < x).
Proof.
  intros Hb. rewrite bst_lookup by done. destruct Hb as (Hl & Hr & _).
  rewrite keys_in_map in Hl. rewrite keys_in_map in Hr. specialize (Hl x y). specialize (Hr x y).
  simpl in *. case (Z.ltb_spec x k); intros H1; [|case (Z.ltb_spec k x); intros H2].
  - split; [by auto|]. intros [[-> _]|[[? _]|[_ ?]]]; [lia|done|lia].
  - split; [by auto|]. intros [[-> _]|[[_ ?]|[? _]]]; [lia|lia|done].
  - assert (x = k) as -> by lia. split; [intros [= ->]; auto|].
    intros [[_ ->]|[[_ ?]|[_ ?]]]; [done|lia|lia].
Qed.

(** A search tree is determined, as a map, by its lookups along the order. *)
Lemma bst_map_eq {V} (l : node V) k v r (m : gmap Z V) :
  bst (Node l k v r) ->
  (forall k', m !! k' =
     if k' <? k then to_map l !! k' else if k <? k' then to_map r !! k' else Some v) ->
  to_map (Node l k v r) = m.
Proof. intros Hb H. apply map_eq. intros k'. by rewrite bst_lookup, H. Qed.

Lemma bst_get_map {V} k (n : node V) : bst n -> bst_get k n = to_map n !! k.
Proof.
  induction n as [|l IHl k' v r IHr]; intros Hb; [done|].
  rewrite bst_lookup by done. destruct Hb as (_ & _ & Hbl & Hbr). simpl.
  by rewrite IHl, IHr.
Qed.

Lemma keys_in_put {V} P k (v : V) n : keys_in P n -> P k -> keys_in P (bst_put k v n).
Proof.
  induction n as [|l IHl k' v' r IHr]; simpl; [tauto|].
  intros (Hl & Hk & Hr) HP. repeat case_match; simpl; tauto.
Qed.

Lemma bst_put_bst {V} k (v : V) n : bst n -> bst (bst_put k v n).
Proof.
  induction n as [|l IHl k' v' r IHr]; simpl; [done|].
  intros (Hl & Hr & Hbl & Hbr).
  case (Z.ltb_spec k k'); intros H1; [|case (Z.ltb_spec k' k); intros H2]; simpl.
  - split_and!; auto. apply keys_in_put; auto.
  - split_and!; auto. apply keys_in_put; auto.
  - assert (k' = k) as -> by lia. auto.
Qed.

Lemma bst_put_map {V} k (v : V) n :
  bst n -> to_map (bst_put k v n) = <[k := v]> (to_map n).
Proof.
  induction n as [|l IHl k' v' r IHr]; intros Hb.
  { simpl. by rewrite (left_id_L ∅ (∪)). }
  pose proof (bst_put_bst k v _ Hb) as Hp. pose proof (bst_lookup l k' v' r) as HL.
  pose proof Hb as (Hl & Hr & Hbl & Hbr).
  simpl bst_put in *. destruct (k <? k') eqn:E1; [|destruct (k' <? k) eqn:E2].
  - apply bst_map_eq; [done|]. intros x. rewrite IHl by done. rewrite !lookup_insert, HL by done.
    case_decide; [subst; by rewrite E1|done].
  - apply bst_map_eq; [done|]. intros x. rewrite IHr by done. rewrite !lookup_insert, HL by done.
    case_decide; [subst; by rewrite E1, E2|done].
  - assert (k' = k) as -> by lia. apply bst_map_eq; [done|]. intros x.
    rewrite lookup_insert, HL by done. case_decide; [subst; by rewrite Z.ltb_irrefl|].
    repeat (case_match; try done). lia.
Qed.

Lemma keys_in_join {V} P (l r : node V) : keys_in P (bst_join l r) <-> keys_in P l /\ keys_in P r.
Proof. induction l as [|ll _ k v lr IH]; simpl; [tauto|]. rewrite IH. tauto. Qed.

(** Every key of [l] is below every key of [r]. *)
Definition below {V} (l r : node V) : Prop := keys_in (fun a => keys_in (fun b => a < b) r) l.

Lemma bst_join_spec {V} (l r : node V) :
  bst l -> bst r -> below l r ->
  bst (bst_join l r) /\ to_map (bst_join l r) = to_map l ∪ to_map r.
Proof.
  intros Hl Hr. induction l as [|ll _ k v lr IH].
  { intros _. split; [done|]. simpl. by rewrite (left_id_L ∅ (∪)). }
  intros (Hb1 & Hb2 & Hb3). destruct Hl as (H1 & H2 & H3 & H4).
  destruct (IH H4 Hb3) as [Hj Hm]. split.
  - simpl. split_and!; [done| |done|done]. rewrite keys_in_join. done.
  - simpl. rewrite Hm. by rewrite (assoc_L (∪)), insert_union_l.
Qed.

Lemma keys_in_remove {V} P k (n : node V) : keys_in P n -> keys_in P (bst_remove k n).
Proof.
  induction n as [|l IHl k' v' r IHr]; simpl; [done|].
  intros (Hl & Hk & Hr). do 2 (case_match; simpl; [by auto|]). by apply keys_in_join.
Qed.

Lemma bst_below {V} (l : node V) k v r : bst (Node l k v r) -> below l r.
Proof.
  intros (Hl & Hr & _ & _). eapply keys_in_mono; [|exact Hl]. intros a Ha. simpl in Ha.
  eapply keys_in_mono; [|exact Hr]. simpl. intros; lia.
Qed.

Lemma bst_remove_bst {V} k (n : node V) : bst n -> bst (bst_remove k n).
Proof.
  induction n as [|l IHl k' v' r IHr]; [done|]. intros Hb. pose proof (bst_below _ _ _ _ Hb) as Hbl.
  destruct Hb as (Hl & Hr & H1 & H2). simpl.
  destruct (k <? k'); [|destruct (k' <? k)]; simpl; auto using keys_in_remove.
  by apply bst_join_spec.
Qed.

Lemma bst_remove_map {V} k (n : node V) : bst n -> to_map (bst_remove k n) = delete k (to_map n).
Proof.
  induction n as [|l IHl k' v' r IHr]; intros Hb; [simpl; by rewrite delete_empty|].
  pose proof (bst_remove_bst k _ Hb) as Hp. pose proof (bst_lookup l k' v' r) as HL.
  pose proof (bst_below _ _ _ _ Hb) as Hbe. pose proof Hb as (Hl & Hr & Hbl & Hbr).
  simpl bst_remove in *. destruct (k <? k') eqn:E1; [|destruct (k' <? k) eqn:E2].
  - apply bst_map_eq; [done|]. intros x. rewrite IHl by done. rewrite !lookup_delete.
    rewrite HL by done. case_decide; [subst; rewrite ?E1; done|done].
  - apply bst_map_eq; [done|]. intros x. rewrite IHr by done. rewrite !lookup_delete.
    rewrite HL by done. case_decide; [subst; rewrite ?E1, ?E2; done|done].
  - assert (k' = k) as -> by lia.
    rewrite (proj2 (bst_join_spec l r Hbl Hbr Hbe)). simpl. rewrite delete_insert_id; [done|].
    apply lookup_union_None.
    split; [apply (keys_in_None _ _ _ Hl)|apply (keys_in_None _ _ _ Hr)]; lia.
Qed.

#[export] Instance bst_laws V : AvlLaws V (node V).
Proof.
  refine {| avl_ok := bst |}; simpl.
  - done.
  - intros. by apply bst_put_bst.
  - intros. by apply bst_remove_bst.
  - done.
  - done.
  - intros. by apply bst_get_map.
  - intros. by apply bst_put_map.
  - intros. by apply bst_remove_map.
Defined.
