(* ===== verification/ProxyRouter.v ===== *)
(** src/gateway/proxy_router.go: the table of IPv4 ranges that picks the
    dialer of a tunnelled connection.  The tree is a dependency, used through
    [AvlTree]/[AvlLaws].  The theorems: the table's ranges never overlap,
    [get] finds exactly the range that holds an address, [addRoute] decides on
    every branch as an abstract table of disjoint ranges does, and what CIDR
    networks become. *)
From S2P Require Import Prelude GoText GoIo GoNet Avl.

(** The value stored under a range's first address. *)
Record routeItem (D : Type) := mkRouteItem { max : Z; dialer : D }.
Arguments mkRouteItem {D} max dialer.
Arguments max {D} r.
Arguments dialer {D} r.

(** The first and last address of a network, as 32-bit integers: a non-IPv4
    address counts as 0, a shift of 32 or more gives the mask 0. *)
Definition getCidrIntRange (ipNet : IPNet) : Z * Z :=
  let ipMin := u32 (SetBytes (default [] (To4 (net_ip ipNet)))) in
  let '(ones, allBits) := Mask_Size (net_mask ipNet) in
  let sh := u32 (Z.of_nat allBits - Z.of_nat ones) in
  let m := u32 (Z.shiftl 4294967295 sh) in
  let ipMax := u32 (ipMin + (4294967295 - m)) in
  (ipMin, ipMax).

Section Router.
Context {D T : Type} {Tree : AvlTree (routeItem D) T} {Laws : AvlLaws (routeItem D) T}.

(** [proxyRouter]: the tree; the mutex serialises the operations below. *)
Record proxyRouter := mkRouter { data : T }.

Definition newProxyRouter : proxyRouter := mkRouter avl_empty.

(** The walk of [add]: true when it meets a range that intersects
    [newMinIP, newMaxIP]. *)
Fixpoint add_conflict (newMinIP newMaxIP : Z) (cur : node (routeItem D)) : bool :=
  match cur with
  | Nil => false
  | Node l curMinIP v r =>
      if max v <? newMinIP then add_conflict newMinIP newMaxIP r
      else if newMaxIP <? curMinIP then add_conflict newMinIP newMaxIP l
      else true
  end.

Definition add (key : Z) (value : routeItem D) : GoM proxyRouter bool :=
  if max value <? key then ret false
  else
    r <- get ;;
    if add_conflict key (max value) (avl_root (data r)) then ret false
    else put (mkRouter (avl_put key value (data r))) ;;; ret true.

Definition addRoute (ipNet : IPNet) (d : D) : GoM proxyRouter bool :=
  let '(min, max_) := getCidrIntRange ipNet in
  r <- get ;;
  match avl_get min (data r) with
  | None => add min (mkRouteItem max_ d)
  | Some ri =>
      if negb (max ri =? max_) then ret false
      else put (mkRouter (avl_put min (mkRouteItem (max ri) d) (data r))) ;;; ret true
  end.

Definition delRoute (ipNet : IPNet) : GoM proxyRouter unit :=
  let '(min, _) := getCidrIntRange ipNet in
  modify (fun r => mkRouter (avl_remove min (data r))).

(** The walk of [get]. *)
Fixpoint get_walk (key : Z) (n : node (routeItem D)) : option D :=
  match n with
  | Nil => None
  | Node l curMinIP ri r =>
      if (curMinIP <=? key) && (key <=? max ri) then Some (dialer ri)
      else if key <? curMinIP then get_walk key l
      else get_walk key r
  end.

Definition lookup_ip (key : Z) (r : proxyRouter) : option D := get_walk key (avl_root (data r)).

(** ** The abstract table

    A finite map from a range's first address to its last address and dialer;
    an address is routed by the range that holds it, found by scanning. *)
Abbreviation table := (gmap Z (routeItem D)).

Definition abs (r : proxyRouter) : table := to_map (avl_root (data r)).

Definition overlaps (a b c d : Z) : Prop := a <= d /\ c <= b.

(** Ranges are well formed, of 32-bit addresses, and pairwise disjoint. *)
Definition table_ok (m : table) : Prop :=
  (forall k v, m !! k = Some v -> 0 <= k <= max v /\ max v < 2 ^ 32) /\
  (forall k1 v1 k2 v2, m !! k1 = Some v1 -> m !! k2 = Some v2 -> k1 <> k2 ->
     ~ overlaps k1 (max v1) k2 (max v2)).

Definition Inv (r : proxyRouter) : Prop := avl_ok (data r) /\ table_ok (abs r).

(** The table's answers: what routes an address, what an addition does. *)
Definition routes (m : table) (ip : Z) (d : D) : Prop :=
  exists k v, m !! k = Some v /\ k <= ip <= max v /\ dialer v = d.

Definition free (m : table) (a b : Z) : Prop :=
  forall k v, m !! k = Some v -> ~ overlaps a b k (max v).

#[export] Instance free_dec m a b : Decision (free m a b).
Proof.
  refine (cast_if (decide (map_Forall (fun k v => ~ (a <= max v /\ k <= b)) m)));
    unfold free, overlaps; [intros k v Hk; by apply (m0 k v)|].
  intros Hf. apply n. intros k v Hk. by apply (Hf k v).
Defined.

Definition spec_add (a b : Z) (d : D) (m : table) : bool * table :=
  match m !! a with
  | Some v => if decide (max v = b) then (true, <[a := mkRouteItem b d]> m) else (false, m)
  | None => if decide (a <= b /\ free m a b) then (true, <[a := mkRouteItem b d]> m) else (false, m)
  end.

(** ** Lemmas *)

Lemma table_ok_sub (m m' : table) : m' ⊆ m -> table_ok m -> table_ok m'.
Proof.
  intros Hs [Hw Hd]. split.
  - intros k v Hk. apply Hw. by eapply lookup_weaken.
  - intros k1 v1 k2 v2 H1 H2. apply Hd; by eapply lookup_weaken.
Qed.

Lemma bst_sub (l : node (routeItem D)) k v r :
  bst (Node l k v r) ->
  to_map l ⊆ to_map (Node l k v r) /\ to_map r ⊆ to_map (Node l k v r).
Proof.
  intros Hb. pose proof Hb as (Hl & Hr & _). rewrite keys_in_map in Hl. rewrite keys_in_map in Hr.
  split; apply map_subseteq_spec; intros x y Hx; apply bst_bindings; eauto.
Qed.

(** Induction over the search tree of a table without overlaps: both
    sub-trees are such tables, and the root's range ends before the ranges on
    the right begin and begins after those on the left end. *)
Lemma table_tree_ind (P : node (routeItem D) -> Prop) :
  P Nil ->
  (forall l k v r,
     bst (Node l k v r) -> 0 <= k <= max v /\ max v < 2 ^ 32 -> P l -> P r ->
     (forall x y, to_map l !! x = Some y -> x <= max y /\ max y < k) ->
     (forall x y, to_map r !! x = Some y -> max v < x <= max y) -> P (Node l k v r)) ->
  forall n, bst n -> table_ok (to_map n) -> P n.
Proof.
  intros Hnil HS. induction n as [|l IHl k v r IHr]; intros Hb Hok; [done|].
  destruct (bst_sub l k v r Hb) as [Hsl Hsr].
  pose proof (table_ok_sub _ _ Hsl Hok) as Hokl. pose proof (table_ok_sub _ _ Hsr Hok) as Hokr.
  pose proof Hb as (_ & _ & Hbl & Hbr). destruct Hok as [Hw Hd].
  assert (Hk : to_map (Node l k v r) !! k = Some v) by (apply bst_bindings; auto).
  assert (Hlt : forall x y, to_map l !! x = Some y -> x < k).
  { destruct Hb as (Hl & _). rewrite keys_in_map in Hl. eauto. }
  assert (Hgt : forall x y, to_map r !! x = Some y -> k < x).
  { destruct Hb as (_ & Hr & _). rewrite keys_in_map in Hr. eauto. }
  pose proof (Hw k v Hk). apply HS; auto.
  - intros x y Hx. pose proof (Hlt x y Hx). apply (lookup_weaken _ _ _ _ Hx) in Hsl.
    pose proof (Hw _ _ Hsl). pose proof (Hd _ _ _ _ Hsl Hk). unfold overlaps in *. lia.
  - intros x y Hx. pose proof (Hgt x y Hx). apply (lookup_weaken _ _ _ _ Hx) in Hsr.
    pose proof (Hw _ _ Hsr). pose proof (Hd _ _ _ _ Hsr Hk). unfold overlaps in *. lia.
Qed.

(** The walk of [add] reports a conflict exactly when some range intersects
    the new one. *)
Lemma add_conflict_spec a b (n : node (routeItem D)) :
  a <= b -> bst n -> table_ok (to_map n) ->
  add_conflict a b n = false <-> free (to_map n) a b.
Proof.
  intros Hab. revert n. apply table_tree_ind.
  { split; [|done]. intros _ k v. simpl. by rewrite lookup_empty. }
  intros l k v r Hb Hkv IHl IHr Hl Hr. unfold free in *. setoid_rewrite bst_bindings; [|done].
  cbn [add_conflict]. unfold overlaps in *.
  case (Z.ltb_spec (max v) a); intros H1; [|case (Z.ltb_spec b k); intros H2].
  - rewrite IHr. split; [|intros Hf x y Hx; apply Hf; right; right; split; [done|]; specialize (Hr _ _ Hx); lia].
    intros Hf x y [[-> ->]|[[Hx _]|[Hx _]]]; [lia| |by apply Hf].
    specialize (Hl _ _ Hx). lia.
  - rewrite IHl. split; [|intros Hf x y Hx; apply Hf; right; left; split; [done|]; specialize (Hl _ _ Hx); lia].
    intros Hf x y [[-> ->]|[[Hx _]|[Hx _]]]; [lia|by apply Hf|].
    specialize (Hr _ _ Hx). lia.
  - split; [done|]. intros Hf. exfalso. apply (Hf k v); [by auto|lia].
Qed.

(** Among disjoint ranges the walk of [get] finds the one that holds the key. *)
Lemma get_walk_spec key (n : node (routeItem D)) d :
  bst n -> table_ok (to_map n) -> get_walk key n = Some d <-> routes (to_map n) key d.
Proof.
  revert n. apply table_tree_ind.
  { split; [done|]. intros (k & v & Hk & _). simpl in Hk. by rewrite lookup_empty in Hk. }
  intros l k v r Hb Hkv IHl IHr Hl Hr. unfold routes in *. setoid_rewrite bst_bindings; [|done].
  cbn [get_walk]. destruct ((k <=? key) && (key <=? max v)) eqn:E1; [|destruct (key <? k) eqn:E2].
  - split; [intros [= <-]; exists k, v; split_and!; [auto|lia|lia|done]|].
    intros (x & y & [[-> ->]|[[Hx _]|[Hx _]]] & Hin & <-); [done| |].
    + specialize (Hl _ _ Hx). lia.
    + specialize (Hr _ _ Hx). lia.
  - rewrite IHl. split.
    + intros (x & y & Hx & Hin & <-). pose proof (Hl _ _ Hx). exists x, y. split; [|done]. right; left. split; [done|lia].
    + intros (x & y & [[-> ->]|[[Hx _]|[Hx _]]] & Hin & <-); [lia|by eauto|]. specialize (Hr _ _ Hx). lia.
  - rewrite IHr. split.
    + intros (x & y & Hx & Hin & <-). pose proof (Hr _ _ Hx). exists x, y. split; [|done]. right; right. split; [done|lia].
    + intros (x & y & [[-> ->]|[[Hx _]|[Hx _]]] & Hin & <-); [lia| |by eauto]. specialize (Hl _ _ Hx). lia.
Qed.
(** Inserting a free range keeps the table's shape. *)
Lemma table_ok_insert (m : table) a b d :
  table_ok m -> 0 <= a <= b -> b < 2 ^ 32 -> free (delete a m) a b ->
  table_ok (<[a := mkRouteItem b d]> m).
Proof.
  intros [Hw Hd] Hab Hb Hf. unfold free in Hf. split.
  - intros k v. rewrite lookup_insert_Some. intros [[<- <-]|[_ Hk]]; [done|by apply Hw].
  - intros k1 v1 k2 v2. rewrite !lookup_insert_Some.
    intros [[<- <-]|[Hn1 H1]] [[<- <-]|[Hn2 H2]] Hne; [done| | |by eapply Hd].
    + apply Hf. by rewrite lookup_delete_ne.
    + specialize (Hf k1 v1). rewrite lookup_delete_ne in Hf by done.
      unfold overlaps in *. simpl. specialize (Hf H1). lia.
Qed.

Lemma table_ok_delete (m : table) a : table_ok m -> table_ok (delete a m).
Proof. apply table_ok_sub, delete_subseteq. Qed.

Lemma free_delete_None (m : table) a b c : m !! c = None -> free (delete c m) a b <-> free m a b.
Proof. intros Hc. by rewrite delete_id. Qed.

Lemma getCidrIntRange_u32 n : let '(a, b) := getCidrIntRange n in is_u32 a /\ is_u32 b.
Proof. unfold getCidrIntRange. destruct (Mask_Size _). split; apply u32_range. Qed.

(** [addRoute] follows the abstract table. *)
Lemma addRoute_refines n d r :
  Inv r ->
  let '(a, b) := getCidrIntRange n in
  let '(ok, m') := spec_add a b d (abs r) in
  exists r', addRoute n d r = (Ret ok, r') /\ abs r' = m' /\ Inv r'.
Proof.
  intros [Hok Htab]. pose proof (getCidrIntRange_u32 n) as Hr. unfold addRoute.
  destruct (getCidrIntRange n) as [a b]. destruct Hr as [Ha Hb]. unfold is_u32 in *.
  unfold spec_add, bind, get, put, ret. rewrite (avl_get_map a (data r) Hok). fold (abs r).
  destruct (abs r !! a) as [ri|] eqn:E.
  - destruct (decide (max ri = b)) as [<-|Hne].
    + rewrite Z.eqb_refl. cbn [negb]. eexists. split; [done|]. unfold Inv, abs. simpl.
      rewrite avl_put_map by done. split_and!; [done|by apply avl_ok_put|].
      destruct Htab as [Hw Hd]. destruct (Hw a ri E). apply table_ok_insert; [done|lia|lia|].
      intros k v. rewrite lookup_delete_Some. intros [Hka Hk]. eapply Hd; eauto.
    + rewrite (proj2 (Z.eqb_neq _ _) Hne). cbn [negb]. exists r. done.
  - unfold add. cbn [max]. unfold bind, get, put, ret.
    case (Z.ltb_spec b a); intros Hab.
    { rewrite decide_False by (intros [? _]; lia). exists r. done. }
    pose proof (add_conflict_spec a b (avl_root (data r)) Hab (avl_ok_bst _ Hok) Htab) as Hc.
    destruct (add_conflict a b (avl_root (data r))) eqn:Ec.
    + rewrite decide_False; [by exists r|]. intros [_ Hf]. apply Hc in Hf. done.
    + assert (Hf : free (abs r) a b) by by apply Hc. rewrite decide_True by done.
      eexists. split; [done|]. unfold Inv, abs. simpl. rewrite avl_put_map by done.
      split_and!; [done|by apply avl_ok_put|]. apply table_ok_insert; [done|lia|lia|].
      by apply free_delete_None.
Qed.

(** [delRoute] drops whatever range starts at the network's first address. *)
Lemma delRoute_refines n r :
  Inv r ->
  exists r', delRoute n r = (Ret tt, r') /\
    abs r' = delete (getCidrIntRange n).1 (abs r) /\ Inv r'.
Proof.
  intros [Hok Htab]. unfold delRoute, modify. destruct (getCidrIntRange n) as [a b].
  eexists. split; [done|]. unfold Inv, abs. simpl. rewrite avl_remove_map by done.
  split_and!; [done|by apply avl_ok_remove|by apply table_ok_delete].
Qed.

Lemma Inv_new : Inv newProxyRouter.
Proof.
  split; [apply avl_ok_empty|]. unfold abs. simpl. rewrite avl_empty_map.
  split; [intros k v|intros k v k' v']; by rewrite lookup_empty.
Qed.

(** ** Sequences of operations *)

Inductive op := OpAdd (n : IPNet) (d : D) | OpDel (n : IPNet) | OpGet (ip : Z).
Inductive answer := Added (ok : bool) | Deleted | Routed (d : option D).

Definition run_op (o : op) : GoM proxyRouter answer :=
  match o with
  | OpAdd n d => ok <- addRoute n d ;; ret (Added ok)
  | OpDel n => delRoute n ;;; ret Deleted
  | OpGet ip => d <- gets (lookup_ip ip) ;; ret (Routed d)
  end.

Fixpoint run_ops (os : list op) : GoM proxyRouter (list answer) :=
  match os with
  | [] => ret []
  | o :: os' => a <- run_op o ;; rest <- run_ops os' ;; ret (a :: rest)
  end.

(** The abstract table's answer to one operation. *)
Inductive spec_step (m : table) : op -> answer -> table -> Prop :=
  | spec_op_add n d :
      spec_step m (OpAdd n d)
        (Added (spec_add (getCidrIntRange n).1 (getCidrIntRange n).2 d m).1)
        (spec_add (getCidrIntRange n).1 (getCidrIntRange n).2 d m).2
  | spec_op_del n : spec_step m (OpDel n) Deleted (delete (getCidrIntRange n).1 m)
  | spec_op_hit ip d : routes m ip d -> spec_step m (OpGet ip) (Routed (Some d)) m
  | spec_op_miss ip : (forall d, ~ routes m ip d) -> spec_step m (OpGet ip) (Routed None) m.

Inductive spec_run : table -> list op -> list answer -> table -> Prop :=
  | spec_run_nil m : spec_run m [] [] m
  | spec_run_cons m o a m1 os rest m2 :
      spec_step m o a m1 -> spec_run m1 os rest m2 -> spec_run m (o :: os) (a :: rest) m2.

Lemma run_op_refines o r :
  Inv r -> exists a r', run_op o r = (Ret a, r') /\ spec_step (abs r) o a (abs r') /\ Inv r'.
Proof.
  intros HI. destruct o as [n d|n|ip]; simpl.
  - pose proof (addRoute_refines n d r HI) as Hadd.
    pose proof (spec_op_add (abs r) n d) as Hs. destruct (getCidrIntRange n) as [a b].
    simpl in Hs. destruct (spec_add a b d (abs r)) as [ok m'].
    destruct Hadd as (r' & Hr & <- & HI'). eexists _, r'. by rewrite (bind_Ret _ _ _ _ _ Hr).
  - destruct (delRoute_refines n r HI) as (r' & Hr & Ha & HI').
    eexists _, r'. rewrite (bind_Ret _ _ _ _ _ Hr). split; [done|]. rewrite Ha.
    split; [constructor|done].
  - destruct HI as [Hok Htab]. eexists _, r. split; [done|]. split; [|done].
    unfold lookup_ip. destruct (get_walk ip (avl_root (data r))) as [d|] eqn:E.
    + constructor. by apply get_walk_spec; [apply avl_ok_bst| |].
    + constructor. intros d Hd. apply get_walk_spec in Hd; [congruence|by apply avl_ok_bst|done].
Qed.
(** ** Properties *)

Lemma lookup_ip_routes ip r d : Inv r -> lookup_ip ip r = Some d <-> routes (abs r) ip d.
Proof. intros [Hok Htab]. apply get_walk_spec; [by apply avl_ok_bst|done]. Qed.

(** C3. The router implements the abstract table of disjoint ranges: starting
    from [newProxyRouter], every sequence of [addRoute], [delRoute] and [get]
    runs to its end without panic, and the answers are the ones of the table
    (an addition is accepted when the range is free or the same range is
    there already, a deletion drops the range with that first address, a lookup
    finds the range that holds the address, if one does). *)
Theorem router_refines os :
  exists ans r', run_ops os newProxyRouter = (Ret ans, r') /\
    spec_run (abs newProxyRouter) os ans (abs r') /\ Inv r'.
Proof.
  pose proof Inv_new as HI. revert HI. generalize newProxyRouter.
  induction os as [|o os IH]; intros r HI.
  { exists [], r. split_and!; [done|constructor|done]. }
  destruct (run_op_refines o r HI) as (a & r1 & H1 & Hs & HI1).
  destruct (IH r1 HI1) as (ans & r2 & H2 & Hr & HI2).
  exists (a :: ans), r2. cbn [run_ops]. rewrite (bind_Ret _ _ _ _ _ H1), (bind_Ret _ _ _ _ _ H2).
  split_and!; [done| |done]. econstructor; eauto.
Qed.

(** [get] on a table whose ranges are disjoint: it returns the dialer [d]
    exactly when some range holds the address and has [d], and the range is
    unique. *)
Theorem get_finds_range ip r :
  Inv r ->
  (forall d, lookup_ip ip r = Some d <-> routes (abs r) ip d) /\
  (forall d1 d2, routes (abs r) ip d1 -> routes (abs r) ip d2 -> d1 = d2).
Proof.
  intros HI. split; [intros d; by apply lookup_ip_routes|].
  intros d1 d2 H1%lookup_ip_routes H2%lookup_ip_routes; [congruence|done..].
Qed.

Lemma addRoute_run n d r :
  Inv r ->
  let '(a, b) := getCidrIntRange n in
  exists ok r', addRoute n d r = (Ret ok, r') /\ Inv r' /\
    (ok = true <-> (exists v, abs r !! a = Some v /\ max v = b) \/
                   (abs r !! a = None /\ a <= b /\ free (abs r) a b)) /\
    (ok = false -> abs r' = abs r) /\
    (ok = true -> forall ip, lookup_ip ip r' =
       if decide (a <= ip <= b) then Some d else lookup_ip ip r).
Proof.
  intros HI. pose proof (addRoute_refines n d r HI) as Hadd.
  destruct (getCidrIntRange n) as [a b].
  destruct (spec_add a b d (abs r)) as [ok m'] eqn:Es. destruct Hadd as (r' & Hr & Ha & HI').
  exists ok, r'. split_and!; [done|done| | |]; unfold spec_add in Es.
  - destruct (abs r !! a) as [v|] eqn:E; case_decide as Hd; simplify_eq.
    + split; [|done]. intros _. left. by exists v.
    + split; [done|]. intros [(v' & [= <-] & Hv)|[? _]]; done.
    + split; [|done]. auto.
    + split; [done|]. intros [(? & ? & _)|(_ & Hx)]; [done|by destruct (Hd Hx)].
  - intros ->. destruct (abs r !! a) as [v|]; case_decide; simplify_eq; done.
  - intros ->. assert (Hm : m' = <[a := mkRouteItem b d]> (abs r)).
    { destruct (abs r !! a) as [v|]; case_decide; by simplify_eq. }
    subst m'. intros ip. apply option_eq. intros x.
    rewrite (lookup_ip_routes ip r' x HI'). unfold routes. rewrite Hm.
    assert (Hgone : forall k v, abs r !! k = Some v -> k <> a -> k <= ip <= max v -> ~ (a <= ip <= b)).
    { destruct HI' as [_ [_ Hdis]]. intros k v Hk Hne Hin Hab. rewrite Hm in Hdis.
      apply (Hdis k v a (mkRouteItem b d)); unfold overlaps; simpl; try done;
        rewrite ?lookup_insert_ne, ?lookup_insert_eq by done; [done..|lia]. }
    destruct (decide (a <= ip <= b)) as [Hin|Hin].
    + split.
      * intros (k & v & Hk & Hkv & <-). apply lookup_insert_Some in Hk.
        destruct Hk as [[<- <-]|[Hne Hk]]; [done|]. by destruct (Hgone k v Hk (not_eq_sym Hne) Hkv).
      * intros [= <-]. exists a, (mkRouteItem b d). by rewrite lookup_insert_eq.
    + rewrite (lookup_ip_routes ip r x HI). unfold routes. split.
      * intros (k & v & Hk & Hkv & <-). apply lookup_insert_Some in Hk.
        destruct Hk as [[<- <-]|[Hne Hk]]; [done|]. eauto.
      * intros (k & v & Hk & Hkv & <-). exists k, v. rewrite lookup_insert_ne; [done|].
        intros <-. apply Hin.
        rewrite Hk in Es. case_decide; simplify_eq. lia.
Qed.

(** [addRoute] on every branch: it keeps the ranges disjoint; it answers
    true exactly when the same range is present (its dialer is replaced) or
    the range is well formed and free; on false nothing changes; on true the
    addresses of the range go to the new dialer and the others are routed as
    before. *)
Theorem addRoute_spec n d r :
  Inv r ->
  let '(a, b) := getCidrIntRange n in
  exists ok r', addRoute n d r = (Ret ok, r') /\ Inv r' /\
    (ok = true <-> (exists v, abs r !! a = Some v /\ max v = b) \/
                   (abs r !! a = None /\ a <= b /\ free (abs r) a b)) /\
    (ok = false -> abs r' = abs r) /\
    (ok = true -> forall ip, lookup_ip ip r' =
       if decide (a <= ip <= b) then Some d else lookup_ip ip r).
Proof. exact (addRoute_run n d r). Qed.

(** [delRoute] looks only at the first address of the network: deleting a
    network drops the range of any other network with the same first address,
    of whatever length, and leaves every other range alone. *)
Theorem delRoute_ignores_mask n n' d r :
  Inv r -> (getCidrIntRange n).1 = (getCidrIntRange n').1 ->
  (addRoute n d r).1 = Ret true ->
  let r1 := (addRoute n d r).2 in
  exists r2, delRoute n' r1 = (Ret tt, r2) /\ Inv r2 /\
    (forall ip, (getCidrIntRange n).1 <= ip <= (getCidrIntRange n).2 -> lookup_ip ip r2 = None) /\
    abs r2 = delete (getCidrIntRange n).1 (abs r).
Proof.
  intros HI Hsame Hok. pose proof (addRoute_refines n d r HI) as Hadd.
  destruct (getCidrIntRange n) as [a b]. simpl in *.
  destruct (spec_add a b d (abs r)) as [ok m'] eqn:Es. destruct Hadd as (r1 & Hr & Ha & HI1).
  rewrite Hr in *. simpl in *. injection Hok as ->.
  destruct (delRoute_refines n' r1 HI1) as (r2 & Hr2 & Ha2 & HI2). rewrite <- Hsame, Ha in Ha2.
  assert (Hm : m' = <[a := mkRouteItem b d]> (abs r)).
  { unfold spec_add in Es. destruct (abs r !! a); case_decide; by simplify_eq. }
  rewrite Hm, delete_insert_eq in Ha2. exists r2. split_and!; [done|done| |done].
  intros ip Hip. destruct (lookup_ip ip r2) as [x|] eqn:E; [|done]. exfalso.
  apply (lookup_ip_routes ip r2 x HI2) in E as (k & v & Hk & Hkv & _).
  rewrite Ha2, lookup_delete_Some in Hk. destruct Hk as [Hne Hk].
  destruct HI1 as [_ [_ Hdis]]. rewrite Ha, Hm in Hdis.
  apply (Hdis k v a (mkRouteItem b d)); unfold overlaps; simpl; try done;
    rewrite ?lookup_insert_ne, ?lookup_insert_eq by done; [done..|lia].
Qed.
End Router.

(** ** CIDR networks *)

(** [IPNet.Contains] for a four-byte network and address. *)
Definition contains4 (n : IPNet) (ip : bytes) : bool :=
  bool_decide (zip_with Z.land (net_ip n) (net_mask n) = zip_with Z.land ip (net_mask n)).

Lemma land_prefix_mask b k :
  0 <= k <= 8 -> is_byte b -> Z.land b (256 - 2 ^ k) = b - b mod 2 ^ k.
Proof.
  intros Hk Hb. unfold is_byte in Hb.
  assert (Hd : b - b mod 2 ^ k = Z.shiftl (Z.shiftr b k) k).
  { rewrite Z.shiftl_mul_pow2, Z.shiftr_div_pow2 by lia.
    pose proof (Z.div_mod b (2 ^ k)). lia. }
  rewrite Hd, <- Z.ldiff_ones_r by lia.
  assert (Hm : 256 - 2 ^ k = Z.ldiff (Z.ones 8) (Z.ones k)).
  { rewrite Z.ldiff_ones_r by lia. rewrite Z.shiftl_mul_pow2, Z.shiftr_div_pow2 by lia.
    rewrite Z.ones_equiv. assert (2 ^ 8 = 2 ^ k * 2 ^ (8 - k)) by (rewrite <- Z.pow_add_r; [f_equal|..]; lia).
    assert (0 < 2 ^ k) by (apply Z.pow_pos_nonneg; lia).
    assert (0 < 2 ^ (8 - k)) by (apply Z.pow_pos_nonneg; lia).
    assert (Z.pred (2 ^ 8) / 2 ^ k = 2 ^ (8 - k) - 1) as ->; [|nia].
    symmetry. apply Z.div_unique with (2 ^ k - 1); lia. }
  rewrite Hm, !Z.ldiff_land, Z.land_assoc. rewrite Z.land_ones by lia.
  by rewrite Z.mod_small by lia.
Qed.

Lemma SetBytes_cons b l : SetBytes (b :: l) = b * 256 ^ Z.of_nat (length l) + SetBytes l.
Proof.
  unfold SetBytes. simpl.
  assert (Hacc : forall x, foldl (fun a b => a * 256 + b) x l =
                   x * 256 ^ Z.of_nat (length l) + foldl (fun a b => a * 256 + b) 0 l).
  { induction l as [|c l IH]; intros x; [simpl; lia|]. cbn [length foldl].
    rewrite IH, (IH (0 * 256 + c)). rewrite Nat2Z.inj_succ, Z.pow_succ_r by lia. ring. }
  by rewrite Hacc.
Qed.

Lemma SetBytes_range l : Forall is_byte l -> 0 <= SetBytes l < 256 ^ Z.of_nat (length l).
Proof.
  induction 1 as [|b l Hb _ IH]; [done|]. rewrite SetBytes_cons. simpl length.
  rewrite Nat2Z.inj_succ, Z.pow_succ_r by lia. unfold is_byte in Hb. nia.
Qed.

Lemma SetBytes_inj l1 l2 :
  Forall is_byte l1 -> Forall is_byte l2 -> length l1 = length l2 ->
  SetBytes l1 = SetBytes l2 -> l1 = l2.
Proof.
  intros H1. revert l2. induction H1 as [|b l1 Hb Hl IH]; intros [|c l2] H2 Hlen; try done.
  inversion_clear H2 as [|? ? Hc Hl2]. injection Hlen as Hlen. rewrite !SetBytes_cons, <- Hlen.
  pose proof (SetBytes_range l1 Hl). pose proof (SetBytes_range l2 Hl2) as H2. rewrite <- Hlen in H2.
  unfold is_byte in *. intros E. assert (b = c) as -> by nia. f_equal. apply IH; [done..|lia].
Qed.

Lemma mod_mul_add x m s : m <> 0 -> (x * m + s) mod m = s mod m.
Proof. intros Hm. by rewrite Z.add_comm, Z.mod_add. Qed.

Lemma land_is_byte b m : is_byte b -> is_byte (Z.land b m).
Proof.
  intros Hb. assert (E : Z.land b m = Z.land b m mod 256).
  { change 256 with (2 ^ 8). rewrite <- Z.land_ones by lia. rewrite <- Z.land_assoc, (Z.land_comm m).
    rewrite Z.land_assoc, (Z.land_ones b 8) by lia. by rewrite (Z.mod_small b) by done. }
  unfold is_byte. rewrite E. apply Z.mod_pos_bound. lia.
Qed.

Lemma zip_land_bytes l m : Forall is_byte l -> Forall is_byte (zip_with Z.land l m).
Proof.
  intros H. revert m. induction H as [|b l Hb _ IH]; intros [|c m]; simpl; constructor; auto.
  by apply land_is_byte.
Qed.

(** Masking a big-endian integer rounds it down to a multiple of the block. *)
Lemma SetBytes_masked l n :
  Forall is_byte l -> (n <= 8 * length l)%nat ->
  SetBytes (zip_with Z.land l (CIDRMask n (length l))) =
  SetBytes l - SetBytes l mod 2 ^ (8 * Z.of_nat (length l) - Z.of_nat n).
Proof.
  intros H. revert n. induction H as [|b l Hb Hl IH]; intros n Hn.
  { assert (n = 0%nat) as -> by (simpl in Hn; lia). done. }
  assert (Hz : SetBytes (zip_with Z.land l (CIDRMask 0 (length l))) = 0).
  { rewrite IH by lia. pose proof (SetBytes_range l Hl) as Hr.
    rewrite Z.sub_0_r, Z.pow_mul_r by lia. change (2 ^ 8) with 256. rewrite Z.mod_small; lia. }
  pose proof (SetBytes_range l Hl) as Hr. cbn [length CIDRMask].
  set (L := Z.of_nat (length l)) in *. assert (HP : 256 ^ L = 2 ^ (8 * L)) by (by rewrite Z.pow_mul_r by lia).
  rewrite Nat2Z.inj_succ. fold L. case (Nat.leb_spec 8 n); intros H8.
  - cbn [zip_with]. rewrite !SetBytes_cons, length_zip_with, length_CIDRMask, Nat.min_id, IH by (simpl in Hn; lia).
    fold L. rewrite Nat2Z.inj_sub by done. change (Z.of_nat 8) with 8.
    replace (8 * L - (Z.of_nat n - 8)) with (8 * Z.succ L - Z.of_nat n) by lia.
    replace 255 with (256 - 2 ^ 0) by done. rewrite land_prefix_mask by (done || lia).
    change (2 ^ 0) with 1. rewrite Z.mod_1_r. simpl in Hn.
    set (M := 2 ^ (8 * Z.succ L - Z.of_nat n)).
    assert (HM : 256 ^ L = 2 ^ (Z.of_nat n - 8) * M).
    { unfold M. rewrite HP, <- Z.pow_add_r by lia. f_equal. lia. }
    assert (M <> 0) by (apply Z.pow_nonzero; lia).
    rewrite HM, (Z.mul_assoc b), mod_mul_add by done. lia.
  - cbn [zip_with]. rewrite !SetBytes_cons, length_zip_with, length_CIDRMask, Nat.min_id, Hz.
    fold L. rewrite land_prefix_mask by (done || lia).
    replace (8 * Z.succ L - Z.of_nat n) with (8 * L + (8 - Z.of_nat n)) by lia.
    rewrite Z.pow_add_r, <- HP by lia. set (P := 256 ^ L) in *.
    assert (0 < P) by (apply Z.pow_pos_nonneg; lia).
    assert (E1 : (b * P + SetBytes l) mod P = SetBytes l)
      by (rewrite mod_mul_add by lia; apply Z.mod_small; lia).
    assert (E2 : (b * P + SetBytes l) / P = b)
      by (rewrite Z.div_add_l, Z.div_small by lia; lia).
    rewrite Z.rem_mul_r, E1, E2 by (try apply Z.pow_pos_nonneg; lia). ring.
Qed.

(** An IPv4 network given by a base address and a prefix length, as
    [net.ParseCIDR] returns it. *)
Definition v4net (base : bytes) (n : nat) : IPNet :=
  mkIPNet (zip_with Z.land base (CIDRMask n 4)) (CIDRMask n 4).

Lemma v4net_range base n :
  length base = 4%nat -> (n <= 32)%nat ->
  getCidrIntRange (v4net base n) =
    (u32 (SetBytes (net_ip (v4net base n))),
     u32 (u32 (SetBytes (net_ip (v4net base n))) + (2 ^ (32 - Z.of_nat n) - 1))).
Proof.
  intros Hb Hn. unfold getCidrIntRange. cbn [net_mask v4net].
  rewrite Mask_Size_CIDRMask by lia.
  assert (Ht : To4 (net_ip (v4net base n)) = Some (net_ip (v4net base n))).
  { unfold To4. cbn [net_ip v4net]. by rewrite length_zip_with, length_CIDRMask, Hb. }
  rewrite Ht. cbn [default]. f_equal. f_equal. f_equal.
  do 33 (destruct n as [|n]; [vm_compute; reflexivity|]). lia.
Qed.

(** An IPv4 network of any prefix length becomes exactly the interval of
    its addresses: an address is in the network, in the sense of
    [IPNet.Contains], if and only if it lies between the two bounds
    [getCidrIntRange] computes, and the bounds are in order. *)
Theorem cidr_range_exact base ip n :
  Forall is_byte base -> length base = 4%nat -> Forall is_byte ip -> length ip = 4%nat ->
  (n <= 32)%nat ->
  let a := (getCidrIntRange (v4net base n)).1 in
  let b := (getCidrIntRange (v4net base n)).2 in
  0 <= a <= b /\ b < 2 ^ 32 /\ (contains4 (v4net base n) ip = true <-> a <= SetBytes ip <= b).
Proof.
  intros Hb Hlb Hi Hli Hn. cbv zeta. rewrite v4net_range by done. cbn [fst snd].
  assert (Hm : forall l, Forall is_byte l -> length l = 4%nat ->
    SetBytes (zip_with Z.land l (CIDRMask n 4)) = SetBytes l - SetBytes l mod 2 ^ (32 - Z.of_nat n)).
  { intros l Hl Hlen. rewrite <- Hlen at 1. rewrite SetBytes_masked by (done || lia). by rewrite Hlen. }
  pose proof (SetBytes_range _ Hb) as Rb. pose proof (SetBytes_range _ Hi) as Ri.
  rewrite Hlb in Rb. rewrite Hli in Ri. change (256 ^ Z.of_nat 4) with (2 ^ 32) in *.
  unfold contains4. rewrite bool_decide_eq_true. cbn [net_ip net_mask v4net].
  assert (Hc : zip_with Z.land (zip_with Z.land base (CIDRMask n 4)) (CIDRMask n 4) =
               zip_with Z.land base (CIDRMask n 4)).
  { generalize (CIDRMask n 4). clear. induction base as [|x l IH]; intros [|y m]; simpl; [done..|].
    by rewrite <- Z.land_assoc, Z.land_diag, IH. }
  rewrite Hc, (Hm base Hb Hlb). set (K := 2 ^ (32 - Z.of_nat n)) in *.
  assert (HK : 2 ^ 32 = 2 ^ Z.of_nat n * K) by (unfold K; rewrite <- Z.pow_add_r; [f_equal|..]; lia).
  assert (0 < K) by (apply Z.pow_pos_nonneg; lia).
  set (S := SetBytes base) in *. set (I := SetBytes ip) in *.
  assert (HS : S - S mod K = K * (S / K)) by (pose proof (Z.div_mod S K); lia).
  assert (0 <= S / K < 2 ^ Z.of_nat n).
  { split; [apply Z.div_pos; lia|]. apply Z.div_lt_upper_bound; lia. }
  rewrite HS. rewrite (u32_small (K * (S / K))) by (unfold is_u32; nia).
  rewrite u32_small by (unfold is_u32; nia).
  split; [nia|]. split; [nia|].
  assert (Heq : zip_with Z.land base (CIDRMask n 4) = zip_with Z.land ip (CIDRMask n 4) <-> S / K = I / K).
  { split; intros E.
    - apply (f_equal SetBytes) in E. rewrite (Hm base Hb Hlb), (Hm ip Hi Hli) in E. fold S I K in E.
      pose proof (Z.div_mod I K). nia.
    - apply SetBytes_inj; [by apply zip_land_bytes..| |].
      + by rewrite !length_zip_with, Hlb, Hli.
      + rewrite (Hm base Hb Hlb), (Hm ip Hi Hli). fold S I K. pose proof (Z.div_mod I K). nia. }
  rewrite Heq. pose proof (Z.div_mod I K). pose proof (Z.mod_pos_bound I K).
  split; [nia|]. intros HI. apply Z.div_unique with (I - K * (S / K)); lia.
Qed.

(** ** Witnesses on the concrete tree *)

Definition ex_net : IPNet := v4net [10; 1; 2; 3] 8.
Definition ex_net16 : IPNet := v4net [10; 0; 9; 9] 16.
Abbreviation ex_router := (@proxyRouter (node (routeItem nat))).
Definition ex_empty : ex_router := newProxyRouter (D := nat).
Definition ex_one : ex_router := (addRoute ex_net 7%nat ex_empty).2.

Lemma ex_one_Inv : Inv ex_one.
Proof.
  pose proof (addRoute_refines ex_net 7%nat ex_empty Inv_new) as H. unfold ex_one.
  destruct (getCidrIntRange ex_net), (spec_add _ _ _ _). by destruct H as (r' & -> & _ & HI).
Qed.

Lemma get_finds_range_witness :
  lookup_ip (SetBytes [10; 200; 0; 1]) ex_one = Some 7%nat /\
  lookup_ip (SetBytes [11; 0; 0; 0]) ex_one = None /\
  ((forall d, lookup_ip (SetBytes [10; 200; 0; 1]) ex_one = Some d <->
              routes (abs ex_one) (SetBytes [10; 200; 0; 1]) d) /\
   (forall d1 d2, routes (abs ex_one) (SetBytes [10; 200; 0; 1]) d1 ->
      routes (abs ex_one) (SetBytes [10; 200; 0; 1]) d2 -> d1 = d2)).
Proof.
  split; [vm_compute; reflexivity|]. split; [vm_compute; reflexivity|].
  exact (get_finds_range (SetBytes [10; 200; 0; 1]) ex_one ex_one_Inv).
Defined.

Lemma addRoute_spec_witness :
  (addRoute ex_net16 8%nat ex_one).1 = Ret false /\
  (addRoute (v4net [11; 0; 0; 0] 8) 8%nat ex_one).1 = Ret true /\
  let '(a, b) := getCidrIntRange ex_net16 in
  exists ok r', addRoute ex_net16 8%nat ex_one = (Ret ok, r') /\ Inv r' /\
    (ok = true <-> (exists v, abs ex_one !! a = Some v /\ max v = b) \/
                   (abs ex_one !! a = None /\ a <= b /\ free (abs ex_one) a b)) /\
    (ok = false -> abs r' = abs ex_one) /\
    (ok = true -> forall ip, lookup_ip ip r' =
       if decide (a <= ip <= b) then Some 8%nat else lookup_ip ip ex_one).
Proof.
  split; [vm_compute; reflexivity|]. split; [vm_compute; reflexivity|].
  exact (addRoute_spec ex_net16 8%nat ex_one ex_one_Inv).
Defined.

(** Adding 10.0.0.0/8 and deleting 10.0.0.0/16 leaves nothing. *)
Lemma delRoute_ignores_mask_witness :
  exists r2, delRoute ex_net16 ex_one = (Ret tt, r2) /\ Inv r2 /\
    (forall ip, (getCidrIntRange ex_net).1 <= ip <= (getCidrIntRange ex_net).2 ->
       lookup_ip ip r2 = None) /\
    abs r2 = delete (getCidrIntRange ex_net).1 (abs ex_empty).
Proof.
  exact (delRoute_ignores_mask ex_net ex_net16 7%nat ex_empty Inv_new
           ltac:(vm_compute; reflexivity) ltac:(vm_compute; reflexivity)).
Defined.

Lemma cidr_range_exact_witness :
  let a := (getCidrIntRange ex_net).1 in
  let b := (getCidrIntRange ex_net).2 in
  0 <= a <= b /\ b < 2 ^ 32 /\
  (contains4 ex_net [10; 255; 0; 1] = true <-> a <= SetBytes [10; 255; 0; 1] <= b).
Proof.
  apply (cidr_range_exact [10; 1; 2; 3] [10; 255; 0; 1] 8); try reflexivity;
    repeat constructor; done || lia.
Defined.

(** A network that is not IPv4 is not refused: whatever its address, the
    range starts at 0.0.0.0, and for a prefix of at most 96 bits it is the
    whole IPv4 space. *)
Theorem v6_net_takes_all_ipv4 ip n :
  length ip = 16%nat -> To4 ip = None -> (n <= 128)%nat ->
  getCidrIntRange (mkIPNet ip (CIDRMask n 16)) =
    (0, if decide (n <= 96)%nat then 2 ^ 32 - 1 else 2 ^ (128 - Z.of_nat n) - 1).
Proof.
  intros Hl Ht Hn. unfold getCidrIntRange. cbn [net_ip net_mask].
  rewrite Ht, Mask_Size_CIDRMask by lia. cbn [default].
  do 129 (destruct n as [|n]; [vm_compute; reflexivity|]). lia.
Qed.

Lemma v6_net_takes_all_ipv4_witness :
  ParseCIDR "2001:db8::/32" =
    Some ([32; 1; 13; 184; 0; 0; 0; 0; 0; 0; 0; 0; 0; 0; 0; 0],
          mkIPNet [32; 1; 13; 184; 0; 0; 0; 0; 0; 0; 0; 0; 0; 0; 0; 0] (CIDRMask 32 16)) /\
  getCidrIntRange (mkIPNet [32; 1; 13; 184; 0; 0; 0; 0; 0; 0; 0; 0; 0; 0; 0; 0] (CIDRMask 32 16)) =
    (0, 4294967295).
Proof.
  split; [vm_compute; reflexivity|].
  apply (v6_net_takes_all_ipv4 _ 32); [done|done|lia].
Defined.
