(* ===== verification/RouterRace.v ===== *)
(** src/gateway/proxy_router.go with its lock: [delRoute], [get] and [add] take
    it, the part of [addRoute] before and after does not.  The goroutines that
    call the router are interleaved between the accesses to the tree; each
    access is one step, which for those without the lock is the best that can
    happen.  The theorems: while the calls of [addRoute] do not overlap, every
    interleaving answers as the calls did one after the other; and two of them
    that do overlap can leave overlapping ranges. *)
From S2P Require Import Prelude GoText GoIo GoNet Avl ProxyRouter.

Section Race.
Context {D T : Type} {Tree : AvlTree (routeItem D) T} {Laws : AvlLaws (routeItem D) T}.
Abbreviation router := (@proxyRouter T).

(** Where a goroutine stands in its call: before it, in [addRoute] after the
    range was not found, after it was found with the same end, and after the
    call. *)
Inductive pc :=
  | Calling (o : @op D)
  | Missing (n : IPNet) (d : D)
  | Found (n : IPNet) (d : D)
  | Answered (a : @answer D).

(** The next access to the tree. *)
Definition move (p : pc) (r : router) : option (pc * router) :=
  match p with
  | Calling (OpAdd n d) =>
      let '(min, max_) := getCidrIntRange n in
      match avl_get min (data r) with
      | None => Some (Missing n d, r)
      | Some ri => if negb (max ri =? max_) then Some (Answered (Added false), r) else Some (Found n d, r)
      end
  | Missing n d =>
      let '(min, max_) := getCidrIntRange n in
      match add min (mkRouteItem max_ d) r with
      | (Ret ok, r') => Some (Answered (Added ok), r')
      | (Panic, _) => None
      end
  | Found n d =>
      let '(min, max_) := getCidrIntRange n in
      Some (Answered (Added true), mkRouter (avl_put min (mkRouteItem max_ d) (data r)))
  | Calling (OpDel n) =>
      match delRoute n r with
      | (Ret _, r') => Some (Answered Deleted, r')
      | (Panic, _) => None
      end
  | Calling (OpGet ip) => Some (Answered (Routed (lookup_ip ip r)), r)
  | Answered _ => None
  end.

Definition op_of (p : pc) : list (@op D) :=
  match p with Calling o => [o] | Missing n d | Found n d => [OpAdd n d] | Answered _ => [] end.

(** The router, its goroutines, and the calls that have been answered, in the
    order of their last accesses. *)
Record world := mkWorld { rt : router; threads : list pc; answered : list (@op D * @answer D) }.

Definition answered_by (p p' : pc) : list (@op D * @answer D) :=
  match p' with Answered a => map (fun o => (o, a)) (op_of p) | _ => [] end.

Inductive rstep : world -> world -> Prop :=
  | rstep_call w o : rstep w (mkWorld (rt w) (threads w ++ [Calling o]) (answered w))
  | rstep_move w i p p' r' : threads w !! i = Some p -> move p (rt w) = Some (p', r') ->
      rstep w (mkWorld r' (<[i := p']> (threads w)) (answered w ++ answered_by p p')).

Definition world_new : world := mkWorld (newProxyRouter (D := D)) [] [].

(** A goroutine inside [addRoute]. *)
Definition adding (p : pc) : bool :=
  match p with Calling (OpAdd _ _) | Missing _ _ | Found _ _ => true | _ => false end.

(** The calls of [addRoute] do not overlap. *)
Definition one_adder (w : world) : Prop :=
  forall i j p q, threads w !! i = Some p -> threads w !! j = Some q -> adding p = true -> adding q = true -> i = j.

Definition sstep (w w' : world) : Prop := rstep w w' /\ one_adder w'.

Lemma one_adder_count w : (length (List.filter adding (threads w)) <= 1)%nat -> one_adder w.
Proof.
  unfold one_adder. generalize (threads w). intros l. induction l as [|x l IH]; intros Hc i j p q Hi Hj Hp Hq; [done|]. cbn in Hc.
  assert (Hnone : forall k y, adding x = true -> l !! k = Some y -> adding y = false).
  { intros k y Hx Hk. rewrite Hx in Hc. cbn in Hc. destruct (adding y) eqn:Ey; [|done].
    assert (Hin : In y (List.filter adding l)) by (apply filter_In; split; [by eapply list_elem_of_In, list_elem_of_lookup_2|done]).
    destruct (List.filter adding l); [done|cbn in Hc; lia]. }
  destruct i as [|i], j as [|j]; cbn in Hi, Hj.
  - done.
  - injection Hi as <-. by rewrite (Hnone _ _ Hp Hj) in Hq.
  - injection Hj as <-. by rewrite (Hnone _ _ Hq Hi) in Hp.
  - f_equal. apply (IH ltac:(destruct (adding x); cbn in Hc; lia) i j p q); done.
Qed.

(** * One goroutine alone *)

(** Run to its end without the others, a call is the router's operation. *)
Fixpoint alone (fuel : nat) (p : pc) (r : router) : option (@answer D * router) :=
  match fuel, p with
  | _, Answered a => Some (a, r)
  | O, _ => None
  | S fuel, _ => match move p r with Some (p', r') => alone fuel p' r' | None => None end
  end.

Theorem alone_is_op o r : alone 3 (Calling o) r = match run_op o r with (Ret a, r') => Some (a, r') | (Panic, _) => None end.
Proof.
  destruct o as [n d|n|ip]; cbn [alone move run_op]; unfold bind, gets, ret.
  - unfold addRoute. destruct (getCidrIntRange n) as [a b] eqn:En. unfold bind, get, put, ret.
    destruct (avl_get a (data r)) as [ri|]; cbn [alone move]; rewrite ?En.
    + destruct (Z.eqb_spec (max ri) b) as [->|]; cbn [negb alone move]; rewrite ?En; done.
    + destruct (add a (mkRouteItem b d) r) as [[ok|] r']; done.
  - destruct (delRoute n r) as [[[]|] r']; done.
  - done.
Qed.

(** * All of them *)

(** What a goroutine inside [addRoute] relies on between its accesses. *)
Definition relies (r : router) (p : pc) : Prop :=
  match p with
  | Missing n d => abs r !! (getCidrIntRange n).1 = None
  | Found n d =>
      (forall v, abs r !! (getCidrIntRange n).1 = Some v -> max v = (getCidrIntRange n).2) /\
      table_ok (<[(getCidrIntRange n).1 := mkRouteItem (getCidrIntRange n).2 d]> (abs r))
  | _ => True
  end.

Definition linear (w : world) : Prop :=
  Inv (rt w) /\ Forall (relies (rt w)) (threads w) /\
  spec_run (D := D) ∅ (answered w).*1 (answered w).*2 (abs (rt w)).

Lemma spec_run_snoc (m : gmap Z (routeItem D)) os ans m1 o a m2 : spec_run m os ans m1 -> spec_step m1 o a m2 ->
  spec_run m (os ++ [o]) (ans ++ [a]) m2.
Proof. induction 1; intros Hs; cbn; econstructor; eauto. constructor. Qed.

Lemma relies_delete k r r' p : abs r' = delete k (abs r) -> relies r p -> relies r' p.
Proof.
  intros E. destruct p as [|n d|n d|]; cbn; [done| |intros [H1 H2]|done]; rewrite E.
  - intros H. apply lookup_delete_None. by right.
  - split; [intros v [_ Hv]%lookup_delete_Some; by apply H1|].
    apply (table_ok_sub _ _ (insert_mono _ _ _ _ (delete_subseteq _ _)) H2).
Qed.

(** The last access of a call: the table answers as to the whole call. *)
Lemma move_answers p r p' r' : Inv r -> relies r p -> move p r = Some (p', r') ->
  Inv r' /\ relies r' p' /\
  match p' with
  | Answered a => exists o, op_of p = [o] /\ spec_step (abs r) o a (abs r')
  | _ => r' = r /\ adding p = true
  end.
Proof.
  intros HI Hrel. destruct p as [o|n d|n d|a]; cbn [move]; [| | |done].
  - destruct o as [n d|n|ip].
    + cbn [op_of adding]. pose proof (getCidrIntRange_u32 n) as Hu. pose proof (spec_op_add (abs r) n d) as Hs.
      destruct HI as [Hok Htab].
      cbn [relies]. destruct (getCidrIntRange n) as [a b] eqn:En. destruct Hu as [Ha Hb]. unfold spec_add in Hs. cbn [fst snd] in Hs.
      rewrite (avl_get_map _ _ Hok). fold (abs r).
      destruct (abs r !! a) as [v|] eqn:E; [|by intros [= <- <-]; cbn; rewrite En].
      destruct (Z.eqb_spec (max v) b) as [Hvb|Hvb]; cbn [negb]; intros [= <- <-].
      * split; [done|]. split; [|done]. cbn. rewrite En. cbn. split; [congruence|].
        unfold is_u32 in *. apply table_ok_insert; [done| | |].
        -- destruct (proj1 Htab a v E). lia.
        -- lia.
        -- intros k w [Hne Hk]%lookup_delete_Some. rewrite <- Hvb. by apply (proj2 Htab a v k w E Hk).
      * split; [done|]. split; [done|]. eexists. split; [done|]. by rewrite decide_False in Hs.
    + destruct (delRoute_refines n r HI) as (r2 & Hr & Ha & HI2). rewrite Hr. intros [= <- <-]. split; [done|]. split; [done|].
      eexists. split; [done|]. rewrite Ha. constructor.
    + destruct (run_op_refines (OpGet ip) r HI) as (a & r2 & Hr & Hs & HI2). cbn in Hr. injection Hr as <- <-.
      intros [= <- <-]. split; [done|]. split; [done|]. by eexists.
  - cbn in Hrel. pose proof (addRoute_refines n d r HI) as Hadd. pose proof (spec_op_add (abs r) n d) as Hs.
    destruct (getCidrIntRange n) as [a b] eqn:En. cbn [fst snd] in *. unfold addRoute in Hadd. rewrite En in Hadd.
    unfold bind at 1, get in Hadd. rewrite (avl_get_map _ _ (proj1 HI)) in Hadd. fold (abs r) in Hadd. rewrite Hrel in Hadd.
    destruct (spec_add a b d (abs r)) as [ok m']. destruct Hadd as (r2 & Hr & <- & HI2). rewrite Hr. intros [= <- <-].
    split; [done|]. split; [done|]. by eexists.
  - destruct Hrel as [H1 H2]. pose proof (spec_op_add (abs r) n d) as Hs. destruct (getCidrIntRange n) as [a b] eqn:En. cbn [fst snd] in *.
    intros [= <- <-]. destruct HI as [Hok Htab].
    assert (Ea : abs (mkRouter (avl_put a (mkRouteItem b d) (data r))) = <[a := mkRouteItem b d]> (abs r)).
    { unfold abs. cbn. by rewrite avl_put_map. }
    split; [split; [by apply avl_ok_put|by rewrite Ea]|]. split; [done|]. eexists. split; [done|]. rewrite Ea.
    assert (Hadd : spec_add a b d (abs r) = (true, <[a := mkRouteItem b d]> (abs r))); [|by rewrite Hadd in Hs].
    unfold spec_add. destruct (abs r !! a) as [v|] eqn:E; [by rewrite decide_True by auto|].
    rewrite decide_True; [done|]. destruct H2 as [Hw Hd]. split.
    + destruct (Hw a (mkRouteItem b d)) as [? _]; [by rewrite lookup_insert_eq|]. cbn in *. lia.
    + intros k v Hk. assert (a <> k) by congruence.
      apply (Hd a (mkRouteItem b d) k v); [by rewrite lookup_insert_eq|by rewrite lookup_insert_ne|done].
Qed.

(** A goroutine that does not add only takes ranges out. *)
Lemma move_others p r p' r' q : Inv r -> adding p = false -> move p r = Some (p', r') -> relies r q -> relies r' q.
Proof.
  intros HI Hp. destruct p as [[n d|n|ip]|n d|n d|a]; cbn [move] in *; try done.
  - destruct (delRoute_refines n r HI) as (r2 & Hr & Ha & _). rewrite Hr. intros [= <- <-]. by apply (relies_delete (getCidrIntRange n).1).
  - by intros [= <- <-].
Qed.

Lemma linear_step w w' : one_adder w -> linear w -> sstep w w' -> linear w'.
Proof.
  intros Hone (HI & Hrel & Hrun) [Hs _]. destruct Hs as [w o|w i p p' r' Hp Hm].
  - split; [done|]. split; [|done]. cbn. apply Forall_app. split; [done|]. by constructor.
  - destruct (move_answers p (rt w) p' r' HI (Forall_lookup_1 _ _ _ _ Hrel Hp) Hm) as (HI' & Hp' & Ha).
    split; [done|]. cbn. split.
    + apply Forall_lookup. intros j q Hq. destruct (decide (i = j)) as [<-|Hne].
      * rewrite list_lookup_insert_eq in Hq by (by eapply lookup_lt_Some). by injection Hq as <-.
      * rewrite list_lookup_insert_ne in Hq by done. pose proof (Forall_lookup_1 _ _ _ _ Hrel Hq) as Hq'.
        destruct (adding p) eqn:Ep; [|by apply (move_others p (rt w) p' r')].
        destruct (adding q) eqn:Eq; [by destruct Hne; apply (Hone i j p q)|].
        by destruct q as [[]| | |].
    + destruct p' as [o'|n d|n d|a]; cbn [answered_by]; rewrite ?app_nil_r; [by destruct Ha as [-> _]..|].
      destruct Ha as (o & -> & Hs). cbn [map]. rewrite !fmap_app. by apply (spec_run_snoc _ _ _ (abs (rt w))).
Qed.

(** C36. The router answers as if its calls were made one after the other.  From a
    new router on, however many goroutines call [addRoute], [delRoute] and [get]
    and however they interleave, as long as no two calls of [addRoute] overlap:
    the ranges stay disjoint, and the answers given so far are those of the
    abstract table to these calls made one by one, each at its last access to the
    tree. *)
Theorem router_linearizable w : rtc sstep world_new w ->
  Inv (rt w) /\ spec_run (D := D) ∅ (answered w).*1 (answered w).*2 (abs (rt w)).
Proof.
  intros Hr. assert (H : linear w /\ one_adder w); [|by destruct H as [(H1 & _ & H3) _]].
  refine (rtc_ind_l (fun w0 => linear w0 /\ one_adder w0 -> linear w /\ one_adder w) w _ _ world_new Hr _).
  - done.
  - intros x y Hxy _ IH [Hl Ho]. apply IH. split; [by apply (linear_step x)|by destruct Hxy].
  - split; [split; [exact Inv_new|split; [constructor|]]|by intros i j p q Hp].
    cbn. unfold abs. cbn. rewrite avl_empty_map. constructor.
Qed.
End Race.

(** * Two calls of [addRoute] that overlap *)

Definition ex_net8 : IPNet := mkIPNet [10; 0; 0; 0] [255; 0; 0; 0].
Definition ex_net16 : IPNet := mkIPNet [10; 1; 0; 0] [255; 255; 0; 0].
Abbreviation ex_race := (@world string (node (routeItem string))).

(** Goroutine [i] makes its next access. *)
Definition turn (i : nat) (w : ex_race) : ex_race :=
  match threads w !! i with
  | Some p => match move p (rt w) with
              | Some (p', r') => mkWorld r' (<[i := p']> (threads w)) (answered w ++ answered_by p p')
              | None => w
              end
  | None => w
  end.
Definition call (o : op) (w : ex_race) : ex_race := mkWorld (rt w) (threads w ++ [Calling o]) (answered w).

Lemma turn_step i w : threads w !! i <> None -> turn i w <> w -> rstep w (turn i w).
Proof.
  intros Hi Hw. unfold turn in *. destruct (threads w !! i) as [p|] eqn:Ep; [|done].
  destruct (move p (rt w)) as [[p' r']|] eqn:Em; [|done]. by econstructor.
Qed.

(** 10.0.0.0/8 is routed; it is updated, deleted, and 10.1.0.0/16 is added, all at
    once: the update has looked the range up before it was deleted, and puts it
    back beside the other.  Every call reports success. *)
Definition ex_schedule : list (ex_race -> ex_race) :=
  [call (OpAdd ex_net8 "a"); turn 0; turn 0;
   call (OpAdd ex_net8 "b"); turn 1;
   call (OpDel ex_net8); turn 2;
   call (OpAdd ex_net16 "c"); turn 3; turn 3;
   turn 1].
Definition ex_overlap : ex_race := foldl (fun w f => f w) world_new ex_schedule.

Example overlapping_adders :
  (answered ex_overlap).*2 = [Added true; Deleted; Added true; Added true] /\
  abs (rt ex_overlap) !! 167772160 = Some (mkRouteItem 184549375 "b") /\
  abs (rt ex_overlap) !! 167837696 = Some (mkRouteItem 167903231 "c") /\
  ~ Inv (rt ex_overlap).
Proof.
  assert (H1 : abs (rt ex_overlap) !! 167772160 = Some (mkRouteItem 184549375 "b")) by (vm_compute; reflexivity).
  assert (H2 : abs (rt ex_overlap) !! 167837696 = Some (mkRouteItem 167903231 "c")) by (vm_compute; reflexivity).
  split; [vm_compute; reflexivity|]. split; [exact H1|]. split; [exact H2|].
  intros [_ [_ Hd]]. apply (Hd _ _ _ _ H1 H2); [done|]. unfold overlaps. cbn. lia.
Qed.

Lemma ex_overlap_reachable : rtc rstep world_new ex_overlap.
Proof.
  unfold ex_overlap, ex_schedule. cbn [foldl].
  repeat lazymatch goal with
  | |- rtc _ _ (turn _ ?w) => apply (rtc_r _ w); [|apply turn_step; vm_compute; discriminate]
  | |- rtc _ _ (call _ ?w) => apply (rtc_r _ w); [|constructor]
  end. apply rtc_refl.
Qed.

(** A run whose additions do not overlap: the look-up is between the accesses of
    the update. *)
Definition ex_serial_schedule : list (ex_race -> ex_race) :=
  [call (OpAdd ex_net8 "a"); turn 0; turn 0; call (OpAdd ex_net8 "b"); turn 1; call (OpGet 167837697); turn 2; turn 1].

Lemma router_linearizable_witness : exists w : ex_race, rtc sstep world_new w /\
  (answered w).*2 = [Added true; Routed (Some "a"); Added true] /\ lookup_ip 167837697 (rt w) = Some "b" /\ Inv (rt w).
Proof.
  assert (Hr : rtc sstep world_new (foldl (fun w f => f w) world_new ex_serial_schedule)).
  { cbn [foldl ex_serial_schedule].
    repeat lazymatch goal with
    | |- rtc _ _ (turn _ ?w) => apply (rtc_r _ w); [|split; [apply turn_step; vm_compute; discriminate|]]
    | |- rtc _ _ (call _ ?w) => apply (rtc_r _ w); [|split; [constructor|]]
    end; [apply rtc_refl|..]; apply one_adder_count; vm_compute; repeat constructor. }
  eexists. split; [exact Hr|]. split; [vm_compute; reflexivity|]. split; [vm_compute; reflexivity|].
  exact (proj1 (router_linearizable _ Hr)).
Defined.
