(* ===== verification/Store.v ===== *)
(** The key-value store the managers keep their data in
    (github.com/syndtr/goleveldb, a dependency): its operations as an interface
    [LevelDB], what it documents as the laws [LevelDBLaws], and a concrete store
    that has them and can be made to fail.  The lemmas are the ones the managers
    share: what was saved is what a later load finds. *)
From S2P Require Import Prelude GoText Json Codec.

Class LevelDB (DB : Type) := {
  db_Get : string -> DB -> string + error;
  db_Put : string -> string -> DB -> option error * DB;
  db_Delete : string -> DB -> option error * DB
}.

Class LevelDBLaws (DB : Type) `{LevelDB DB} := {
  put_get k v d d' : db_Put k v d = (None, d') -> db_Get k d' = inl v;
  put_other k k' v d : k <> k' -> db_Get k' (db_Put k v d).2 = db_Get k' d;
  delete_get k d d' : db_Delete k d = (None, d') -> db_Get k d' = inr ErrNotFound;
  delete_other k k' d : k <> k' -> db_Get k' (db_Delete k d).2 = db_Get k' d;
  put_failed k v d e d' : db_Put k v d = (Some e, d') -> db_Get k d' = db_Get k d;
  delete_failed k d e d' : db_Delete k d = (Some e, d') -> db_Get k d' = db_Get k d
}.

(** The store as a state of a component. *)
Definition dbPut {DB} `{LevelDB DB} (k v : string) : GoM DB (option error) :=
  fun d => let '(e, d') := db_Put k v d in (Ret e, d').
Definition dbDelete {DB} `{LevelDB DB} (k : string) : GoM DB (option error) :=
  fun d => let '(e, d') := db_Delete k d in (Ret e, d').

(** * A concrete store

    [failing] is the error every write returns, if it is set. *)
Record memdb := mkMem { entries : gmap string string; failing : option error }.

#[export] Instance mem_leveldb : LevelDB memdb := {
  db_Get k d := match entries d !! k with Some v => inl v | None => inr ErrNotFound end;
  db_Put k v d := match failing d with
                  | Some e => (Some e, d)
                  | None => (None, mkMem (<[k := v]> (entries d)) None)
                  end;
  db_Delete k d := match failing d with
                   | Some e => (Some e, d)
                   | None => (None, mkMem (delete k (entries d)) None)
                   end
}.
#[export] Instance mem_laws : LevelDBLaws memdb.
Proof.
  split; intros; simpl in *; repeat (case_match; simplify_eq/=; try done);
    try (rewrite ?lookup_insert_eq, ?lookup_delete_eq in *; congruence);
    rewrite ?lookup_insert_ne, ?lookup_delete_ne in * by done; congruence.
Qed.

Definition mem_empty : memdb := mkMem ∅ None.

(** * Saved values *)

Section Saved.
Context {DB A : Type} {Db : LevelDB DB} {Dbl : LevelDBLaws DB} {C : JsonCodec A} {Cl : CodecLaws A}.

(** The store holds the text of [a] under [key]. *)
Definition saved (key : string) (a : A) (d : DB) : Prop := db_Get key d = inl (Marshal a).

(** [db.Get] followed by [json.Unmarshal] into a variable that holds [a0], as
    every load does: a missing key leaves the variable. *)
Definition load_into (key : string) (a0 : A) (d : DB) : A + error :=
  match db_Get key d with
  | inr ErrNotFound => inl a0
  | inr e => inr e
  | inl v => Unmarshal v a0
  end.

Lemma load_saved key a a0 d :
  a0 = zero -> json_fits a -> (json_depth (A := A) <= 100)%nat -> saved key a d ->
  load_into key a0 d = inl (json_norm a).
Proof. intros -> Ha Hd Hs. unfold load_into. rewrite Hs. by apply Unmarshal_Marshal. Qed.

Lemma saved_put key a d d' : db_Put key (Marshal a) d = (None, d') -> saved key a d'.
Proof. apply put_get. Qed.
End Saved.

(** * Opening a store

    leveldb: opening (an error says whether the files are corrupted) and
    recovering; every part of the program opens its store in this way. *)
Definition open_db {DB} (OpenDB : string -> DB + (error * bool)) (RecoverDB : string -> DB + error) (p : string) : DB + error :=
  match OpenDB p with
  | inl d => inl d
  | inr (e, corrupted) => if corrupted then RecoverDB p else inr e
  end.
