(* ===== verification/PortmapRes.v ===== *)
(** src/gateway/portmap_resource.go: the resources other peers may be mapped
    to, a map kept in memory and saved whole after each change.  The theorem is
    a refinement: any sequence of changes acts as on a finite map, and whenever
    the last change reported success a restarted manager finds the same map. *)
From S2P Require Import Prelude GoText Json Codec TypesId Store.

Record PortmapResource := mkRes {
  res_ID : ID;
  res_Name : string;
  res_Type : Z;
  res_Network : string;
  res_TargetAddr : string;
  res_TargetPort : Z;
  res_LocalIP : string;
  res_LocalPort : Z
}.

#[export] Instance PortmapResource_eq_dec : EqDecision PortmapResource.
Proof. solve_decision. Defined.

Definition res_zero : PortmapResource := mkRes (mkID 0) "" 0 "" "" 0 "" 0.

Definition res_fields : list (field PortmapResource) :=
  [ jfield "id" res_ID (fun v r => mkRes v (res_Name r) (res_Type r) (res_Network r) (res_TargetAddr r) (res_TargetPort r) (res_LocalIP r) (res_LocalPort r));
    jfield "name" res_Name (fun v r => mkRes (res_ID r) v (res_Type r) (res_Network r) (res_TargetAddr r) (res_TargetPort r) (res_LocalIP r) (res_LocalPort r));
    jfield "type" res_Type (fun v r => mkRes (res_ID r) (res_Name r) v (res_Network r) (res_TargetAddr r) (res_TargetPort r) (res_LocalIP r) (res_LocalPort r));
    jfield "network" res_Network (fun v r => mkRes (res_ID r) (res_Name r) (res_Type r) v (res_TargetAddr r) (res_TargetPort r) (res_LocalIP r) (res_LocalPort r));
    jfield "target_addr" res_TargetAddr (fun v r => mkRes (res_ID r) (res_Name r) (res_Type r) (res_Network r) v (res_TargetPort r) (res_LocalIP r) (res_LocalPort r));
    jfield "target_port" res_TargetPort (fun v r => mkRes (res_ID r) (res_Name r) (res_Type r) (res_Network r) (res_TargetAddr r) v (res_LocalIP r) (res_LocalPort r));
    jfield "local_ip" res_LocalIP (fun v r => mkRes (res_ID r) (res_Name r) (res_Type r) (res_Network r) (res_TargetAddr r) (res_TargetPort r) v (res_LocalPort r));
    jfield "local_port" res_LocalPort (fun v r => mkRes (res_ID r) (res_Name r) (res_Type r) (res_Network r) (res_TargetAddr r) (res_TargetPort r) (res_LocalIP r) v) ].

(** A resource whose fields JSON can carry: text in UTF-8, integers of their
    width. *)
Definition res_fits (r : PortmapResource) : Prop :=
  json_fits (res_ID r) /\ json_fits (res_Name r) /\ json_fits (res_Type r) /\
  json_fits (res_Network r) /\ json_fits (res_TargetAddr r) /\ json_fits (res_TargetPort r) /\
  json_fits (res_LocalIP r) /\ json_fits (res_LocalPort r).

#[export] Instance res_codec : JsonCodec PortmapResource := {
  json_of := struct_json res_fields;
  json_into := struct_into res_fields;
  zero := res_zero;
  json_fits := res_fits;
  json_norm := id;
  json_depth := 1
}.
#[export] Instance res_laws : CodecLaws PortmapResource.
Proof. struct_laws. Qed.

Definition keyPortmapRes : string := "portmap_resources".

Section Mgr.
Context {DB : Type} {Db : LevelDB DB} {Dbl : LevelDBLaws DB}.

(** [resources] is [None] while the Go map is nil. *)
Record PortmapResMgr := mkResMgr { db : DB; resources : option (gmap Z PortmapResource) }.
Definition set_db (d : DB) (m : PortmapResMgr) : PortmapResMgr := mkResMgr d (resources m).
Definition set_resources (rs : gmap Z PortmapResource) : GoM PortmapResMgr unit :=
  modify (fun m => mkResMgr (db m) (Some rs)).

Definition savePortmap : GoM PortmapResMgr (option error) :=
  m <- get ;;
  match resources m with
  | None => ret None
  | Some rs => zoom db set_db (dbPut keyPortmapRes (Marshal rs))
  end.

Definition loadRes : GoM PortmapResMgr (option error) :=
  m <- get ;;
  match load_into keyPortmapRes (resources m) (db m) with
  | inr e => ret (Some e)
  | inl rs => put (mkResMgr (db m) rs) ;;; ret None
  end.

Definition NewPortmapResMgr (d : DB) : PortmapResMgr + error :=
  match loadRes (mkResMgr d None) with
  | (Ret None, m) => inl m
  | (Ret (Some e), _) => inr e
  | (Panic, _) => inr (ErrText "unreachable")
  end.

Definition AddPortmapRes (res : PortmapResource) : GoM PortmapResMgr (option error) :=
  m <- get ;;
  set_resources (<[Uint64 (res_ID res) := res]> (default ∅ (resources m))) ;;;
  savePortmap.

Definition DelPortmapApp (resID : ID) : GoM PortmapResMgr (option error) :=
  m <- get ;;
  match resources m with
  | None => ret None
  | Some rs => set_resources (delete (Uint64 resID) rs) ;;; savePortmap
  end.

Definition UpdatePortmapRes (res : PortmapResource) : GoM PortmapResMgr (option error) :=
  m <- get ;;
  set_resources (<[Uint64 (res_ID res) := res]> (default ∅ (resources m))) ;;;
  savePortmap.

(** A missing identifier gives the zero resource; the nil map is allocated. *)
Definition GetAppByID (resID : ID) : GoM PortmapResMgr PortmapResource :=
  m <- get ;;
  set_resources (default ∅ (resources m)) ;;;
  ret (default res_zero (default ∅ (resources m) !! Uint64 resID)).

(** The order of a Go map's iteration is unspecified; [range] stands for it. *)
Definition GetResources (range : gmap Z PortmapResource -> list (Z * PortmapResource))
  : GoM PortmapResMgr (list PortmapResource) :=
  gets (fun m => (range (default ∅ (resources m))).*2).

(** ** Specification *)

Inductive res_op := OpAdd (r : PortmapResource) | OpUpdate (r : PortmapResource) | OpDel (id : ID).

Definition run_op (o : res_op) : GoM PortmapResMgr (option error) :=
  match o with
  | OpAdd r => AddPortmapRes r
  | OpUpdate r => UpdatePortmapRes r
  | OpDel id => DelPortmapApp id
  end.
Fixpoint run_ops (os : list res_op) : GoM PortmapResMgr (list (option error)) :=
  match os with
  | [] => ret []
  | o :: os' => e <- run_op o ;; es <- run_ops os' ;; ret (e :: es)
  end.

Definition spec_op (m : gmap Z PortmapResource) (o : res_op) : gmap Z PortmapResource :=
  match o with
  | OpAdd r | OpUpdate r => <[Uint64 (res_ID r) := r]> m
  | OpDel id => delete (Uint64 id) m
  end.

Definition op_fits (o : res_op) : Prop :=
  match o with OpAdd r | OpUpdate r => res_fits r | _ => True end.

Definition held (m : PortmapResMgr) : gmap Z PortmapResource := default ∅ (resources m).

(** What the operations keep: the map is storable, and nothing is stored
    before the map is allocated. *)
Definition res_inv (m : PortmapResMgr) : Prop :=
  json_fits (held m) /\ (resources m = None -> db_Get keyPortmapRes (db m) = inr ErrNotFound).

(** A restart would find the map. *)
Definition durable (m : PortmapResMgr) : Prop :=
  exists m', NewPortmapResMgr (db m) = inl m' /\ held m' = held m.

Lemma res_fits_insert r (rs : gmap Z PortmapResource) :
  res_fits r -> json_fits rs -> json_fits (<[Uint64 (res_ID r) := r]> rs).
Proof.
  intros Hr Hrs. apply map_Forall_insert_2; [|done]. split; [apply Hr|done].
Qed.

Lemma saved_durable d rs :
  json_fits rs -> saved keyPortmapRes rs d -> durable (mkResMgr d (Some rs)).
Proof.
  intros Hf Hs. unfold durable, NewPortmapResMgr, loadRes, bind, get, put, ret, held. cbn [db resources].
  rewrite (load_saved (A := option (gmap Z PortmapResource)) _ (Some rs));
    [|reflexivity|exact Hf|simpl; lia|exact Hs].
  eexists. split; [reflexivity|]. by apply norm_map_id.
Qed.

Lemma nil_durable d : db_Get keyPortmapRes d = inr ErrNotFound -> durable (mkResMgr d None).
Proof.
  intros Hg. unfold durable, NewPortmapResMgr, loadRes, bind, get, put, ret, load_into.
  cbn [db resources]. rewrite Hg. cbn. by eexists.
Qed.

(** Saving an allocated map. *)
Lemma savePortmap_spec d rs :
  exists e d', savePortmap (mkResMgr d (Some rs)) = (Ret e, mkResMgr d' (Some rs)) /\
    (e = None -> saved keyPortmapRes rs d').
Proof.
  unfold savePortmap, bind, get, zoom, dbPut. cbn [db resources].
  destruct (db_Put keyPortmapRes (Marshal rs) d) as [e d'] eqn:E. exists e, d'.
  split; [done|]. intros ->. by eapply put_get.
Qed.

Lemma run_op_spec o m :
  op_fits o -> res_inv m ->
  exists e m', run_op o m = (Ret e, m') /\ held m' = spec_op (held m) o /\
    res_inv m' /\ (e = None -> durable m').
Proof.
  intros Ho [Hf Hn]. destruct m as [d rs]. unfold held in *. cbn [resources db] in *.
  assert (Hset : forall rs', json_fits rs' -> exists e m',
    (set_resources rs' ;;; savePortmap) (mkResMgr d rs) = (Ret e, m') /\ held m' = rs' /\
    res_inv m' /\ (e = None -> durable m')).
  { intros rs' Hrs'. unfold set_resources, bind at 1, modify. cbn [db].
    destruct (savePortmap_spec d rs') as (e & d' & -> & Hs). exists e, (mkResMgr d' (Some rs')).
    split_and!; [done|done|done|]. intros He. apply saved_durable; auto. }
  destruct o as [r|r|id]; cbn [run_op spec_op op_fits] in *.
  - exact (Hset _ (res_fits_insert r _ Ho Hf)).
  - exact (Hset _ (res_fits_insert r _ Ho Hf)).
  - unfold DelPortmapApp, bind at 1, get. cbn [resources]. destruct rs as [rs|].
    + apply Hset. by apply map_Forall_delete.
    + exists None, (mkResMgr d None). unfold held. cbn. rewrite delete_empty.
      split_and!; [done|done|split; done|]. intros _. apply nil_durable; auto.
Qed.

(** C4. The resource manager is a durable finite map: whatever the store
    answers, a sequence of additions, updates and deletions of storable
    resources runs to its end, the map held is the one the changes define, a
    lookup finds the resource (the zero resource when there is none) without
    touching the store, and when the last change reported no error a manager
    built again from the store holds the same map. *)
Theorem resources_refine_map os m :
  res_inv m -> Forall op_fits os ->
  exists es m', run_ops os m = (Ret es, m') /\ held m' = foldl spec_op (held m) os /\
    (last es = Some None -> durable m') /\
    (forall id, exists m2, GetAppByID id m' = (Ret (default res_zero (held m' !! Uint64 id)), m2) /\
       held m2 = held m' /\ db m2 = db m').
Proof.
  intros HI Hos. revert m HI.
  assert (Hget : forall m id, exists m2, GetAppByID id m = (Ret (default res_zero (held m !! Uint64 id)), m2) /\
       held m2 = held m /\ db m2 = db m) by (intros m id; by eexists).
  induction Hos as [|o os Ho Hos IH]; intros m HI.
  { by exists [], m. }
  destruct (run_op_spec o m Ho HI) as (e & m1 & H1 & Hh & HI1 & Hd).
  destruct (IH m1 HI1) as (es & m2 & H2 & Hh2 & Hd2 & Hg2).
  exists (e :: es), m2. cbn [run_ops]. rewrite (bind_Ret _ _ _ _ _ H1), (bind_Ret _ _ _ _ _ H2).
  split_and!; [done| | |done].
  - by rewrite Hh2, Hh.
  - destruct os as [|o2 os].
    + injection H2 as <- <-. intros [= ->]. auto.
    + intros Hl. apply Hd2. destruct es; [|done]. cbn [run_ops] in H2.
      unfold bind, ret in H2. by repeat case_match.
Qed.
End Mgr.

Definition ex_res : PortmapResource := mkRes (mkID 7) "ssh <1>" 0 "tcp" "10.0.0.1" 22 "" 0.

Lemma resources_refine_map_witness :
  exists es m', run_ops [OpAdd ex_res; OpDel (mkID 3)] (mkResMgr mem_empty None) = (Ret es, m') /\
    held m' = {[ 7 := ex_res ]} /\ (last es = Some None -> durable m') /\
    (forall id, exists m2, GetAppByID id m' = (Ret (default res_zero (held m' !! Uint64 id)), m2) /\
       held m2 = held m' /\ db m2 = db m').
Proof.
  apply (resources_refine_map [OpAdd ex_res; OpDel (mkID 3)] (mkResMgr mem_empty None)).
  - split; [|done]. apply map_Forall_empty.
  - repeat constructor; try (vm_compute; congruence).
Defined.
