(* ===== verification/PortmapApp.v ===== *)
(** src/gateway/portmap_app.go: the port mappings this gateway offers locally,
    a map kept in memory and saved whole after each change.  The theorems: the
    manager refines a durable finite map up to the unsaved [Err] field, and
    [FindAppWithPort] answers correctly for every iteration order. *)
From S2P Require Import Prelude GoText Json Codec TypesId Store.

Definition keyPortmapApps : string := "portmap_apps".

(** [app_Err] has the tag "-": it is not stored. *)
Record PortmapApp := mkApp {
  app_ID : ID;
  app_Name : string;
  app_PeerID : string;
  app_ResID : ID;
  app_Network : string;
  app_LocalIP : string;
  app_LocalPort : Z;
  app_TargetAddr : string;
  app_TargetPort : Z;
  app_Running : bool;
  app_PeerName : string;
  app_Err : string
}.

#[export] Instance PortmapApp_eq_dec : EqDecision PortmapApp.
Proof. solve_decision. Defined.

Definition app_zero : PortmapApp := mkApp (mkID 0) "" "" (mkID 0) "" "" 0 "" 0 false "" "".

Definition app_fields : list (field PortmapApp) :=
  [ jfield "id" app_ID
      (fun v r => mkApp v (app_Name r) (app_PeerID r) (app_ResID r) (app_Network r) (app_LocalIP r) (app_LocalPort r) (app_TargetAddr r) (app_TargetPort r) (app_Running r) (app_PeerName r) (app_Err r));
    jfield "name" app_Name
      (fun v r => mkApp (app_ID r) v (app_PeerID r) (app_ResID r) (app_Network r) (app_LocalIP r) (app_LocalPort r) (app_TargetAddr r) (app_TargetPort r) (app_Running r) (app_PeerName r) (app_Err r));
    jfield "peer_id" app_PeerID
      (fun v r => mkApp (app_ID r) (app_Name r) v (app_ResID r) (app_Network r) (app_LocalIP r) (app_LocalPort r) (app_TargetAddr r) (app_TargetPort r) (app_Running r) (app_PeerName r) (app_Err r));
    jfield "res_id" app_ResID
      (fun v r => mkApp (app_ID r) (app_Name r) (app_PeerID r) v (app_Network r) (app_LocalIP r) (app_LocalPort r) (app_TargetAddr r) (app_TargetPort r) (app_Running r) (app_PeerName r) (app_Err r));
    jfield "network" app_Network
      (fun v r => mkApp (app_ID r) (app_Name r) (app_PeerID r) (app_ResID r) v (app_LocalIP r) (app_LocalPort r) (app_TargetAddr r) (app_TargetPort r) (app_Running r) (app_PeerName r) (app_Err r));
    jfield "local_ip" app_LocalIP
      (fun v r => mkApp (app_ID r) (app_Name r) (app_PeerID r) (app_ResID r) (app_Network r) v (app_LocalPort r) (app_TargetAddr r) (app_TargetPort r) (app_Running r) (app_PeerName r) (app_Err r));
    jfield "local_port" app_LocalPort
      (fun v r => mkApp (app_ID r) (app_Name r) (app_PeerID r) (app_ResID r) (app_Network r) (app_LocalIP r) v (app_TargetAddr r) (app_TargetPort r) (app_Running r) (app_PeerName r) (app_Err r));
    jfield "target_addr" app_TargetAddr
      (fun v r => mkApp (app_ID r) (app_Name r) (app_PeerID r) (app_ResID r) (app_Network r) (app_LocalIP r) (app_LocalPort r) v (app_TargetPort r) (app_Running r) (app_PeerName r) (app_Err r));
    jfield "target_port" app_TargetPort
      (fun v r => mkApp (app_ID r) (app_Name r) (app_PeerID r) (app_ResID r) (app_Network r) (app_LocalIP r) (app_LocalPort r) (app_TargetAddr r) v (app_Running r) (app_PeerName r) (app_Err r));
    jfield "running" app_Running
      (fun v r => mkApp (app_ID r) (app_Name r) (app_PeerID r) (app_ResID r) (app_Network r) (app_LocalIP r) (app_LocalPort r) (app_TargetAddr r) (app_TargetPort r) v (app_PeerName r) (app_Err r));
    jfield "peer_name" app_PeerName
      (fun v r => mkApp (app_ID r) (app_Name r) (app_PeerID r) (app_ResID r) (app_Network r) (app_LocalIP r) (app_LocalPort r) (app_TargetAddr r) (app_TargetPort r) (app_Running r) v (app_Err r)) ].

Definition app_fits (r : PortmapApp) : Prop :=
  json_fits (app_ID r) /\
  json_fits (app_Name r) /\
  json_fits (app_PeerID r) /\
  json_fits (app_ResID r) /\
  json_fits (app_Network r) /\
  json_fits (app_LocalIP r) /\
  json_fits (app_LocalPort r) /\
  json_fits (app_TargetAddr r) /\
  json_fits (app_TargetPort r) /\
  json_fits (app_Running r) /\
  json_fits (app_PeerName r).

(** What JSON carries of an application. *)
Definition app_norm (a : PortmapApp) : PortmapApp :=
  mkApp (app_ID a) (app_Name a) (app_PeerID a) (app_ResID a) (app_Network a) (app_LocalIP a)
    (app_LocalPort a) (app_TargetAddr a) (app_TargetPort a) (app_Running a) (app_PeerName a) "".

#[export] Instance app_codec : JsonCodec PortmapApp := {
  json_of := struct_json app_fields;
  json_into := struct_into app_fields;
  zero := app_zero;
  json_fits := app_fits;
  json_norm := app_norm;
  json_depth := 1
}.
#[export] Instance app_laws : CodecLaws PortmapApp.
Proof. struct_laws. Qed.

(** What is kept by identifier has each identifier once, in any order. *)
Lemma NoDup_keyed {A} (f : A -> Z) (m : gmap Z A) (l : list (Z * A)) :
  (forall k a, m !! k = Some a -> f a = k) -> l ≡ₚ map_to_list m -> NoDup (map f l.*2).
Proof.
  intros Hk Hl. assert (E : map f l.*2 = l.*1).
  { assert (H : Forall (fun p => f p.2 = p.1) l).
    { apply Forall_forall. intros [k a] Hin. rewrite Hl in Hin. by apply Hk, elem_of_map_to_list. }
    clear Hl. induction H as [|[k a] l H _ IH]; [done|]. cbn in *. congruence. }
  rewrite E, Hl. apply NoDup_fst_map_to_list.
Qed.

Section Mgr.
Context {DB : Type} {Db : LevelDB DB} {Dbl : LevelDBLaws DB}.

(** [apps] is [None] when the Go map is nil, which only a stored [null] makes
    it. *)
Record PortmapAppMgr := mkAppMgr { app_db : DB; apps : option (gmap Z PortmapApp) }.
Definition set_app_db (d : DB) (m : PortmapAppMgr) : PortmapAppMgr := mkAppMgr d (apps m).

Definition NewPortmapAppMgr (d : DB) : PortmapAppMgr := mkAppMgr d (Some ∅).

Definition savePortmapApps : GoM PortmapAppMgr (option error) :=
  m <- get ;;
  match apps m with
  | None => zoom app_db set_app_db (dbDelete keyPortmapApps)
  | Some rs => zoom app_db set_app_db (dbPut keyPortmapApps (Marshal rs))
  end.

(** The iteration order of a Go map is unspecified: [range] stands for it. *)
Section Range.
Context (range : gmap Z PortmapApp -> list (Z * PortmapApp)).

Definition GetPortmapApps (m : PortmapAppMgr) : list PortmapApp := (range (default ∅ (apps m))).*2.

Definition LoadPortmapApps : GoM PortmapAppMgr (list PortmapApp * option error) :=
  m <- get ;;
  match db_Get keyPortmapApps (app_db m) with
  | inr ErrNotFound => ret ([], None)
  | inr e => ret ([], Some e)
  | inl v =>
      match Unmarshal v (apps m) with
      | inr e => ret ([], Some e)
      | inl a => put (mkAppMgr (app_db m) a) ;;; ret (GetPortmapApps (mkAppMgr (app_db m) a), None)
      end
  end.

(** The first match in iteration order, the zero value when there is none. *)
Definition FindAppWithPort (network : string) (port : Z) (m : PortmapAppMgr) : PortmapApp :=
  match find (fun r => (app_LocalPort r =? port) && String.eqb (app_Network r) network)
             (GetPortmapApps m) with
  | Some r => r
  | None => app_zero
  end.
End Range.

Definition GetPortmapApp (id : Z) (m : PortmapAppMgr) : option PortmapApp := default ∅ (apps m) !! id.

(** Writing to a nil map panics. *)
Definition UpdatePortmapApp (a : PortmapApp) : GoM PortmapAppMgr (option error) :=
  m <- get ;;
  match apps m with
  | None => panic
  | Some rs => put (mkAppMgr (app_db m) (Some (<[Uint64 (app_ID a) := a]> rs))) ;;; savePortmapApps
  end.

Definition DelPortmapApp (id : Z) : GoM PortmapAppMgr (option error) :=
  m <- get ;;
  put (mkAppMgr (app_db m) (delete id <$> apps m)) ;;; savePortmapApps.

(** ** Specification *)

Inductive app_op := AppUpdate (a : PortmapApp) | AppDel (id : Z).

Definition run_app_op (o : app_op) : GoM PortmapAppMgr (option error) :=
  match o with AppUpdate a => UpdatePortmapApp a | AppDel id => DelPortmapApp id end.
Fixpoint run_app_ops (os : list app_op) : GoM PortmapAppMgr (list (option error)) :=
  match os with
  | [] => ret []
  | o :: os' => e <- run_app_op o ;; es <- run_app_ops os' ;; ret (e :: es)
  end.
Definition spec_app (m : gmap Z PortmapApp) (o : app_op) : gmap Z PortmapApp :=
  match o with AppUpdate a => <[Uint64 (app_ID a) := a]> m | AppDel id => delete id m end.
Definition app_op_fits (o : app_op) : Prop :=
  match o with AppUpdate a => app_fits a | _ => True end.

(** A restarted manager loads [rs], every [Err] empty. *)
Definition restarts_with (d : DB) (rs : gmap Z PortmapApp) : Prop :=
  forall range, exists l m', LoadPortmapApps range (NewPortmapAppMgr d) = (Ret (l, None), m') /\
    apps m' = Some (app_norm <$> rs) /\ l = (range (app_norm <$> rs)).*2.

Lemma app_op_spec o d rs :
  app_op_fits o -> json_fits rs ->
  exists e d', run_app_op o (mkAppMgr d (Some rs)) = (Ret e, mkAppMgr d' (Some (spec_app rs o))) /\
    json_fits (spec_app rs o) /\ (e = None -> restarts_with d' (spec_app rs o)).
Proof.
  intros Ho Hf.
  assert (Hfits : json_fits (spec_app rs o)).
  { destruct o as [a|id]; [|by apply map_Forall_delete].
    apply map_Forall_insert_2; [|done]. split; [apply Ho|done]. }
  assert (Hrun : run_app_op o (mkAppMgr d (Some rs)) = savePortmapApps (mkAppMgr d (Some (spec_app rs o)))).
  { by destruct o. }
  rewrite Hrun. unfold savePortmapApps, bind, get, zoom, dbPut. cbn [apps app_db].
  destruct (db_Put keyPortmapApps (Marshal (spec_app rs o)) d) as [e d'] eqn:E.
  exists e, d'. split_and!; [done|done|]. intros -> range. apply put_get in E.
  unfold LoadPortmapApps, bind, get, put, ret. cbn [apps app_db NewPortmapAppMgr]. rewrite E.
  pose proof (Unmarshal_Marshal (A := option (gmap Z PortmapApp)) (Some (spec_app rs o)) Hfits) as HU.
  assert (HU2 : Unmarshal (Marshal (spec_app rs o)) (Some (∅ : gmap Z PortmapApp)) =
                inl (Some (app_norm <$> spec_app rs o))).
  { etrans; [|exact (HU ltac:(simpl; lia))]. unfold Unmarshal, Marshal. cbn [json_of nil_map_codec].
    destruct (Parse _) as [j|] eqn:EP; [|done]. by destruct j. }
  rewrite HU2. eexists _, _. done.
Qed.

(** The application manager is a durable finite map: from a manager whose
    map is storable, any sequence of updates and deletions runs without panic,
    whatever the store answers; the map held is the one the changes define,
    [GetPortmapApp] is its lookup, and when the last change reported no error a
    fresh manager loads exactly that map (without the [Err] texts, which are
    not stored). *)
Theorem apps_refine_map os d rs :
  json_fits rs -> Forall app_op_fits os -> os <> [] ->
  exists es d', run_app_ops os (mkAppMgr d (Some rs)) = (Ret es, mkAppMgr d' (Some (foldl spec_app rs os))) /\
    (forall id, GetPortmapApp id (mkAppMgr d' (Some (foldl spec_app rs os))) = foldl spec_app rs os !! id) /\
    (last es = Some None -> restarts_with d' (foldl spec_app rs os)).
Proof.
  intros Hf Hos. revert d rs Hf. induction Hos as [|o os Ho Hos IH]; intros d rs Hf Hne; [done|].
  destruct (app_op_spec o d rs Ho Hf) as (e & d1 & H1 & Hf1 & Hr1). cbn [run_app_ops foldl].
  rewrite (bind_Ret _ _ _ _ _ H1). destruct os as [|o2 os].
  { exists [e], d1. split_and!; [done|done|]. intros [= ->]. auto. }
  destruct (IH d1 _ Hf1) as (es & d2 & H2 & Hg2 & Hr2); [done|].
  rewrite (bind_Ret _ _ _ _ _ H2). exists (e :: es), d2. split_and!; [done|done|].
  intros Hl. apply Hr2. destruct es; [|done]. cbn [run_app_ops] in H2.
  unfold bind, ret in H2. by repeat case_match.
Qed.

Lemma find_app_one range network port m id a :
  (forall rs, range rs ≡ₚ map_to_list rs) ->
  default ∅ (apps m) !! id = Some a -> app_Network a = network -> app_LocalPort a = port ->
  (forall id' a', default ∅ (apps m) !! id' = Some a' -> app_Network a' = network ->
     app_LocalPort a' = port -> a' = a) ->
  FindAppWithPort range network port m = a.
Proof.
  intros Hperm Hid Hn Hp Hu. unfold FindAppWithPort, GetPortmapApps.
  assert (Hin : forall b, b ∈ (range (default ∅ (apps m))).*2 <-> exists k, default ∅ (apps m) !! k = Some b).
  { intros b. rewrite (Hperm _), list_elem_of_fmap. split.
    - intros ([k x] & -> & Hk%elem_of_map_to_list). by exists k.
    - intros (k & Hk). exists (k, b). split; [done|]. by apply elem_of_map_to_list. }
  destruct (find _ _) as [b|] eqn:E.
  - apply find_some in E as [Hb Hh]. apply list_elem_of_In, Hin in Hb as (k & Hk).
    apply andb_prop in Hh as [H1%Z.eqb_eq H2%String.eqb_eq]. by eapply Hu.
  - pose proof (find_none _ _ E a) as Hf. cbn beta in Hf. rewrite Hp, Hn, Z.eqb_refl, String.eqb_refl in Hf.
    discriminate Hf. apply list_elem_of_In, Hin. by exists id.
Qed.

(** [FindAppWithPort], for every order the runtime may iterate the map in:
    when it answers a non-zero application, that application is in the map and
    has the network and port; when no application has them it answers the zero
    application; and when exactly one has them it answers that one. *)
Theorem find_app_any_order range network port m :
  (forall rs, range rs ≡ₚ map_to_list rs) ->
  let hit a := app_LocalPort a = port /\ app_Network a = network in
  let r := FindAppWithPort range network port m in
  (r = app_zero \/ (exists id, GetPortmapApp id m = Some r /\ hit r)) /\
  ((forall id a, GetPortmapApp id m = Some a -> ~ hit a) -> r = app_zero) /\
  (forall id a, GetPortmapApp id m = Some a -> hit a ->
     (forall id' a', GetPortmapApp id' m = Some a' -> hit a' -> a' = a) -> r = a).
Proof.
  intros Hperm hit r. unfold GetPortmapApp in *. set (rs := default ∅ (apps m)) in *.
  assert (Hin : forall a, a ∈ GetPortmapApps range m <-> exists id, rs !! id = Some a).
  { intros a. unfold GetPortmapApps. fold rs. rewrite (Hperm rs), list_elem_of_fmap. split.
    - intros ([id b] & -> & Hb). exists id. by apply elem_of_map_to_list in Hb.
    - intros (id & Hid). exists (id, a). split; [done|]. by apply elem_of_map_to_list. }
  assert (Hhit : forall a, (app_LocalPort a =? port) && String.eqb (app_Network a) network = true <-> hit a).
  { intros a. unfold hit. by rewrite andb_true_iff, Z.eqb_eq, String.eqb_eq. }
  unfold r, FindAppWithPort. destruct (find _ _) as [b|] eqn:E.
  - apply find_some in E as [Hb Hh]. apply list_elem_of_In, Hin in Hb as (id & Hid). apply Hhit in Hh.
    split_and!.
    + right. by exists id.
    + intros Hno. by destruct (Hno id b).
    + intros id' a Ha Hha Hu. by apply (Hu id).
  - pose proof (find_none _ _ E) as Hn. split_and!; [by left|done|].
    intros id a Ha Hha _. apply Hhit in Hha. rewrite Hn in Hha; [done|]. apply list_elem_of_In, Hin. by exists id.
Qed.
End Mgr.

Definition ex_app : PortmapApp :=
  mkApp (mkID 9) "web" "peer" (mkID 7) "tcp" "127.0.0.1" 8080 "" 80 true "" "dial failed".

Lemma apps_refine_map_witness :
  exists es d', run_app_ops [AppDel 4; AppUpdate ex_app] (NewPortmapAppMgr mem_empty) =
      (Ret es, mkAppMgr d' (Some {[ 9 := ex_app ]})) /\
    (forall id, GetPortmapApp id (mkAppMgr d' (Some {[ 9 := ex_app ]})) = ({[ 9 := ex_app ]} : gmap Z PortmapApp) !! id) /\
    (last es = Some None -> restarts_with d' {[ 9 := ex_app ]}).
Proof.
  assert (E : foldl spec_app ∅ [AppDel 4; AppUpdate ex_app] = {[ 9 := ex_app ]}).
  { cbn. by rewrite delete_empty, insert_empty. }
  rewrite <- E. apply (apps_refine_map [AppDel 4; AppUpdate ex_app] mem_empty ∅).
  - apply map_Forall_empty.
  - repeat constructor; vm_compute; congruence.
  - done.
Defined.

Lemma find_app_any_order_witness :
  let m := mkAppMgr mem_empty (Some {[ 9 := ex_app ]}) in
  let hit a := app_LocalPort a = 8080 /\ app_Network a = "tcp" in
  let r := FindAppWithPort map_to_list "tcp" 8080 m in
  (r = app_zero \/ (exists id, GetPortmapApp id m = Some r /\ hit r)) /\
  ((forall id a, GetPortmapApp id m = Some a -> ~ hit a) -> r = app_zero) /\
  (forall id a, GetPortmapApp id m = Some a -> hit a ->
     (forall id' a', GetPortmapApp id' m = Some a' -> hit a' -> a' = a) -> r = a).
Proof.
  exact (find_app_any_order map_to_list "tcp" 8080 (mkAppMgr mem_empty (Some {[ 9 := ex_app ]}))
           (fun _ => reflexivity _)).
Defined.
