(* ===== verification/AppRace.v ===== *)
(** src/gateway/portmap_app.go with its lock: [UpdatePortmapApp],
    [DelPortmapApp] and [GetPortmapApp] take it, [GetPortmapApps] and
    [FindAppWithPort], which range over the map, do not.  The goroutines that
    call them are interleaved: taking the lock, the write to the map (which has
    a beginning and an end), the save, releasing the lock, and each element of a
    range are steps.  A range that goes on while a goroutine is inside a write
    ends the process, as Go's runtime has it.  The theorem: in a process that is
    not ended so, one goroutine at a time is inside the lock, a change that
    reported success is stored with all the others, a range finds what was in
    the map throughout and nothing that never was; and the process ends only by
    a range and a write that overlap, which the example shows they can. *)
From S2P Require Import Prelude GoText GoIo Json Codec TypesId Store PortmapApp.

Section Race.
Context {DB : Type} {Db : LevelDB DB} {Dbl : LevelDBLaws DB}.
Abbreviation table := (gmap Z PortmapApp).

(** * Calls and where they stand *)

Inductive change := Put (a : PortmapApp) | Drop (id : Z).
Definition apply_change (c : change) (rs : table) : table :=
  match c with Put a => <[Uint64 (app_ID a) := a]> rs | Drop id => delete id rs end.

(** A range looks for an application or lists them all. *)
Inductive query := Find (network : string) (port : Z) | List.

(** Where the call of a goroutine stands.  [Writing] is inside the write to the
    map, [Ranging] has produced some elements since the version [from] of the
    map, [Told] has its answer at the version [to]. *)
Inductive pc :=
  | Want (c : change)
  | Locked (c : change)
  | Writing (c : change)
  | Written (c : change)
  | Saved (c : change) (r : option error)
  | Changed (c : change) (r : option error)
  | WantGet (id : Z)
  | LockedGet (id : Z)
  | Read (id : Z) (r : option PortmapApp)
  | Got (id : Z) (r : option PortmapApp)
  | Asked (q : query)
  | Ranging (q : query) (produced : list (Z * PortmapApp)) (from : nat)
  | Told (q : query) (r : list (Z * PortmapApp)) (from to : nat).

Definition starting (p : pc) : bool := match p with Want _ | WantGet _ | Asked _ => true | _ => false end.
(** Inside the lock. *)
Definition inside (p : pc) : bool :=
  match p with Locked _ | Writing _ | Written _ | Saved _ _ | LockedGet _ | Read _ _ => true | _ => false end.
Definition writes (p : pc) : bool := match p with Writing _ => true | _ => false end.
Definition ranges (p : pc) : bool := match p with Ranging _ _ _ => true | _ => false end.

Definition matches (network : string) (port : Z) (a : PortmapApp) : bool :=
  (app_LocalPort a =? port) && String.eqb (app_Network a) network.

(** ** Versions of the map *)

(** At every version from [from] to [to], and at one of them. *)
Definition throughout (vs : list table) (from to : nat) (P : table -> Prop) : Prop :=
  forall j m, (from <= j <= to)%nat -> vs !! j = Some m -> P m.
Definition sometime (vs : list table) (from to : nat) (P : table -> Prop) : Prop :=
  exists j m, (from <= j <= to)%nat /\ vs !! j = Some m /\ P m.
Definition kept (vs : list table) (from to : nat) (k : Z) : Prop := throughout vs from to (fun m => is_Some (m !! k)).

(** * The process

    [versions] are the contents the map has had, the last one its content. *)
Record world := mkWorld {
  store : DB;
  versions : list table;
  holder : option nat;
  threads : list pc;
  ended : bool
}.

Definition cur (vs : list table) : table := default ∅ (last vs).
Definition top (vs : list table) : nat := pred (length vs).
Definition now (w : world) : table := cur (versions w).
Definition at_version (w : world) : nat := top (versions w).
Definition goto (i : nat) (p : pc) (w : world) : world :=
  mkWorld (store w) (versions w) (holder w) (<[i := p]> (threads w)) (ended w).
Definition set_holder (h : option nat) (w : world) : world := mkWorld (store w) (versions w) h (threads w) (ended w).

(** The manager as its methods see it. *)
Definition mgr (w : world) : PortmapAppMgr := mkAppMgr (store w) (Some (now w)).

Definition writing (w : world) : bool := existsb writes (threads w).

(** Whether an answer is complete with one more element. *)
Definition stops (q : query) (a : PortmapApp) : bool := match q with Find n p => matches n p a | List => false end.

(** An entry that has been there since the range began is produced once; one
    that was removed and added again may come again; the range ends when all
    of the former were produced. *)
Inductive wstep : world -> world -> Prop :=
  | st_call w p : ended w = false -> starting p = true ->
      wstep w (mkWorld (store w) (versions w) (holder w) (threads w ++ [p]) false)
  | st_lock w i c : ended w = false -> threads w !! i = Some (Want c) -> holder w = None ->
      wstep w (set_holder (Some i) (goto i (Locked c) w))
  | st_begin w i c : ended w = false -> threads w !! i = Some (Locked c) -> wstep w (goto i (Writing c) w)
  | st_write w i c : ended w = false -> threads w !! i = Some (Writing c) ->
      wstep w (mkWorld (store w) (versions w ++ [apply_change c (now w)]) (holder w) (<[i := Written c]> (threads w)) false)
  | st_save w i c r m : ended w = false -> threads w !! i = Some (Written c) -> savePortmapApps (mgr w) = (Ret r, m) ->
      wstep w (mkWorld (app_db m) (versions w) (holder w) (<[i := Saved c r]> (threads w)) false)
  | st_unlock w i c r : ended w = false -> threads w !! i = Some (Saved c r) -> wstep w (set_holder None (goto i (Changed c r) w))
  | st_lock_get w i id : ended w = false -> threads w !! i = Some (WantGet id) -> holder w = None ->
      wstep w (set_holder (Some i) (goto i (LockedGet id) w))
  | st_get w i id : ended w = false -> threads w !! i = Some (LockedGet id) -> wstep w (goto i (Read id (GetPortmapApp id (mgr w))) w)
  | st_unlock_get w i id r : ended w = false -> threads w !! i = Some (Read id r) -> wstep w (set_holder None (goto i (Got id r) w))
  | st_range w i q : ended w = false -> threads w !! i = Some (Asked q) -> writing w = false -> wstep w (goto i (Ranging q [] (at_version w)) w)
  | st_next w i q l from k a : ended w = false -> threads w !! i = Some (Ranging q l from) -> writing w = false -> now w !! k = Some a ->
      (k ∈ l.*1 -> ~ kept (versions w) from (at_version w) k) ->
      wstep w (goto i (if stops q a then Told q [(k, a)] from (at_version w) else Ranging q (l ++ [(k, a)]) from) w)
  | st_end w i q l from : ended w = false -> threads w !! i = Some (Ranging q l from) -> writing w = false ->
      (forall k, kept (versions w) from (at_version w) k -> k ∈ l.*1) ->
      wstep w (goto i (Told q (match q with Find _ _ => [] | List => l end) from (at_version w)) w)
  | st_crash w i j p p' : ended w = false -> threads w !! i = Some p -> ranges p = true -> threads w !! j = Some p' -> writes p' = true ->
      wstep w (mkWorld (store w) (versions w) (holder w) (threads w) true).

(** A manager that was loaded, before the first call. *)
Definition loaded (d : DB) (rs : table) : world := mkWorld d [rs] None [] false.

(** * The invariant *)

Lemma throughout_grow vs m from to (P : table -> Prop) : throughout (vs ++ [m]) from to P -> throughout vs from to P.
Proof. intros H j x Hj Hx. apply (H j x Hj). by apply lookup_app_l_Some. Qed.
Lemma throughout_longer vs from to to' (P : table -> Prop) : (to <= to')%nat -> throughout vs from to' P -> throughout vs from to P.
Proof. intros Hl H j x Hj. apply H. lia. Qed.
Lemma throughout_old vs m from to (P : table -> Prop) : (to < length vs)%nat -> throughout vs from to P -> throughout (vs ++ [m]) from to P.
Proof. intros Hl H j x Hj Hx. apply (H j x Hj). by rewrite lookup_app_l in Hx by lia. Qed.
Lemma sometime_grow vs m from to to' (P : table -> Prop) : (to <= to')%nat -> sometime vs from to P -> sometime (vs ++ [m]) from to' P.
Proof. intros Hl (j & x & Hj & Hx & HP). exists j, x. split; [lia|]. split; [by apply lookup_app_l_Some|done]. Qed.

Lemma cur_snoc vs m : cur (vs ++ [m]) = m.
Proof. unfold cur. by rewrite last_snoc. Qed.
Lemma top_snoc vs m : top (vs ++ [m]) = length vs.
Proof. unfold top. rewrite length_app. cbn. lia. Qed.
Lemma cur_top vs : vs <> [] -> vs !! top vs = Some (cur vs).
Proof. intros H. unfold top, cur. rewrite <- last_lookup. destruct vs using rev_ind; [done|]. by rewrite last_snoc. Qed.
Lemma sometime_now vs from (P : table -> Prop) : vs <> [] -> (from <= top vs)%nat -> P (cur vs) -> sometime vs from (top vs) P.
Proof. intros Hne Hf HP. exists (top vs), (cur vs). split; [lia|]. split; [by apply cur_top|done]. Qed.

Definition applied (c : change) (rs : table) : Prop :=
  match c with Put a => rs !! Uint64 (app_ID a) = Some a | Drop id => rs !! id = None end.
Lemma apply_applied c rs : applied c (apply_change c rs).
Proof. destruct c; cbn; [apply lookup_insert_eq|apply lookup_delete_eq]. Qed.

(** How often [k] was produced. *)
Definition times (k : Z) (l : list (Z * PortmapApp)) : nat := length (List.filter (fun x => x.1 =? k) l).

Lemma times_snoc k k' a l : times k (l ++ [(k', a)]) = (times k l + if (k' =? k)%Z then 1 else 0)%nat.
Proof. unfold times. rewrite List.filter_app, length_app. cbn. by destruct (k' =? k). Qed.
Lemma times_pos k l : k ∈ l.*1 <-> (0 < times k l)%nat.
Proof.
  unfold times. induction l as [|[k' a] l IH]; [split; [by intros ?%elem_of_nil|cbn; lia]|]. cbn.
  rewrite elem_of_cons. destruct (Z.eqb_spec k' k) as [->|Hne]; cbn; [split; [lia|by left]|]. rewrite IH. naive_solver.
Qed.

(** What a range has produced. *)
Definition produced_ok (vs : list table) (q : query) (l : list (Z * PortmapApp)) (from to : nat) : Prop :=
  Forall (fun x => sometime vs from to (fun m => m !! x.1 = Some x.2) /\ stops q x.2 = false) l /\
  forall k, kept vs from to k -> (times k l <= 1)%nat.

Definition told_ok (vs : list table) (q : query) (r : list (Z * PortmapApp)) (from to : nat) : Prop :=
  match q with
  | Find n p =>
      match r with
      | [] => forall k, ~ throughout vs from to (fun m => exists a, m !! k = Some a /\ matches n p a = true)
      | (k, a) :: _ => matches n p a = true /\ sometime vs from to (fun m => m !! k = Some a)
      end
  | List =>
      (forall k a, (k, a) ∈ r -> sometime vs from to (fun m => m !! k = Some a)) /\
      (forall k, kept vs from to k -> times k r = 1%nat)
  end.

Definition pc_ok (st : DB) (vs : list table) (p : pc) : Prop :=
  match p with
  | Written c => applied c (cur vs)
  | Saved c None => db_Get keyPortmapApps st = inl (Marshal (cur vs)) /\ applied c (cur vs)
  | Read id r => r = cur vs !! id
  | Got id r => sometime vs 0 (top vs) (fun m => m !! id = r)
  | Ranging q l from => (from <= top vs)%nat /\ produced_ok vs q l from (top vs)
  | Told q r from to => (from <= to <= top vs)%nat /\ told_ok vs q r from to
  | _ => True
  end.

(** The goroutine inside the lock is its holder. *)
Definition lock_ok (w : world) : Prop :=
  (forall i p, threads w !! i = Some p -> inside p = true -> holder w = Some i) /\
  (forall i, holder w = Some i -> exists p, threads w !! i = Some p /\ inside p = true).

Record winv (w : world) : Prop := {
  inv_versions : versions w <> [];
  inv_lock : lock_ok w;
  inv_pcs : Forall (pc_ok (store w) (versions w)) (threads w);
  inv_ended : ended w = true -> exists i j p q, threads w !! i = Some p /\ ranges p = true /\ threads w !! j = Some q /\ writes q = true
}.

(** ** What other goroutines do to a call *)

Lemma produced_grow vs m q l from : vs <> [] -> produced_ok vs q l from (top vs) -> produced_ok (vs ++ [m]) q l from (top (vs ++ [m])).
Proof.
  intros Hne [H1 H2]. assert (Ht : (top vs <= top (vs ++ [m]))%nat) by (rewrite top_snoc; unfold top; lia). split.
  - eapply Forall_impl; [exact H1|]. intros x [Hx Hs]. split; [|done]. by eapply sometime_grow.
  - intros k Hk. apply H2. apply throughout_grow in Hk. by eapply throughout_longer.
Qed.

Lemma told_grow vs m q r from to : told_ok vs q r from to -> told_ok (vs ++ [m]) q r from to.
Proof.
  destruct q as [n p|]; cbn.
  - destruct r as [|[k a] r].
    + intros H k Hk. apply (H k). by eapply throughout_grow.
    + intros [H1 H2]. split; [done|]. by eapply sometime_grow.
  - intros [H1 H2]. split; [intros k a Hk; eapply sometime_grow; [done|by apply H1]|]. intros k Hk. apply H2. by eapply throughout_grow.
Qed.

(** A write and a save leave what the calls outside the lock rely on. *)
Lemma pc_ok_grow st vs m p : vs <> [] -> inside p = false -> pc_ok st vs p -> pc_ok st (vs ++ [m]) p.
Proof.
  intros Hne Hi. assert (Ht : (top vs <= top (vs ++ [m]))%nat) by (rewrite top_snoc; unfold top; lia).
  destruct p as [| | | | | | | | |id r| |q l from|q r from to]; cbn [pc_ok]; try done.
  - intros H. by eapply sometime_grow.
  - intros [H1 H2]. split; [lia|]. by apply produced_grow.
  - intros [H1 H2]. split; [lia|]. by apply told_grow.
Qed.
Lemma pc_ok_save st st' vs p : inside p = false -> pc_ok st vs p -> pc_ok st' vs p.
Proof. by destruct p. Qed.

Lemma others_outside w i p j q : lock_ok w -> threads w !! i = Some p -> inside p = true -> threads w !! j = Some q -> j <> i -> inside q = false.
Proof.
  intros [Hl _] Hi Hp Hj Hne. destruct (inside q) eqn:E; [|done]. pose proof (Hl _ _ Hi Hp). pose proof (Hl _ _ Hj E). congruence.
Qed.

(** Replacing one goroutine's place, when the others keep what they rely on. *)
Lemma pcs_goto w i p p' st vs : lock_ok w -> threads w !! i = Some p ->
  Forall (pc_ok (store w) (versions w)) (threads w) -> pc_ok st vs p' ->
  (forall j q, j <> i -> threads w !! j = Some q -> pc_ok (store w) (versions w) q -> pc_ok st vs q) ->
  Forall (pc_ok st vs) (<[i := p']> (threads w)).
Proof.
  intros _ Hi HF Hp' Ho. apply Forall_lookup. intros j q Hj.
  destruct (decide (j = i)) as [->|Hne]; [rewrite list_lookup_insert_eq in Hj by (by eapply lookup_lt_Some); by injection Hj as <-|].
  rewrite list_lookup_insert_ne in Hj by done. apply (Ho j q Hne Hj). by eapply Forall_lookup_1.
Qed.

Lemma lock_goto w w' i p p' : lock_ok w -> threads w !! i = Some p -> threads w' = <[i := p']> (threads w) ->
  holder w' = (if inside p' then Some i else if inside p then None else holder w) ->
  (inside p' = true -> inside p = false -> holder w = None) -> lock_ok w'.
Proof.
  intros [H1 H2] Hi Ht Hh Hfree. assert (Hlen : (i < length (threads w))%nat) by (by eapply lookup_lt_Some).
  assert (Hhold : inside p = true -> holder w = Some i) by (by apply H1). split.
  - intros j q Hj Hq. rewrite Ht in Hj. destruct (decide (j = i)) as [->|Hne].
    + rewrite list_lookup_insert_eq in Hj by done. injection Hj as <-. by rewrite Hh, Hq.
    + rewrite list_lookup_insert_ne in Hj by done. pose proof (H1 j q Hj Hq) as E. rewrite Hh.
      destruct (inside p') eqn:Ep', (inside p) eqn:Ep; try done.
      * rewrite Hhold in E by done. congruence.
      * rewrite Hfree in E by done. done.
      * rewrite Hhold in E by done. congruence.
  - intros j Hj. rewrite Hh in Hj. rewrite Ht. destruct (inside p') eqn:Ep'.
    + injection Hj as <-. exists p'. by rewrite list_lookup_insert_eq.
    + destruct (inside p) eqn:Ep; [done|]. destruct (H2 j Hj) as (q & Hq & Hin). exists q. split; [|done].
      rewrite list_lookup_insert_ne; [done|]. intros ->. congruence.
Qed.

Lemma lock_call w p : lock_ok w -> inside p = false -> lock_ok (mkWorld (store w) (versions w) (holder w) (threads w ++ [p]) false).
Proof.
  intros [H1 H2] Hp. split; cbn [threads holder].
  - intros i q Hi Hq. apply lookup_app_Some in Hi as [Hi|[_ Hi]]; [by apply (H1 i q)|].
    destruct (i - length (threads w))%nat; [injection Hi as <-; congruence|done].
  - intros i Hi. destruct (H2 i Hi) as (q & Hq & Hin). exists q. split; [by apply lookup_app_l_Some|done].
Qed.

(** ** Every step keeps it *)

Lemma winv_goto w w' i p p' : winv w -> ended w' = false -> threads w !! i = Some p -> threads w' = <[i := p']> (threads w) ->
  versions w' <> [] -> holder w' = (if inside p' then Some i else if inside p then None else holder w) ->
  (inside p' = true -> inside p = false -> holder w = None) -> pc_ok (store w') (versions w') p' ->
  (forall j q, j <> i -> threads w !! j = Some q -> pc_ok (store w) (versions w) q -> pc_ok (store w') (versions w') q) -> winv w'.
Proof.
  intros [Hne Hl Hp _] He Hi Ht Hv Hh Hf Hok Ho. split; [done|by eapply lock_goto| |congruence]. rewrite Ht. by eapply pcs_goto.
Qed.

(** The same when only the goroutine and the lock change. *)
Lemma winv_move w i p p' h : winv w -> ended w = false -> threads w !! i = Some p ->
  h = (if inside p' then Some i else if inside p then None else holder w) ->
  (inside p' = true -> inside p = false -> holder w = None) -> pc_ok (store w) (versions w) p' ->
  winv (set_holder h (goto i p' w)).
Proof. intros HI He Hi Hh Hf Hok. apply (winv_goto w _ i p p' HI); try done. by destruct HI. Qed.

Lemma next_ok vs q l from k a : vs <> [] -> (from <= top vs)%nat -> produced_ok vs q l from (top vs) -> cur vs !! k = Some a ->
  (k ∈ l.*1 -> ~ kept vs from (top vs) k) -> forall st,
  pc_ok st vs (if stops q a then Told q [(k, a)] from (top vs) else Ranging q (l ++ [(k, a)]) from).
Proof.
  intros Hne Hf [H1 H2] Hk Hnew st. assert (Hnow : sometime vs from (top vs) (fun m => m !! k = Some a)) by (by apply sometime_now).
  destruct (stops q a) eqn:Es; cbn [pc_ok]; (split; [lia|]).
  - destruct q as [n p|]; [|done]. split; [exact Es|exact Hnow].
  - split.
    + apply Forall_app. split; [exact H1|]. by repeat constructor.
    + intros k' Hk'. rewrite times_snoc. destruct (Z.eqb_spec k k') as [<-|Hne']; [|specialize (H2 k' Hk'); lia].
      destruct (decide (0 < times k l)%nat) as [Ht|Ht]; [|lia]. apply times_pos in Ht. by destruct (Hnew Ht).
Qed.

Lemma end_ok vs q l from : (from <= top vs)%nat -> produced_ok vs q l from (top vs) -> (forall k, kept vs from (top vs) k -> k ∈ l.*1) ->
  told_ok vs q (match q with Find _ _ => [] | List => l end) from (top vs).
Proof.
  intros Hf [H1 H2] Hall. rewrite Forall_forall in H1. destruct q as [n p|]; cbn.
  - intros k Hk. assert (Hkept : kept vs from (top vs) k).
    { intros j m Hj Hm. destruct (Hk j m Hj Hm) as (a & Ha & _). by eexists. }
    apply Hall, list_elem_of_fmap in Hkept as ([k' a] & -> & Hin). destruct (H1 _ Hin) as [(j & m & Hj & Hm & Ha) Hs]. cbn in *.
    destruct (Hk j m Hj Hm) as (a' & Ha' & Hma). rewrite Ha in Ha'. injection Ha' as <-. congruence.
  - split; [intros k a Hin; exact (proj1 (H1 _ Hin))|]. intros k Hk. pose proof (H2 k Hk). apply Hall, times_pos in Hk. lia.
Qed.

Lemma save_stores (w : world) r m : savePortmapApps (mgr w) = (Ret r, m) -> r = None -> db_Get keyPortmapApps (app_db m) = inl (Marshal (now w)).
Proof.
  unfold savePortmapApps, mgr, bind, get, zoom, dbPut. cbn [PortmapApp.apps app_db].
  destruct (db_Put keyPortmapApps (Marshal (now w)) (store w)) as [e d] eqn:E. intros [= <- <-] ->. cbn. by eapply put_get.
Qed.

Lemma race_step_inv w w' : winv w -> wstep w w' -> winv w'.
Proof.
  intros HI Hs. pose proof HI as [Hne Hlock Hpcs Hend].
  destruct Hs as [w p He Hp|w i c He Hi Hh|w i c He Hi|w i c He Hi|w i c r m He Hi Hs|w i c r He Hi|w i id He Hi Hh|w i id He Hi|w i id r He Hi
    |w i q He Hi Hw|w i q l from k a He Hi Hw Hk Hnew|w i q l from He Hi Hw Hall|w i j p p' He Hi Hp Hj Hp'].
  - split; [done|apply lock_call; [done|by destruct p]| |done]. cbn [threads store versions]. apply Forall_app. split; [done|]. constructor; [by destruct p|done].
  - by apply (winv_move w i (Want c) (Locked c)).
  - apply (winv_goto w _ i (Locked c) (Writing c)); try done. exact (proj1 Hlock i (Locked c) Hi eq_refl).
  - apply (winv_goto w _ i (Writing c) (Written c)); try done; cbn [versions holder store].
    + by destruct (versions w).
    + exact (proj1 Hlock i (Writing c) Hi eq_refl).
    + cbn [pc_ok]. rewrite cur_snoc. apply apply_applied.
    + intros j q Hj Hq. apply pc_ok_grow; [done|]. exact (others_outside w i _ j q Hlock Hi eq_refl Hq Hj).
  - assert (Hok : applied c (cur (versions w))) by exact (Forall_lookup_1 _ _ _ _ Hpcs Hi).
    apply (winv_goto w _ i (Written c) (Saved c r)); try done; cbn [versions holder store].
    + exact (proj1 Hlock i (Written c) Hi eq_refl).
    + destruct r as [e|]; [done|]. cbn [pc_ok]. split; [by eapply save_stores|done].
    + intros j q Hj Hq. apply pc_ok_save. exact (others_outside w i _ j q Hlock Hi eq_refl Hq Hj).
  - by apply (winv_move w i (Saved c r) (Changed c r)).
  - by apply (winv_move w i (WantGet id) (LockedGet id)).
  - apply (winv_goto w _ i (LockedGet id) (Read id (GetPortmapApp id (mgr w)))); try done. exact (proj1 Hlock i (LockedGet id) Hi eq_refl).
  - pose proof (Forall_lookup_1 _ _ _ _ Hpcs Hi) as Hok. apply (winv_move w i (Read id r) (Got id r)); try done.
    cbn [pc_ok] in *. apply sometime_now; [done|lia|done].
  - apply (winv_goto w _ i (Asked q) (Ranging q [] (at_version w))); try done. cbn [pc_ok]. split; [done|]. split; [constructor|intros; cbn; lia].
  - pose proof (Forall_lookup_1 _ _ _ _ Hpcs Hi) as [Hf Hok]. eapply (winv_goto w _ i _ _ HI); try done.
    + by destruct (stops q a).
    + by destruct (stops q a).
    + by apply next_ok.
  - pose proof (Forall_lookup_1 _ _ _ _ Hpcs Hi) as [Hf Hok]. eapply (winv_goto w _ i _ _ HI); try done.
    cbn [pc_ok]. split; [unfold at_version; cbn; lia|]. by apply end_ok.
  - split; [done|done|done|]. intros _. by exists i, j, p, p'.
Qed.

Lemma loaded_inv d rs : winv (loaded d rs).
Proof. split; [done|split; intros; done|constructor|done]. Qed.

Lemma raced_inv d rs w : rtc wstep (loaded d rs) w -> winv w.
Proof. intros H. pose proof (loaded_inv d rs) as HI. induction H as [|w1 w2 w3 Hs _ IH]; [done|]. apply IH. by eapply race_step_inv. Qed.

(** * One goroutine alone *)

Definition op_of (c : change) : app_op := match c with Put a => AppUpdate a | Drop id => AppDel id end.

Lemma goto_twice i p q l : <[i := q]> (<[i := p]> l) = <[i := q]> (l : list pc).
Proof. apply list_insert_insert_eq. Qed.

(** Undisturbed, a change is the manager's operation. *)
Theorem alone_change w i c : ended w = false -> holder w = None -> threads w !! i = Some (Want c) ->
  exists r w', rtc wstep w w' /\ threads w' = <[i := Changed c r]> (threads w) /\ holder w' = None /\
    run_app_op (op_of c) (mgr w) = (Ret r, mgr w').
Proof.
  intros He Hh Hi. assert (Hlen : (i < length (threads w))%nat) by (by eapply lookup_lt_Some).
  set (vs := versions w ++ [apply_change c (now w)]).
  destruct (savePortmapApps (mkAppMgr (store w) (Some (cur vs)))) as [o m] eqn:Es.
  assert (Hm : exists r d, o = Ret r /\ m = mkAppMgr d (Some (cur vs))).
  { unfold savePortmapApps, bind, get, zoom, dbPut in Es. cbn in Es. destruct (db_Put _ _ _) as [e d]. injection Es as <- <-. by eexists _, _. }
  destruct Hm as (r & d & -> & ->).
  exists r, (mkWorld d vs None (<[i := Changed c r]> (threads w)) false). split; [|split; [done|split; [done|]]].
  - eapply rtc_l; [by apply (st_lock w i c)|]. set (w1 := set_holder _ _).
    eapply rtc_l; [apply (st_begin w1 i c); [done|by apply list_lookup_insert_eq]|]. set (w2 := goto i (Writing c) w1).
    eapply rtc_l; [apply (st_write w2 i c); [done|cbn; rewrite goto_twice; by apply list_lookup_insert_eq]|]. set (w3 := mkWorld _ _ _ _ _).
    assert (Hv : versions w3 = vs) by done. assert (Hst : store w3 = store w) by done.
    assert (Ht3 : threads w3 = <[i := Written c]> (threads w)) by (cbn; by rewrite !goto_twice).
    assert (Hh3 : holder w3 = Some i) by done. assert (He3 : ended w3 = false) by done. clearbody w3.
    eapply rtc_l; [apply (st_save w3 i c r (mkAppMgr d (Some (cur vs)))); [done|rewrite Ht3; by apply list_lookup_insert_eq|]|].
    { unfold mgr, now. by rewrite Hv, Hst. }
    set (w4 := mkWorld _ _ _ _ _). eapply rtc_l; [apply (st_unlock w4 i c r); [done|cbn; rewrite Ht3, goto_twice; by apply list_lookup_insert_eq]|].
    unfold set_holder, goto. cbn. rewrite Hv, Ht3, !goto_twice. constructor.
  - assert (Ec : cur vs = apply_change c (now w)) by apply cur_snoc.
    unfold mgr, now. cbn [versions store]. rewrite <- Es, Ec. by destruct c.
Qed.

(** And a search is the manager's in the order the elements come. *)
Theorem alone_find w i n p l : versions w <> [] -> ended w = false -> writing w = false -> threads w !! i = Some (Asked (Find n p)) -> l ≡ₚ map_to_list (now w) ->
  exists r w', rtc wstep w w' /\ threads w' = <[i := Told (Find n p) r (at_version w) (at_version w)]> (threads w) /\
    FindAppWithPort (fun _ => l) n p (mgr w) = default app_zero (snd <$> head r).
Proof.
  intros Hne He Hw Hi Hl. assert (Hlen : (i < length (threads w))%nat) by (by eapply lookup_lt_Some).
  assert (Hnd : NoDup l.*1) by (rewrite Hl; apply NoDup_fst_map_to_list).
  assert (Hin : forall k a, (k, a) ∈ l -> now w !! k = Some a) by (intros k a; rewrite Hl; apply elem_of_map_to_list).
  assert (Hall : forall k, is_Some (now w !! k) -> k ∈ l.*1).
  { intros k [a Ha]. apply list_elem_of_fmap. exists (k, a). split; [done|]. rewrite Hl. by apply elem_of_map_to_list. }
  assert (Hmv : forall q, writes q = false -> writing (goto i q w) = false).
  { intros q Hq. unfold writing, goto in *. cbn. revert Hw. generalize (threads w). clear -Hq. intros t. revert i.
    induction t as [|x t IH]; intros [|i]; cbn; try done; intros [Hx Ht]%orb_false_iff; [by rewrite Hq|by rewrite Hx, IH]. }
  assert (Hgo : forall l2 l1, l = l1 ++ l2 -> exists r, rtc wstep (goto i (Ranging (Find n p) l1 (at_version w)) w)
      (goto i (Told (Find n p) r (at_version w) (at_version w)) w) /\
      default app_zero (snd <$> head r) = match find (matches n p) l2.*2 with Some a => a | None => app_zero end).
  { induction l2 as [|[k a] l2 IH]; intros l1 El; set (w1 := goto i (Ranging (Find n p) l1 (at_version w)) w);
      (assert (Hi1 : threads w1 !! i = Some (Ranging (Find n p) l1 (at_version w))) by (by apply list_lookup_insert_eq)).
    - exists []. split; [|done]. eapply rtc_l; [apply (st_end w1 i _ _ _ He Hi1)|].
      + by apply Hmv.
      + intros k Hk. rewrite app_nil_r in El. subst l1. apply Hall.
        exact (Hk (top (versions w)) (cur (versions w)) (conj (le_n _) (le_n _)) (cur_top _ Hne)).
      + unfold goto. cbn. rewrite goto_twice. constructor.
    - assert (Hk : now w !! k = Some a) by (apply Hin; rewrite El, elem_of_app; right; left).
      assert (Hnew : k ∉ l1.*1).
      { rewrite El, fmap_app, fmap_cons in Hnd. apply NoDup_app in Hnd as (_ & Hd & _). intros H. apply (Hd k H). left. }
      assert (Hs := st_next w1 i _ _ _ k a He Hi1 (Hmv (Ranging (Find n p) l1 (at_version w)) eq_refl) Hk (fun H => False_ind _ (Hnew H))). cbn [stops fmap list_fmap find] in *.
      change ((k, a).2) with a.
      destruct (matches n p a) eqn:Em.
      + exists [(k, a)]. split; [|done]. eapply rtc_l; [exact Hs|]. unfold goto. cbn. rewrite goto_twice. constructor.
      + destruct (IH (l1 ++ [(k, a)])) as (r & Hr & Hf); [by rewrite El, <- app_assoc|]. exists r. split; [|done].
        eapply rtc_l; [exact Hs|]. unfold goto in *. cbn in *. rewrite goto_twice. exact Hr. }
  destruct (Hgo l [] eq_refl) as (r & Hr & Hf). exists r, (goto i (Told (Find n p) r (at_version w) (at_version w)) w). split; [|split; [done|]].
  - eapply rtc_l; [by apply (st_range w i (Find n p))|exact Hr].
  - unfold FindAppWithPort, GetPortmapApps. symmetry. exact Hf.
Qed.

(** * All of them *)

(** C39. Whatever the goroutines do and in whatever order, in a process that was
    not ended one goroutine at a time is inside the lock; before a change
    releases it with success the store holds the whole map with the change; an
    application [GetPortmapApp] returned was in the map at some moment; a search
    answers an application that was in the map at some moment of the call with
    the network and port asked for, and nothing only if no application was there
    with them throughout; a listing contains every application that was there
    throughout once and only such that were there at some moment.  The process
    ends only by a range during a write. *)
Theorem apps_race d rs w : rtc wstep (loaded d rs) w ->
  (forall i j p q, threads w !! i = Some p -> threads w !! j = Some q -> inside p = true -> inside q = true -> i = j) /\
  (forall i c, threads w !! i = Some (Saved c None) -> db_Get keyPortmapApps (store w) = inl (Marshal (now w)) /\ applied c (now w)) /\
  (forall i id r, threads w !! i = Some (Got id r) -> sometime (versions w) 0 (at_version w) (fun m => m !! id = r)) /\
  (forall i n p r from to, threads w !! i = Some (Told (Find n p) r from to) ->
     match r with
     | [] => forall k, ~ throughout (versions w) from to (fun m => exists a, m !! k = Some a /\ matches n p a = true)
     | (k, a) :: _ => matches n p a = true /\ sometime (versions w) from to (fun m => m !! k = Some a)
     end) /\
  (forall i r from to, threads w !! i = Some (Told List r from to) ->
     (forall k a, (k, a) ∈ r -> sometime (versions w) from to (fun m => m !! k = Some a)) /\
     (forall k, kept (versions w) from to k -> times k r = 1%nat)) /\
  (ended w = true -> exists i j p q, threads w !! i = Some p /\ ranges p = true /\ threads w !! j = Some q /\ writes q = true).
Proof.
  intros [Hne [Hl _] Hp He]%raced_inv. rewrite Forall_lookup in Hp. split_and!.
  - intros i j p q Hi Hj Hpi Hqj. pose proof (Hl i p Hi Hpi). pose proof (Hl j q Hj Hqj). congruence.
  - intros i c Hi. exact (Hp _ _ Hi).
  - intros i id r Hi. exact (Hp _ _ Hi).
  - intros i n p r from to Hi. exact (proj2 (Hp _ _ Hi)).
  - intros i r from to Hi. exact (proj2 (Hp _ _ Hi)).
  - exact He.
Qed.
End Race.

(** * Concrete inputs *)

Definition ex_loaded : @world memdb := loaded mem_empty {[ 9 := ex_app ]}.
Definition ex_search : query := Find (app_Network ex_app) (app_LocalPort ex_app).

(** A connection that looks for its application while one is deleted ends the
    process. *)
Example overlap_ends : exists w, rtc wstep ex_loaded w /\ ended w = true.
Proof.
  eexists. split.
  - eapply rtc_l; [by apply (st_call _ (Asked ex_search))|]. eapply rtc_l; [by apply (st_call _ (Want (Drop 9)))|].
    eapply rtc_l; [by apply (st_range _ 0 ex_search)|]. eapply rtc_l; [by apply (st_lock _ 1 (Drop 9))|].
    eapply rtc_l; [by apply (st_begin _ 1 (Drop 9))|]. eapply rtc_l; [|constructor].
    by eapply (st_crash _ 0 1).
  - done.
Qed.

(** A search that is not disturbed finds it. *)
Lemma apps_race_witness : exists w, rtc wstep ex_loaded w /\
  threads w = [Told ex_search [(9, ex_app)] 0 0] /\ sometime (versions w) 0 0 (fun m => m !! 9 = Some ex_app).
Proof.
  set (w1 := mkWorld (DB := memdb) mem_empty [{[ 9 := ex_app ]}] None [Ranging ex_search [] 0] false).
  assert (H1 : rtc wstep ex_loaded w1).
  { eapply rtc_l; [by apply (st_call _ (Asked ex_search))|]. apply rtc_once. exact (st_range (mkWorld mem_empty [{[ 9 := ex_app ]}] None [Asked ex_search] false) 0 ex_search eq_refl eq_refl eq_refl). }
  assert (E : stops ex_search ex_app = true) by (vm_compute; reflexivity).
  pose proof (st_next w1 0 ex_search [] 0 9 ex_app eq_refl eq_refl eq_refl eq_refl
    (fun H => False_ind _ (not_elem_of_nil 9 H))) as H2. rewrite E in H2.
  set (w := goto 0 (Told ex_search [(9, ex_app)] 0 (at_version w1)) w1) in H2.
  assert (H : rtc wstep ex_loaded w) by exact (rtc_r _ _ _ H1 H2).
  destruct (apps_race mem_empty {[ 9 := ex_app ]} w H) as (_ & _ & _ & Hf & _).
  exists w. split; [exact H|]. split; [reflexivity|]. exact (proj2 (Hf 0%nat _ _ _ _ _ eq_refl)).
Defined.
