(* ===== verification/ProxyService.v ===== *)
(** src/gateway/proxy_service.go: the settings of the gateway's proxy server,
    kept in memory and saved whole after each change.  The theorem: each setter
    changes its own fields only, and a setter that reports success is durable. *)
From S2P Require Import Prelude GoText Json Codec Store.

Definition keyProxyServiceConfig : string := "proxy_service_config".

Record proxyServiceConfig := mkPsc {
  psc_Route : string;
  psc_DNS : string;
  psc_ProxyAddr : string;
  psc_ProxyUser : string;
  psc_ProxyPass : string
}.

#[export] Instance proxyServiceConfig_eq_dec : EqDecision proxyServiceConfig.
Proof. solve_decision. Defined.

Definition psc_zero : proxyServiceConfig := mkPsc "" "" "" "" "".

Definition psc_fields : list (field proxyServiceConfig) :=
  [ jfield "route" psc_Route
      (fun v r => mkPsc v (psc_DNS r) (psc_ProxyAddr r) (psc_ProxyUser r) (psc_ProxyPass r));
    jfield "dns" psc_DNS
      (fun v r => mkPsc (psc_Route r) v (psc_ProxyAddr r) (psc_ProxyUser r) (psc_ProxyPass r));
    jfield "proxy_addr" psc_ProxyAddr
      (fun v r => mkPsc (psc_Route r) (psc_DNS r) v (psc_ProxyUser r) (psc_ProxyPass r));
    jfield "proxy_user" psc_ProxyUser
      (fun v r => mkPsc (psc_Route r) (psc_DNS r) (psc_ProxyAddr r) v (psc_ProxyPass r));
    jfield "proxy_pass" psc_ProxyPass
      (fun v r => mkPsc (psc_Route r) (psc_DNS r) (psc_ProxyAddr r) (psc_ProxyUser r) v) ].

Definition psc_fits (r : proxyServiceConfig) : Prop :=
  json_fits (psc_Route r) /\
  json_fits (psc_DNS r) /\
  json_fits (psc_ProxyAddr r) /\
  json_fits (psc_ProxyUser r) /\
  json_fits (psc_ProxyPass r).

#[export] Instance psc_codec : JsonCodec proxyServiceConfig := {
  json_of := struct_json psc_fields;
  json_into := struct_into psc_fields;
  zero := psc_zero;
  json_fits := psc_fits;
  json_norm := id;
  json_depth := 1
}.
#[export] Instance psc_laws : CodecLaws proxyServiceConfig.
Proof. struct_laws. Qed.

Section Service.
Context {DB : Type} {Db : LevelDB DB} {Dbl : LevelDBLaws DB}.

Record proxyService := mkPs { ps_db : DB; config : proxyServiceConfig }.
Definition set_ps_db (d : DB) (s : proxyService) : proxyService := mkPs d (config s).
Definition set_config (c : proxyServiceConfig) : GoM proxyService unit :=
  modify (fun s => mkPs (ps_db s) c).

Definition saveConfig : GoM proxyService (option error) :=
  s <- get ;; zoom ps_db set_ps_db (dbPut keyProxyServiceConfig (Marshal (config s))).

Definition loadConfig : GoM proxyService (option error) :=
  s <- get ;;
  match load_into keyProxyServiceConfig (config s) (ps_db s) with
  | inr e => ret (Some e)
  | inl c => set_config c ;;; ret None
  end.

Definition getConfig : GoM proxyService proxyServiceConfig := gets config.

Definition set (c : proxyServiceConfig) : GoM proxyService (option error) :=
  set_config c ;;; saveConfig.

Definition setDNS (dns : string) : GoM proxyService (option error) :=
  s <- get ;;
  let c := config s in
  set_config (mkPsc (psc_Route c) dns (psc_ProxyAddr c) (psc_ProxyUser c) (psc_ProxyPass c)) ;;;
  saveConfig.

Definition setProxy (addr user pass : string) : GoM proxyService (option error) :=
  s <- get ;;
  let c := config s in
  set_config (mkPsc (psc_Route c) (psc_DNS c) addr user pass) ;;;
  saveConfig.

Inductive setting := SetAll (c : proxyServiceConfig) | SetDNS (dns : string)
  | SetProxy (addr user pass : string).

Definition run_setting (o : setting) : GoM proxyService (option error) :=
  match o with SetAll c => set c | SetDNS d => setDNS d | SetProxy a u p => setProxy a u p end.

(** The settings after a change. *)
Definition apply_setting (o : setting) (c : proxyServiceConfig) : proxyServiceConfig :=
  match o with
  | SetAll c' => c'
  | SetDNS d => mkPsc (psc_Route c) d (psc_ProxyAddr c) (psc_ProxyUser c) (psc_ProxyPass c)
  | SetProxy a u p => mkPsc (psc_Route c) (psc_DNS c) a u p
  end.

(** A change of the proxy settings takes effect in memory whatever the
    store answers, and the error returned is the store's; when there is none, a
    service started on the store with empty settings loads the new ones; when
    the write failed, it loads what was stored before. *)
Theorem proxy_settings_durable o s :
  psc_fits (apply_setting o (config s)) ->
  exists e d', run_setting o s = (Ret e, mkPs d' (apply_setting o (config s))) /\
    (e, d') = db_Put keyProxyServiceConfig (Marshal (apply_setting o (config s))) (ps_db s) /\
    (e = None -> loadConfig (mkPs d' psc_zero) = (Ret None, mkPs d' (apply_setting o (config s)))) /\
    (forall e1, e = Some e1 -> forall c,
       load_into keyProxyServiceConfig c d' = load_into keyProxyServiceConfig c (ps_db s)).
Proof.
  intros Hf. set (c := apply_setting o (config s)) in *.
  assert (Hrun : run_setting o s = saveConfig (mkPs (ps_db s) c)) by (by destruct o).
  rewrite Hrun. unfold saveConfig, bind, get, zoom, dbPut. cbn [config ps_db].
  destruct (db_Put keyProxyServiceConfig (Marshal c) (ps_db s)) as [e d'] eqn:E.
  exists e, d'. split_and!; [done|done| |].
  - intros ->. unfold loadConfig, bind, get. cbn [config ps_db].
    rewrite (load_saved _ c); [done|reflexivity|exact Hf|simpl; lia|]. by eapply put_get.
  - intros e1 -> c1. unfold load_into. by rewrite (put_failed _ _ _ _ _ E).
Qed.
End Service.

Lemma proxy_settings_durable_witness :
  let s := mkPs mem_empty (mkPsc "0.0.0.0/0" "" "" "" "") in
  exists e d', run_setting (SetDNS "1.1.1.1") s = (Ret e, mkPs d' (apply_setting (SetDNS "1.1.1.1") (config s))) /\
    (e, d') = db_Put keyProxyServiceConfig (Marshal (apply_setting (SetDNS "1.1.1.1") (config s))) (ps_db s) /\
    (e = None -> loadConfig (mkPs d' psc_zero) = (Ret None, mkPs d' (apply_setting (SetDNS "1.1.1.1") (config s)))) /\
    (forall e1, e = Some e1 -> forall c,
       load_into keyProxyServiceConfig c d' = load_into keyProxyServiceConfig c (ps_db s)).
Proof.
  apply (proxy_settings_durable (SetDNS "1.1.1.1") (mkPs mem_empty (mkPsc "0.0.0.0/0" "" "" "" ""))).
  split_and!; vm_compute; reflexivity.
Defined.
