(* ===== verification/Socks5Util.v ===== *)
(** src/socks5/util.go: datagrams over a byte stream, each behind a two-byte
    length, and datagrams with a SOCKS5 address in front.  The SOCKS5 messages
    themselves come from github.com/txthinking/socks5, a dependency: the class
    [Socks5Lib] holds the functions the program calls and [Socks5Laws] what
    RFC 1928 and RFC 1929 say of them.  The theorems: datagrams come back whole
    and in order whatever the chunking of the stream, and the lengths for which
    the reader panics. *)
From S2P Require Import Prelude GoText GoIo GoNet.

(** * The SOCKS5 library *)

Record UserPassReq := mkUrq { Ulen : Z; Uname : bytes; Plen : Z; Passwd : bytes }.
Record Request := mkReq { Cmd : Z; Atyp : Z; DstAddr : bytes; DstPort : bytes }.
Record Reply := mkReply { Rep : Z; RAtyp : Z; BndAddr : bytes; BndPort : bytes }.

Definition ATYPIPv4 : Z := 1.
Definition ATYPDomain : Z := 3.
Definition ATYPIPv6 : Z := 4.
Definition MethodNone : Z := 0.
Definition MethodUsernamePassword : Z := 2.
Definition UserPassStatusSuccess : Z := 0.
Definition UserPassStatusFailure : Z := 1.
Definition CmdConnect : Z := 1.
Definition RepSuccess : Z := 0.
Definition RepHostUnreachable : Z := 4.
Definition RepCommandNotSupported : Z := 7.
Definition RepAddressNotSupported : Z := 8.

(** The messages as bytes, their readers from a connection, and the address
    functions.  [NewRequest] turns the address it is given into the wire form
    [DstAddr] (a domain gets its length in front). *)
Class Socks5Lib := {
  enc_negotiation : bytes -> bytes;
  read_negotiation : GoM Conn (bytes + error);
  enc_method : Z -> bytes;
  read_method : GoM Conn (Z + error);
  enc_userpass : bytes -> bytes -> bytes;
  read_userpass : GoM Conn (UserPassReq + error);
  enc_status : Z -> bytes;
  read_status : GoM Conn (Z + error);
  NewRequest : Z -> Z -> bytes -> bytes -> Request;
  enc_request : Request -> bytes;
  Request_Address : Request -> string;
  read_request : GoM Conn (Request + error);
  NewReply : Z -> Z -> bytes -> bytes -> Reply;
  enc_reply : Reply -> bytes;
  read_reply : GoM Conn (Reply + error);
  ParseAddress : string -> (Z * bytes * bytes) + error;
  ParseBytesAddress : bytes -> (Z * bytes * bytes) + error;
  ToAddress : Z -> bytes -> bytes -> string;
  ErrUnsupportCmd : error;
  ErrUserPassAuth : error
}.

(** What a reader leaves alone. *)
Definition keeps (c c' : Conn) : Prop :=
  tx c' = tx c /\ werr c' = werr c /\ closed c' = closed c /\ reset c' = reset c /\
  end_err (rx c') = end_err (rx c).

(** [m] reads the value [a] off the bytes [b]. *)
Definition reads {A} (m : GoM Conn (A + error)) (b : bytes) (a : A) : Prop :=
  forall c rest, content (rx c) = b ++ rest ->
    exists c', m c = (Ret (inl a), c') /\ content (rx c') = rest /\ keeps c c'.

(** [m] never panics and only consumes input; it fails when there is none. *)
Definition reader {A} (m : GoM Conn (A + error)) : Prop :=
  forall c, exists r c', m c = (Ret r, c') /\ keeps c c' /\
    (content (rx c) = [] -> content (rx c') = [] /\ exists e, r = inr e).

(** The address of an IP endpoint. *)
Definition ip_addr (a : Z) (addr port : bytes) : Prop :=
  Forall is_byte (addr ++ port) /\ length port = 2%nat /\
  (a = ATYPIPv4 /\ length addr = 4%nat \/ a = ATYPIPv6 /\ length addr = 16%nat).

(** RFC 1928 and 1929: what is written reads back. *)
Class Socks5Laws `{Socks5Lib} := {
  negotiation_ok ms : Forall is_byte ms -> (0 < length ms <= 255)%nat ->
    reads read_negotiation (enc_negotiation ms) ms;
  method_ok m : is_byte m -> reads read_method (enc_method m) m;
  userpass_ok u p : Forall is_byte u -> Forall is_byte p ->
    (0 < length u <= 255)%nat -> (0 < length p <= 255)%nat ->
    reads read_userpass (enc_userpass u p) (mkUrq (Z.of_nat (length u)) u (Z.of_nat (length p)) p);
  status_ok s : is_byte s -> reads read_status (enc_status s) s;
  request_v4_ok cmd addr port : is_byte cmd -> Forall is_byte (addr ++ port) ->
    length addr = 4%nat -> length port = 2%nat ->
    reads read_request (enc_request (NewRequest cmd ATYPIPv4 addr port)) (NewRequest cmd ATYPIPv4 addr port);
  request_v6_ok cmd addr port : is_byte cmd -> Forall is_byte (addr ++ port) ->
    length addr = 16%nat -> length port = 2%nat ->
    reads read_request (enc_request (NewRequest cmd ATYPIPv6 addr port)) (NewRequest cmd ATYPIPv6 addr port);
  request_domain_ok cmd addr port : is_byte cmd -> Forall is_byte (addr ++ port) ->
    (0 < length addr <= 255)%nat -> length port = 2%nat ->
    reads read_request (enc_request (NewRequest cmd ATYPDomain addr port)) (NewRequest cmd ATYPDomain addr port);
  request_cmd cmd atyp addr port : Cmd (NewRequest cmd atyp addr port) = cmd;
  reply_ok rep a addr port : is_byte rep -> ip_addr a addr port ->
    reads read_reply (enc_reply (NewReply rep a addr port)) (NewReply rep a addr port);
  reply_rep rep a addr port : Rep (NewReply rep a addr port) = rep;
  negotiation_reader : reader read_negotiation;
  userpass_reader : reader read_userpass;
  request_reader : reader read_request;
  (* A reader that fails has either met the end of the stream or found a
     malformed message, whose error says so. *)
  negotiation_fail c e c' : read_negotiation c = (Ret (inr e), c') ->
    content (rx c') = [] \/ e = ErrText "Invalid Version" \/ e = ErrText "Bad Request";
  userpass_fail c e c' : read_userpass c = (Ret (inr e), c') ->
    content (rx c') = [] \/ e = ErrText "Invalid Version of username password auth" \/ e = ErrText "Bad Request";
  userpass_len c u c' : read_userpass c = (Ret (inl u), c') -> length (Passwd u) = Z.to_nat (Plen u);
  auth_error : ErrUserPassAuth = ErrText "Invalid Username or Password for Auth"
}.

(** * Datagrams on a stream *)

Definition errPacketTooLarge : error := ErrText "packet too large".

(** [packetReadWriter.Write] over the connection. *)
Definition packet_Write (p : bytes) : GoM Conn (Z * option error) :=
  let length := Z.of_nat (length p) in
  if 65535 <? length then ret (0, Some errPacketTooLarge)
  else
    let* (_, err) := Conn_Write (BE_PutUint16 (u16 length)) in
    match err with
    | None => Conn_Write p
    | Some e => ret (0, Some e)
    end.

(** [packetReadWriter.Read] into the slice [p]: the count, the error and the
    slice after the call.  [p[:l]] panics above the capacity of [p]. *)
Definition packet_Read (p : Slice) : GoM Conn (Z * option error * Slice) :=
  let* (h, err) := Conn_ReadFull 2 in
  match err with
  | Some e => ret (0, Some e, p)
  | None =>
      let l := BE_Uint16 h in
      if Z.of_nat (scap p) <? l then panic
      else
        let* (data, err) := Conn_ReadFull (Z.to_nat l) in
        ret (Z.of_nat (length data), err, sfill p data)
  end.

Section Datagrams.
Context {Lib : Socks5Lib}.

(** [socks5ReadFrom(p, rd)] over a packet reader: the payload, the address and
    the buffer.  The address is parsed from the whole of [p], and the payload
    slice panics when the address ends after the [n] bytes read. *)
Definition socks5ReadFrom (p : Slice) : GoM Conn (bytes * string * option error * Slice) :=
  let* (n, err, p') := packet_Read p in
  match err with
  | Some e => ret ([], "", Some e, p')
  | None =>
      match ParseBytesAddress (sview p') with
      | inr e => ret ([], "", Some e, p')
      | inl (a, addr, port) =>
          let from := ToAddress a addr port in
          let off := 1 + Z.of_nat (length addr) + 2 in
          if n <? off then panic
          else ret (drop (Z.to_nat off) (take (Z.to_nat n) (arr p')), from, None, p')
      end
  end.

(** [socks5WriteTo(p, to, w)] over a packet writer. *)
Definition socks5WriteTo (p : bytes) (to : string) : GoM Conn (option error) :=
  match ParseAddress to with
  | inr e => ret (Some e)
  | inl (a, addr, port) =>
      let* (_, err) := packet_Write (a :: addr ++ port ++ p) in
      ret err
  end.
End Datagrams.

(** What the library promises about addresses: an address that [ParseAddress]
    accepts, unless it is a domain too long for its length byte, is found at the
    front of any bytes that start with it. *)
Class AddressLaws `{Socks5Lib} := {
  parse_bytes_ok to a addr port rest :
    ParseAddress to = inl (a, addr, port) -> (length addr <= 256)%nat ->
    ParseBytesAddress (a :: addr ++ port ++ rest) = inl (a, addr, port);
  parse_port to a addr port : ParseAddress to = inl (a, addr, port) -> length port = 2%nat
}.

(** ** Lemmas *)

Definition packet_frame (p : bytes) : bytes := BE_PutUint16 (Z.of_nat (length p)) ++ p.

Lemma packet_Write_ok p c :
  Z.of_nat (length p) <= 65535 -> werr c = None ->
  packet_Write p c = (Ret (Z.of_nat (length p), None),
    mkConn (rx c) (tx c ++ packet_frame p) None (closed c) (reset c)).
Proof.
  intros Hl Hw. unfold packet_Write. rewrite (proj2 (Z.ltb_ge _ _)) by lia.
  unfold Conn_Write, bind. rewrite Hw. cbn [werr]. unfold packet_frame, u16.
  rewrite Z.mod_small by lia. cbn [rx tx closed reset]. by rewrite app_assoc.
Qed.

Lemma BE_16 n : (Z.of_nat n <= 65535) -> BE_Uint16 (BE_PutUint16 (Z.of_nat n)) = Z.of_nat n.
Proof. intros H. apply BE_roundtrip. unfold is_u16. lia. Qed.

Lemma packet_Read_ok p rest s c :
  content (rx c) = packet_frame p ++ rest -> Z.of_nat (length p) <= 65535 ->
  (length p <= scap s)%nat ->
  exists c', packet_Read s c = (Ret (Z.of_nat (length p), None, sfill s p), c') /\
    content (rx c') = rest /\ tx c' = tx c /\ werr c' = werr c.
Proof.
  intros Hc Hl Hcap. unfold packet_frame in Hc. rewrite <- app_assoc in Hc.
  destruct (Conn_ReadFull_ok 2 c _ _ Hc eq_refl) as (c1 & H1 & Hr1 & Ht1 & Hw1 & _).
  destruct (Conn_ReadFull_ok (length p) c1 p rest Hr1 eq_refl) as (c2 & H2 & Hr2 & Ht2 & Hw2 & _).
  exists c2. unfold packet_Read. rewrite (bind_Ret _ _ _ _ _ H1). cbn beta iota.
  rewrite BE_16 by done. rewrite (proj2 (Z.ltb_ge _ _)) by lia. rewrite Nat2Z.id.
  rewrite (bind_Ret _ _ _ _ _ H2). cbn beta iota. split_and!; [done|done|congruence|congruence].
Qed.

Definition wf_slice (s : Slice) : Prop := (slen s <= scap s)%nat.

(** A datagram with its address, as [socks5WriteTo] frames it. *)
Section DatagramLemmas.
Context `{AL : AddressLaws}.

Definition datagram (a : Z) (addr port p : bytes) : bytes := a :: addr ++ port ++ p.

Lemma socks5WriteTo_ok p to a addr port c :
  ParseAddress to = inl (a, addr, port) ->
  Z.of_nat (length (datagram a addr port p)) <= 65535 -> werr c = None ->
  socks5WriteTo p to c = (Ret None,
    mkConn (rx c) (tx c ++ packet_frame (datagram a addr port p)) None (closed c) (reset c)).
Proof.
  intros Ha Hl Hw. unfold socks5WriteTo. rewrite Ha.
  by rewrite (bind_Ret _ _ _ _ _ (packet_Write_ok _ c Hl Hw)).
Qed.

Lemma sview_sfill_prefix s data :
  wf_slice s -> (length data <= slen s)%nat -> exists tl, sview (sfill s data) = data ++ tl.
Proof.
  intros Hs Hl. unfold sview, sfill. cbn [arr slen]. exists (take (slen s - length data) (drop (length data) (arr s))).
  by rewrite take_app_ge by lia.
Qed.

Lemma wf_sfill s data : wf_slice s -> (length data <= scap s)%nat -> wf_slice (sfill s data).
Proof. intros Hs Hl. unfold wf_slice. rewrite sfill_cap by done. done. Qed.

Lemma socks5ReadFrom_ok to a addr port p rest s c :
  ParseAddress to = inl (a, addr, port) -> (length addr <= 256)%nat ->
  content (rx c) = packet_frame (datagram a addr port p) ++ rest ->
  Z.of_nat (length (datagram a addr port p)) <= 65535 ->
  wf_slice s -> (length (datagram a addr port p) <= slen s)%nat ->
  exists c' s', socks5ReadFrom s c = (Ret (p, ToAddress a addr port, None, s'), c') /\
    content (rx c') = rest /\ slen s' = slen s /\ wf_slice s' /\ tx c' = tx c.
Proof.
  intros Ha Hla Hc Hl Hs Hlen. set (D := datagram a addr port p) in *.
  assert (HD : (length D <= scap s)%nat) by (unfold wf_slice in Hs; lia).
  destruct (packet_Read_ok D rest s c Hc Hl HD) as (c' & H1 & Hr & Ht & _).
  exists c', (sfill s D). unfold socks5ReadFrom. rewrite (bind_Ret _ _ _ _ _ H1). cbn beta iota.
  destruct (sview_sfill_prefix s D Hs Hlen) as (tl & ->).
  assert (E : D ++ tl = a :: addr ++ port ++ p ++ tl).
  { unfold D, datagram. simpl. by rewrite <- !app_assoc. }
  rewrite E, (parse_bytes_ok to) by done. cbn beta iota.
  pose proof (parse_port _ _ _ _ Ha) as Hp.
  assert (HLD : length D = (3 + length addr + length p)%nat).
  { unfold D, datagram. simpl. rewrite !length_app. lia. }
  rewrite (proj2 (Z.ltb_ge _ _)) by lia. rewrite Nat2Z.id, sfill_take.
  assert (Hd : drop (Z.to_nat (1 + Z.of_nat (length addr) + 2)) D = p).
  { replace (Z.to_nat _) with (length (a :: addr ++ port)) by (simpl; rewrite length_app; lia).
    unfold D, datagram. change (a :: addr ++ port ++ p) with ((a :: addr) ++ port ++ p).
    rewrite app_assoc. by apply drop_app_length. }
  rewrite Hd. split_and!; [done|done|done| |done]. by apply wf_sfill.
Qed.

(** Datagrams written one after the other, and read one after the other into
    the same buffer. *)
Fixpoint write_all (ds : list (bytes * string)) : GoM Conn (option error) :=
  match ds with
  | [] => ret None
  | (p, to) :: ds' =>
      err <- socks5WriteTo p to ;;
      match err with Some e => ret (Some e) | None => write_all ds' end
  end.
Fixpoint read_all (n : nat) (s : Slice) : GoM Conn (list (bytes * string) * option error) :=
  match n with
  | O => ret ([], None)
  | S n' =>
      let* (p, from, err, s') := socks5ReadFrom s in
      match err with
      | Some e => ret ([], Some e)
      | None => let* (l, e) := read_all n' s' in ret ((p, from) :: l, e)
      end
  end.

(** The address in the form the reader reports it, for an address the writer
    accepts. *)
Definition canonical (to : string) : string :=
  match ParseAddress to with inl (a, addr, port) => ToAddress a addr port | inr _ => "" end.

Definition sendable (room : nat) (d : bytes * string) : Prop :=
  match ParseAddress d.2 with
  | inl (a, addr, port) =>
      (length addr <= 256)%nat /\ Z.of_nat (length (datagram a addr port d.1)) <= 65535 /\
      (length (datagram a addr port d.1) <= room)%nat
  | inr _ => False
  end.

Definition wire (ds : list (bytes * string)) : bytes :=
  concat (map (fun d => match ParseAddress d.2 with
                        | inl (a, addr, port) => packet_frame (datagram a addr port d.1)
                        | inr _ => []
                        end) ds).

Lemma write_all_ok ds room c :
  Forall (sendable room) ds -> werr c = None ->
  write_all ds c = (Ret None, mkConn (rx c) (tx c ++ wire ds) None (closed c) (reset c)).
Proof.
  intros Hds. revert c. induction Hds as [|[p to] ds Hd Hds IH]; intros c Hw.
  { destruct c as [r t w cl re]. simpl in Hw. subst w. unfold wire. simpl. by rewrite app_nil_r. }
  unfold sendable in Hd. cbn [fst snd] in Hd. unfold wire. cbn [map concat fst snd write_all].
  destruct (ParseAddress to) as [[[a addr] port]|] eqn:Ha; [|done]. destruct Hd as (_ & Hl & _).
  rewrite (bind_Ret _ _ _ _ _ (socks5WriteTo_ok p to a addr port c Ha Hl Hw)), IH by done.
  cbn [rx tx closed reset]. by rewrite app_assoc.
Qed.

Lemma read_all_ok ds s c rest :
  content (rx c) = wire ds ++ rest -> Forall (sendable (slen s)) ds -> wf_slice s ->
  exists c', read_all (length ds) s c = (Ret (map (fun d => (d.1, canonical d.2)) ds, None), c') /\
    content (rx c') = rest.
Proof.
  revert s c. induction ds as [|[p to] ds IH]; intros s c Hc Hds Hs; [by exists c|].
  inversion_clear Hds as [|? ? Hd Hds']. unfold sendable in Hd. cbn [fst snd] in Hd.
  unfold wire in Hc. cbn [map concat fst snd] in Hc. unfold canonical. cbn [length read_all map fst snd].
  destruct (ParseAddress to) as [[[a addr] port]|] eqn:Ha; [|done]. destruct Hd as (Hla & Hl & Hr).
  rewrite <- app_assoc in Hc.
  destruct (socks5ReadFrom_ok to a addr port p _ s c Ha Hla Hc Hl Hs Hr) as (c1 & s1 & H1 & Hc1 & Hs1 & Hw1 & _).
  destruct (IH s1 c1 Hc1) as (c2 & H2 & Hc2); [by rewrite Hs1|done|].
  exists c2. rewrite (bind_Ret _ _ _ _ _ H1). cbn beta iota. rewrite (bind_Ret _ _ _ _ _ H2). done.
Qed.

(** C7. Addressed datagrams survive the byte stream: whatever the chunking,
    the receiver gets every payload with the address it was sent to, in order,
    with its boundaries, out of one buffer used again and again, and the bytes
    that follow stay unread; no write fails. *)
Theorem datagrams_roundtrip ds cw cr s rest :
  Forall (sendable (slen s)) ds -> wf_slice s -> werr cw = None -> tx cw = [] ->
  content (rx cr) = tx (write_all ds cw).2 ++ rest ->
  (write_all ds cw).1 = Ret None /\
  exists cr', read_all (length ds) s cr = (Ret (map (fun d => (d.1, canonical d.2)) ds, None), cr') /\
    content (rx cr') = rest.
Proof.
  intros Hds Hs Hw Ht Hc. rewrite (write_all_ok ds (slen s) cw Hds Hw) in Hc |- *. split; [done|].
  cbn [snd tx] in Hc. rewrite Ht in Hc. by apply read_all_ok.
Qed.

(** What a peer can do with the length field: on a packet header for [l]
    bytes the reader panics exactly when [l] exceeds the capacity of the
    buffer; otherwise it reads the packet when it is all there and reports the
    short read when the stream ends first.  And a datagram whose address part
    runs past the packet's end panics after being read. *)
Theorem packet_read_bounds l data s c :
  is_u16 l -> content (rx c) = BE_PutUint16 l ++ data ->
  ((packet_Read s c).1 = Panic <-> Z.of_nat (scap s) < l) /\
  (l <= Z.of_nat (scap s) -> l <= Z.of_nat (length data) ->
     exists c', packet_Read s c = (Ret (l, None, sfill s (take (Z.to_nat l) data)), c')) /\
  (l <= Z.of_nat (scap s) -> Z.of_nat (length data) < l -> end_err (rx c) = EOF ->
     exists c' e, packet_Read s c = (Ret (Z.of_nat (length data), Some e, sfill s data), c') /\
       (e = EOF \/ e = ErrUnexpectedEOF)) /\
  (forall a addr port, l <= Z.of_nat (scap s) -> l <= Z.of_nat (length data) ->
     ParseBytesAddress (sview (sfill s (take (Z.to_nat l) data))) = inl (a, addr, port) ->
     l < 3 + Z.of_nat (length addr) -> (socks5ReadFrom s c).1 = Panic).
Proof.
  intros Hl Hc.
  destruct (Conn_ReadFull_ok 2 c _ _ Hc eq_refl) as (c1 & H1 & Hr1 & _ & _ & _ & _ & He1).
  assert (HR : packet_Read s c = (if Z.of_nat (scap s) <? l then panic
     else let* (d, err) := Conn_ReadFull (Z.to_nat l) in ret (Z.of_nat (length d), err, sfill s d)) c1).
  { unfold packet_Read. rewrite (bind_Ret _ _ _ _ _ H1). cbn beta iota. by rewrite BE_roundtrip. }
  assert (Hfull : l <= Z.of_nat (length data) -> exists c2,
     Conn_ReadFull (Z.to_nat l) c1 = (Ret (take (Z.to_nat l) data, None), c2)).
  { intros Hd. destruct (Conn_ReadFull_ok (Z.to_nat l) c1 (take (Z.to_nat l) data) (drop (Z.to_nat l) data))
      as (c2 & H2 & _); [by rewrite take_drop|rewrite length_take; lia|]. eauto. }
  assert (Hok : l <= Z.of_nat (scap s) -> l <= Z.of_nat (length data) ->
     exists c', packet_Read s c = (Ret (l, None, sfill s (take (Z.to_nat l) data)), c')).
  { intros Hcap Hd. destruct (Hfull Hd) as (c2 & H2). exists c2. rewrite HR, (proj2 (Z.ltb_ge _ _)) by lia.
    rewrite (bind_Ret _ _ _ _ _ H2). cbn beta iota. rewrite length_take. unfold ret.
    unfold is_u16 in Hl. do 3 f_equal. f_equal. lia. }
  split_and!.
  - rewrite HR. destruct (Z.ltb_spec (Z.of_nat (scap s)) l) as [Hlt|Hge]; [done|].
    unfold bind, Conn_ReadFull. destruct (ReadFull _ _) as [[d e] r]. cbn. split; [done|lia].
  - exact Hok.
  - intros Hcap Hd Hend. rewrite HR, (proj2 (Z.ltb_ge _ _)) by lia. unfold bind, Conn_ReadFull, ret.
    destruct (ReadFull_short (Z.to_nat l) (rx c1)) as (r & e & -> & ->); [rewrite Hr1; lia|].
    rewrite Hr1, He1, Hend. eexists _, _. split; [done|]. destruct data; auto.
  - intros a addr port Hcap Hd HP Hbad. destruct (Hok Hcap Hd) as (c' & HP').
    unfold socks5ReadFrom. rewrite (bind_Ret _ _ _ _ _ HP'). cbn beta iota. rewrite HP. cbn beta iota.
    by rewrite (proj2 (Z.ltb_lt _ _)) by lia.
Qed.
End DatagramLemmas.
