(* ===== verification/Tunnel.v ===== *)
(** src/socks5/util.go, tunneling and forward: two goroutines copy between two
    connections, one in each direction, and the first that ends closes a
    channel through a [sync.Once]; the caller waits for the channel, returns
    what the first one ended with, and its deferred calls close both
    connections.  The reads and the writes of the copies, the two calls of
    [end] and the return interleave as a schedule says.  The theorems: what a
    side gets is a prefix of what the other sent, one direction is complete when
    the result is nil, an error is one of the connections', the tunnel returns
    once one direction had enough steps, and a side that only closes its sending
    half loses the answer. *)
From S2P Require Import Prelude GoText GoIo.

(** The buffer of [io.Copy]. *)
Definition copyBuf : nat := 32 * 1024.

(** Where [forward] stands: before a read, before the write of what was read
    (with the read's error), before the call of [end], and behind it. *)
Inductive fpc :=
  | FRead
  | FWrite (p : bytes) (er : option error)
  | FEnd (e : option error)
  | FDone.

(** What [io.Copy] makes of a read's error. *)
Definition ended (er : option error) : fpc :=
  match er with None => FRead | Some EOF => FEnd None | Some e => FEnd (Some e) end.

Definition set_rx (r : Source) (c : Conn) : Conn := mkConn r (tx c) (werr c) (closed c) (reset c).
Definition set_tx (t : bytes) (c : Conn) : Conn := mkConn (rx c) t (werr c) (closed c) (reset c).

(** One step of [io.Copy(dst, src)]. *)
Definition copy_step (pc : fpc) (src dst : Conn) : fpc * Conn * Conn :=
  match pc with
  | FRead =>
      let '((p, er), r) := Read copyBuf (rx src) in
      ((if (0 <? length p)%nat then FWrite p er else ended er), set_rx r src, dst)
  | FWrite p er =>
      match werr dst with
      | Some e => (FEnd (Some e), src, dst)
      | None => (ended er, src, set_tx (tx dst ++ p) dst)
      end
  | _ => (pc, src, dst)
  end.

(** [wait] is the closed channel with the named result, [returned] what the
    caller got. *)
Record Tunnel := mkT {
  target : Conn; source : Conn; fwd1 : fpc; fwd2 : fpc; wait : option (option error); returned : option (option error)
}.

Definition tunneling (dst src : Conn) : Tunnel := mkT dst src FRead FRead None None.

(** The first to call [end] decides. *)
Definition endFunc (e : option error) (w : option (option error)) : option (option error) :=
  match w with None => Some e | Some _ => w end.

Definition errClosed : error := ErrText "use of closed network connection".
Definition shut (c : Conn) : Conn := mkConn (mkSource [] errClosed) (tx c) (Some errClosed) true (reset c).

Inductive actor := Fwd1 | Fwd2 | Caller.
#[export] Instance actor_eq_dec : EqDecision actor.
Proof. solve_decision. Defined.

(** [forward(dst, src, end)], [forward(src, dst, end)], and the caller: its
    deferred calls close what the goroutines still use. *)
Definition step (a : actor) (t : Tunnel) : Tunnel :=
  match a with
  | Fwd1 =>
      match fwd1 t with
      | FEnd e => mkT (target t) (source t) FDone (fwd2 t) (endFunc e (wait t)) (returned t)
      | pc => let '(pc', s, d) := copy_step pc (source t) (target t) in mkT d s pc' (fwd2 t) (wait t) (returned t)
      end
  | Fwd2 =>
      match fwd2 t with
      | FEnd e => mkT (target t) (source t) (fwd1 t) FDone (endFunc e (wait t)) (returned t)
      | pc => let '(pc', s, d) := copy_step pc (target t) (source t) in mkT s d (fwd1 t) pc' (wait t) (returned t)
      end
  | Caller =>
      match wait t, returned t with
      | Some e, None => mkT (shut (target t)) (shut (source t)) (fwd1 t) (fwd2 t) (wait t) (Some e)
      | _, _ => t
      end
  end.

Definition run (sched : list actor) (t : Tunnel) : Tunnel := fold_left (fun t a => step a t) sched t.

(** * Lemmas: one direction *)

Lemma Read_flow n s p er r : (0 < n)%nat -> Read n s = ((p, er), r) ->
  p ++ content r = content s /\ end_err r = end_err s /\
  match er with None => (length (content r) + length (chunks r) < length (content s) + length (chunks s))%nat
           | Some e => p = [] /\ content s = [] /\ e = end_err s end.
Proof.
  intros Hn. unfold Read, content. destruct s as [[|c cs] e]; cbn [chunks end_err concat]; [by intros [= <- <- <-]|].
  destruct (Nat.leb_spec (length c) n) as [H|H]; intros [= <- <- <-]; cbn [chunks concat end_err].
  - rewrite length_app. cbn [length]. split_and!; [done|done|lia].
  - rewrite app_assoc, take_drop, !length_app, length_drop. cbn [length]. split_and!; [done|done|lia].
Qed.

Lemma copyBuf_pos : (0 < copyBuf)%nat.
Proof. unfold copyBuf. lia. Qed.

(** [T0] is what the receiver had and is to get, [errs] how the direction may
    fail. *)
Definition flow (T0 : bytes) (errs : error -> Prop) (pc : fpc) (src dst : Conn) : Prop :=
  match pc with
  | FRead => tx dst ++ content (rx src) = T0
  | FWrite p er => er = None /\ tx dst ++ p ++ content (rx src) = T0
  | FEnd None => tx dst = T0
  | FEnd (Some e) => tx dst `prefix_of` T0 /\ errs e
  | FDone => tx dst `prefix_of` T0
  end /\ errs (end_err (rx src)) /\ forall e, werr dst = Some e -> errs e.

Lemma flow_prefix T0 errs pc src dst : flow T0 errs pc src dst -> tx dst `prefix_of` T0.
Proof.
  intros [H _]. destruct pc as [|p er|[e|]|]; [|destruct H as [_ H]|by destruct H|by rewrite H|done].
  - by exists (content (rx src)).
  - by exists (p ++ content (rx src)).
Qed.

Lemma ended_flow T0 (errs : error -> Prop) er src dst : tx dst ++ content (rx src) = T0 -> errs (end_err (rx src)) -> (forall e, werr dst = Some e -> errs e) ->
  match er with None => True | Some e => content (rx src) = [] /\ e = end_err (rx src) end ->
  flow T0 errs (ended er) src dst.
Proof.
  intros H He Hw Her. split; [|done]. destruct er as [e|]; [|done]. destruct Her as [Hc ->]. rewrite Hc, app_nil_r in H.
  subst T0. unfold ended.
  destruct (end_err (rx src)); cbn; try done; (split; [reflexivity|done]).
Qed.

Lemma copy_flow T0 errs pc src dst pc' src' dst' : flow T0 errs pc src dst -> copy_step pc src dst = (pc', src', dst') ->
  flow T0 errs pc' src' dst' /\ tx src' = tx src /\ werr src' = werr src /\ rx dst' = rx dst /\ werr dst' = werr dst /\
  end_err (rx src') = end_err (rx src).
Proof.
  intros [H [He Hw]]. destruct pc as [|p er|e|]; cbn [copy_step].
  - destruct (Read copyBuf (rx src)) as [[p er] r] eqn:E. destruct (Read_flow _ _ _ _ _ copyBuf_pos E) as (Hc & Hr & Her).
    intros [= <- <- <-]. split; [|done]. destruct (Nat.ltb_spec 0 (length p)) as [Hp|Hp].
    + destruct er as [e|]; [by destruct Her as [-> _]; cbn in Hp; lia|]. split; [|cbn; by rewrite Hr]. split; [done|]. cbn. by rewrite Hc.
    + destruct p; [|cbn in Hp; lia]. cbn in Hc. apply ended_flow; cbn; [by rewrite Hc|by rewrite Hr|done|].
      destruct er; [|done]. rewrite Hc, Hr. by destruct Her.
  - destruct H as [-> H]. destruct (werr dst) as [e|] eqn:E; intros [= <- <- <-].
    + split; [|done]. split; [|by rewrite E]. split; [by exists (p ++ content (rx src))|by apply Hw].
    + split; [|done]. split; [cbn; by rewrite <- app_assoc|]. cbn. by rewrite E.
  - intros [= <- <- <-]. done.
  - intros [= <- <- <-]. done.
Qed.

Lemma flow_frame T0 errs pc src dst src' dst' : rx src' = rx src -> tx dst' = tx dst -> werr dst' = werr dst ->
  flow T0 errs pc src dst -> flow T0 errs pc src' dst'.
Proof. unfold flow. by intros -> -> ->. Qed.

(** What a copy leaves of both ends, and that nothing is written to one whose
    writes fail. *)
Lemma copy_frame pc src dst pc' src' dst' : copy_step pc src dst = (pc', src', dst') ->
  tx src' = tx src /\ werr src' = werr src /\ rx dst' = rx dst /\ werr dst' = werr dst /\ (werr dst <> None -> tx dst' = tx dst) /\
  (pc = FDone -> pc' = FDone /\ dst' = dst).
Proof.
  destruct pc as [|p er|e|]; cbn [copy_step].
  - destruct (Read _ _) as [[p er] r]. by intros [= <- <- <-].
  - destruct (werr dst) eqn:E; intros [= <- <- <-]; split_and!; try done; congruence.
  - by intros [= <- <- <-].
  - by intros [= <- <- <-].
Qed.

Lemma ended_not_done er : ended er <> FDone.
Proof. destruct er as [[]|]; done. Qed.
Lemma copy_not_done pc src dst pc' src' dst' : pc <> FDone -> copy_step pc src dst = (pc', src', dst') -> pc' <> FDone.
Proof.
  destruct pc as [|p er|e|]; cbn [copy_step]; intros H.
  - destruct (Read _ _) as [[p er] r]. intros [= <- <- <-]. destruct (_ <? _)%nat; [done|apply ended_not_done].
  - destruct (werr dst); intros [= <- <- <-]; [done|apply ended_not_done].
  - by intros [= <- <- <-].
  - done.
Qed.

(** * The invariant *)

Section Invariant.
(** What the two sides are to get, and the errors of the connections. *)
Context (T1 T2 : bytes) (errs : error -> Prop).

(** What the closed channel says. *)
Definition verdict (w : option (option error)) (t : Tunnel) : Prop :=
  match w with
  | None => fwd1 t <> FDone /\ fwd2 t <> FDone
  | Some None => fwd1 t = FDone /\ tx (target t) = T1 \/ fwd2 t = FDone /\ tx (source t) = T2
  | Some (Some e) => errs e
  end.

Definition inv (t : Tunnel) : Prop :=
  verdict (wait t) t /\
  match returned t with
  | None => flow T1 errs (fwd1 t) (source t) (target t) /\ flow T2 errs (fwd2 t) (target t) (source t)
  | Some r => wait t = Some r /\ tx (target t) `prefix_of` T1 /\ tx (source t) `prefix_of` T2 /\
              werr (target t) <> None /\ werr (source t) <> None
  end.

(** A step of a direction that copies: [pc] and the ends before, and behind. *)
Lemma inv_copy t pc1 pc2 tg sr : inv t ->
  (exists s d, copy_step (fwd1 t) (source t) (target t) = (pc1, s, d) /\ tg = d /\ sr = s /\ pc2 = fwd2 t) \/
  (exists s d, copy_step (fwd2 t) (target t) (source t) = (pc2, s, d) /\ tg = s /\ sr = d /\ pc1 = fwd1 t) ->
  inv (mkT tg sr pc1 pc2 (wait t) (returned t)).
Proof.
  intros [Hv Hr] [(s & d & E & -> & -> & ->)|(s & d & E & -> & -> & ->)];
    destruct (copy_frame _ _ _ _ _ _ E) as (F1 & F2 & F3 & F4 & F5 & F6); split.
  - unfold verdict in *. cbn. destruct (wait t) as [[e|]|]; [done| |split; [exact (copy_not_done _ _ _ _ _ _ (proj1 Hv) E)|apply Hv]].
    destruct Hv as [[H1 H2]|[H1 H2]]; [left|right; by rewrite F1]. destruct (F6 H1) as [-> ->]. done.
  - cbn. destruct (returned t) as [r|].
    + destruct Hr as (Hw & P1 & P2 & W1 & W2). rewrite F1, F2, F4, F5 by done. done.
    + destruct Hr as [Hf1 Hf2]. destruct (copy_flow _ _ _ _ _ _ _ _ Hf1 E) as [Hf _]. split; [done|]. by apply (flow_frame _ _ _ (target t) (source t)).
  - unfold verdict in *. cbn. destruct (wait t) as [[e|]|]; [done| |split; [apply Hv|exact (copy_not_done _ _ _ _ _ _ (proj2 Hv) E)]].
    destruct Hv as [[H1 H2]|[H1 H2]]; [left; by rewrite F1|right]. destruct (F6 H1) as [-> ->]. done.
  - cbn. destruct (returned t) as [r|].
    + destruct Hr as (Hw & P1 & P2 & W1 & W2). rewrite F1, F2, F4, F5 by done. done.
    + destruct Hr as [Hf1 Hf2]. destruct (copy_flow _ _ _ _ _ _ _ _ Hf2 E) as [Hf _]. split; [|done]. by apply (flow_frame _ _ _ (source t) (target t)).
Qed.

Lemma inv_step a t : inv t -> inv (step a t).
Proof.
  intros Hi. pose proof Hi as [Hv Hr]. destruct a; cbn [step].
  - assert (Hc : forall pc1 s d, copy_step (fwd1 t) (source t) (target t) = (pc1, s, d) -> inv (mkT d s pc1 (fwd2 t) (wait t) (returned t))).
    { intros pc1 s d E. apply inv_copy; [done|]. left. by exists s, d. }
    destruct (fwd1 t) as [|p er|e|] eqn:Ef; try (destruct (copy_step _ _ _) as [[pc1 s] d] eqn:E; by apply Hc). clear Hc. split.
    + unfold verdict, endFunc in *. cbn. destruct (wait t) as [[e'|]|] eqn:Ew; [done|by destruct Hv as [[Hd _]|?]; [congruence|right]|].
      destruct (returned t); [by destruct Hr|]. destruct Hr as [[Hf _] _]. rewrite ?Ef in Hf. destruct e as [e|]; [by destruct Hf|by left].
    + cbn. destruct (returned t) as [r|]; [destruct Hr as [-> Hr]; done|]. destruct Hr as [Hf1 Hf2]. split; [|done].
      pose proof (flow_prefix _ _ _ _ _ Hf1). by destruct Hf1.
  - assert (Hc : forall pc2 s d, copy_step (fwd2 t) (target t) (source t) = (pc2, s, d) -> inv (mkT s d (fwd1 t) pc2 (wait t) (returned t))).
    { intros pc2 s d E. apply inv_copy; [done|]. right. by exists s, d. }
    destruct (fwd2 t) as [|p er|e|] eqn:Ef; try (destruct (copy_step _ _ _) as [[pc2 s] d] eqn:E; by apply Hc). clear Hc. split.
    + unfold verdict, endFunc in *. cbn. destruct (wait t) as [[e'|]|] eqn:Ew; [done|by destruct Hv as [?|[Hd _]]; [left|congruence]|].
      destruct (returned t); [by destruct Hr|]. destruct Hr as [_ [Hf _]]. rewrite ?Ef in Hf. destruct e as [e|]; [by destruct Hf|by right].
    + cbn. destruct (returned t) as [r|]; [destruct Hr as [-> Hr]; done|]. destruct Hr as [Hf1 Hf2]. split; [done|].
      pose proof (flow_prefix _ _ _ _ _ Hf2). by destruct Hf2.
  - destruct (wait t) as [e|] eqn:Ew; [|done]. destruct (returned t) eqn:Er; [done|]. destruct Hr as [Hf1 Hf2]. split.
    + cbn. unfold verdict in *. by destruct e.
    + cbn. apply flow_prefix in Hf1, Hf2. done.
Qed.

Lemma inv_run sched t : inv t -> inv (run sched t).
Proof. revert t. induction sched as [|a l IH]; [done|]. intros t Ht. cbn. by apply IH, inv_step. Qed.
End Invariant.

Lemma tunnel_start_inv dst src :
  inv (tx dst ++ content (rx src)) (tx src ++ content (rx dst))
    (fun e => e ∈ [end_err (rx src); end_err (rx dst)] \/ werr dst = Some e \/ werr src = Some e) (tunneling dst src).
Proof.
  split; [done|]. cbn. split; (split; [done|]); (split; [left|auto]); [by left|by right; left].
Qed.

(** * Termination *)

(** What a direction still has to do at most. *)
Definition size (s : Source) : nat := 2 * (length (content s) + length (chunks s)).
Definition todo (pc : fpc) (src : Conn) : nat :=
  match pc with FRead => size (rx src) + 3 | FWrite _ _ => size (rx src) + 4 | FEnd _ => 1 | FDone => 0 end.

Lemma todo_ended er src : (todo (ended er) src <= size (rx src) + 3)%nat.
Proof. destruct er as [[]|]; cbn; lia. Qed.

Lemma copy_todo pc src dst pc' src' dst' : copy_step pc src dst = (pc', src', dst') -> match pc with FEnd _ | FDone => True | _ => (todo pc' src' < todo pc src)%nat end /\
  (size (rx src') <= size (rx src))%nat.
Proof.
  destruct pc as [|p er|e|]; cbn [copy_step].
  - destruct (Read copyBuf (rx src)) as [[p er] r] eqn:E. destruct (Read_flow _ _ _ _ _ copyBuf_pos E) as (Hc & Hr & Her).
    intros [= <- <- <-]. cbn [rx set_rx todo].
    assert (Hs : (size r <= size (rx src))%nat /\ (er = None -> (size r + 2 <= size (rx src))%nat)).
    { unfold size. destruct er as [e|]; [|split; [|intros _]; lia]. split; [|done]. destruct Her as (-> & H1 & _).
      unfold Read in E. destruct (chunks (rx src)) eqn:Ec; [injection E as <- <-; rewrite Ec; lia|].
      destruct (_ <=? _)%nat; congruence. }
    destruct Hs as [Hs1 Hs2]. split; [|done]. destruct (Nat.ltb_spec 0 (length p)).
    + destruct er; [destruct Her as (-> & _); cbn in *; lia|]. specialize (Hs2 eq_refl). cbn. lia.
    + destruct er as [e|]; [destruct e; cbn; lia|]. specialize (Hs2 eq_refl). cbn. lia.
  - destruct (werr dst); intros [= <- <- <-]; (split; [|done]).
    + cbn. lia.
    + pose proof (todo_ended er src). unfold todo at 2. lia.
  - by intros [= <- <- <-].
  - by intros [= <- <- <-].
Qed.

Lemma todo_le pc src src' : (size (rx src') <= size (rx src))%nat -> (todo pc src' <= todo pc src)%nat.
Proof. intros H. destruct pc; cbn [todo]; lia. Qed.

(** Its own steps bring a direction forward, the others do not set it back. *)
Lemma step_todo1 a t : (todo (fwd1 (step a t)) (source (step a t)) <= todo (fwd1 t) (source t) - (if decide (a = Fwd1) then 1 else 0))%nat.
Proof.
  destruct a; cbn [step]; (destruct (decide _) as [H|H]; [try done|try done]).
  - destruct (fwd1 t) as [|p er|e|] eqn:Ef; [| |cbn; lia|cbn; by rewrite ?Ef];
      (destruct (copy_step _ _ _) as [[pc1 s] d] eqn:E; destruct (copy_todo _ _ _ _ _ _ E) as [Hd _]; cbn beta iota in Hd; cbn [fwd1 source]; lia).
  - destruct (fwd2 t) as [|p er|e|] eqn:Ef; [| |cbn; lia|cbn; lia];
      (destruct (copy_step _ _ _) as [[pc1 s] d] eqn:E; destruct (copy_frame _ _ _ _ _ _ E) as (_ & _ & Hx & _); cbn [fwd1 source];
       assert (todo (fwd1 t) d <= todo (fwd1 t) (source t))%nat by (apply todo_le; by rewrite Hx); lia).
  - destruct (wait t), (returned t); try lia. cbn [fwd1 source].
    assert (todo (fwd1 t) (shut (source t)) <= todo (fwd1 t) (source t))%nat by (apply todo_le; cbn; lia). lia.
Qed.

Definition swap (a : actor) : actor := match a with Fwd1 => Fwd2 | Fwd2 => Fwd1 | Caller => Caller end.
Definition mirror (t : Tunnel) : Tunnel := mkT (source t) (target t) (fwd2 t) (fwd1 t) (wait t) (returned t).
(** The two directions are each other's mirror images. *)
Lemma step_mirror a t : step a (mirror t) = mirror (step (swap a) t).
Proof.
  destruct a; cbn [step swap mirror fwd1 fwd2 target source wait returned].
  - destruct (fwd2 t); try done; by destruct (copy_step _ _ _) as [[? ?] ?].
  - destruct (fwd1 t); try done; by destruct (copy_step _ _ _) as [[? ?] ?].
  - by destruct (wait t), (returned t).
Qed.

Fixpoint count (a : actor) (sched : list actor) : nat :=
  match sched with [] => 0 | b :: l => (if decide (b = a) then 1 else 0) + count a l end.

Lemma run_todo1 sched t : (todo (fwd1 (run sched t)) (source (run sched t)) <= todo (fwd1 t) (source t) - count Fwd1 sched)%nat.
Proof.
  revert t. induction sched as [|a l IH]; intros t; [cbn; lia|]. cbn [run fold_left count]. fold (run l (step a t)).
  specialize (IH (step a t)). pose proof (step_todo1 a t). destruct (decide (a = Fwd1)); lia.
Qed.

Lemma run_mirror sched t : run sched (mirror t) = mirror (run (map swap sched) t).
Proof. revert t. induction sched as [|a l IH]; intros t; [done|]. cbn. by rewrite step_mirror, IH. Qed.
Lemma count_swap l : count Fwd1 (map swap l) = count Fwd2 l.
Proof. induction l as [|a l IH]; [done|]. cbn. rewrite IH. by destruct a. Qed.

(** Either direction, in [n] of its steps. *)
Lemma direction_ends sched t : (todo (fwd1 t) (source t) <= count Fwd1 sched)%nat \/ (todo (fwd2 t) (target t) <= count Fwd2 sched)%nat ->
  fwd1 (run sched t) = FDone \/ fwd2 (run sched t) = FDone.
Proof.
  assert (H : forall s u, (todo (fwd1 u) (source u) <= count Fwd1 s)%nat -> fwd1 (run s u) = FDone).
  { intros s u Hu. pose proof (run_todo1 s u). destruct (fwd1 (run s u)); cbn in *; [lia|lia|lia|done]. }
  intros [Hu|Hu]; [left; by apply H|right]. specialize (H (map swap sched) (mirror t)). rewrite count_swap in H. specialize (H Hu).
  rewrite run_mirror in H. rewrite map_map in H. rewrite (map_ext _ id) in H by (by intros []). rewrite map_id in H. exact H.
Qed.

(** Once a direction ended the channel is closed. *)
Lemma ended_wait T1 T2 errs t : inv T1 T2 errs t -> fwd1 t = FDone \/ fwd2 t = FDone -> wait t <> None.
Proof. intros [Hv _] Hd Hw. rewrite Hw in Hv. destruct Hv as [H1 H2], Hd; done. Qed.

Lemma tunnel_run_app l l' t : run (l ++ l') t = run l' (run l t).
Proof. apply fold_left_app. Qed.

(** Returned, nothing is written any more. *)
Lemma step_silent a t : returned t <> None -> werr (target t) <> None -> werr (source t) <> None ->
  let t' := step a t in returned t' <> None /\ werr (target t') <> None /\ werr (source t') <> None /\
    tx (target t') = tx (target t) /\ tx (source t') = tx (source t) /\ returned t' = returned t.
Proof.
  intros Hr Ht Hs. assert (Hc : step Caller t = t) by (cbn [step]; by destruct (wait t), (returned t)).
  destruct a; [| |by rewrite Hc]; cbn [step].
  - destruct (fwd1 t); try done; (destruct (copy_step _ _ _) as [[? ?] ?] eqn:E; apply copy_frame in E as (E1 & E2 & _ & E3 & E4 & _);
      specialize (E4 Ht); cbn; split_and!; congruence).
  - destruct (fwd2 t); try done; (destruct (copy_step _ _ _) as [[? ?] ?] eqn:E; apply copy_frame in E as (E1 & E2 & _ & E3 & E4 & _);
      specialize (E4 Hs); cbn; split_and!; congruence).
Qed.

Lemma run_silent sched t : returned t <> None -> werr (target t) <> None -> werr (source t) <> None ->
  tx (target (run sched t)) = tx (target t) /\ tx (source (run sched t)) = tx (source t) /\ returned (run sched t) = returned t.
Proof.
  revert t. induction sched as [|a l IH]; [done|]. intros t H1 H2 H3. cbn.
  destruct (step_silent a t H1 H2 H3) as (A & B & C & <- & <- & <-). by apply IH.
Qed.

(** Nothing that was written is taken back. *)
Lemma copy_grows pc src dst pc' src' dst' : copy_step pc src dst = (pc', src', dst') ->
  tx src' = tx src /\ tx dst `prefix_of` tx dst'.
Proof.
  destruct pc as [|p er|e|]; cbn [copy_step].
  - destruct (Read _ _) as [[p er] r]. by intros [= <- <- <-].
  - destruct (werr dst); intros [= <- <- <-]; (split; [done|]); [done|by exists p].
  - by intros [= <- <- <-].
  - by intros [= <- <- <-].
Qed.

Lemma run_grows sched t : tx (source t) `prefix_of` tx (source (run sched t)).
Proof.
  revert t. induction sched as [|a l IH]; intros t; [done|]. cbn. etrans; [|apply IH].
  destruct a; cbn [step].
  - destruct (fwd1 t); try done; (destruct (copy_step _ _ _) as [[? ?] ?] eqn:E; apply copy_grows in E as [E _]; cbn; by rewrite E).
  - destruct (fwd2 t); try done; (destruct (copy_step _ _ _) as [[? ?] ?] eqn:E; by apply copy_grows in E as [_ E]).
  - by destruct (wait t), (returned t).
Qed.

(** * Theorems *)

(** Under every schedule, each side gets, behind what it had been sent
    before, a prefix of what the other side sends, in order and without gaps.
    When the tunnel returns nil one of the two directions is complete; when it
    returns an error it is one of the two connections'. *)
Theorem tunnel_outcome dst src sched :
  let t := run sched (tunneling dst src) in
  tx (target t) `prefix_of` tx dst ++ content (rx src) /\
  tx (source t) `prefix_of` tx src ++ content (rx dst) /\
  match returned t with
  | None => True
  | Some None => tx (target t) = tx dst ++ content (rx src) \/ tx (source t) = tx src ++ content (rx dst)
  | Some (Some e) => e ∈ [end_err (rx src); end_err (rx dst)] \/ werr dst = Some e \/ werr src = Some e
  end.
Proof.
  intros t. destruct (inv_run _ _ _ sched _ (tunnel_start_inv dst src)) as [Hv Hr]. fold t in Hv, Hr.
  destruct (returned t) as [r|].
  - destruct Hr as (Hw & P1 & P2 & _). split; [done|]. split; [done|]. rewrite Hw in Hv. destruct r as [e|]; [done|].
    destruct Hv as [[_ H]|[_ H]]; auto.
  - destruct Hr as [H1 H2]. apply flow_prefix in H1, H2. auto.
Qed.

Lemma tunnel_ends dst src sched :
  (size (rx src) + 3 <= count Fwd1 sched)%nat \/ (size (rx dst) + 3 <= count Fwd2 sched)%nat ->
  returned (run (sched ++ [Caller]) (tunneling dst src)) <> None.
Proof.
  intros H. rewrite tunnel_run_app. set (t := run sched (tunneling dst src)). assert (Hw : wait t <> None).
  { eapply ended_wait; [apply inv_run, tunnel_start_inv|]. by apply direction_ends. }
  cbn. destruct (wait t), (returned t) eqn:E; try done. by rewrite E.
Qed.

(** C29. The tunnel returns: as soon as one of the two goroutines had twice as
    many steps as its connection has bytes and chunks, and three more, the
    caller's next step returns, whatever the other one does.  Each side then got
    a prefix of what the other one sends; nil says that one of the two
    directions is complete, and an error is one of the two connections'. *)
Theorem tunnel_returns dst src sched :
  (2 * (length (content (rx src)) + length (chunks (rx src))) + 3 <= count Fwd1 sched)%nat \/
  (2 * (length (content (rx dst)) + length (chunks (rx dst))) + 3 <= count Fwd2 sched)%nat ->
  let t := run (sched ++ [Caller]) (tunneling dst src) in
  tx (target t) `prefix_of` tx dst ++ content (rx src) /\ tx (source t) `prefix_of` tx src ++ content (rx dst) /\
  exists r, returned t = Some r /\
    match r with
    | None => tx (target t) = tx dst ++ content (rx src) \/ tx (source t) = tx src ++ content (rx dst)
    | Some e => e ∈ [end_err (rx src); end_err (rx dst)] \/ werr dst = Some e \/ werr src = Some e
    end.
Proof.
  intros H. cbn zeta. destruct (tunnel_outcome dst src (sched ++ [Caller])) as (P1 & P2 & Hr). split; [done|]. split; [done|].
  pose proof (tunnel_ends dst src sched H) as Hn.
  destruct (returned _) as [r|]; [|done]. exists r. split; [done|]. by destruct r.
Qed.

(** A side that has nothing more to send and closes its half loses the answer:
    the tunnel may return, with nil, before any of it was read, and nothing that
    happens later delivers it. *)
Theorem half_close_cuts dst src : chunks (rx src) = [] -> end_err (rx src) = EOF -> forall sched,
  let t := run ([Fwd1; Fwd1; Caller] ++ sched) (tunneling dst src) in returned t = Some None /\ tx (source t) = tx src.
Proof.
  intros Hc He sched t. unfold t. rewrite tunnel_run_app. set (u := run [Fwd1; Fwd1; Caller] (tunneling dst src)).
  assert (Hu : returned u = Some None /\ tx (source u) = tx src /\ werr (target u) <> None /\ werr (source u) <> None).
  { unfold u, run, tunneling. cbn [fold_left step fwd1 copy_step source target].
    assert (E : Read copyBuf (rx src) = (([], Some EOF), rx src)) by (unfold Read; by rewrite Hc, He). rewrite E. cbn. done. }
  destruct Hu as (H1 & H2 & H3 & H4). destruct (run_silent sched u) as (_ & E2 & E3); [by rewrite H1|done|done|].
  by rewrite E2, E3.
Qed.

(** * Concrete inputs *)

Definition ex_client : Conn := mkConn (mkSource [[71; 69]; [84]] EOF) [] None false false.
Definition ex_server : Conn := mkConn (mkSource [[50; 48]; [48]] EOF) [] None false false.

Lemma tunnel_returns_witness : exists r, returned (run (replicate 13 Fwd1 ++ [Caller]) (tunneling ex_server ex_client)) = Some r.
Proof.
  destruct (tunnel_returns ex_server ex_client (replicate 13 Fwd1)) as (_ & _ & r & Hr & _); [left; vm_compute; lia|]. by exists r.
Defined.

(** Answer first, then the end of the request: both get everything. *)
Example ex_both : let t := run (replicate 4 Fwd1 ++ replicate 4 Fwd2 ++ replicate 2 Fwd1 ++ [Caller]) (tunneling ex_server ex_client) in
  returned t = Some None /\ tx (target t) = [71; 69; 84] /\ tx (source t) = [50; 48; 48].
Proof. vm_compute. done. Qed.
