(* ===== verification/Socks5Rfc.v ===== *)
(** SOCKS5 messages as RFC 1928 and RFC 1929 define them: a concrete
    [Socks5Lib] that has the laws the theorems assume, used to evaluate the
    program's definitions on concrete streams. *)
From S2P Require Import Prelude GoText GoIo GoNet Socks5Util.

Definition then_ {A B} (m : GoM Conn (A + error)) (k : A -> GoM Conn (B + error)) : GoM Conn (B + error) :=
  r <- m ;; match r with inl a => k a | inr e => ret (inr e) end.
Definition take_bytes (n : nat) : GoM Conn (bytes + error) :=
  let* (d, e) := Conn_ReadFull n in
  ret (match e with None => inl d | Some e => inr e end).
Definition fail {A} (msg : string) : GoM Conn (A + error) := ret (inr (ErrText msg)).
Definition ok {A} (a : A) : GoM Conn (A + error) := ret (inl a).
Definition at_ (i : nat) (l : bytes) : Z := nth i l 0.

Definition rfc_negotiation : GoM Conn (bytes + error) :=
  then_ (take_bytes 2) (fun h =>
    if negb (at_ 0 h =? 5) then fail "Invalid Version"
    else if at_ 1 h =? 0 then fail "Bad Request"
    else take_bytes (Z.to_nat (at_ 1 h))).
Definition rfc_method : GoM Conn (Z + error) :=
  then_ (take_bytes 2) (fun h => if negb (at_ 0 h =? 5) then fail "Invalid Version" else ok (at_ 1 h)).
Definition rfc_userpass : GoM Conn (UserPassReq + error) :=
  then_ (take_bytes 2) (fun h =>
    if negb (at_ 0 h =? 1) then fail "Invalid Version of username password auth"
    else if at_ 1 h =? 0 then fail "Bad Request"
    else then_ (take_bytes (Z.to_nat (at_ 1 h) + 1)) (fun up =>
      let u := take (Z.to_nat (at_ 1 h)) up in
      let n := at_ (Z.to_nat (at_ 1 h)) up in
      if n =? 0 then fail "Bad Request"
      else then_ (take_bytes (Z.to_nat n)) (fun p => ok (mkUrq (at_ 1 h) u n p)))).
Definition rfc_status : GoM Conn (Z + error) :=
  then_ (take_bytes 2) (fun h =>
    if negb (at_ 0 h =? 1) then fail "Invalid Version of username password auth" else ok (at_ 1 h)).

(** An address of type [t] and its port, a domain with its length in front. *)
Definition rfc_addr {A} (t : Z) (k : bytes -> bytes -> A) : GoM Conn (A + error) :=
  let tail (a : bytes) := then_ (take_bytes 2) (fun p => ok (k a p)) in
  if t =? ATYPIPv4 then then_ (take_bytes 4) tail
  else if t =? ATYPIPv6 then then_ (take_bytes 16) tail
  else if t =? ATYPDomain then
    then_ (take_bytes 1) (fun l =>
      if at_ 0 l =? 0 then fail "Bad Request"
      else then_ (take_bytes (Z.to_nat (at_ 0 l))) (fun d => tail (l ++ d)))
  else fail "Bad Request".

Definition rfc_head : GoM Conn (bytes + error) :=
  then_ (take_bytes 4) (fun h => if negb (at_ 0 h =? 5) then fail "Invalid Version" else ok h).
Definition rfc_request : GoM Conn (Request + error) :=
  then_ rfc_head (fun h => rfc_addr (at_ 3 h) (fun a p => mkReq (at_ 1 h) (at_ 3 h) a p)).
Definition rfc_reply : GoM Conn (Reply + error) :=
  then_ rfc_head (fun h => rfc_addr (at_ 3 h) (fun a p => mkReply (at_ 1 h) (at_ 3 h) a p)).

Definition rfc_new_addr (atyp : Z) (addr : bytes) : bytes :=
  if atyp =? ATYPDomain then Z.of_nat (length addr) :: addr else addr.

Definition rfc_ParseAddress (s : string) : (Z * bytes * bytes) + error :=
  match SplitHostPort s with
  | inr e => inr e
  | inl (h, p) =>
      let port := BE_PutUint16 (u16 (Atoi p).1) in
      match ParseIP h with
      | Some ip =>
          match To4 ip with
          | Some ip4 => inl (ATYPIPv4, ip4, port)
          | None => inl (ATYPIPv6, ip, port)
          end
      | None =>
          let d := map byte_of (String.list_ascii_of_string h) in
          inl (ATYPDomain, u8 (Z.of_nat (length d)) :: d, port)
      end
  end.

Definition rfc_ParseBytesAddress (b : bytes) : (Z * bytes * bytes) + error :=
  match b with
  | [] => inr (ErrText "Invalid address")
  | a :: r =>
      let n := if a =? ATYPIPv4 then 4%nat else if a =? ATYPIPv6 then 16%nat
               else if a =? ATYPDomain then S (Z.to_nat (hd 0 r)) else 0%nat in
      if (n =? 0)%nat || (length r <? n + 2)%nat then inr (ErrText "Invalid address")
      else inl (a, take n r, take 2 (drop n r))
  end.

Definition rfc_ToAddress (a : Z) (addr port : bytes) : string :=
  let h := if a =? ATYPDomain then String.string_of_list_ascii (map chr (drop 1 addr))
           else IP_String addr in
  JoinHostPort h (Itoa (BE_Uint16 port)).

#[export] Instance rfc_lib : Socks5Lib := {
  enc_negotiation ms := [5; Z.of_nat (length ms)] ++ ms;
  read_negotiation := rfc_negotiation;
  enc_method m := [5; m];
  read_method := rfc_method;
  enc_userpass u p := [1; Z.of_nat (length u)] ++ u ++ [Z.of_nat (length p)] ++ p;
  read_userpass := rfc_userpass;
  enc_status s := [1; s];
  read_status := rfc_status;
  NewRequest cmd atyp addr port := mkReq cmd atyp (rfc_new_addr atyp addr) port;
  enc_request r := [5; Cmd r; 0; Atyp r] ++ DstAddr r ++ DstPort r;
  Request_Address r := rfc_ToAddress (Atyp r) (DstAddr r) (DstPort r);
  read_request := rfc_request;
  NewReply rep atyp addr port := mkReply rep atyp addr port;
  enc_reply r := [5; Rep r; 0; RAtyp r] ++ BndAddr r ++ BndPort r;
  read_reply := rfc_reply;
  ParseAddress := rfc_ParseAddress;
  ParseBytesAddress := rfc_ParseBytesAddress;
  ToAddress := rfc_ToAddress;
  ErrUnsupportCmd := ErrText "Unsupport Command";
  ErrUserPassAuth := ErrText "Invalid Username or Password for Auth"
}.

(** ** Lemmas *)

Lemma keeps_refl c : keeps c c.
Proof. done. Qed.
Lemma keeps_trans c1 c2 c3 : keeps c1 c2 -> keeps c2 c3 -> keeps c1 c3.
Proof. unfold keeps. intros (?&?&?&?&?) (?&?&?&?&?). split_and!; congruence. Qed.

Lemma take_bytes_ok n d rest c : content (rx c) = d ++ rest -> length d = n ->
  exists c', take_bytes n c = (Ret (inl d), c') /\ content (rx c') = rest /\ keeps c c'.
Proof.
  intros Hc Hn. destruct (Conn_ReadFull_ok n c d rest Hc Hn) as (c' & H1 & H2 & H3).
  exists c'. unfold take_bytes. rewrite (bind_Ret _ _ _ _ _ H1). split_and!; [done|done|]. unfold keeps. tauto.
Qed.

(** A reader that fails says why: the input is used up, or one of [msgs]. *)
Definition honest {A} (msgs : list string) (m : GoM Conn (A + error)) : Prop :=
  forall c, exists r c', m c = (Ret r, c') /\ keeps c c' /\
    (content (rx c) = [] -> content (rx c') = []) /\
    match r with
    | inl _ => True
    | inr e => content (rx c') = [] \/ exists msg, msg ∈ msgs /\ e = ErrText msg
    end.

Lemma honest_take msgs n : honest msgs (take_bytes n).
Proof.
  intros c. unfold take_bytes, bind, Conn_ReadFull, ret, ReadFull.
  pose proof (read_atleast_concat (chunks (rx c)) n) as H.
  destruct (read_atleast (chunks (rx c)) n) as [[got full] r]. destruct H as (-> & Hr & ->).
  eexists _, _. split; [reflexivity|]. split; [done|]. cbn [rx]. unfold content. cbn [chunks].
  rewrite Hr. split; [intros ->; apply drop_nil|].
  case_bool_decide; [done|]. assert (Hd : drop n (concat (chunks (rx c))) = []) by (apply drop_ge; lia).
  destruct (take n _), (end_err (rx c)); auto.
Qed.

Lemma take_bytes_empty n c : content (rx c) = [] -> (0 < n)%nat ->
  exists e c', take_bytes n c = (Ret (inr e), c') /\ content (rx c') = [] /\ keeps c c'.
Proof.
  intros Hc Hn. destruct (ReadFull_short n (rx c)) as (s' & e & E & _); [rewrite Hc; done|].
  exists e. unfold take_bytes, bind, Conn_ReadFull, ret. rewrite E. eexists. split; [done|].
  pose proof (honest_take [] n c) as (r & c' & H1 & H2 & H3 & _).
  unfold take_bytes, bind, Conn_ReadFull, ret in H1. rewrite E in H1. injection H1 as _ <-. auto.
Qed.

Lemma honest_then {A B} msgs (m : GoM Conn (A + error)) (k : A -> GoM Conn (B + error)) :
  honest msgs m -> (forall a, honest msgs (k a)) -> honest msgs (then_ m k).
Proof.
  intros Hm Hk c. destruct (Hm c) as (r & c1 & H1 & HK1 & HE1 & HF1). unfold then_.
  rewrite (bind_Ret _ _ _ _ _ H1). destruct r as [a|e]; [|by exists (inr e), c1].
  destruct (Hk a c1) as (r & c2 & H2 & HK2 & HE2 & HF2). exists r, c2.
  split_and!; [done|by eapply keeps_trans|auto|done].
Qed.

Lemma honest_ok {A} msgs (a : A) : honest msgs (ok a).
Proof. intros c. exists (inl a), c. done. Qed.
Lemma honest_fail {A} msgs msg : msg ∈ msgs -> honest msgs (fail (A := A) msg).
Proof. intros Hm c. exists (inr (ErrText msg)), c. split_and!; [done..|]. right. by exists msg. Qed.

Lemma take_bytes_inl n c d c' : take_bytes n c = (Ret (inl d), c') -> length d = n.
Proof.
  unfold take_bytes, bind, Conn_ReadFull, ret, ReadFull.
  pose proof (read_atleast_concat (chunks (rx c)) n) as H.
  destruct (read_atleast (chunks (rx c)) n) as [[got full] r]. destruct H as (-> & Hr & ->).
  case_bool_decide; [|by destruct (take n _), (end_err (rx c))].
  intros E. injection E as <- _. rewrite length_take. lia.
Qed.
Lemma then_inl {A B} (m : GoM Conn (A + error)) (k : A -> GoM Conn (B + error)) c b c' :
  then_ m k c = (Ret (inl b), c') -> exists a c1, m c = (Ret (inl a), c1) /\ k a c1 = (Ret (inl b), c').
Proof. unfold then_, bind, ret. destruct (m c) as [[[a|e]|] c1]; [eauto|done..]. Qed.

(** A reader that starts by reading at least one byte. *)
Lemma honest_reader {A B} msgs n (k : B -> GoM Conn (A + error)) (m0 : bytes -> GoM Conn (B + error)) :
  (0 < n)%nat -> honest msgs (then_ (then_ (take_bytes n) m0) k) -> reader (then_ (then_ (take_bytes n) m0) k).
Proof.
  intros Hn Hm c. destruct (Hm c) as (r & c' & H1 & H2 & H3 & _). exists r, c'. split_and!; [done|done|].
  intros Hc. split; [auto|]. destruct (take_bytes_empty n c Hc Hn) as (e & c2 & H4 & _).
  exists e. unfold then_ in H1. rewrite bind_assoc, (bind_Ret _ _ _ _ _ H4) in H1. cbn in H1. by injection H1.
Qed.
Lemma honest_reader1 {A} msgs n (k : bytes -> GoM Conn (A + error)) :
  (0 < n)%nat -> honest msgs (then_ (take_bytes n) k) -> reader (then_ (take_bytes n) k).
Proof.
  intros Hn Hm c. destruct (Hm c) as (r & c' & H1 & H2 & H3 & _). exists r, c'. split_and!; [done|done|].
  intros Hc. split; [auto|]. destruct (take_bytes_empty n c Hc Hn) as (e & c2 & H4 & _).
  exists e. unfold then_ in H1. rewrite (bind_Ret _ _ _ _ _ H4) in H1. cbn in H1. by injection H1.
Qed.

Ltac honest := repeat first
  [ apply honest_take | apply honest_ok
  | apply honest_fail; set_solver
  | apply honest_then; [|intros ?]
  | progress unfold rfc_addr, rfc_head
  | case_match ].

Lemma honest_negotiation : honest ["Invalid Version"; "Bad Request"] rfc_negotiation.
Proof. unfold rfc_negotiation. honest. Qed.
Lemma honest_userpass : honest ["Invalid Version of username password auth"; "Bad Request"] rfc_userpass.
Proof. unfold rfc_userpass. honest. Qed.
Lemma honest_request : honest ["Invalid Version"; "Bad Request"] rfc_request.
Proof. unfold rfc_request. honest. Qed.

Lemma then_ok {A B} (m : GoM Conn (A + error)) (k : A -> GoM Conn (B + error)) b1 a b2 b :
  reads m b1 a -> reads (k a) b2 b -> reads (then_ m k) (b1 ++ b2) b.
Proof.
  intros H1 H2 c rest Hc. rewrite <- app_assoc in Hc.
  destruct (H1 c _ Hc) as (c1 & E1 & Hc1 & HK1). destruct (H2 c1 _ Hc1) as (c2 & E2 & Hc2 & HK2).
  exists c2. unfold then_. rewrite (bind_Ret _ _ _ _ _ E1). split_and!; [done|done|by eapply keeps_trans].
Qed.
Lemma ok_reads {A} (a : A) : reads (ok a) [] a.
Proof. intros c rest Hc. by exists c. Qed.
Lemma take_reads d : reads (take_bytes (length d)) d d.
Proof. intros c rest Hc. by apply take_bytes_ok. Qed.
Lemma take_reads_n n d : length d = n -> reads (take_bytes n) d d.
Proof. intros <-. apply take_reads. Qed.

Lemma then_last {A B} (m : GoM Conn (A + error)) (k : A -> GoM Conn (B + error)) b a r :
  reads m b a -> k a = ok r -> reads (then_ m k) b r.
Proof.
  intros Hm Hk. rewrite <- (app_nil_r b). eapply then_ok; [exact Hm|]. rewrite Hk. apply ok_reads.
Qed.

Lemma addr_reads {A} t (k : bytes -> bytes -> A) addr port :
  length port = 2%nat ->
  (t = ATYPIPv4 /\ length addr = 4%nat \/ t = ATYPIPv6 /\ length addr = 16%nat \/
   t = ATYPDomain /\ exists d, addr = Z.of_nat (length d) :: d /\ (0 < length d)%nat) ->
  reads (rfc_addr t k) (addr ++ port) (k addr port).
Proof.
  intros Hp Ha. unfold rfc_addr.
  assert (Htail : reads (then_ (take_bytes 2) (fun p => ok (k addr p))) port (k addr port)).
  { eapply then_last; [by apply take_reads_n|done]. }
  destruct Ha as [[-> Ha]|[[-> Ha]|[-> (d & -> & Hd)]]]; cbn [Z.eqb ATYPIPv4 ATYPIPv6 ATYPDomain Pos.eqb].
  - eapply then_ok; [by apply take_reads_n|done].
  - eapply then_ok; [by apply take_reads_n|done].
  - change (Z.of_nat (length d) :: d) with ([Z.of_nat (length d)] ++ d) at 1. rewrite <- app_assoc.
    eapply then_ok; [by apply take_reads_n|]. cbn [at_ nth].
    rewrite (proj2 (Z.eqb_neq _ _)) by lia. rewrite Nat2Z.id. eapply then_ok; [apply take_reads|done].
Qed.

Lemma head_reads b0 b1 b2 : reads rfc_head [5; b0; b1; b2] [5; b0; b1; b2].
Proof.
  unfold rfc_head. eapply then_last; [by apply take_reads_n|done].
Qed.

(** Reading a whole request or reply. *)
Lemma request_reads cmd t addr port :
  length port = 2%nat ->
  (t = ATYPIPv4 /\ length addr = 4%nat \/ t = ATYPIPv6 /\ length addr = 16%nat \/
   t = ATYPDomain /\ exists d, addr = Z.of_nat (length d) :: d /\ (0 < length d)%nat) ->
  reads rfc_request ([5; cmd; 0; t] ++ addr ++ port) (mkReq cmd t addr port).
Proof.
  intros Hp Ha. unfold rfc_request. eapply then_ok; [apply head_reads|].
  cbn [at_ nth]. by apply (addr_reads t (fun a p => mkReq cmd t a p)).
Qed.

Lemma string_bytes_length s : length (String.list_ascii_of_string s) = String.length s.
Proof. induction s as [|c s IH]; [done|]. simpl. by rewrite IH. Qed.

Lemma ParseIP_length s ip : ParseIP s = Some ip -> length ip = 16%nat.
Proof.
  unfold ParseIP. destruct (ParseAddr s) as [a|]; [|done]. unfold To16.
  destruct (Nat.eqb_spec (length a) 4) as [E|_]; [intros Hx; injection Hx as <-; cbn; by rewrite E|].
  destruct (Nat.eqb_spec (length a) 16) as [E|_]; [|done]. by intros [= <-].
Qed.

Lemma To4_length ip ip4 : To4 ip = Some ip4 -> length ip4 = 4%nat.
Proof.
  unfold To4. destruct (Nat.eqb_spec (length ip) 4); [congruence|].
  case_match eqn:E2; [|done]. apply andb_prop in E2 as [E2%Nat.eqb_eq _]. intros [= <-].
  rewrite length_drop. lia.
Qed.

(** The shape of a parsed address. *)
Lemma ParseAddress_shape to a addr port : rfc_ParseAddress to = inl (a, addr, port) ->
  length port = 2%nat /\
  (a = ATYPIPv4 /\ length addr = 4%nat \/ a = ATYPIPv6 /\ length addr = 16%nat \/
   a = ATYPDomain /\ exists d, addr = u8 (Z.of_nat (length d)) :: d).
Proof.
  unfold rfc_ParseAddress. destruct (SplitHostPort to) as [[h p]|]; [|done].
  destruct (ParseIP h) as [ip|] eqn:EI.
  - destruct (To4 ip) as [ip4|] eqn:E; intros [= <- <- <-]; (split; [done|]).
    + left. split; [done|by eapply To4_length].
    + right; left. split; [done|by eapply ParseIP_length].
  - intros [= <- <- <-]. split; [done|]. right. right. eauto.
Qed.

#[export] Instance rfc_addresses : AddressLaws.
Proof.
  split.
  - intros to a addr port rest HP Hl. apply ParseAddress_shape in HP as (Hp & Hs).
    cbn [ParseBytesAddress rfc_lib]. unfold rfc_ParseBytesAddress.
    assert (Hn : (if a =? ATYPIPv4 then 4%nat else if a =? ATYPIPv6 then 16%nat
               else if a =? ATYPDomain then S (Z.to_nat (hd 0 (addr ++ port ++ rest))) else 0%nat) = length addr
               /\ (0 < length addr)%nat).
    { destruct Hs as [[-> ->]|[[-> ->]|[-> (d & ->)]]]; [by split; [|lia]..|].
      simpl in Hl. cbn. unfold u8. rewrite Z.mod_small by lia. lia. }
    destruct Hn as [-> Hpos]. destruct (Nat.eqb_spec (length addr) 0); [lia|].
    rewrite (proj2 (Nat.ltb_ge _ _)) by (rewrite !length_app; lia). cbn [orb].
    rewrite take_app_length, drop_app_length, take_app_length' by done. done.
  - intros to a addr port HP. by apply ParseAddress_shape in HP as [? _].
Qed.

Lemma is_byte_cons_len (d : bytes) : (length d <= 255)%nat -> Z.to_nat (Z.of_nat (length d)) = length d.
Proof. lia. Qed.

#[export] Instance rfc_laws : Socks5Laws.
Proof.
  split; cbn [enc_negotiation read_negotiation enc_method read_method enc_userpass read_userpass
    enc_status read_status NewRequest enc_request read_request NewReply enc_reply read_reply rfc_lib
    Cmd Atyp DstAddr DstPort Rep RAtyp BndAddr BndPort].
  - intros ms _ Hl. unfold rfc_negotiation. eapply then_ok; [by apply take_reads_n|].
    cbn [at_ nth]. cbn [Z.eqb Pos.eqb negb]. rewrite (proj2 (Z.eqb_neq _ _)) by lia. rewrite Nat2Z.id. apply take_reads.
  - intros m _. unfold rfc_method. eapply then_last; [by apply take_reads_n|done].
  - intros u p _ _ Hu Hp. unfold rfc_userpass. eapply then_ok; [by apply take_reads_n|].
    cbn [at_ nth]. cbn [Z.eqb Pos.eqb negb]. rewrite (proj2 (Z.eqb_neq _ _)) by lia. rewrite Nat2Z.id.
    rewrite app_assoc. eapply then_ok; [apply take_reads_n; rewrite length_app; simpl; lia|].
    unfold at_. rewrite app_nth2, Nat.sub_diag by lia. cbn [nth].
    rewrite (proj2 (Z.eqb_neq _ _)) by lia. rewrite Nat2Z.id, take_app_length.
    eapply then_last; [apply take_reads|done].
  - intros s _. unfold rfc_status. eapply then_last; [by apply take_reads_n|done].
  - intros cmd addr port _ _ Ha Hp. apply request_reads; [done|]. left. done.
  - intros cmd addr port _ _ Ha Hp. apply request_reads; [done|]. right; left. done.
  - intros cmd addr port _ _ Ha Hp. apply request_reads; [done|]. right; right. split; [done|].
    exists addr. split; [done|lia].
  - done.
  - intros rep a addr port _ (_ & Hp & Ha). unfold rfc_reply. eapply then_ok; [apply head_reads|].
    cbn [at_ nth]. apply (addr_reads a (fun x p => mkReply rep a x p)); [done|]. tauto.
  - done.
  - apply (honest_reader1 ["Invalid Version"; "Bad Request"]); [lia|apply honest_negotiation].
  - apply (honest_reader1 ["Invalid Version of username password auth"; "Bad Request"]); [lia|apply honest_userpass].
  - apply (honest_reader ["Invalid Version"; "Bad Request"]); [lia|apply honest_request].
  - intros c e c' H. destruct (honest_negotiation c) as (r & c2 & H1 & _ & _ & Hf). rewrite H in H1.
    injection H1 as <- <-. destruct Hf as [?|(msg & Hm & ->)]; [by left|right].
    rewrite !elem_of_cons in Hm. destruct Hm as [->|[->|Hm]]; [by left|by right|by apply elem_of_nil in Hm].
  - intros c e c' H. destruct (honest_userpass c) as (r & c2 & H1 & _ & _ & Hf). rewrite H in H1.
    injection H1 as <- <-. destruct Hf as [?|(msg & Hm & ->)]; [by left|right].
    rewrite !elem_of_cons in Hm. destruct Hm as [->|[->|Hm]]; [by left|by right|by apply elem_of_nil in Hm].
  - intros c u c'. unfold rfc_userpass. intros (h & c1 & _ & H)%then_inl.
    destruct (negb _); [done|]. destruct (_ =? 0); [done|]. apply then_inl in H as (up & c2 & _ & H).
    destruct (_ =? 0); [done|]. apply then_inl in H as (p & c3 & Hp & H). injection H as <- _. cbn.
    by eapply take_bytes_inl.
  - done.
Qed.

(** ** Witnesses for the datagram theorems *)

Definition ex_sent : list (bytes * string) := [([1; 2; 3], "10.0.0.1:53"); ([], "host.example:9")].
Definition ex_buf : Slice := mkSlice (replicate 40 7) 40.
Definition ex_from (chunks : list bytes) : Conn := mkConn (mkSource chunks EOF) [] None false false.

Lemma datagrams_roundtrip_witness :
  (write_all ex_sent (ex_from [])).1 = Ret None /\
  exists cr', read_all 2 ex_buf (ex_from [take 5 (wire ex_sent); drop 5 (wire ex_sent); [8]]) =
      (Ret ([([1; 2; 3], "10.0.0.1:53"); ([], "host.example:9")], None), cr') /\
    content (rx cr') = [8].
Proof.
  assert (E : map (fun d => (d.1, canonical d.2)) ex_sent =
              [([1; 2; 3], "10.0.0.1:53"); ([], "host.example:9")]) by (vm_compute; reflexivity).
  rewrite <- E. change 2%nat with (length ex_sent).
  assert (H1 : Forall (sendable (slen ex_buf)) ex_sent) by (repeat constructor; cbn; lia).
  assert (H2 : wf_slice ex_buf) by (vm_compute; lia).
  assert (H3 : content (rx (ex_from [take 5 (wire ex_sent); drop 5 (wire ex_sent); [8]])) =
               tx (write_all ex_sent (ex_from [])).2 ++ [8]) by (vm_compute; reflexivity).
  exact (datagrams_roundtrip ex_sent (ex_from []) _ ex_buf [8] H1 H2 eq_refl eq_refl H3).
Defined.

(** A header for 300 bytes against a buffer of 40, and a domain name longer
    than its packet. *)
Lemma packet_read_bounds_witness :
  (packet_Read ex_buf (ex_from [[1; 44]; [0]])).1 = Panic /\
  (socks5ReadFrom ex_buf (ex_from [[0; 2]; [3; 9]])).1 = Panic.
Proof.
  split.
  - apply (packet_read_bounds 300 [0] ex_buf (ex_from [[1; 44]; [0]])); [split; vm_compute; congruence|done|].
    vm_compute. reflexivity.
  - apply (packet_read_bounds 2 [3; 9] ex_buf (ex_from [[0; 2]; [3; 9]])) with (a := 3) (addr := [9; 7; 7; 7; 7; 7; 7; 7; 7; 7]) (port := [7; 7]);
      [split; vm_compute; congruence|done|vm_compute; congruence|vm_compute; congruence|vm_compute; reflexivity|vm_compute; reflexivity].
Defined.
