(* ===== verification/Socks5Server.v ===== *)
(** src/socks5/server.go: the SOCKS5 server that runs on each stream another
    peer opens.  The handler, its negotiation, authentication and request
    phases are one function each over the stream, the session table entry of
    the peer and a trace of what was done to the network.  The theorems: with a
    stream that can be written, nothing is dialled unless the peer has a session
    or authenticates, and the handler dials exactly the address asked for; with a
    stream that cannot, it dials without authentication. *)
From S2P Require Import Prelude GoText GoIo GoNet Socks5Util Socks5Rfc.

Definition CmdConnectUDP : Z := 4.
Definition CmdPacketConn : Z := 5.

(** What the handler does outside the stream. *)
Inductive event :=
  | EvDial (network address : string)
  | EvDialUDP (network address : string)
  | EvTunnel (framed : bool)
  | EvCloseTarget
  | EvListenUDP (address : string)
  | EvSendUDP (payload : bytes) (to : string)
  | EvCloseUDP
  | EvLog (msg : string).

#[export] Instance event_eq_dec : EqDecision event.
Proof. solve_decision. Defined.

(** The stream, whether the peer store holds a session of the remote peer, and
    the trace. *)
Record Server := mkServer { strm : Conn; session : bool; trace : list event }.

Definition set_strm (c : Conn) (s : Server) : Server := mkServer c (session s) (trace s).
Definition on_strm {A} : GoM Conn A -> GoM Server A := zoom strm set_strm.
Definition emit (e : event) : GoM Server unit :=
  modify (fun s => mkServer (strm s) (session s) (trace s ++ [e])).

Definition shouldLogError (err : option error) : bool :=
  match err with
  | None => false
  | Some e =>
      negb (bool_decide (e = EOF)) && negb (bool_decide (e = ErrUnexpectedEOF)) &&
      negb (bool_decide (e = ECONNRESET)) && negb (Contains (Error e) "timeout") &&
      negb (Contains (Error e) "reset") && negb (Contains (Error e) "closed")
  end.

(** [WriteTo] of a message: its bytes in one write. *)
Definition WriteTo (b : bytes) : GoM Server (option error) :=
  let* (_, err) := on_strm (Conn_Write b) in ret err.

Section Server.
Context {Lib : Socks5Lib}.
(** The application's check of an authentication id, the dialers and sockets
    of the operating system (the local address, or the error), and how a
    tunnel ends. *)
Context (AuthFunc : Z -> bool)
        (Dial DialUDP : string -> string -> string + error)
        (ResolveUDPAddr : string -> string + error)
        (ListenUDP : string -> string + error)
        (tunneling : bool -> GoM Conn (option error)).

Definition replyErr (req : Request) (rep : Z) : GoM Server (option error) :=
  let reply :=
    if (Atyp req =? ATYPIPv4) || (Atyp req =? ATYPDomain)
    then NewReply rep ATYPIPv4 [0; 0; 0; 0] [0; 0]
    else NewReply rep ATYPIPv6 IPv6zero [0; 0] in
  WriteTo (enc_reply reply).

(** [replyErr] whose own error goes first. *)
Definition reply_then (req : Request) (rep : Z) (err : error) : GoM Server (option error) :=
  e <- replyErr req rep ;;
  ret (Some (match e with Some e => e | None => err end)).

(** One datagram of the goroutine that reads the tunnel: [true] when it stops. *)
Definition pack_tunnel_step (buf : Slice) : GoM Server (bool * Slice) :=
  let* (payload, to, err, buf') := on_strm (socks5ReadFrom buf) in
  match err with
  | Some e => emit (EvLog "udp pack conn read socks5 pack err") ;;; ret (true, buf')
  | None =>
      match ResolveUDPAddr to with
      | inr _ => emit (EvLog "udp pack conn parse to addr err") ;;; ret (false, buf')
      | inl ra => emit (EvSendUDP payload ra) ;;; ret (false, buf')
      end
  end.

(** What wakes one of the two loops. *)
Inductive pack_event :=
  | FromTunnel
  | FromUDP (payload : bytes) (from : string)
  | UDPError.

(** The two loops over a schedule: [stopped] is the variable they share,
    [main_done] that the handler has left its loop. *)
Fixpoint pack_loops (sched : list pack_event) (buf : Slice) (stopped main_done : bool) : GoM Server unit :=
  match sched with
  | [] => ret tt
  | FromTunnel :: sched' =>
      if stopped then pack_loops sched' buf stopped main_done
      else let* (stop, buf') := pack_tunnel_step buf in pack_loops sched' buf' stop main_done
  | FromUDP payload from :: sched' =>
      if main_done then pack_loops sched' buf stopped main_done
      else
        err <- on_strm (socks5WriteTo payload from) ;;
        match err with
        | Some _ => emit (EvLog "udp pack conn forward to socks err") ;;; pack_loops sched' buf stopped true
        | None => pack_loops sched' buf stopped stopped
        end
  | UDPError :: sched' =>
      if main_done then pack_loops sched' buf stopped main_done
      else emit (EvLog "udp pack conn read err") ;;; pack_loops sched' buf stopped true
  end.

Definition tunnelBuf : Slice := mkSlice (replicate (32 * 1024) 0) (32 * 1024).

Definition handleUDPPackConnRequest (sched : list pack_event) (req : Request) : GoM Server (option error) :=
  match ResolveUDPAddr (Request_Address req) with
  | inr err => reply_then req RepAddressNotSupported err
  | inl ua =>
      match ListenUDP ua with
      | inr err => reply_then req RepHostUnreachable err
      | inl local =>
          emit (EvListenUDP ua) ;;;
          match ParseAddress local with
          | inr err =>
              e <- replyErr req RepHostUnreachable ;;
              match e with
              | Some e => emit EvCloseUDP ;;; ret (Some e)
              | None =>
                  e2 <- WriteTo (enc_reply (NewReply RepSuccess 0 [] [])) ;;
                  emit EvCloseUDP ;;;
                  ret (Some (match e2 with Some e2 => e2 | None => err end))
              end
          | inl _ =>
              pack_loops sched tunnelBuf false false ;;;
              emit EvCloseUDP ;;;
              ret None
          end
      end
  end.

(** The part after the target is connected; its [Close] is deferred. *)
Definition relay_target (req : Request) (localAddr : string) (framed : bool) : GoM Server (option error) :=
  r <- match ParseAddress localAddr with
       | inr err => reply_then req RepHostUnreachable err
       | inl (a, addr, port) =>
           e <- WriteTo (enc_reply (NewReply RepSuccess a addr port)) ;;
           match e with
           | Some e => ret (Some e)
           | None => emit (EvTunnel framed) ;;; on_strm (tunneling framed)
           end
       end ;;
  emit EvCloseTarget ;;;
  ret r.

Definition socks5RequestConnect (sched : list pack_event) : GoM Server (option error) :=
  r <- on_strm read_request ;;
  e <- match r with
       | inr err => ret (Some err)
       | inl req =>
           if Cmd req =? CmdConnect then
             emit (EvDial "tcp" (Request_Address req)) ;;;
             match Dial "tcp" (Request_Address req) with
             | inr err => reply_then req RepHostUnreachable err
             | inl localAddr => relay_target req localAddr false
             end
           else if Cmd req =? CmdConnectUDP then
             emit (EvDialUDP "udp" (Request_Address req)) ;;;
             match DialUDP "udp" (Request_Address req) with
             | inr err => reply_then req RepHostUnreachable err
             | inl localAddr => relay_target req localAddr true
             end
           else if Cmd req =? CmdPacketConn then handleUDPPackConnRequest sched req
           else reply_then req RepCommandNotSupported ErrUnsupportCmd
       end ;;
  on_strm Conn_Close ;;;
  ret e.

(** [socks5Precheck]: whether the peer still has to authenticate. *)
Definition preCheckFunc : GoM Server bool := gets (fun s => negb (session s)).

(** [socks5Auth]: the authentication id is the first eight bytes of the
    password. *)
Definition authFunc (urq : UserPassReq) : GoM Server bool :=
  if Plen urq <? 8 then ret false
  else if (length (Passwd urq) <? 8)%nat then panic
  else
    let authID := LE_Uint64 (take 8 (Passwd urq)) in
    if negb (AuthFunc authID) then ret false
    else modify (fun s => mkServer (strm s) true (trace s)) ;;; ret true.

Definition socks5Negotiate (needAuth : bool) : GoM Server (option error) :=
  r <- on_strm read_negotiation ;;
  match r with
  | inr err => ret (Some err)
  | inl _ =>
      if needAuth then
        err <- WriteTo (enc_method MethodUsernamePassword) ;;
        match err with
        | Some e => ret (Some e)
        | None =>
            r <- on_strm read_userpass ;;
            match r with
            | inr err => ret (Some err)
            | inl urq =>
                ok <- authFunc urq ;;
                if negb ok then
                  err <- WriteTo (enc_status UserPassStatusFailure) ;;
                  ret (Some (match err with Some e => e | None => ErrUserPassAuth end))
                else WriteTo (enc_status UserPassStatusSuccess)
            end
        end
      else WriteTo (enc_method MethodNone)
  end.

Definition handler (sched : list pack_event) : GoM Server unit :=
  needAuth <- preCheckFunc ;;
  err <- socks5Negotiate needAuth ;;
  if shouldLogError err then emit (EvLog "socks5Negotiate err")
  else
    err <- socks5RequestConnect sched ;;
    if shouldLogError err then emit (EvLog "socks5RequestConnect err") else ret tt.
End Server.

(** ** Lemmas *)

Section ServerLemmas.
Context `{SL : Socks5Laws}.
Context (AuthFunc : Z -> bool)
        (Dial DialUDP : string -> string -> string + error)
        (ResolveUDPAddr : string -> string + error)
        (ListenUDP : string -> string + error)
        (tunneling : bool -> GoM Conn (option error)).

(** An event that reaches beyond the stream. *)
Definition is_network (e : event) : bool :=
  match e with EvDial _ _ | EvDialUDP _ _ | EvListenUDP _ | EvSendUDP _ _ => true | _ => false end.

Lemma on_strm_eq {A} (m : GoM Conn A) s r c' :
  m (strm s) = (Ret r, c') -> on_strm m s = (Ret r, set_strm c' s).
Proof. unfold on_strm, zoom. by intros ->. Qed.

Lemma WriteTo_ok b s : werr (strm s) = None ->
  WriteTo b s = (Ret None, set_strm (mkConn (rx (strm s)) (tx (strm s) ++ b) None
                                           (closed (strm s)) (reset (strm s))) s).
Proof. intros Hw. unfold WriteTo, on_strm, zoom, bind, Conn_Write. by rewrite Hw. Qed.

Lemma WriteTo_fail b s e : werr (strm s) = Some e -> WriteTo b s = (Ret (Some e), s).
Proof.
  intros Hw. unfold WriteTo, on_strm, zoom, bind, Conn_Write. rewrite Hw. by destruct s.
Qed.

(** Reading a message in the server. *)
Lemma on_strm_reads {A} (m : GoM Conn (A + error)) b (a : A) s rest :
  reads m b a -> content (rx (strm s)) = b ++ rest ->
  exists c', on_strm m s = (Ret (inl a), set_strm c' s) /\ content (rx c') = rest /\ keeps (strm s) c'.
Proof.
  intros Hm Hc. destruct (Hm _ _ Hc) as (c' & H1 & H2 & H3). exists c'. by rewrite (on_strm_eq _ _ _ _ H1).
Qed.

Lemma on_strm_reader {A} (m : GoM Conn (A + error)) s :
  reader m -> exists r c', on_strm m s = (Ret r, set_strm c' s) /\ keeps (strm s) c' /\
    m (strm s) = (Ret r, c') /\
    (content (rx (strm s)) = [] -> content (rx c') = [] /\ exists e, r = inr e).
Proof.
  intros Hm. destruct (Hm (strm s)) as (r & c' & H1 & H2 & H3). exists r, c'.
  by rewrite (on_strm_eq _ _ _ _ H1).
Qed.

(** The negotiation of a peer without a session, on a stream that can be
    written: it succeeds only by authentication, and when it fails the error is
    logged or there is nothing more to read. *)
Lemma negotiate_outcome s :
  werr (strm s) = None -> session s = false ->
  exists err s', socks5Negotiate AuthFunc true s = (Ret err, s') /\
    trace s' = trace s /\ werr (strm s') = None /\
    (session s' = true -> exists id, AuthFunc id = true) /\
    match err with
    | None => session s' = true
    | Some _ => session s' = false /\ (shouldLogError err = true \/ content (rx (strm s')) = [])
    end.
Proof.
  intros Hw Hs. unfold socks5Negotiate.
  destruct (on_strm_reader read_negotiation s negotiation_reader) as (r & c1 & H1 & (_ & Hw1 & _) & Hr1 & _).
  rewrite (bind_Ret _ _ _ _ _ H1). destruct r as [ms|e].
  2:{ eexists _, _. split; [reflexivity|]. cbn. split_and!; [done|congruence|congruence|done|].
      destruct (negotiation_fail _ _ _ Hr1) as [Hc|[->| ->]]; auto. }
  rewrite (bind_Ret _ _ _ _ _ (WriteTo_ok _ (set_strm c1 s) ltac:(cbn; congruence))). cbn beta iota.
  match goal with |- context [bind _ _ ?s2] => set (s2' := s2) end.
  destruct (on_strm_reader read_userpass s2' userpass_reader) as (r & c2 & H2 & (_ & Hw2 & _) & Hr2 & _).
  assert (Hw2' : werr c2 = None) by exact Hw2.
  rewrite (bind_Ret _ _ _ _ _ H2). destruct r as [urq|e].
  2:{ eexists _, _. split; [reflexivity|]. cbn. split_and!; [done|done|congruence|done|].
      destruct (userpass_fail _ _ _ Hr2) as [Hc|[->| ->]]; auto. }
  unfold authFunc. set (s3 := set_strm c2 s2').
  assert (Hfail : exists err s', (err <- WriteTo (enc_status UserPassStatusFailure) ;;
       ret (Some (match err with Some e => e | None => ErrUserPassAuth end))) s3 = (Ret err, s') /\
       trace s' = trace s /\ werr (strm s') = None /\ (session s' = true -> exists id, AuthFunc id = true) /\
       match err with None => session s' = true
       | Some _ => session s' = false /\ (shouldLogError err = true \/ content (rx (strm s')) = []) end).
  { rewrite (bind_Ret _ _ _ _ _ (WriteTo_ok _ s3 Hw2')). eexists _, _. split; [reflexivity|].
    cbn. split_and!; [done|done|congruence|done|]. left. by rewrite auth_error. }
  destruct (Plen urq <? 8) eqn:E1.
  { rewrite bind_ret. exact Hfail. }
  rewrite (proj2 (Nat.ltb_ge _ _)) by (rewrite (userpass_len _ _ _ Hr2); lia).
  destruct (AuthFunc _) eqn:E3; cbn [negb].
  2:{ rewrite bind_ret. exact Hfail. }
  rewrite bind_assoc. unfold modify at 1, bind at 1. cbn beta iota. rewrite bind_ret. cbn [negb].
  rewrite WriteTo_ok by exact Hw2'. eexists _, _. split; [reflexivity|]. cbn.
  split_and!; [done|done|by eauto|done].
Qed.

(** With nothing to read, the request phase only closes the stream. *)
Lemma request_empty s sched : content (rx (strm s)) = [] ->
  exists e s', socks5RequestConnect Dial DialUDP ResolveUDPAddr ListenUDP tunneling sched s = (Ret (Some e), s') /\
    trace s' = trace s /\ session s' = session s.
Proof.
  intros Hc. unfold socks5RequestConnect.
  destruct (on_strm_reader read_request s request_reader) as (r & c1 & H1 & _ & _ & Hr).
  destruct (Hr Hc) as (_ & e & ->). rewrite (bind_Ret _ _ _ _ _ H1), bind_ret.
  eexists _, _. split; [reflexivity|]. done.
Qed.

(** What follows the request phase in [handler]. *)
Definition after_negotiation (sched : list pack_event) : GoM Server unit :=
  err <- socks5RequestConnect Dial DialUDP ResolveUDPAddr ListenUDP tunneling sched ;;
  if shouldLogError err then emit (EvLog "socks5RequestConnect err") else ret tt.

(** The stream after a write. *)
Definition written (b : bytes) (s : Server) : Server :=
  set_strm (mkConn (rx (strm s)) (tx (strm s) ++ b) None (closed (strm s)) (reset (strm s))) s.

(** Negotiation messages in full: the peer is let in or refused by
    [AuthFunc] on the first eight bytes of the password. *)
Lemma handler_negotiated s sched ms u p rest :
  werr (strm s) = None -> session s = false ->
  Forall is_byte ms -> (0 < length ms <= 255)%nat -> Forall is_byte u -> Forall is_byte p ->
  (0 < length u <= 255)%nat -> (8 <= length p <= 255)%nat ->
  content (rx (strm s)) = enc_negotiation ms ++ enc_userpass u p ++ rest ->
  exists c, content (rx c) = rest /\ werr c = None /\ closed c = closed (strm s) /\
    end_err (rx c) = end_err (rx (strm s)) /\
    tx c = tx (strm s) ++ enc_method MethodUsernamePassword ++
           enc_status (if AuthFunc (LE_Uint64 (take 8 p)) then UserPassStatusSuccess else UserPassStatusFailure) /\
    handler AuthFunc Dial DialUDP ResolveUDPAddr ListenUDP tunneling sched s =
      if AuthFunc (LE_Uint64 (take 8 p))
      then after_negotiation sched (mkServer c true (trace s))
      else (Ret tt, mkServer c false (trace s ++ [EvLog "socks5Negotiate err"])).
Proof.
  intros Hw Hs Hms Hlms Hu Hp Hlu Hlp Hc.
  destruct (on_strm_reads _ _ _ s _ (negotiation_ok ms Hms Hlms) Hc) as (c1 & H1 & Hc1 & (Ht1 & Hw1 & Hcl1 & _ & He1)).
  destruct (userpass_ok u p Hu Hp Hlu ltac:(lia)
              (mkConn (rx c1) (tx c1 ++ enc_method MethodUsernamePassword) None (closed c1) (reset c1)) _ Hc1)
    as (c2 & H2 & Hc2 & (Ht2 & Hw2 & Hcl2 & _ & He2)).
  cbn [closed rx tx werr] in Ht2, Hw2, Hcl2, He2.
  unfold handler, preCheckFunc, socks5Negotiate. unfold gets at 1, bind at 1. rewrite Hs. cbn [negb].
  rewrite !bind_assoc. rewrite (bind_Ret _ _ _ _ _ H1). cbn beta iota.
  rewrite bind_assoc, (bind_Ret _ _ _ _ _ (WriteTo_ok _ (set_strm c1 s) ltac:(cbn; congruence))). cbn beta iota.
  cbn [strm set_strm]. rewrite bind_assoc.
  match goal with |- context [bind (on_strm read_userpass) _ ?st] =>
    rewrite (bind_Ret _ _ st _ _ (on_strm_eq _ st _ _ H2)) end. cbn beta iota.
  rewrite bind_assoc. unfold authFunc. cbn [Plen Passwd].
  rewrite (proj2 (Z.ltb_ge _ _)) by lia. rewrite (proj2 (Nat.ltb_ge _ _)) by lia.
  destruct (AuthFunc _) eqn:EA; cbn [negb].
  - rewrite bind_assoc. unfold modify at 1, bind at 1. cbn beta iota. rewrite bind_ret. cbn [negb].
    match goal with |- context [bind (WriteTo _) _ ?st] =>
      rewrite (bind_Ret _ _ st _ _ (WriteTo_ok _ st Hw2)) end.
    cbn [shouldLogError set_strm strm session trace].
    eexists. split; [|split; [|split; [|split; [|split; [|reflexivity]]]]]; cbn; try congruence.
    by rewrite Ht2, Ht1, <- app_assoc.
  - rewrite bind_ret. cbn [negb]. rewrite bind_assoc.
    match goal with |- context [bind (WriteTo _) _ ?st] =>
      rewrite (bind_Ret _ _ st _ _ (WriteTo_ok _ st Hw2)) end.
    rewrite bind_ret. rewrite auth_error. change (shouldLogError (Some (ErrText "Invalid Username or Password for Auth"))) with true.
    cbn [set_strm strm session trace]. unfold emit, modify. cbn [set_strm strm session trace]. rewrite Hs.
    eexists. split; [|split; [|split; [|split; [|split; [|reflexivity]]]]]; cbn; try congruence.
    by rewrite Ht2, Ht1, <- app_assoc.
Qed.

(** C6. Access control, on a stream the server can write to.  A peer without
    a session makes the handler dial, listen or send nothing unless the
    application's check accepts some id; sending a password of at least eight
    bytes, it is refused (both replies written, an error logged, nothing dialled)
    when the check rejects the little-endian id in the password's first eight
    bytes, and otherwise gets a session and its request is served. *)
Theorem handler_auth s sched :
  werr (strm s) = None -> session s = false ->
  (existsb is_network (trace s) = false ->
   existsb is_network (trace (handler AuthFunc Dial DialUDP ResolveUDPAddr ListenUDP tunneling sched s).2) = true ->
   exists id, AuthFunc id = true) /\
  (forall ms u p rest,
     Forall is_byte ms -> (0 < length ms <= 255)%nat -> Forall is_byte u -> Forall is_byte p ->
     (0 < length u <= 255)%nat -> (8 <= length p <= 255)%nat ->
     content (rx (strm s)) = enc_negotiation ms ++ enc_userpass u p ++ rest ->
     exists c, content (rx c) = rest /\
       tx c = tx (strm s) ++ enc_method MethodUsernamePassword ++
              enc_status (if AuthFunc (LE_Uint64 (take 8 p)) then UserPassStatusSuccess else UserPassStatusFailure) /\
       handler AuthFunc Dial DialUDP ResolveUDPAddr ListenUDP tunneling sched s =
         if AuthFunc (LE_Uint64 (take 8 p))
         then after_negotiation sched (mkServer c true (trace s))
         else (Ret tt, mkServer c false (trace s ++ [EvLog "socks5Negotiate err"]))).
Proof.
  intros Hw Hs. split.
  - intros Hno. unfold handler, preCheckFunc. unfold gets at 1, bind at 1. rewrite Hs. cbn [negb].
    destruct (negotiate_outcome s Hw Hs) as (err & s' & HN & HT & Hw' & Hid & Herr).
    rewrite (bind_Ret _ _ _ _ _ HN). destruct err as [e|]; [|intros _; by apply Hid].
    destruct Herr as [Hs' [->|Hc]].
    + unfold emit, modify. cbn [snd trace]. rewrite existsb_app, HT, Hno. done.
    + destruct (shouldLogError (Some e)).
      { unfold emit, modify. cbn [snd trace]. rewrite existsb_app, HT, Hno. done. }
      destruct (request_empty s' sched Hc) as (e2 & s2 & H2 & Ht2 & _). rewrite (bind_Ret _ _ _ _ _ H2).
      destruct (shouldLogError (Some e2)); unfold emit, modify, ret; cbn [snd trace];
        rewrite ?existsb_app, Ht2, HT, Hno; done.
  - intros ms u p rest H1 H2 H3 H4 H5 H6 H7.
    destruct (handler_negotiated s sched ms u p rest Hw Hs H1 H2 H3 H4 H5 H6 H7) as (c & ? & _ & _ & _ & ? & ?).
    eauto.
Qed.

(** On a stream whose writes fail with a reset (the peer closed its
    reading side), the failed negotiation is not an error to log and the handler
    goes on to the request: a peer that has no session and never sends
    credentials makes the server dial the address of its choice, whatever
    [AuthFunc] says. *)
Theorem handler_unauthenticated_dial s sched e ms addr port rest :
  session s = false -> werr (strm s) = Some e -> shouldLogError (Some e) = false ->
  Forall is_byte ms -> (0 < length ms <= 255)%nat ->
  Forall is_byte (addr ++ port) -> length addr = 4%nat -> length port = 2%nat ->
  content (rx (strm s)) =
    enc_negotiation ms ++ enc_request (NewRequest CmdConnect ATYPIPv4 addr port) ++ rest ->
  EvDial "tcp" (Request_Address (NewRequest CmdConnect ATYPIPv4 addr port))
    ∈ trace (handler AuthFunc Dial DialUDP ResolveUDPAddr ListenUDP tunneling sched s).2.
Proof.
  intros Hs Hw Hlog Hms Hlms Hb Ha Hp Hc.
  destruct (on_strm_reads _ _ _ s _ (negotiation_ok ms Hms Hlms) Hc) as (c1 & H1 & Hc1 & (Ht1 & Hw1 & _)).
  unfold handler, preCheckFunc, socks5Negotiate. unfold gets at 1, bind at 1. rewrite Hs. cbn [negb].
  rewrite bind_assoc, (bind_Ret _ _ _ _ _ H1). cbn beta iota.
  rewrite bind_assoc, (bind_Ret _ _ _ _ _ (WriteTo_fail _ (set_strm c1 s) e ltac:(cbn; congruence))). cbn beta iota.
  rewrite bind_ret, Hlog. unfold socks5RequestConnect.
  destruct (on_strm_reads _ _ _ (set_strm c1 s) _ (request_v4_ok CmdConnect addr port ltac:(unfold is_byte; vm_compute; split; congruence) Hb Ha Hp) Hc1)
    as (c2 & H2 & Hc2 & (Ht2 & Hw2 & _)).
  rewrite bind_assoc, (bind_Ret _ _ _ _ _ H2). cbn beta iota. rewrite request_cmd.
  change (CmdConnect =? CmdConnect) with true. cbn iota. rewrite !bind_assoc.
  unfold emit at 1, modify at 1, bind at 1. cbn [set_strm strm session trace].
  set (req := NewRequest _ _ _ _). set (s2 := mkServer c2 _ _).
  assert (Hw2' : werr (strm s2) = Some e) by (cbn in Hw2 |- *; congruence).
  assert (Htr : EvDial "tcp" (Request_Address req) ∈ trace s2) by (cbn; set_solver).
  assert (Hrep : forall rep er, reply_then req rep er s2 = (Ret (Some e), s2)).
  { intros rep er. unfold reply_then, replyErr. by rewrite (bind_Ret _ _ _ _ _ (WriteTo_fail _ s2 e Hw2')). }
  assert (Hfin : forall s3, EvDial "tcp" (Request_Address req) ∈ trace s3 ->
    EvDial "tcp" (Request_Address req) ∈ trace ((x <- (on_strm Conn_Close ;;; ret (Some e)) ;;
      if shouldLogError x then emit (EvLog "socks5RequestConnect err") else ret tt) s3).2).
  { intros s3 Hin. unfold bind, on_strm, zoom, Conn_Close, modify, ret. rewrite Hlog. cbn. exact Hin. }
  destruct (Dial "tcp" (Request_Address req)) as [local|er].
  - unfold relay_target. rewrite bind_assoc. destruct (ParseAddress local) as [[[a ad] po]|er].
    + rewrite bind_assoc, (bind_Ret _ _ _ _ _ (WriteTo_fail _ s2 e Hw2')), bind_ret.
      unfold emit, modify. rewrite bind_assoc. unfold bind at 1. rewrite bind_ret. apply Hfin. cbn. set_solver.
    + rewrite (bind_Ret _ _ _ _ _ (Hrep _ _)).
      unfold emit, modify. rewrite bind_assoc. unfold bind at 1. rewrite bind_ret. apply Hfin. cbn. set_solver.
  - rewrite (bind_Ret _ _ _ _ _ (Hrep _ _)). apply Hfin. done.
Qed.
End ServerLemmas.

(** ** Witnesses *)

Definition ex_srv (w : option error) (b : bytes) : Server :=
  mkServer (mkConn (mkSource [b] EOF) [] w false false) false [].
Definition ex_none (net addr : string) : string + error := inr (ErrText "unreachable").
Definition ex_none1 (addr : string) : string + error := inr (ErrText "unreachable").
Definition ex_id : bytes := LE_PutUint64 42.

Lemma handler_auth_witness :
  let s := ex_srv None (enc_negotiation [2] ++ enc_userpass ex_id ex_id ++ [9]) in
  (existsb is_network (trace s) = false ->
   existsb is_network (trace (handler (Z.eqb 7) ex_none ex_none ex_none1 ex_none1 (fun _ => ret None) [] s).2) = true ->
   exists id, (Z.eqb 7) id = true) /\
  (forall ms u p rest,
     Forall is_byte ms -> (0 < length ms <= 255)%nat -> Forall is_byte u -> Forall is_byte p ->
     (0 < length u <= 255)%nat -> (8 <= length p <= 255)%nat ->
     content (rx (strm s)) = enc_negotiation ms ++ enc_userpass u p ++ rest ->
     exists c, content (rx c) = rest /\
       tx c = tx (strm s) ++ enc_method MethodUsernamePassword ++
              enc_status (if Z.eqb 7 (LE_Uint64 (take 8 p)) then UserPassStatusSuccess else UserPassStatusFailure) /\
       handler (Z.eqb 7) ex_none ex_none ex_none1 ex_none1 (fun _ => ret None) [] s =
         if Z.eqb 7 (LE_Uint64 (take 8 p))
         then after_negotiation ex_none ex_none ex_none1 ex_none1 (fun _ => ret None) [] (mkServer c true (trace s))
         else (Ret tt, mkServer c false (trace s ++ [EvLog "socks5Negotiate err"]))).
Proof.
  intros s. apply (handler_auth (Z.eqb 7) ex_none ex_none ex_none1 ex_none1 (fun _ => ret None) s []); done.
Defined.

Lemma handler_unauthenticated_dial_witness :
  EvDial "tcp" "10.0.0.7:80"
    ∈ trace (handler (fun _ => false) ex_none ex_none ex_none1 ex_none1 (fun _ => ret None) []
               (ex_srv (Some (ErrText "stream reset"))
                  (enc_negotiation [2] ++ enc_request (NewRequest CmdConnect ATYPIPv4 [10; 0; 0; 7] [0; 80]) ++ []))).2.
Proof.
  assert (E : Request_Address (NewRequest CmdConnect ATYPIPv4 [10; 0; 0; 7] [0; 80]) = "10.0.0.7:80")
    by (vm_compute; reflexivity).
  rewrite <- E.
  apply (handler_unauthenticated_dial (fun _ => false) ex_none ex_none ex_none1 ex_none1 (fun _ => ret None)
           (ex_srv (Some (ErrText "stream reset"))
              (enc_negotiation [2] ++ enc_request (NewRequest CmdConnect ATYPIPv4 [10; 0; 0; 7] [0; 80]) ++ []))
           [] (ErrText "stream reset") [2] [10; 0; 0; 7] [0; 80] []); try done;
    try (vm_compute; reflexivity); try (simpl; lia);
    repeat constructor; vm_compute; congruence.
Defined.
