(* ===== verification/Outbound.v ===== *)
(** The rest of src/socks5/server.go: the dialers the server reaches the outside
    with, direct or through the configured SOCKS5 proxy, and the server composed
    with them and with the tunnel.  The theorems: with a proxy no connection is
    dialled directly, the datagrams of a packet connection bypass the proxy, and
    a connection served to its end. *)
From S2P Require Import Prelude GoText GoIo GoNet Socks5Util Tunnel Socks5Rfc Socks5Server.

(** * The dialers *)

(** The proxy's address, user and password. *)
Inductive outboundDialer := directDialer | socks5Dialer (addr user pass : string).

Definition SetOutboundProxy (addr user pass : string) : outboundDialer :=
  if String.eqb addr "" then directDialer else socks5Dialer addr user pass.

(** [net]'s dials (the local address of the connection, or the error) and the
    dial of the library's client. *)
Record Network := mkNetwork {
  DialTimeout : string -> string -> string + error;
  net_DialUDP : string -> string + error;
  net_ResolveUDPAddr : string -> string + error;
  net_ListenUDP : string -> string + error;
  client_Dial : string -> string -> string -> string -> string -> string + error
}.

Definition Dial (n : Network) (d : outboundDialer) (network address : string) : string + error :=
  match d with
  | directDialer => DialTimeout n network address
  | socks5Dialer a u p => client_Dial n a u p network address
  end.

Definition DialUDP (n : Network) (d : outboundDialer) (network address : string) : string + error :=
  match d with
  | directDialer =>
      match net_ResolveUDPAddr n address with
      | inr err => inr err
      | inl ra => net_DialUDP n ra
      end
  | socks5Dialer a u p => client_Dial n a u p network address
  end.

(** The tunnel to a connected target, [sched] the interleaving of its
    goroutines; one under which it does not return gives no result. *)
Definition tunnel (sched : list actor) (target : Conn) : GoM Conn (option error) := fun src =>
  let t := run (sched ++ [Caller]) (Tunnel.tunneling target src) in
  (match returned t with Some e => Ret e | None => Panic end, source t).

(** The wiring of [StartServe] and [StopServe]: the handler of the protocol on
    the host, and what it asks for a password. *)
Record Served := mkServed { handles : bool; AuthFunc : option (Z -> bool) }.
Definition StartServe (af : Z -> bool) (s : Served) : Served := mkServed true (Some af).
Definition StopServe (s : Served) : Served := mkServed false (AuthFunc s).

Section Serving.
Context `{SL : Socks5Laws}.
Context (n : Network) (d : outboundDialer) (af : Z -> bool).

(** The server with its dialers and its tunnel; [framing] is the tunnel of a
    framed connection. *)
Definition serve (sched : list actor) (target : Conn) (framing : GoM Conn (option error)) (packets : list pack_event) : GoM Server unit :=
  handler af (Dial n d) (DialUDP n d) (net_ResolveUDPAddr n) (net_ListenUDP n)
    (fun framed => if framed then framing else tunnel sched target) packets.

(** A peer with a session that asks for a connection which can be made is told
    so, and gets the answer of the target, or its beginning when its own side
    ends first; the stream and the target are closed.  [sched] lets the answer
    through; the other goroutine may do anything. *)
Theorem served_connection s sched target framing packets ms addr port rest local a ad po :
  session s = true -> werr (strm s) = None ->
  Forall is_byte ms -> (0 < length ms <= 255)%nat -> Forall is_byte (addr ++ port) -> length addr = 4%nat -> length port = 2%nat ->
  content (rx (strm s)) = enc_negotiation ms ++ enc_request (NewRequest CmdConnect ATYPIPv4 addr port) ++ rest ->
  let to := Request_Address (NewRequest CmdConnect ATYPIPv4 addr port) in
  Dial n d "tcp" to = inl local -> ParseAddress local = inl (a, ad, po) ->
  (2 * (length (content (rx target)) + length (chunks (rx target))) + 3 <= count Fwd2 sched)%nat ->
  exists s' got, serve sched target framing packets s = (Ret tt, s') /\
    got `prefix_of` content (rx target) /\
    tx (strm s') = (tx (strm s) ++ enc_method MethodNone ++ enc_reply (NewReply RepSuccess a ad po)) ++ got /\
    closed (strm s') = true /\
    exists logged, trace s' = trace s ++ [EvDial "tcp" to; EvTunnel false; EvCloseTarget] ++ logged /\
      forallb (fun e => negb (is_network e)) logged = true.
Proof.
  intros Hs Hw Hms Hlms Hb Ha Hp Hc to Hd Hl Hn.
  destruct (on_strm_reads _ _ _ s _ (negotiation_ok ms Hms Hlms) Hc) as (c1 & H1 & Hc1 & (Ht1 & Hw1 & _)).
  unfold serve, handler, preCheckFunc, socks5Negotiate. unfold gets at 1, bind at 1. rewrite Hs. cbn [negb].
  rewrite bind_assoc, (bind_Ret _ _ _ _ _ H1). cbn beta iota.
  rewrite (bind_Ret _ _ _ _ _ (WriteTo_ok _ (set_strm c1 s) ltac:(cbn; congruence))). cbn [shouldLogError].
  set (s1 := set_strm (mkConn _ _ _ _ _) _).
  destruct (on_strm_reads _ _ _ s1 _ (request_v4_ok CmdConnect addr port ltac:(unfold is_byte; vm_compute; split; congruence) Hb Ha Hp) Hc1)
    as (c2 & H2 & Hc2 & (Ht2 & Hw2 & _)).
  unfold socks5RequestConnect. rewrite bind_assoc, (bind_Ret _ _ _ _ _ H2). cbn beta iota. rewrite request_cmd.
  change (CmdConnect =? CmdConnect) with true. cbn iota. fold to. rewrite Hd, bind_assoc.
  set (s2 := mkServer c2 (session s) (trace s ++ [EvDial "tcp" to])).
  assert (E2 : emit (EvDial "tcp" to) (set_strm c2 s1) = (Ret tt, s2)) by done.
  rewrite bind_assoc, (bind_Ret _ _ _ _ _ E2). unfold relay_target. rewrite Hl, !bind_assoc.
  assert (Hw2' : werr (strm s2) = None) by (cbn; cbn in Hw2; congruence).
  rewrite (bind_Ret _ _ _ _ _ (WriteTo_ok _ s2 Hw2')). set (s3 := set_strm (mkConn _ _ _ _ _) s2). rewrite bind_assoc.
  set (s4 := mkServer (strm s3) (session s) ((trace s ++ [EvDial "tcp" to]) ++ [EvTunnel false])).
  assert (E4 : emit (EvTunnel false) s3 = (Ret tt, s4)) by done. rewrite (bind_Ret _ _ _ _ _ E4).
  set (t := run (sched ++ [Caller]) (Tunnel.tunneling target (strm s4))).
  destruct (returned t) as [r|] eqn:Er; [|by destruct (tunnel_ends target (strm s4) sched (or_intror Hn))].
  assert (E5 : on_strm (tunnel sched target) s4 = (Ret r, set_strm (source t) s4)) by (unfold on_strm, zoom, tunnel; fold t; by rewrite Er).
  rewrite (bind_Ret _ _ _ _ _ E5).
  destruct (run_grows (sched ++ [Caller]) (Tunnel.tunneling target (strm s4))) as [got Hg]. fold t in Hg. cbn [Tunnel.tunneling source] in Hg.
  destruct (tunnel_outcome target (strm s4) (sched ++ [Caller])) as (_ & P & _). fold t in P. rewrite Hg in P. apply prefix_app_inv in P.
  assert (Htx : tx (strm s4) = tx (strm s) ++ enc_method MethodNone ++ enc_reply (NewReply RepSuccess a ad po)).
  { cbn. rewrite Ht2. cbn. rewrite Ht1. by rewrite <- app_assoc. }
  rewrite Htx in Hg. cbv beta iota delta [emit modify bind on_strm zoom Conn_Close ret].
  destruct (shouldLogError r); (eexists _, got; split; [reflexivity|]; cbn; split; [exact P|]; split; [exact Hg|]; split; [done|]).
  - exists [EvLog "socks5RequestConnect err"]. rewrite <- !app_assoc. done.
  - exists []. rewrite <- !app_assoc. done.
Qed.
End Serving.

(** Behind a proxy the connections do not depend on what can be dialled
    directly. *)
Theorem proxied_only `{Socks5Lib} n n' af addr user pass sched target framing packets s : addr <> "" ->
  client_Dial n = client_Dial n' -> net_ResolveUDPAddr n = net_ResolveUDPAddr n' -> net_ListenUDP n = net_ListenUDP n' ->
  serve n (SetOutboundProxy addr user pass) af sched target framing packets s =
  serve n' (SetOutboundProxy addr user pass) af sched target framing packets s.
Proof.
  intros Ha Hc Hr Hl. unfold SetOutboundProxy. rewrite (proj2 (String.eqb_neq _ _) Ha). unfold serve, Dial, DialUDP. by rewrite Hc, Hr, Hl.
Qed.

(** * Concrete inputs *)

(** A network that only the proxy reaches, and where sockets can be opened. *)
Definition ex_network : Network := mkNetwork (fun _ _ => inr (ErrText "unreachable")) (fun _ => inr (ErrText "unreachable"))
  inl (fun _ => inl "10.1.1.1:5000") (fun _ _ _ _ _ => inl "10.9.9.9:4000").
Definition ex_out_srv (b : bytes) : Server := mkServer (mkConn (mkSource [b] EOF) [] None false false) true [].
Definition ex_answer : Conn := mkConn (mkSource [[79]; [75]] EOF) [] None false false.

(** Served through the proxy; and the datagrams of a packet connection, which
    leave from a socket of this machine although a proxy is set. *)
Example ex_served : let s := (serve ex_network (SetOutboundProxy "proxy:1080" "" "") (fun _ => true) (replicate 11 Fwd2) ex_answer (ret None) []
    (ex_out_srv (enc_negotiation [0] ++ enc_request (NewRequest CmdConnect ATYPIPv4 [10; 0; 0; 7] [0; 80])))).2 in
  tx (strm s) = enc_method MethodNone ++ enc_reply (NewReply RepSuccess 1 [10; 9; 9; 9] [15; 160]) ++ [79; 75] /\ closed (strm s) = true.
Proof. vm_compute. done. Qed.
Example ex_packets_bypass : let s := (serve ex_network (SetOutboundProxy "proxy:1080" "" "") (fun _ => true) [] ex_answer (ret None) [FromTunnel]
    (ex_out_srv (enc_negotiation [0] ++ enc_request (NewRequest CmdPacketConn ATYPIPv4 [0; 0; 0; 0] [0; 0]) ++
                 [0; 9; 1; 8; 8; 8; 8; 0; 53; 104; 105]))).2 in
  trace s = [EvListenUDP "0.0.0.0:0"; EvSendUDP [104; 105] "8.8.8.8:53"; EvCloseUDP].
Proof. vm_compute. reflexivity. Qed.
