(* ===== verification/Socks5Client.v ===== *)
(** src/socks5/client.go: dialling through another peer's SOCKS5 server.  The
    dialler is a function of the stream the host opens, the stream's end state
    says what was written and whether it was reset.  The theorems: client and
    server agree (each, fed the other's bytes, completes, and the server dials
    the address asked for), when their framings agree, and how [DialUDP] fails
    against this server. *)
From S2P Require Import Prelude GoText GoIo GoNet Socks5Util Socks5Rfc Socks5Server.
From Stdlib Require String.

Record PeerWithAuth := mkPeer { peer_ID : string; UserName : bytes; Password : bytes }.
Record ProxyAddr := mkAddr { network : string; address : string }.

Definition NewDialer (peerID : string) (username password : bytes) : PeerWithAuth :=
  mkPeer peerID username password.

(** A dialled connection beside its stream: whether its reads and writes are
    framed as packets, and its two addresses. *)
Record streamConn := mkStreamConn { framed : bool; la : ProxyAddr; ra : ProxyAddr }.
Record packetConn := mkPacketConn { pc_la : ProxyAddr }.

Definition errUnsupportNetwork : error := ErrText "unsupport network type".
Definition errNoMethod : error := ErrText "no acceptable authentication methods".
Definition errConnectFailed : error := ErrText "SOCKS connect failed".

(** One message written; on an error the stream is reset first or not. *)
Definition send (b : bytes) : GoM Conn (option error) := let* (_, err) := Conn_Write b in ret err.
Definition fail_reset {A} (err : error) : GoM Conn (A + error) := Conn_Reset ;;; ret (inr err).

Definition string_bytes (s : string) : bytes := map byte_of (String.list_ascii_of_string s).

Section Client.
Context {Lib : Socks5Lib}.
(** [net.LookupPort]: numbers and service names. *)
Context (LookupPort : string -> string -> Z + error).
Context (d : PeerWithAuth).

(** The method negotiation and authentication both dials begin with.  [none_ok]
    says whether a server that asks for no authentication is accepted.  The
    errors after the credentials leave the stream open. *)
Definition negotiate (none_ok : bool) (k : GoM Conn (Reply + error)) : GoM Conn (Reply + error) :=
  err <- send (enc_negotiation [MethodUsernamePassword]) ;;
  match err with
  | Some e => fail_reset e
  | None =>
      nreply <- read_method ;;
      match nreply with
      | inr e => fail_reset e
      | inl m =>
          if m =? MethodUsernamePassword then
            err <- send (enc_userpass (UserName d) (Password d)) ;;
            match err with
            | Some e => ret (inr e)
            | None =>
                urp <- read_status ;;
                match urp with
                | inr e => ret (inr e)
                | inl status =>
                    if negb (status =? UserPassStatusSuccess) then ret (inr ErrUserPassAuth) else k
                end
            end
          else if (m =? MethodNone) && none_ok then k
          else fail_reset errNoMethod
      end
  end.

(** The request: written, answered, and answered with success. *)
Definition request (req : Request) : GoM Conn (Reply + error) :=
  err <- send (enc_request req) ;;
  match err with
  | Some e => fail_reset e
  | None =>
      reply <- read_reply ;;
      match reply with
      | inr e => fail_reset e
      | inl reply =>
          if negb (Rep reply =? RepSuccess) then fail_reset errConnectFailed else ret (inl reply)
      end
  end.

(** The address a request asks for: its type and bytes, from the host part. *)
Definition dial_target (host : string) : Z * bytes :=
  match ParseIP host with
  | Some ip => match To4 ip with Some ip4 => (ATYPIPv4, ip4) | None => (ATYPIPv6, default [] (To16 ip)) end
  | None => (ATYPDomain, string_bytes host)
  end.
Definition pack_target (host : string) : Z * bytes :=
  match ParseIP host with
  | Some ip => match To4 ip with Some _ => (ATYPIPv4, IPv4zero) | None => (ATYPIPv6, IPv6zero) end
  | None => (ATYPDomain, string_bytes host)
  end.

(** The request for [address], or the error of splitting it or looking its
    port up. *)
Definition make_request (cmd : Z) (target : string -> Z * bytes) (network address : string)
  : Request + error :=
  match SplitHostPort address with
  | inr e => inr e
  | inl (host, port) =>
      let '(atyp, addr) := target host in
      match LookupPort network port with
      | inr e => inr e
      | inl portNum => inl (NewRequest cmd atyp addr [u8 (Z.shiftr portNum 8); u8 portNum])
      end
  end.

Definition dial_cmd (network : string) : Z := if HasPrefix network "udp" then CmdConnectUDP else CmdConnect.

Definition dial_stream (network address : string) : GoM Conn (Reply + error) :=
  negotiate true
    (match make_request (dial_cmd network) dial_target network address with
     | inr e => fail_reset e
     | inl req => request req
     end).

(** [dialContext], given what the host's [NewStream] answers: the connection or
    error, and the stream. *)
Definition dialContext (stream : Conn + error) (network address : string)
  : outcome (streamConn + error) * option Conn :=
  if (String.length network <? 3)%nat then (Ret (inr errUnsupportNetwork), None)
  else match stream with
       | inr e => (Ret (inr e), None)
       | inl s =>
           let '(o, s') :=
             (r <- dial_stream network address ;;
              match r with
              | inr e => ret (inr e)
              | inl reply =>
                  ret (inl (mkStreamConn (String.eqb network "udp")
                              (mkAddr network (ToAddress (RAtyp reply) (BndAddr reply) (BndPort reply)))
                              (mkAddr network address)))
              end) s in (o, Some s')
       end.

Definition DialContext := dialContext.
Definition DialUDPConn := dialContext.

(** [DialUDP]. *)
Definition DialUDP (stream : Conn + error) (network localAddr : string)
  : outcome (packetConn + error) * option Conn :=
  if (String.length network <? 3)%nat then (Ret (inr errUnsupportNetwork), None)
  else match stream with
       | inr e => (Ret (inr e), None)
       | inl s =>
           let '(o, s') :=
             (r <- negotiate false
                     (match make_request CmdPacketConn pack_target network localAddr with
                      | inr e => fail_reset e
                      | inl req => request req
                      end) ;;
              match r with
              | inr e => ret (inr e)
              | inl reply =>
                  ret (inl (mkPacketConn
                              (mkAddr network (ToAddress (RAtyp reply) (BndAddr reply) (BndPort reply)))))
              end) s in (o, Some s')
       end.
End Client.

(** ** The dialled connections *)

(** Without framing a read puts the bytes of one [Read] in the slice. *)
Definition streamConn_Read (c : streamConn) (b : Slice) : GoM Conn (Z * option error * Slice) :=
  if framed c then packet_Read b
  else let* (data, err) := Conn_Read (slen b) in ret (Z.of_nat (length data), err, sfill b data).
Definition streamConn_Write (c : streamConn) (b : bytes) : GoM Conn (Z * option error) :=
  if framed c then packet_Write b else Conn_Write b.
Definition streamConn_LocalAddr (c : streamConn) : ProxyAddr := la c.
Definition streamConn_RemoteAddr (c : streamConn) : ProxyAddr := ra c.
Definition streamConn_ReadFrom (c : streamConn) (p : Slice)
  : GoM Conn (Z * ProxyAddr * option error * Slice) :=
  let* (n, err, p') := streamConn_Read c p in ret (n, ra c, err, p').
(** The address is ignored. *)
Definition streamConn_WriteTo (c : streamConn) (p : bytes) (addr : ProxyAddr) : GoM Conn (Z * option error) :=
  streamConn_Write c p.

Section PacketConn.
Context {Lib : Socks5Lib}.

(** [packetConn.ReadFrom]: the payload is moved to the front of [p], as much
    of it as [len(p)] holds. *)
Definition packetConn_ReadFrom (c : packetConn) (p : Slice)
  : GoM Conn (Z * option ProxyAddr * option error * Slice) :=
  let* (payload, from, err, p') := socks5ReadFrom p in
  match err with
  | Some e => ret (0, None, Some e, p')
  | None =>
      let moved := take (slen p) payload in
      ret (Z.of_nat (length moved), Some (mkAddr (network (pc_la c)) from), None, sfill p' moved)
  end.
Definition packetConn_WriteTo (c : packetConn) (p : bytes) (addr : ProxyAddr) : GoM Conn (Z * option error) :=
  err <- socks5WriteTo p (address addr) ;;
  match err with
  | Some e => ret (0, Some e)
  | None => ret (Z.of_nat (length p), None)
  end.
Definition packetConn_LocalAddr (c : packetConn) : ProxyAddr := pc_la c.
End PacketConn.

(** ** Agreement of client and server *)

Section Agreement.
Context `{SL : Socks5Laws}.
Context (LookupPort : string -> string -> Z + error) (d : PeerWithAuth).
Context (AuthFunc : Z -> bool)
        (Dial DialUDP_ : string -> string -> string + error)
        (ResolveUDPAddr : string -> string + error)
        (ListenUDP : string -> string + error)
        (tunneling : bool -> GoM Conn (option error)).

Definition credentials_ok : Prop :=
  Forall is_byte (UserName d) /\ Forall is_byte (Password d) /\
  (0 < length (UserName d) <= 255)%nat /\ (8 <= length (Password d) <= 255)%nat.

(** What the two ends write during a dial that succeeds. *)
Definition client_bytes (req : Request) : bytes :=
  enc_negotiation [MethodUsernamePassword] ++ enc_userpass (UserName d) (Password d) ++ enc_request req.
Definition server_bytes (a : Z) (addr port : bytes) : bytes :=
  enc_method MethodUsernamePassword ++ enc_status UserPassStatusSuccess ++
  enc_reply (NewReply RepSuccess a addr port).

Lemma send_ok b c : werr c = None ->
  send b c = (Ret None, mkConn (rx c) (tx c ++ b) None (closed c) (reset c)).
Proof. intros Hw. unfold send, bind, Conn_Write. by rewrite Hw. Qed.

(** One exchange: a message written, then one read. *)
Lemma exchange {A} (m : GoM Conn (A + error)) b (a : A) out c rest :
  reads m b a -> werr c = None -> content (rx c) = b ++ rest ->
  exists c', (forall B (k : option error -> GoM Conn B), bind (send out) k c = k None
                (mkConn (rx c) (tx c ++ out) None (closed c) (reset c))) /\
    m (mkConn (rx c) (tx c ++ out) None (closed c) (reset c)) = (Ret (inl a), c') /\
    content (rx c') = rest /\ tx c' = tx c ++ out /\ werr c' = None /\ reset c' = reset c /\ closed c' = closed c.
Proof.
  intros Hm Hw Hc. destruct (Hm (mkConn (rx c) (tx c ++ out) None (closed c) (reset c)) rest Hc)
    as (c' & H1 & H2 & (H3 & H4 & H5 & H6 & _)).
  exists c'. split; [|cbn in *; split_and!; done]. intros B k. by rewrite (bind_Ret _ _ _ _ _ (send_ok out c Hw)).
Qed.

Lemma client_agrees req a addr port cc down :
  Rep (NewReply RepSuccess a addr port) = RepSuccess ->
  ip_addr a addr port -> werr cc = None ->
  content (rx cc) = server_bytes a addr port ++ down ->
  exists cc', negotiate d true (request req) cc = (Ret (inl (NewReply RepSuccess a addr port)), cc') /\
    tx cc' = tx cc ++ client_bytes req /\ content (rx cc') = down /\ reset cc' = reset cc.
Proof.
  intros Hrep Hip Hw Hc. unfold server_bytes in Hc. rewrite <- !app_assoc in Hc.
  assert (Hb : forall z, z = MethodUsernamePassword \/ z = UserPassStatusSuccess \/ z = RepSuccess -> is_byte z)
    by (intros z [->|[->| ->]]; split; vm_compute; congruence).
  destruct (exchange read_method _ _ (enc_negotiation [MethodUsernamePassword]) cc _
              (method_ok _ (Hb _ (or_introl eq_refl))) Hw Hc) as (c1 & S1 & R1 & Hc1 & Ht1 & Hw1 & Hr1 & _).
  destruct (exchange read_status _ _ (enc_userpass (UserName d) (Password d)) c1 _
              (status_ok _ (Hb _ (or_intror (or_introl eq_refl)))) Hw1 Hc1) as (c2 & S2 & R2 & Hc2 & Ht2 & Hw2 & Hr2 & _).
  destruct (exchange read_reply _ _ (enc_request req) c2 _
              (reply_ok _ a addr port (Hb _ (or_intror (or_intror eq_refl))) Hip) Hw2 Hc2)
    as (c3 & S3 & R3 & Hc3 & Ht3 & Hw3 & Hr3 & _).
  exists c3. unfold negotiate. rewrite S1. cbn iota. rewrite (bind_Ret _ _ _ _ _ R1). cbn beta iota.
  change (MethodUsernamePassword =? MethodUsernamePassword) with true. cbn iota.
  rewrite S2. cbn iota. rewrite (bind_Ret _ _ _ _ _ R2). cbn beta iota.
  change (negb (UserPassStatusSuccess =? UserPassStatusSuccess)) with false. cbn iota.
  unfold request. rewrite S3. cbn iota. rewrite (bind_Ret _ _ _ _ _ R3). cbn beta iota.
  rewrite Hrep. change (negb (RepSuccess =? RepSuccess)) with false. cbn iota.
  split_and!; [done| |done|congruence]. rewrite Ht3, Ht2, Ht1. unfold client_bytes. by rewrite <- !app_assoc.
Qed.

(** The dial the server makes for a request, by its command. *)
Definition server_dial (udp : bool) (req : Request) : event :=
  if udp then EvDialUDP "udp" (Request_Address req) else EvDial "tcp" (Request_Address req).
Definition server_local (udp : bool) (req : Request) : string + error :=
  if udp then DialUDP_ "udp" (Request_Address req) else Dial "tcp" (Request_Address req).

Lemma server_agrees (udp : bool) req local a addr port s sched up :
  credentials_ok -> AuthFunc (LE_Uint64 (take 8 (Password d))) = true ->
  reads read_request (enc_request req) req -> Cmd req = (if udp then CmdConnectUDP else CmdConnect) ->
  server_local udp req = inl local -> ParseAddress local = inl (a, addr, port) ->
  werr (strm s) = None -> session s = false ->
  content (rx (strm s)) = client_bytes req ++ up ->
  exists c, content (rx c) = up /\ tx c = tx (strm s) ++ server_bytes a addr port /\
    forall e c', tunneling udp c = (Ret e, c') ->
      exists s', handler AuthFunc Dial DialUDP_ ResolveUDPAddr ListenUDP tunneling sched s = (Ret tt, s') /\
        session s' = true /\ closed (strm s') = true /\ tx (strm s') = tx c' /\
        trace s' = trace s ++ [server_dial udp req; EvTunnel udp; EvCloseTarget] ++
                   (if shouldLogError e then [EvLog "socks5RequestConnect err"] else []).
Proof.
  intros (Hu & Hp & Hlu & Hlp) Ha Hreq Hcmd Hloc Hpa Hw Hs Hc. unfold client_bytes in Hc.
  rewrite <- !app_assoc in Hc.
  destruct (handler_negotiated AuthFunc Dial DialUDP_ ResolveUDPAddr ListenUDP tunneling s sched
              [MethodUsernamePassword] (UserName d) (Password d) (enc_request req ++ up) Hw Hs)
    as (c & Hc1 & Hw1 & Hcl1 & _ & Ht1 & HH); try done; [by repeat constructor; vm_compute|simpl; lia|].
  rewrite Ha in HH, Ht1. destruct (Hreq c up Hc1) as (c2 & R2 & Hc2 & (Ht2 & Hw2 & Hcl2 & Hre2 & _)).
  exists (mkConn (rx c2) (tx c2 ++ enc_reply (NewReply RepSuccess a addr port)) None (closed c2) (reset c2)).
  split; [done|]. split.
  { cbn. rewrite Ht2, Ht1. unfold server_bytes. by rewrite <- !app_assoc. }
  intros e c' HT.
  assert (Hrun : socks5RequestConnect Dial DialUDP_ ResolveUDPAddr ListenUDP tunneling sched
                   (mkServer c true (trace s)) =
    (Ret e, mkServer (mkConn (rx c') (tx c') (werr c') true (reset c')) true
              (trace s ++ [server_dial udp req; EvTunnel udp; EvCloseTarget]))).
  { unfold socks5RequestConnect. rewrite (bind_Ret _ _ _ _ _ (on_strm_eq _ (mkServer c true (trace s)) _ _ R2)).
    cbn beta iota. rewrite Hcmd.
    assert (Hrelay : relay_target tunneling req local udp
        (mkServer c2 true (trace s ++ [server_dial udp req])) =
        (Ret e, mkServer c' true (trace s ++ [server_dial udp req; EvTunnel udp; EvCloseTarget]))).
    { unfold relay_target. rewrite Hpa. rewrite bind_assoc.
      rewrite (bind_Ret _ _ _ _ _ (WriteTo_ok _ (mkServer c2 true _) ltac:(cbn; congruence))). cbn beta iota.
      unfold emit, modify. rewrite bind_assoc. unfold bind at 1. cbn [set_strm strm session trace].
      match goal with |- context [bind (on_strm (tunneling udp)) _ ?st] =>
        rewrite (bind_Ret _ _ st _ _ (on_strm_eq _ st _ _ HT)) end.
      unfold bind, ret. cbn [set_strm strm session trace]. by rewrite <- !app_assoc. }
    unfold server_local in Hloc. destruct udp.
    - change (CmdConnectUDP =? CmdConnect) with false. change (CmdConnectUDP =? CmdConnectUDP) with true. cbn iota.
      unfold emit at 1, modify at 1. rewrite bind_assoc. unfold bind at 1. cbn [set_strm strm session trace]. rewrite Hloc.
      rewrite (bind_Ret _ _ _ _ _ Hrelay). done.
    - change (CmdConnect =? CmdConnect) with true. cbn iota.
      unfold emit at 1, modify at 1. rewrite bind_assoc. unfold bind at 1. cbn [set_strm strm session trace]. rewrite Hloc.
      rewrite (bind_Ret _ _ _ _ _ Hrelay). done. }
  rewrite HH. unfold after_negotiation. rewrite (bind_Ret _ _ _ _ _ Hrun).
  destruct (shouldLogError e); eexists; (split; [reflexivity|]); cbn;
    rewrite <- ?app_assoc, ?app_nil_r; done.
Qed.

(** A server that refuses the credentials ends the dial before the request. *)
Lemma client_refused k cc down : werr cc = None ->
  content (rx cc) = enc_method MethodUsernamePassword ++ enc_status UserPassStatusFailure ++ down ->
  exists cc', negotiate d true k cc = (Ret (inr ErrUserPassAuth), cc') /\
    tx cc' = tx cc ++ enc_negotiation [MethodUsernamePassword] ++ enc_userpass (UserName d) (Password d).
Proof.
  intros Hw Hc.
  destruct (exchange read_method _ _ (enc_negotiation [MethodUsernamePassword]) cc _
              (method_ok MethodUsernamePassword ltac:(split; vm_compute; congruence)) Hw Hc) as (c1 & S1 & R1 & Hc1 & Ht1 & Hw1 & _).
  destruct (exchange read_status _ _ (enc_userpass (UserName d) (Password d)) c1 _
              (status_ok UserPassStatusFailure ltac:(split; vm_compute; congruence)) Hw1 Hc1) as (c2 & S2 & R2 & _ & Ht2 & _).
  exists c2. unfold negotiate. rewrite S1. cbn iota. rewrite (bind_Ret _ _ _ _ _ R1). cbn beta iota.
  change (MethodUsernamePassword =? MethodUsernamePassword) with true. cbn iota.
  rewrite S2. cbn iota. rewrite (bind_Ret _ _ _ _ _ R2). cbn beta iota.
  change (negb (UserPassStatusFailure =? UserPassStatusSuccess)) with true. cbn iota.
  split; [done|]. by rewrite Ht2, Ht1, <- app_assoc.
Qed.

(** A dial of which both ends see what the other writes. *)
Lemma dial_agrees net target req local a addr port cc s sched up down :
  let udp := HasPrefix net "udp" in
  (3 <= String.length net)%nat -> credentials_ok ->
  make_request LookupPort (dial_cmd net) dial_target net target = inl req ->
  reads read_request (enc_request req) req ->
  AuthFunc (LE_Uint64 (take 8 (Password d))) = true ->
  server_local udp req = inl local -> ParseAddress local = inl (a, addr, port) -> ip_addr a addr port ->
  werr cc = None -> tx cc = [] -> werr (strm s) = None -> tx (strm s) = [] -> session s = false ->
  content (rx cc) = server_bytes a addr port ++ down ->
  content (rx (strm s)) = client_bytes req ++ up ->
  (exists conn cc', dialContext LookupPort d (inl cc) net target = (Ret (inl conn), Some cc') /\
     tx cc' = client_bytes req /\ content (rx cc') = down /\
     address (la conn) = ToAddress (RAtyp (NewReply RepSuccess a addr port))
                         (BndAddr (NewReply RepSuccess a addr port)) (BndPort (NewReply RepSuccess a addr port)) /\
     (framed conn = udp <-> net = "udp" \/ udp = false)) /\
  (exists c, content (rx c) = up /\ tx c = server_bytes a addr port /\
     forall e c', tunneling udp c = (Ret e, c') ->
       exists s', handler AuthFunc Dial DialUDP_ ResolveUDPAddr ListenUDP tunneling sched s = (Ret tt, s') /\
         session s' = true /\ closed (strm s') = true /\ tx (strm s') = tx c' /\
         trace s' = trace s ++ [server_dial udp req; EvTunnel udp; EvCloseTarget] ++
                    (if shouldLogError e then [EvLog "socks5RequestConnect err"] else [])).
Proof.
  intros udp Hlen Hcred Hmk Hreads Hauth Hloc Hpa Hip Hwc Htc Hws Hts Hs Hcc Hcs. split.
  - destruct (client_agrees req a addr port cc down (reply_rep _ _ _ _) Hip Hwc Hcc) as (cc' & HN & Ht & Hc & _).
    unfold dialContext. rewrite (proj2 (Nat.ltb_ge _ _)) by lia. unfold dial_stream. rewrite Hmk.
    rewrite (bind_Ret _ _ _ _ _ HN). eexists _, cc'. split; [reflexivity|]. rewrite Ht, Htc.
    split_and!; [done|done|done|]. cbn [framed]. unfold udp.
    destruct (String.eqb_spec net "udp") as [->|Hne]; [split; auto|].
    destruct (HasPrefix net "udp"); (split; [intros ?; try done; by right|intros [?|?]; done]).
  - destruct (server_agrees udp req local a addr port s sched up Hcred Hauth Hreads) as (c & H1 & H2 & H3); try done.
    + unfold make_request in Hmk. destruct (SplitHostPort target) as [[h p]|]; [|done].
      destruct (dial_target h) as [at_ ad]. destruct (LookupPort net p); [|done]. injection Hmk as <-.
      by rewrite request_cmd.
    + exists c. rewrite Hts in H2. done.
Qed.

(** C5. A dial through a peer works end to end.  Let the request for
    [address] be well formed, the credentials be accepted and the server's dial
    of the requested address succeed.  Then each side, fed what the other
    writes, completes: the client returns a connection whose local address is
    the one the server's socket has, having written exactly the handshake and
    consumed exactly the answers; the server opens a session, dials the address
    of the request with the protocol the network name asks for, and tunnels
    with everything the client sends next still to be read.  Both ends frame
    packets, or neither does, exactly when the network is "udp" or does not
    begin with "udp". *)
Theorem dial_end_to_end net target req local a addr port cc s sched up down :
  let udp := HasPrefix net "udp" in
  (3 <= String.length net)%nat -> credentials_ok ->
  make_request LookupPort (dial_cmd net) dial_target net target = inl req ->
  reads read_request (enc_request req) req ->
  AuthFunc (LE_Uint64 (take 8 (Password d))) = true ->
  server_local udp req = inl local -> ParseAddress local = inl (a, addr, port) -> ip_addr a addr port ->
  werr cc = None -> tx cc = [] -> werr (strm s) = None -> tx (strm s) = [] -> session s = false ->
  content (rx cc) = server_bytes a addr port ++ down ->
  content (rx (strm s)) = client_bytes req ++ up ->
  (exists conn cc', dialContext LookupPort d (inl cc) net target = (Ret (inl conn), Some cc') /\
     tx cc' = client_bytes req /\ content (rx cc') = down /\
     address (la conn) = ToAddress (RAtyp (NewReply RepSuccess a addr port))
                         (BndAddr (NewReply RepSuccess a addr port)) (BndPort (NewReply RepSuccess a addr port)) /\
     (framed conn = udp <-> net = "udp" \/ udp = false)) /\
  (exists c, content (rx c) = up /\ tx c = server_bytes a addr port /\
     forall e c', tunneling udp c = (Ret e, c') ->
       exists s', handler AuthFunc Dial DialUDP_ ResolveUDPAddr ListenUDP tunneling sched s = (Ret tt, s') /\
         session s' = true /\ closed (strm s') = true /\ tx (strm s') = tx c' /\
         trace s' = trace s ++ [server_dial udp req; EvTunnel udp; EvCloseTarget] ++
                    (if shouldLogError e then [EvLog "socks5RequestConnect err"] else [])).
Proof. exact (dial_agrees net target req local a addr port cc s sched up down). Qed.

(** [DialUDP] does not work with this server.  When the peer has a session
    (as after any dial) the server answers that no authentication is needed,
    which [DialUDP] refuses, resetting the stream, while [dialContext] goes on
    to its request.  And when it authenticates and everything succeeds, the
    server opens the socket but never answers the request: with no traffic it
    has written the two negotiation replies and nothing else. *)
Theorem udp_associate_unanswered net target cc s ms up req ua local v :
  (3 <= String.length net)%nat -> werr cc = None -> werr (strm s) = None -> session s = false ->
  content (rx cc) = enc_method MethodNone ++ up ->
  credentials_ok -> AuthFunc (LE_Uint64 (take 8 (Password d))) = true ->
  Forall is_byte ms -> (0 < length ms <= 255)%nat ->
  reads read_request (enc_request req) req -> Cmd req = CmdPacketConn ->
  ResolveUDPAddr (Request_Address req) = inl ua -> ListenUDP ua = inl local -> ParseAddress local = inl v ->
  content (rx (strm s)) = enc_negotiation ms ++ enc_userpass (UserName d) (Password d) ++ enc_request req ->
  (exists cc', DialUDP LookupPort d (inl cc) net target = (Ret (inr errNoMethod), Some cc') /\ reset cc' = true) /\
  (exists k cc', negotiate d true k cc = k cc' /\ content (rx cc') = up) /\
  (exists s', handler AuthFunc Dial DialUDP_ ResolveUDPAddr ListenUDP tunneling [] s = (Ret tt, s') /\
     trace s' = trace s ++ [EvListenUDP ua; EvCloseUDP] /\
     tx (strm s') = tx (strm s) ++ enc_method MethodUsernamePassword ++ enc_status UserPassStatusSuccess).
Proof.
  intros Hlen Hwc Hws Hs Hcc (Hu & Hp & Hlu & Hlp) Hauth Hms Hlms Hreq Hcmd Hres Hlis Hpa Hcs.
  assert (Hneg : forall none_ok k, exists cc', content (rx cc') = up /\
      negotiate d none_ok k cc = (if none_ok then k else fail_reset errNoMethod) cc').
  { intros none_ok k. destruct (exchange read_method _ _ (enc_negotiation [MethodUsernamePassword]) cc up
       (method_ok MethodNone ltac:(split; vm_compute; congruence)) Hwc Hcc) as (c1 & S1 & R1 & Hc1 & _).
    exists c1. split; [done|]. unfold negotiate. rewrite S1. cbn iota. rewrite (bind_Ret _ _ _ _ _ R1).
    change (MethodNone =? MethodUsernamePassword) with false. cbn iota. by destruct none_ok. }
  split_and!.
  - unfold DialUDP. rewrite (proj2 (Nat.ltb_ge _ _)) by lia.
    match goal with |- context [negotiate d false ?k] => destruct (Hneg false k) as (cc' & _ & E) end.
    unfold bind at 1. rewrite E. unfold fail_reset, bind, Conn_Reset, modify, ret. by eexists.
  - destruct (Hneg true (fun c => (Ret (inr errNoMethod), c))) as (cc' & Hc & E). by eexists _, cc'.
  - destruct (handler_negotiated AuthFunc Dial DialUDP_ ResolveUDPAddr ListenUDP tunneling s [] ms
        (UserName d) (Password d) (enc_request req ++ []) Hws Hs Hms Hlms Hu Hp Hlu Hlp)
      as (c & Hc & Hw & _ & _ & Ht & HH); [by rewrite app_nil_r|].
    rewrite Hauth in HH, Ht. rewrite HH. unfold after_negotiation, socks5RequestConnect.
    destruct (Hreq c [] Hc) as (c2 & R2 & _ & (Ht2 & _)).
    rewrite !bind_assoc. rewrite (bind_Ret _ _ _ _ _ (on_strm_eq _ (mkServer c true (trace s)) _ _ R2)).
    cbn beta iota. rewrite Hcmd. change (CmdPacketConn =? CmdConnect) with false.
    change (CmdPacketConn =? CmdConnectUDP) with false. change (CmdPacketConn =? CmdPacketConn) with true.
    cbn iota. unfold handleUDPPackConnRequest. rewrite Hres, Hlis, Hpa. cbn [pack_loops].
    unfold emit, modify, bind, ret, on_strm, zoom, Conn_Close. cbn [shouldLogError set_strm strm session trace].
    eexists. split; [reflexivity|]. cbn. split; [by rewrite <- app_assoc|]. by rewrite Ht2, Ht.
Qed.
End Agreement.

(** ** Witnesses *)

Definition ex_peer : PeerWithAuth := NewDialer "peer" (LE_PutUint64 42) (LE_PutUint64 42).
Definition ex_auth (id : Z) : bool := id =? 42.
Definition ex_dial (net addr : string) : string + error := inl "192.168.1.5:40000".
Definition ex_resolve (addr : string) : string + error := inl addr.
Definition ex_port (net port : string) : Z + error :=
  match Atoi port with (z, None) => inl z | (_, Some e) => inr e end.
Definition ex_tunnel (framed : bool) : GoM Conn (option error) := ret (Some EOF).
Definition ex_req : Request := NewRequest CmdConnect ATYPIPv4 [10; 0; 0; 7] [0; 80].
Definition ex_conn (b : bytes) : Conn := mkConn (mkSource (map (fun x => [x]) b) EOF) [] None false false.

Lemma content_ex_conn b : content (rx (ex_conn b)) = b.
Proof. unfold ex_conn, content. cbn. induction b as [|x b IH]; [done|]. cbn. by rewrite IH. Qed.

Lemma ex_credentials : credentials_ok ex_peer.
Proof. split_and!; try (vm_compute; lia); repeat constructor; vm_compute; congruence. Qed.

Lemma ex_ip_addr : ip_addr ATYPIPv4 [192; 168; 1; 5] [156; 64].
Proof. unfold ip_addr. split; [repeat constructor; vm_compute; congruence|split; [done|by left]]. Qed.

Lemma ex_reads_req : reads read_request (enc_request ex_req) ex_req.
Proof. apply request_v4_ok; try done. repeat constructor; vm_compute; congruence. Qed.

Lemma dial_end_to_end_witness :
  let cc := ex_conn (server_bytes ATYPIPv4 [192; 168; 1; 5] [156; 64] ++ [1; 2]) in
  let s := mkServer (ex_conn (client_bytes ex_peer ex_req ++ [9])) false [] in
  (exists conn cc', dialContext ex_port ex_peer (inl cc) "tcp" "10.0.0.7:80" = (Ret (inl conn), Some cc') /\
     address (la conn) = "192.168.1.5:40000" /\ content (rx cc') = [1; 2]) /\
  (exists s', handler ex_auth ex_dial ex_dial ex_resolve ex_resolve ex_tunnel [] s = (Ret tt, s') /\
     trace s' = [EvDial "tcp" "10.0.0.7:80"; EvTunnel false; EvCloseTarget]).
Proof.
  intros cc s.
  pose proof (dial_end_to_end ex_port ex_peer ex_auth ex_dial ex_dial ex_resolve ex_resolve ex_tunnel
           "tcp" "10.0.0.7:80" ex_req "192.168.1.5:40000" ATYPIPv4 [192; 168; 1; 5] [156; 64]
           cc s [] [9] [1; 2]) as H.
  destruct H as [(conn & cc' & H1 & _ & H2 & H3 & _) (c & _ & _ & H4)];
    try (vm_compute; reflexivity); try (simpl; lia); try apply content_ex_conn.
  - exact ex_credentials.
  - exact ex_reads_req.
  - exact ex_ip_addr.
  - split.
    + exists conn, cc'. split; [exact H1|]. split; [|exact H2]. rewrite H3. vm_compute. reflexivity.
    + destruct (H4 (Some EOF) c eq_refl) as (s' & H5 & _ & _ & _ & H6). exists s'. split; [exact H5|].
      rewrite H6. vm_compute. reflexivity.
Defined.

Definition ex_pack : Request := NewRequest CmdPacketConn ATYPIPv4 [0; 0; 0; 0] [0; 0].

Lemma udp_associate_unanswered_witness :
  let cc := ex_conn (enc_method MethodNone ++ []) in
  let s := mkServer (ex_conn (enc_negotiation [2] ++ enc_userpass (LE_PutUint64 42) (LE_PutUint64 42)
                              ++ enc_request ex_pack)) false [] in
  (exists cc', DialUDP ex_port ex_peer (inl cc) "udp" "0.0.0.0:0" = (Ret (inr errNoMethod), Some cc') /\ reset cc' = true) /\
  (exists k cc', negotiate ex_peer true k cc = k cc' /\ content (rx cc') = []) /\
  (exists s', handler ex_auth ex_dial ex_dial ex_resolve ex_resolve ex_tunnel [] s = (Ret tt, s') /\
     trace s' = trace s ++ [EvListenUDP "0.0.0.0:0"; EvCloseUDP] /\
     tx (strm s') = tx (strm s) ++ enc_method MethodUsernamePassword ++ enc_status UserPassStatusSuccess).
Proof.
  intros cc s.
  apply (udp_associate_unanswered ex_port ex_peer ex_auth ex_dial ex_dial ex_resolve ex_resolve ex_tunnel
           "udp" "0.0.0.0:0" cc s [2] [] ex_pack "0.0.0.0:0" "0.0.0.0:0" (ATYPIPv4, [0; 0; 0; 0], [0; 0]));
    try (vm_compute; reflexivity); try (simpl; lia).
  - exact ex_credentials.
  - repeat constructor; vm_compute; congruence.
  - apply request_v4_ok; try done. repeat constructor; vm_compute; congruence.
Defined.
