(* ===== verification/Portmap.v ===== *)
(** src/portmap/portmap.go: port mappings.  A table of listeners by network,
    address and port; for each local connection a stream to the peer, opened by a
    handshake; and the far end of that handshake.  The theorems: the table and
    the open sockets correspond at all times, deleting and closing release what
    was opened, the two ends of the handshake agree, and what becomes of a
    connection on each branch. *)
From S2P Require Import Prelude GoText GoIo GoNet Json Codec.

Record handshakeRsp := mkHsr {
  hsr_Code : Z;
  hsr_Msg : string
}.

#[export] Instance handshakeRsp_eq_dec : EqDecision handshakeRsp.
Proof. solve_decision. Defined.

Definition hsr_zero : handshakeRsp := mkHsr 0 "".

Definition hsr_fields : list (field handshakeRsp) :=
  [ jfield "code" hsr_Code
      (fun v r => mkHsr v (hsr_Msg r));
    jfield "msg" hsr_Msg
      (fun v r => mkHsr (hsr_Code r) v) ].

Definition hsr_fits (r : handshakeRsp) : Prop :=
  json_fits (hsr_Code r) /\
  json_fits (hsr_Msg r).

#[export] Instance hsr_codec : JsonCodec handshakeRsp := {
  json_of := struct_json hsr_fields;
  json_into := struct_into hsr_fields;
  zero := hsr_zero;
  json_fits := hsr_fits;
  json_norm := id;
  json_depth := 1
}.
#[export] Instance hsr_laws : CodecLaws handshakeRsp.
Proof. struct_laws. Qed.

(** [convertIndex]: the key of the table. *)
Definition convertIndex (network ip : string) (port : Z) : string :=
  network +:+ "://" +:+ ip +:+ ":" +:+ Itoa port.

(** * Listeners *)

(** A listener of the table: its socket and the text of its address. *)
Record relayListener := mkListener { l_tcp : bool; l_sock : nat; l_addr : string }.

#[export] Instance relayListener_eq_dec : EqDecision relayListener.
Proof. solve_decision. Defined.

Definition addr_port (addr : string) : Z :=
  match Split addr ":" with
  | [_; p] => (Atoi p).1
  | _ => 0
  end.
Definition getPort (l : relayListener) : Z := addr_port (l_addr l).

(** The sockets of the process that are open: for each whether it is TCP, the
    address text it was asked for, and the one it got. *)
Abbreviation sockets := (gmap nat (bool * string * string)).

Record Portmap := mkPortmap {
  listeners : gmap string relayListener;
  socks : sockets;
  connEngine : bool  (* false once [Close] has set it to nil *)
}.

Definition NewPortMap (s : sockets) : Portmap := mkPortmap ∅ s true.

Section Listeners.
(** The operating system: [Listen tcp ip port socks] is a new socket and its
    address, or the error of resolving, listening, or (for UDP) of registering
    with the event engine, after which nothing stays open. *)
Context (Listen : bool -> string -> Z -> sockets -> (nat * string) + error).

(** [addTCPListener] and [addUDPListener]; the latter uses the engine at
    once, the former when a connection arrives. *)
Definition addListener_os (tcp : bool) (ip : string) (port : Z) : GoM Portmap (relayListener + error) :=
  pm <- get ;;
  match Listen tcp ip port (socks pm) with
  | inr e => ret (inr e)
  | inl (h, addr) =>
      put (mkPortmap (listeners pm) (<[h := (tcp, ip, addr)]> (socks pm)) (connEngine pm)) ;;;
      if negb tcp && negb (connEngine pm) then panic else ret (inl (mkListener tcp h addr))
  end.
Definition addTCPListener := addListener_os true.
Definition addUDPListener := addListener_os false.

Definition AddListener (network ip : string) (port : Z) : GoM Portmap (Z * option error) :=
  pm <- get ;;
  r <- match listeners pm !! convertIndex network ip port with
       | Some l => ret (inl l)
       | None => if Contains network "tcp" then addTCPListener ip port else addUDPListener ip port
       end ;;
  match r with
  | inr e => ret (0, Some e)
  | inl l =>
      let retPort := getPort l in
      modify (fun pm => mkPortmap (<[convertIndex network ip retPort := l]> (listeners pm))
                                  (socks pm) (connEngine pm)) ;;;
      ret (retPort, None)
  end.

(** Closing a listener releases its socket. *)
Definition close (l : relayListener) : GoM Portmap unit :=
  modify (fun pm => mkPortmap (listeners pm) (delete (l_sock l) (socks pm)) (connEngine pm)).

Definition DeleteListener (network ip : string) (port : Z) : GoM Portmap unit :=
  pm <- get ;;
  let index := convertIndex network ip port in
  match listeners pm !! index with
  | None => ret tt
  | Some l =>
      close l ;;;
      modify (fun pm => mkPortmap (delete index (listeners pm)) (socks pm) (connEngine pm))
  end.

(** [Close]; the order of the map's iteration does not matter for what it
    leaves. *)
Definition Close : GoM Portmap unit :=
  pm <- get ;;
  for_range (map_to_list (listeners pm)).*2 close ;;;
  modify (fun pm => mkPortmap ∅ (socks pm) false).

(** What the operating system promises: a new socket is new, and no two open
    sockets of one kind asked for at the same address text get the same
    port. *)
Definition os_ok : Prop :=
  forall tcp ip port s h addr, Listen tcp ip port s = inl (h, addr) ->
    s !! h = None /\
    (forall h' addr', s !! h' = Some (tcp, ip, addr') -> addr_port addr' <> addr_port addr) /\
    is_s64 (addr_port addr).

(** Table and sockets correspond one to one; [base] are the sockets that are
    not the table's. *)
Definition entry_ok (pm : Portmap) (key : string) (l : relayListener) : Prop :=
  exists network ip, no_char ":" network = true /\ key = convertIndex network ip (getPort l) /\
    l_tcp l = Contains network "tcp" /\ socks pm !! l_sock l = Some (l_tcp l, ip, l_addr l) /\
    is_s64 (getPort l).
Definition pm_inv (base : sockets) (pm : Portmap) : Prop :=
  (forall key l, listeners pm !! key = Some l -> entry_ok pm key l /\ base !! l_sock l = None) /\
  (forall k1 k2 l1 l2, listeners pm !! k1 = Some l1 -> listeners pm !! k2 = Some l2 ->
     l_sock l1 = l_sock l2 -> k1 = k2) /\
  (forall h v, socks pm !! h = Some v ->
     base !! h = Some v \/ exists key l, listeners pm !! key = Some l /\ l_sock l = h) /\
  (forall h v, base !! h = Some v -> socks pm !! h = Some v).

(** ** Lemmas *)

Lemma digits_no_colon s : all_digits s = true -> no_char ":" s = true.
Proof.
  induction s as [|c s IH]; [done|]. simpl. intros [Hc Hs]%andb_prop. rewrite IH by done.
  rewrite andb_true_r, negb_true_iff. apply Ascii.eqb_neq. intros ->. done.
Qed.

Lemma Itoa_no_colon z : no_char ":" (Itoa z) = true.
Proof.
  assert (H : forall z, no_char ":" (FormatUint z) = true)
    by (intros x; by apply digits_no_colon, all_digits_fmt).
  unfold Itoa. destruct (z <? 0); [|done]. simpl. by rewrite H.
Qed.

Lemma no_char_app_first c a b a' b' :
  no_char c a = true -> no_char c a' = true ->
  a +:+ String c b = a' +:+ String c b' -> a = a' /\ b = b'.
Proof.
  revert a'. induction a as [|x a IH]; intros [|x' a'] Ha Ha' E.
  - by injection E.
  - simpl in Ha'. apply andb_prop in Ha' as [Hx _]. rewrite string_app_cons in E. injection E as <- _.
    by rewrite Ascii.eqb_refl in Hx.
  - simpl in Ha. apply andb_prop in Ha as [Hx _]. rewrite string_app_cons in E. injection E as -> _.
    by rewrite Ascii.eqb_refl in Hx.
  - simpl in Ha, Ha'. apply andb_prop in Ha as [_ Ha]. apply andb_prop in Ha' as [_ Ha'].
    rewrite !string_app_cons in E. injection E as -> E. destruct (IH a' Ha Ha' E) as [-> ->]. done.
Qed.

Lemma convertIndex_split n i p :
  split_last ":" (convertIndex n i p) = Some (n +:+ "://" +:+ i, Itoa p).
Proof.
  unfold convertIndex. rewrite <- (split_last_app ":" (n +:+ "://" +:+ i) (Itoa p)) by apply Itoa_no_colon.
  f_equal. by autorewrite with strings.
Qed.

Lemma convertIndex_inj n i p n' i' p' :
  no_char ":" n = true -> no_char ":" n' = true -> is_s64 p -> is_s64 p' ->
  convertIndex n i p = convertIndex n' i' p' -> n = n' /\ i = i' /\ p = p'.
Proof.
  intros Hn Hn' Hp Hp' E. apply (f_equal (split_last ":")) in E. rewrite !convertIndex_split in E.
  injection E as E1 E2. apply no_char_app_first in E1 as [-> E1]; [|done..].
  injection E1 as ->. split_and!; [done..|]. apply (f_equal Atoi) in E2. rewrite !Atoi_Itoa in E2 by done.
  congruence.
Qed.

Lemma Contains_same (n n' : string) : n = n' -> Contains n "tcp" = Contains n' "tcp".
Proof. by intros ->. Qed.

Lemma pm_inv_new base : pm_inv base (NewPortMap base).
Proof. split_and!; [done|done| |done]. intros h v H. by left. Qed.

(** A new socket and its entry. *)
Lemma pm_inv_insert base n ip l pm :
  pm_inv base pm -> no_char ":" n = true -> l_tcp l = Contains n "tcp" -> is_s64 (getPort l) ->
  socks pm !! l_sock l = None -> listeners pm !! convertIndex n ip (getPort l) = None ->
  pm_inv base (mkPortmap (<[convertIndex n ip (getPort l) := l]> (listeners pm))
                 (<[l_sock l := (l_tcp l, ip, l_addr l)]> (socks pm)) (connEngine pm)).
Proof.
  intros (Ht & Hinj & Hs & Hb) Hn Htcp Hg Hfresh Hnew.
  assert (Hother : forall k l0, listeners pm !! k = Some l0 -> l_sock l0 <> l_sock l).
  { intros k l0 H0 E. destruct (Ht _ _ H0) as [(?&?&?&?&?&Hsock&?) _]. congruence. }
  split_and!; cbn [listeners socks].
  - intros key l0 Hl0. apply lookup_insert_Some in Hl0 as [[<- <-]|[Hne Hl0]].
    + split; [|destruct (base !! l_sock l) eqn:Eb; [|done]; apply Hb in Eb; congruence].
      exists n, ip. cbn. by rewrite lookup_insert_eq.
    + destruct (Ht _ _ Hl0) as [(n' & i' & Hn' & Ek & Htcp' & Hsock & Hg') Hbase]. split; [|done].
      exists n', i'. cbn. rewrite lookup_insert_ne; [done|]. intros E. by apply (Hother _ _ Hl0).
  - intros k1 k2 l1 l2 H1 H2 E.
    apply lookup_insert_Some in H1 as [[<- <-]|[Hne1 H1]]; apply lookup_insert_Some in H2 as [[<- <-]|[Hne2 H2]].
    + done.
    + by destruct (Hother _ _ H2).
    + by destruct (Hother _ _ H1).
    + by apply (Hinj k1 k2 l1 l2).
  - intros h0 v Hv. apply lookup_insert_Some in Hv as [[<- _]|[Hne Hv]].
    + right. exists (convertIndex n ip (getPort l)), l. by rewrite lookup_insert_eq.
    + destruct (Hs _ _ Hv) as [?|(key & l0 & Hl0 & E)]; [by left|]. right. exists key, l0.
      rewrite lookup_insert_ne; [done|]. intros <-. congruence.
  - intros h0 v Hv. rewrite lookup_insert_ne; [auto|]. intros <-. apply Hb in Hv. congruence.
Qed.

Lemma AddListener_spec base network ip port pm :
  os_ok -> pm_inv base pm -> connEngine pm = true -> no_char ":" network = true -> is_s64 port ->
  exists r pm', AddListener network ip port pm = (Ret r, pm') /\ pm_inv base pm' /\ connEngine pm' = true /\
    match r with
    | (p, None) =>
        (exists l, listeners pm' = <[convertIndex network ip p := l]> (listeners pm) /\ getPort l = p /\
           (listeners pm !! convertIndex network ip port = Some l /\ p = port /\ pm' = pm \/
            listeners pm !! convertIndex network ip p = None /\ socks pm !! l_sock l = None /\
            socks pm' = <[l_sock l := (l_tcp l, ip, l_addr l)]> (socks pm)))
    | (_, Some e) => pm' = pm
    end.
Proof.
  intros Hos HI He Hn Hp. pose proof HI as (Ht & _). unfold AddListener, bind at 1, get.
  destruct (listeners pm !! convertIndex network ip port) as [l|] eqn:El.
  - rewrite bind_ret. unfold bind, modify, ret. destruct (Ht _ _ El) as [(n' & i' & Hn' & Ek & _ & _ & Hg) _].
    apply convertIndex_inj in Ek as (<- & <- & ->); [|done..].
    assert (Epm : mkPortmap (<[convertIndex network ip (getPort l) := l]> (listeners pm)) (socks pm) (connEngine pm) = pm).
    { destruct pm. simpl in *. f_equal. by apply insert_id. }
    rewrite Epm. eexists _, pm. split_and!; [done|done|done|]. exists l.
    split_and!; [by rewrite insert_id|done|]. left. done.
  - set (tcp := Contains network "tcp").
    assert (Eadd : (if tcp then addTCPListener ip port else addUDPListener ip port) = addListener_os tcp ip port)
      by (by destruct tcp).
    rewrite Eadd. unfold addListener_os. rewrite bind_assoc. unfold bind at 1, get.
    destruct (Listen tcp ip port (socks pm)) as [[h addr]|e] eqn:EL.
    2:{ rewrite bind_ret. by eexists _, pm. }
    destruct (Hos _ _ _ _ _ _ EL) as (Hfresh & Hport & Hg).
    rewrite bind_assoc. unfold bind at 1, put. rewrite He. rewrite andb_false_r, bind_ret.
    unfold bind, modify, ret. set (l := mkListener tcp h addr).
    assert (Hnew : listeners pm !! convertIndex network ip (getPort l) = None).
    { destruct (listeners pm !! convertIndex network ip (getPort l)) as [l'|] eqn:E'; [|done]. exfalso.
      destruct (Ht _ _ E') as [(n' & i' & Hn' & Ek & Htcp & Hsock & Hg') _].
      apply convertIndex_inj in Ek as (<- & <- & Ep); [|done..]. rewrite Htcp in Hsock.
      apply (Hport _ _ Hsock). by symmetry. }
    eexists _, _. split; [reflexivity|]. split; [|split; [done|]].
    + rewrite <- He. by apply (pm_inv_insert base network ip l pm).
    + exists l. split_and!; [done|done|]. right. done.
Qed.

Lemma DeleteListener_spec base network ip port pm :
  pm_inv base pm ->
  exists pm', DeleteListener network ip port pm = (Ret tt, pm') /\ pm_inv base pm' /\ connEngine pm' = connEngine pm /\
    listeners pm' = delete (convertIndex network ip port) (listeners pm) /\
    socks pm' = match listeners pm !! convertIndex network ip port with
                | Some l => delete (l_sock l) (socks pm) | None => socks pm end.
Proof.
  intros HI. pose proof HI as (Ht & Hinj & Hs & Hb). unfold DeleteListener, bind at 1, get.
  set (key := convertIndex network ip port). destruct (listeners pm !! key) as [l|] eqn:El.
  2:{ eexists pm. split_and!; [done|done|done| |done]. by rewrite delete_id. }
  unfold close, bind, modify. eexists. split; [reflexivity|].
  split; [|by split_and!]. unfold pm_inv. cbn [listeners socks]. split_and!.
  - intros k0 l0 H0. apply lookup_delete_Some in H0 as [Hne H0].
    destruct (Ht _ _ H0) as [(n' & i' & Hn' & Ek & Htcp & Hsock & Hg') Hbase]. split; [|done].
    exists n', i'. cbn [socks]. rewrite lookup_delete_ne; [done|]. intros E. apply Hne. by apply (Hinj key k0 l l0).
  - intros k1 k2 l1 l2 H1 H2. apply lookup_delete_Some in H1 as [_ H1]. apply lookup_delete_Some in H2 as [_ H2].
    by apply Hinj.
  - intros h v Hv. apply lookup_delete_Some in Hv as [Hne Hv]. destruct (Hs _ _ Hv) as [?|(k0 & l0 & H0 & E)]; [by left|].
    right. exists k0, l0. rewrite lookup_delete_ne; [done|]. intros <-. congruence.
  - intros h v Hv. rewrite lookup_delete_ne; [auto|]. intros <-. destruct (Ht _ _ El) as [_ Hbase]. congruence.
Qed.

Lemma close_all_spec ls pm :
  for_range ls close pm =
    (Ret tt, mkPortmap (listeners pm) (foldl (fun s l => delete (l_sock l) s) (socks pm) ls) (connEngine pm)).
Proof.
  revert pm. induction ls as [|l ls IH]; intros pm; [by destruct pm|].
  cbn [for_range foldl]. unfold bind, close, modify. by rewrite IH.
Qed.

Lemma foldl_delete_lookup ls (s : sockets) h :
  foldl (fun s l => delete (l_sock l) s) s ls !! h =
    if decide (h ∈ map l_sock ls) then None else s !! h.
Proof.
  revert s. induction ls as [|l ls IH]; intros s; [done|]. cbn [foldl map]. rewrite IH.
  destruct (decide (h = l_sock l)) as [->|Hne].
  - rewrite (decide_True (P := l_sock l ∈ l_sock l :: _)) by left. rewrite lookup_delete_eq. by case_decide.
  - rewrite lookup_delete_ne by done.
    destruct (decide (h ∈ map l_sock ls)); [rewrite decide_True by (by right)|rewrite decide_False]; try done.
    by rewrite elem_of_cons; intros [?|?].
Qed.

Lemma Portmap_Close_spec base pm :
  pm_inv base pm -> Close pm = (Ret tt, mkPortmap ∅ base false).
Proof.
  intros (Ht & Hinj & Hs & Hb). unfold Close, bind, get. rewrite close_all_spec. unfold modify. cbn [socks].
  do 2 f_equal. apply map_eq. intros h. rewrite foldl_delete_lookup.
  assert (Hin : h ∈ map l_sock (map_to_list (listeners pm)).*2 <->
                exists key l, listeners pm !! key = Some l /\ l_sock l = h).
  { split.
    - intros (l & -> & ([k l'] & -> & Hk)%list_elem_of_fmap)%list_elem_of_fmap.
      apply elem_of_map_to_list in Hk. eauto.
    - intros (key & l & Hk & <-). apply list_elem_of_fmap. exists l. split; [done|].
      apply list_elem_of_fmap. exists (key, l). split; [done|]. by apply elem_of_map_to_list. }
  case_decide as Hd.
  - apply Hin in Hd as (key & l & Hk & <-). destruct (Ht _ _ Hk) as [_ Hbase]. done.
  - destruct (socks pm !! h) as [v|] eqn:E.
    + destruct (Hs _ _ E) as [->|Hx]; [done|]. by destruct Hd; apply Hin.
    + destruct (base !! h) as [v|] eqn:E2; [|done]. apply Hb in E2. congruence.
Qed.

(** ** Runs *)

Inductive pm_op := PmAdd (network ip : string) (port : Z) | PmDel (network ip : string) (port : Z).

Definition run_pm (o : pm_op) : GoM Portmap (option Z) :=
  match o with
  | PmAdd n i p => let* (q, e) := AddListener n i p in ret (match e with None => Some q | _ => None end)
  | PmDel n i p => DeleteListener n i p ;;; ret None
  end.
Fixpoint run_pms (os : list pm_op) : GoM Portmap (list (option Z)) :=
  match os with
  | [] => ret []
  | o :: os' => r <- run_pm o ;; rs <- run_pms os' ;; ret (r :: rs)
  end.
Definition pm_op_ok (o : pm_op) : Prop :=
  match o with PmAdd n _ p | PmDel n _ p => no_char ":" n = true /\ is_s64 p end.

(** The listeners table never loses a socket and never keeps a dead one.
    After any sequence of additions and deletions, none of which panics, the
    sockets open are those there were before and exactly one for each entry of
    the table; adding again the port an addition returned gives the same port and
    changes nothing; deleting that port closes its socket and forgets it; and
    [Close] leaves open exactly the sockets there were before. *)
Theorem listeners_own_sockets base os :
  os_ok -> Forall pm_op_ok os ->
  exists rs pm, run_pms os (NewPortMap base) = (Ret rs, pm) /\ pm_inv base pm /\
    (forall n i p q pm1, pm_op_ok (PmAdd n i p) -> AddListener n i p pm = (Ret (q, None), pm1) ->
       AddListener n i q pm1 = (Ret (q, None), pm1) /\
       exists l pm2, listeners pm1 !! convertIndex n i q = Some l /\
         DeleteListener n i q pm1 = (Ret tt, pm2) /\
         listeners pm2 !! convertIndex n i q = None /\ socks pm2 = delete (l_sock l) (socks pm1)) /\
    Close pm = (Ret tt, mkPortmap ∅ base false).
Proof.
  intros Hos Hok.
  assert (HR : forall pm, pm_inv base pm -> connEngine pm = true ->
     exists rs pm', run_pms os pm = (Ret rs, pm') /\ pm_inv base pm' /\ connEngine pm' = true).
  { induction Hok as [|o os Ho Hok IH]; intros pm HI He; [by exists [], pm|].
    assert (H1 : exists r pm1, run_pm o pm = (Ret r, pm1) /\ pm_inv base pm1 /\ connEngine pm1 = true).
    { destruct o as [n i p|n i p]; destruct Ho as [Hn Hp]; cbn [run_pm].
      - destruct (AddListener_spec base n i p pm Hos HI He Hn Hp) as ([q e] & pm1 & H1 & HI1 & He1 & _).
        rewrite (bind_Ret _ _ _ _ _ H1). by eexists _, pm1.
      - destruct (DeleteListener_spec base n i p pm HI) as (pm1 & H1 & HI1 & He1 & _).
        rewrite (bind_Ret _ _ _ _ _ H1). eexists _, pm1. split; [done|]. by rewrite He1. }
    destruct H1 as (r & pm1 & H1 & HI1 & He1). destruct (IH pm1 HI1 He1) as (rs & pm2 & H2 & HI2 & He2).
    exists (r :: rs), pm2. cbn [run_pms]. by rewrite (bind_Ret _ _ _ _ _ H1), (bind_Ret _ _ _ _ _ H2). }
  destruct (HR _ (pm_inv_new base) eq_refl) as (rs & pm & Hrun & HI & He). exists rs, pm.
  split_and!; [done|done| |by apply Portmap_Close_spec].
  intros n i p q pm1 [Hn Hp] Hadd.
  destruct (AddListener_spec base n i p pm Hos HI He Hn Hp) as ([q' e] & pm1' & H1 & HI1 & He1 & Hspec).
  rewrite Hadd in H1. injection H1 as <- <- <-. destruct Hspec as (l & Hls & Hg & _).
  assert (Hl : listeners pm1 !! convertIndex n i q = Some l) by (by rewrite Hls, lookup_insert_eq).
  assert (Hq : is_s64 q).
  { destruct HI1 as (Ht & _). destruct (Ht _ _ Hl) as [(?&?&?&?&?&?&Hx) _]. by rewrite Hg in Hx. }
  split.
  - unfold AddListener, bind at 1, get. rewrite Hl, bind_ret. unfold bind, modify, ret. rewrite Hg.
    rewrite insert_id by done. by destruct pm1.
  - destruct (DeleteListener_spec base n i q pm1 HI1) as (pm2 & H2 & _ & _ & Hd & Hsk). exists l, pm2.
    rewrite Hd, lookup_delete_eq. rewrite Hl in Hsk. done.
Qed.
End Listeners.

(** A listener opened at an address that had none. *)
Definition opened (network ip : string) (h : nat) (addr : string) (p : Portmap) : Portmap :=
  mkPortmap (<[convertIndex network ip (addr_port addr) := mkListener (Contains network "tcp") h addr]> (listeners p))
    (<[h := (Contains network "tcp", ip, addr)]> (socks p)) true.

Lemma AddListener_free Listen network ip port h addr p :
  listeners p !! convertIndex network ip port = None -> connEngine p = true ->
  Listen (Contains network "tcp") ip port (socks p) = inl (h, addr) ->
  AddListener Listen network ip port p = (Ret (addr_port addr, None), opened network ip h addr p).
Proof.
  intros Hno Hce HL. unfold AddListener, bind at 1, get. rewrite Hno.
  assert (E : (if Contains network "tcp" then addTCPListener Listen ip port else addUDPListener Listen ip port) =
              addListener_os Listen (Contains network "tcp") ip port) by (by destruct (Contains network "tcp")).
  rewrite E. unfold addListener_os. unfold bind, get, put, modify, ret, panic. rewrite HL, Hce, andb_false_r.
  reflexivity.
Qed.

Lemma convertIndex_port_inj n ip p q : is_s64 p -> is_s64 q -> convertIndex n ip p = convertIndex n ip q -> p = q.
Proof.
  intros Hp Hq E. unfold convertIndex in E.
  assert (Hinj : forall a b c : string, a +:+ b = a +:+ c -> b = c).
  { clear. induction a as [|x a IH]; intros b c E; [done|]. rewrite !string_app_cons in E. injection E as E. by apply IH. }
  repeat apply Hinj in E. pose proof (Atoi_Itoa p Hp) as E1. rewrite E, (Atoi_Itoa q Hq) in E1. congruence.
Qed.


(** * The handshake *)

(** The dialling end.  [stream] is what [peer.Decode] and [NewStream] give: the
    stream to the peer or the error.  The result is what the function returns
    (a stream or nil, and the error); the deferred [Reset] sees the named
    result, which [return nil, err] has set to nil, so only the paths that
    return the stream with an error reset it. *)
Definition relay_on_stream (hs : bytes) : GoM Conn (bool * option error) :=
  let* (_, err) := Conn_Write hs in
  match err with
  | Some e => ret (false, Some e)
  | None =>
      let* (hsBuf, err) := Conn_Read 100 in
      match err with
      | Some e => ret (false, Some e)
      | None =>
          match Unmarshal (string_of_bytes hsBuf) hsr_zero with
          | inr e => Conn_Reset ;;; ret (true, Some e)
          | inl hsRsp =>
              if negb (hsr_Code hsRsp =? 0)
              then Conn_Reset ;;; ret (true, Some (ErrText ("handshak response: " +:+ hsr_Msg hsRsp)))
              else ret (true, None)
          end
      end
  end.

Definition relayHandshake (stream : Conn + error) (hs : bytes)
  : outcome (bool * option error) * option Conn :=
  match stream with
  | inr e => (Ret (false, Some e), None)
  | inl s => let '(o, s') := relay_on_stream hs s in (o, Some s')
  end.

(** It never panics, and without an error the stream is open and has the
    handshake behind what was written on it before. *)
Lemma relayHandshake_ret stream hs : exists b e s, relayHandshake stream hs = (Ret (b, e), s).
Proof.
  unfold relayHandshake. destruct stream as [c|]; [|by eauto].
  unfold relay_on_stream, bind, Conn_Write, Conn_Read, Conn_Reset, modify, ret.
  repeat case_match; simplify_eq/=; eauto.
Qed.

Lemma relayHandshake_ok stream hs b s : relayHandshake stream hs = (Ret (b, None), s) ->
  exists c0 c, stream = inl c0 /\ s = Some c /\ tx c = tx c0 ++ hs /\ closed c = closed c0 /\ werr c = None.
Proof.
  unfold relayHandshake. destruct stream as [c|]; [|done].
  unfold relay_on_stream, bind, Conn_Write, Conn_Read, Conn_Reset, modify, ret.
  repeat case_match; intros; simplify_eq/=; by eexists _, _.
Qed.

(** The serving end, until the copying starts: the stream, and what was done
    beside it. *)
Inductive far_event :=
  | FarDialTCP (addr : string)
  | FarDialUDP (addr : string)
  | FarCloseTarget
  | FarRegister  (* the target is given to the event engine *)
  | FarCopy.     (* the copy from the stream to the target *)

#[export] Instance far_event_eq_dec : EqDecision far_event.
Proof. solve_decision. Defined.

Record Far := mkFar { far_stream : Conn; far_trace : list far_event }.
Definition on_far {A} : GoM Conn A -> GoM Far A :=
  zoom far_stream (fun c f => mkFar c (far_trace f)).
Definition far_emit (e : far_event) : GoM Far unit := modify (fun f => mkFar (far_stream f) (far_trace f ++ [e])).

Section Far.
Context (HandleHandshake : bytes -> (string * string * Z) + error)
        (DialTCP ResolveUDP DialUDP : string -> option error)
        (NBConn : option error).

(** The deferred function: an error message is sent as a response, and the
    stream closed. *)
Definition far_fail (errMsg : string) : GoM Far unit :=
  if String.eqb errMsg "" then ret tt
  else
    on_far (Conn_Write (bytes_of_string (Marshal (mkHsr 1 errMsg)))) ;;;
    on_far Conn_Close.

(** Once connected. *)
Definition far_connected : GoM Far unit :=
  match NBConn with
  | Some _ => far_emit FarCloseTarget ;;; far_fail "unexpected connection failed"
  | None =>
      let* (_, err) := on_far (Conn_Write (bytes_of_string (Marshal (mkHsr 0 "ok")))) in
      match err with
      | Some _ => on_far Conn_Close ;;; far_emit FarCloseTarget
      | None =>
          far_emit FarRegister ;;;
          far_emit FarCopy ;;;
          on_far Conn_Close ;;;
          far_emit FarCloseTarget
      end
  end.

Definition handleUptpStream : GoM Far unit :=
  let* (hsbuf, err) := on_far (Conn_Read 1024) in
  match err with
  | Some _ => on_far Conn_Close
  | None =>
      match HandleHandshake hsbuf with
      | inr e => far_fail (Error e)
      | inl (network, addr, port) =>
          let target := addr +:+ ":" +:+ Itoa port in
          if String.eqb network "tcp" then
            far_emit (FarDialTCP target) ;;;
            match DialTCP target with
            | Some _ => far_fail "connect target addr failed"
            | None => far_connected
            end
          else
            match ResolveUDP target with
            | Some _ => far_fail "resolve target addr failed"
            | None =>
                far_emit (FarDialUDP target) ;;;
                match DialUDP target with
                | Some _ => far_fail "connect target addr failed"
                | None => far_connected
                end
            end
      end
  end.

(** The response of the far end to a handshake: 0 and ok, or 1 and why. *)
Definition far_answer (hs : bytes) : handshakeRsp :=
  match HandleHandshake hs with
  | inr e => mkHsr 1 (Error e)
  | inl (network, addr, port) =>
      let target := addr +:+ ":" +:+ Itoa port in
      let failed := if String.eqb network "tcp" then
                      match DialTCP target with Some _ => Some "connect target addr failed" | None => None end
                    else match ResolveUDP target with
                         | Some _ => Some "resolve target addr failed"
                         | None => match DialUDP target with
                                   | Some _ => Some "connect target addr failed" | None => None end
                         end in
      match failed, NBConn with
      | Some msg, _ => mkHsr 1 msg
      | None, Some _ => mkHsr 1 "unexpected connection failed"
      | None, None => mkHsr 0 "ok"
      end
  end.

Definition has_copy (l : list far_event) : bool :=
  existsb (fun e => match e with FarCopy => true | _ => false end) l.

(** No target is dialled. *)
Definition no_dial (l : list far_event) : Prop :=
  Forall (fun ev => match ev with FarDialTCP _ | FarDialUDP _ => False | _ => True end) l.

Lemma far_fail_trace msg f : far_trace (far_fail msg f).2 = far_trace f.
Proof.
  unfold far_fail. destruct (String.eqb msg ""); [done|].
  unfold bind, on_far, zoom, Conn_Write. by destruct (werr (far_stream f)).
Qed.

Lemma far_connected_trace f : exists tr, far_trace (far_connected f).2 = far_trace f ++ tr /\ no_dial tr.
Proof.
  unfold far_connected. destruct NBConn.
  - unfold far_emit, modify at 1, bind at 1. rewrite far_fail_trace. exists [FarCloseTarget].
    split; [done|]. by repeat constructor.
  - unfold far_emit, bind, on_far, zoom, Conn_Write, Conn_Close, modify.
    destruct (werr (far_stream f)); eexists; (split; [cbn; rewrite <- ?app_assoc; reflexivity|]);
      by repeat constructor.
Qed.

(** The part of [handleUptpStream] that dials a TCP target. *)
Lemma far_dial_tcp target f : exists tr,
  far_trace ((far_emit (FarDialTCP target) ;;;
              match DialTCP target with
              | Some _ => far_fail "connect target addr failed"
              | None => far_connected
              end) f).2 = far_trace f ++ FarDialTCP target :: tr /\ no_dial tr.
Proof.
  unfold far_emit, modify at 1, bind at 1. destruct (DialTCP target).
  - rewrite far_fail_trace. exists []. split; [done|constructor].
  - destruct (far_connected_trace (mkFar (far_stream f) (far_trace f ++ [FarDialTCP target]))) as (tr & -> & Ht).
    exists tr. split; [|done]. cbn. by rewrite <- app_assoc.
Qed.

Lemma Conn_Read_chunk n m c cs e :
  rx c = mkSource (m :: cs) e -> (length m <= n)%nat ->
  Conn_Read n c = (Ret (m, None), mkConn (mkSource cs e) (tx c) (werr c) (closed c) (reset c)).
Proof. intros Hr Hl. unfold Conn_Read. by rewrite Hr, Read_one_chunk. Qed.

Lemma far_fail_spec msg f : msg <> "" -> werr (far_stream f) = None ->
  exists f', far_fail msg f = (Ret tt, f') /\
    tx (far_stream f') = tx (far_stream f) ++ bytes_of_string (Marshal (mkHsr 1 msg)) /\
    closed (far_stream f') = true /\ far_trace f' = far_trace f.
Proof.
  intros Hm Hw. unfold far_fail. destruct (String.eqb_spec msg ""); [done|].
  unfold bind, on_far, zoom, Conn_Write, Conn_Close, modify. rewrite Hw. by eexists.
Qed.

Lemma far_connected_spec f : werr (far_stream f) = None ->
  exists f', far_connected f = (Ret tt, f') /\
    tx (far_stream f') = tx (far_stream f) ++ bytes_of_string (Marshal
      (match NBConn with Some _ => mkHsr 1 "unexpected connection failed" | None => mkHsr 0 "ok" end)) /\
    closed (far_stream f') = true /\
    far_trace f' = far_trace f ++ match NBConn with
      | Some _ => [FarCloseTarget] | None => [FarRegister; FarCopy; FarCloseTarget] end.
Proof.
  intros Hw. unfold far_connected. destruct NBConn.
  - unfold far_emit, modify at 1. unfold bind at 1.
    destruct (far_fail_spec "unexpected connection failed" (mkFar (far_stream f) (far_trace f ++ [FarCloseTarget])))
      as (f' & H1 & H2 & H3 & H4); [done|done|]. by exists f'.
  - unfold far_emit, bind, on_far, zoom, Conn_Write, Conn_Close, modify. rewrite Hw. eexists.
    split; [reflexivity|]. cbn. by rewrite <- !app_assoc.
Qed.

Lemma handleUptpStream_spec hs cs e f :
  rx (far_stream f) = mkSource (hs :: cs) e -> (length hs <= 1024)%nat -> werr (far_stream f) = None ->
  hsr_Msg (far_answer hs) <> "" ->
  exists f', handleUptpStream f = (Ret tt, f') /\
    tx (far_stream f') = tx (far_stream f) ++ bytes_of_string (Marshal (far_answer hs)) /\
    closed (far_stream f') = true /\
    has_copy (far_trace f') = has_copy (far_trace f) || (hsr_Code (far_answer hs) =? 0).
Proof.
  intros Hr Hl Hw Hmsg. unfold handleUptpStream.
  set (c1 := mkConn (mkSource cs e) (tx (far_stream f)) (werr (far_stream f)) (closed (far_stream f)) (reset (far_stream f))).
  assert (H1 : on_far (Conn_Read 1024) f = (Ret (hs, None), mkFar c1 (far_trace f))).
  { unfold on_far, zoom. by rewrite (Conn_Read_chunk 1024 hs _ cs e Hr Hl). }
  rewrite (bind_Ret _ _ _ _ _ H1). cbn beta iota. unfold far_answer in *.
  assert (Hfail : forall msg tr, msg <> "" -> exists f', far_fail msg (mkFar c1 tr) = (Ret tt, f') /\
     tx (far_stream f') = tx (far_stream f) ++ bytes_of_string (Marshal (mkHsr 1 msg)) /\
     closed (far_stream f') = true /\ far_trace f' = tr).
  { intros msg tr Hm. destruct (far_fail_spec msg (mkFar c1 tr) Hm Hw) as (f' & ? & ? & ? & ?). by exists f'. }
  assert (Hconn : forall tr, exists f', far_connected (mkFar c1 tr) = (Ret tt, f') /\
     tx (far_stream f') = tx (far_stream f) ++ bytes_of_string (Marshal
       (match NBConn with Some _ => mkHsr 1 "unexpected connection failed" | None => mkHsr 0 "ok" end)) /\
     closed (far_stream f') = true /\
     has_copy (far_trace f') = has_copy tr || match NBConn with Some _ => false | None => true end).
  { intros tr. destruct (far_connected_spec (mkFar c1 tr) Hw) as (f' & E & ? & ? & Ht). exists f'.
    split_and!; [done..|]. rewrite Ht. cbn [far_trace]. unfold has_copy. rewrite existsb_app. by destruct NBConn. }
  destruct (HandleHandshake hs) as [[[network addr] port]|err].
  2:{ destruct (Hfail _ (far_trace f) Hmsg) as (f' & E & ? & ? & Ht). exists f'. rewrite Ht. cbn. by rewrite orb_false_r. }
  set (target := addr +:+ ":" +:+ Itoa port) in *.
  destruct (String.eqb network "tcp").
  - unfold far_emit at 1, modify at 1, bind at 1. cbn [far_stream far_trace].
    destruct (DialTCP target).
    + destruct (Hfail "connect target addr failed" (far_trace f ++ [FarDialTCP target]) ltac:(done)) as (f' & E & ? & ? & Ht).
      exists f'. rewrite Ht. unfold has_copy. rewrite existsb_app. done.
    + destruct (Hconn (far_trace f ++ [FarDialTCP target])) as (f' & E & ? & ? & Ht). exists f'.
      split_and!; [done|by destruct NBConn|done|]. rewrite Ht. unfold has_copy. rewrite existsb_app. cbn.
      rewrite orb_false_r. by destruct NBConn.
  - destruct (ResolveUDP target).
    { destruct (Hfail "resolve target addr failed" (far_trace f) ltac:(done)) as (f' & E & ? & ? & Ht).
      exists f'. rewrite Ht. by rewrite orb_false_r. }
    unfold far_emit at 1, modify at 1, bind at 1. cbn [far_stream far_trace].
    destruct (DialUDP target).
    + destruct (Hfail "connect target addr failed" (far_trace f ++ [FarDialUDP target]) ltac:(done)) as (f' & E & ? & ? & Ht).
      exists f'. rewrite Ht. unfold has_copy. rewrite existsb_app. done.
    + destruct (Hconn (far_trace f ++ [FarDialUDP target])) as (f' & E & ? & ? & Ht). exists f'.
      split_and!; [done|by destruct NBConn|done|]. rewrite Ht. unfold has_copy. rewrite existsb_app. cbn.
      rewrite orb_false_r. by destruct NBConn.
Qed.

(** C9. The two ends of the handshake agree.  For a handshake of at most 1024
    bytes that arrives in one piece, the far end answers once and closes its
    stream in the end; the dialling end, reading that answer in one piece of at
    most 100 bytes, accepts exactly when the far end went on to forward traffic,
    and otherwise resets the stream and returns the far end's message. *)
Theorem handshake_agrees hs cs e f cn :
  let answer := far_answer hs in
  let wire := bytes_of_string (Marshal answer) in
  rx (far_stream f) = mkSource (hs :: cs) e -> (length hs <= 1024)%nat -> werr (far_stream f) = None ->
  has_copy (far_trace f) = false -> valid_utf8 (hsr_Msg answer) = true -> hsr_Msg answer <> "" ->
  werr cn = None -> (exists cs' e', rx cn = mkSource (wire :: cs') e') -> (length wire <= 100)%nat -> reset cn = false ->
  exists f' cn' err,
    handleUptpStream f = (Ret tt, f') /\ tx (far_stream f') = tx (far_stream f) ++ wire /\
    closed (far_stream f') = true /\
    relayHandshake (inl cn) hs = (Ret (true, err), Some cn') /\ tx cn' = tx cn ++ hs /\
    (err = None <-> has_copy (far_trace f') = true) /\
    (err = None -> reset cn' = false) /\
    (err <> None -> reset cn' = true /\ err = Some (ErrText ("handshak response: " +:+ hsr_Msg answer))).
Proof.
  intros answer wire Hr Hl Hw Hno Hutf Hmsg Hwc (cs' & e' & Hrc) Hlw Hre.
  destruct (handleUptpStream_spec hs cs e f Hr Hl Hw Hmsg) as (f' & H1 & H2 & H3 & H4). fold answer in H2, H4.
  assert (Hcode : hsr_Code answer = 0 \/ hsr_Code answer = 1).
  { unfold answer, far_answer. destruct (HandleHandshake hs) as [[[? ?] ?]|]; [|by right].
    repeat case_match; cbn; auto. }
  assert (Hfits : json_fits answer).
  { split; [|exact Hutf]. destruct Hcode as [E|E]; unfold json_fits; cbn; rewrite E; split; vm_compute; congruence. }
  assert (HU : Unmarshal (string_of_bytes wire) hsr_zero = inl answer).
  { unfold wire. rewrite string_of_bytes_of_string. exact (Unmarshal_Marshal answer Hfits ltac:(cbn; lia)). }
  assert (HRel : relay_on_stream hs cn =
    (if negb (hsr_Code answer =? 0)
     then (Ret (true, Some (ErrText ("handshak response: " +:+ hsr_Msg answer))),
           mkConn (mkSource cs' e') (tx cn ++ hs) None (closed cn) true)
     else (Ret (true, None), mkConn (mkSource cs' e') (tx cn ++ hs) None (closed cn) (reset cn)))).
  { unfold relay_on_stream. unfold Conn_Write. unfold bind at 1. rewrite Hwc.
    rewrite (bind_Ret _ _ _ _ _ (Conn_Read_chunk 100 wire (mkConn _ _ _ _ _) cs' e' Hrc Hlw)).
    cbn beta iota. rewrite HU. by destruct (negb _). }
  rewrite Hno in H4. unfold relayHandshake. rewrite HRel.
  destruct Hcode as [E|E]; rewrite E in H4 |- *; cbn in H4 |- *.
  - exists f', (mkConn (mkSource cs' e') (tx cn ++ hs) None (closed cn) (reset cn)), None.
    split_and!; done.
  - eexists f', _, _. split; [done|]. split; [done|]. split; [done|]. split; [reflexivity|].
    split; [done|]. rewrite H4. split; [done|]. split; [done|]. intros _. done.
Qed.
End Far.

(** * Local connections

    A connection of the event engine: its local address, its session and
    whether it was closed; beside it the stream of the session. *)
Inductive session_kind := SessStream | SessOther.

Record NConn := mkNConn {
  nc_network : string; nc_ip : string; nc_port : Z;
  nc_session : option session_kind; nc_closed : bool
}.
Record Near := mkNear { nc : NConn; st : option Conn }.

Definition SetSession (s : option session_kind) : GoM Near unit :=
  modify (fun n => mkNear (mkNConn (nc_network (nc n)) (nc_ip (nc n)) (nc_port (nc n)) s (nc_closed (nc n))) (st n)).
Definition nc_Close : GoM Near unit :=
  modify (fun n => mkNear (mkNConn (nc_network (nc n)) (nc_ip (nc n)) (nc_port (nc n)) (nc_session (nc n)) true) (st n)).
(** An operation on the session's stream. *)
Definition on_stream {A} (dflt : A) (m : GoM Conn A) : GoM Near A :=
  fun n => match st n with
           | Some c => let '(o, c') := m c in (o, mkNear (nc n) (Some c'))
           | None => (Ret dflt, n)
           end.

Definition onConnData (data : bytes) : GoM Near unit :=
  n <- get ;;
  match nc_session (nc n) with
  | None => nc_Close
  | Some SessOther => SetSession None ;;; nc_Close
  | Some SessStream =>
      let* (_, err) := on_stream (0, None) (Conn_Write data) in
      match err with
      | Some _ => SetSession None ;;; nc_Close
      | None => ret tt
      end
  end.

Definition onConnClose : GoM Near unit :=
  n <- get ;;
  match nc_session (nc n) with
  | Some SessStream => on_stream tt Conn_Close
  | _ => ret tt
  end.

Section Near.
Context (GetHandshake : string -> string -> Z -> string * option bytes)
        (NewStream : string -> Conn + error).

(** [onConnOpen] up to the stream: whether the handshake was accepted. *)
Definition open_begin : GoM Near bool :=
  n <- get ;;
  match nc_session (nc n) with
  | Some SessStream => ret false
  | Some SessOther => nc_Close ;;; ret false
  | None =>
      let prot := nc_network (nc n) in
      (if (String.length prot <? 3)%nat then nc_Close else ret tt) ;;;
      if (String.length prot <? 3)%nat then panic
      else
        let prot := String.substring 0 3 prot in
        if String.eqb prot "tcp" || String.eqb prot "udp" then
          match GetHandshake prot (nc_ip (nc n)) (nc_port (nc n)) with
          | (_, None) => nc_Close ;;; ret false
          | (pid, Some hs) =>
              if String.eqb pid "" then nc_Close ;;; ret false
              else
                match relayHandshake (NewStream pid) hs with
                | (Ret (_, Some _), s) => put (mkNear (nc n) s) ;;; nc_Close ;;; ret false
                | (Ret (_, None), s) => put (mkNear (nc n) s) ;;; ret true
                | (Panic, _) => panic
                end
          end
        else nc_Close ;;; ret false
  end.

(** [onConnOpen]; on success a goroutine copies the stream to the connection
    until [copy_end]. *)
Definition onConnOpen : GoM Near unit :=
  b <- open_begin ;;
  if b then SetSession (Some SessStream) else ret tt.

(** What the goroutine does when the copy ends. *)
Definition copy_end : GoM Near unit :=
  SetSession None ;;; on_stream tt Conn_Close ;;; nc_Close.

(** The state after [open_begin] on a fresh connection, branch by branch. *)
Lemma open_begin_fresh n :
  nc_session (nc n) = None -> nc_network (nc n) = "tcp" \/ nc_network (nc n) = "udp" ->
  open_begin n = match GetHandshake (nc_network (nc n)) (nc_ip (nc n)) (nc_port (nc n)) with
    | (_, None) => (nc_Close ;;; ret false) n
    | (pid, Some hs) => if String.eqb pid "" then (nc_Close ;;; ret false) n
        else match relayHandshake (NewStream pid) hs with
             | (Ret (_, Some _), s) => (nc_Close ;;; ret false) (mkNear (nc n) s)
             | (Ret (_, None), s) => (Ret true, mkNear (nc n) s)
             | (Panic, _) => (Panic, n) end end.
Proof.
  intros Hs Hnet. unfold open_begin, bind at 1, get. rewrite Hs.
  assert (H3 : (String.length (nc_network (nc n)) <? 3)%nat = false /\
    String.substring 0 3 (nc_network (nc n)) = nc_network (nc n) /\
    String.eqb (nc_network (nc n)) "tcp" || String.eqb (nc_network (nc n)) "udp" = true)
    by (destruct Hnet as [-> | ->]; done).
  destruct H3 as (-> & -> & ->). rewrite bind_ret. destruct (GetHandshake _ _ _) as [pid [h|]]; [|done].
  destruct (String.eqb pid ""); [done|]. destruct (relayHandshake (NewStream pid) h) as [[[b [e|]]|] s]; done.
Qed.

(** What data does on a connection with a stream. *)
Fixpoint feed (ds : list bytes) : GoM Near unit :=
  match ds with [] => ret tt | d :: ds' => onConnData d ;;; feed ds' end.

Lemma feed_ok ds n c :
  nc_session (nc n) = Some SessStream -> st n = Some c -> werr c = None ->
  feed ds n = (Ret tt, mkNear (nc n) (Some (mkConn (rx c) (tx c ++ concat ds) None (closed c) (reset c)))).
Proof.
  revert n c. induction ds as [|d ds IH]; intros n c Hs Hst Hw.
  { destruct n as [nc0 st0], c as [r t w cl re]. simpl in *. subst. cbn. by rewrite app_nil_r. }
  cbn [feed]. assert (H1 : onConnData d n =
     (Ret tt, mkNear (nc n) (Some (mkConn (rx c) (tx c ++ d) None (closed c) (reset c))))).
  { unfold onConnData, bind, get, on_stream, Conn_Write. by rewrite Hs, Hst, Hw. }
  rewrite (bind_Ret _ _ _ _ _ H1). erewrite IH; [|exact Hs|reflexivity|reflexivity].
  cbn. by rewrite <- app_assoc.
Qed.

(** The life of a local connection.  A new connection is closed, and no
    stream opened, when its address has no mapping; when the handshake fails it
    is closed without a session; when it succeeds the connection gets the stream,
    and every byte that arrives goes to the stream after the handshake, in order,
    while the stream accepts it; the first write it refuses drops the session and
    closes the connection, and closing the connection closes the stream. *)
Theorem connection_lifecycle n hs pid :
  nc_session (nc n) = None -> nc_closed (nc n) = false -> st n = None ->
  nc_network (nc n) = "tcp" \/ nc_network (nc n) = "udp" ->
  GetHandshake (nc_network (nc n)) (nc_ip (nc n)) (nc_port (nc n)) = (pid, hs) ->
  exists n', onConnOpen n = (Ret tt, n') /\
    (hs = None \/ pid = "" -> nc_closed (nc n') = true /\ st n' = None) /\
    (nc_session (nc n') = None <-> nc_closed (nc n') = true) /\
    (forall h c c', hs = Some h -> pid <> "" -> NewStream pid = inl c ->
       relayHandshake (inl c) h = (Ret (true, None), Some c') ->
       nc_session (nc n') = Some SessStream /\ st n' = Some c' /\
       (forall ds, werr c' = None -> exists n2 c2, feed ds n' = (Ret tt, n2) /\ st n2 = Some c2 /\
          tx c2 = tx c' ++ concat ds /\
          (exists n3 c3, onConnClose n2 = (Ret tt, n3) /\ st n3 = Some c3 /\ closed c3 = true)) /\
       (forall d e, werr c' = Some e -> exists n2, onConnData d n' = (Ret tt, n2) /\
          nc_session (nc n2) = None /\ nc_closed (nc n2) = true)).
Proof.
  intros Hs Hcl Hst Hnet HG.
  assert (HE : onConnOpen n = match hs with
     | None => nc_Close n
     | Some hs => if String.eqb pid "" then nc_Close n
        else match relayHandshake (NewStream pid) hs with
             | (Ret (_, Some _), s) => nc_Close (mkNear (nc n) s)
             | (Ret (_, None), s) => SetSession (Some SessStream) (mkNear (nc n) s)
             | (Panic, _) => (Panic, n) end end).
  { unfold onConnOpen, bind at 1. rewrite (open_begin_fresh n Hs Hnet), HG. destruct hs as [h|]; [|done].
    destruct (String.eqb pid ""); [done|]. destruct (relayHandshake (NewStream pid) h) as [[[b [e|]]|] s]; done. }
  rewrite HE. destruct hs as [h|].
  2:{ eexists. split; [reflexivity|]. cbn. rewrite Hs, Hst. done. }
  destruct (String.eqb_spec pid "") as [Hp|Hp].
  { eexists. split; [reflexivity|]. cbn. rewrite Hs, Hst. split_and!; [done|done|]. intros ? ? ? _ ?. done. }
  destruct (relayHandshake_ret (NewStream pid) h) as (b & e & s & HR). rewrite HR. destruct e as [e|].
  - eexists. split; [reflexivity|]. cbn [nc st nc_session nc_closed]. rewrite Hs. split_and!; [by intros [?|?]|done|].
    intros h0 c c' [= <-] _ Hns Hrel. rewrite Hns in HR. congruence.
  - eexists. split; [reflexivity|]. cbn [nc st nc_session nc_closed]. rewrite Hcl. split_and!; [by intros [?|?]|done|].
    intros h0 c c' [= <-] _ Hns Hrel. rewrite Hns, Hrel in HR. injection HR as <- <-.
    split; [done|]. split; [done|]. split.
    + intros ds Hw. eexists _, _. split; [by apply feed_ok|]. split; [done|]. split; [done|].
      unfold onConnClose, bind, get, on_stream, Conn_Close, modify. cbn. by eexists _, _.
    + intros d e Hw. unfold onConnData, bind, get, on_stream, Conn_Write, SetSession, nc_Close, modify. cbn.
      rewrite Hw. by eexists.
Qed.
End Near.

(** ** Witnesses *)

(** Ports are handed out upwards from 40000 when asked for 0. *)
Definition ex_listen (tcp : bool) (ip : string) (port : Z) (s : sockets) : (nat * string) + error :=
  let h := fresh (dom s) in
  let p := if port =? 0 then 40000 + Z.of_nat h else port in
  let taken := existsb (fun e => match e with (_, (_, _, a)) => addr_port a =? p end) (map_to_list s) in
  if taken || negb (Z.leb 1 p && Z.leb p 65535) then inr (ErrText "bind: address already in use")
  else inl (h, "127.0.0.1:" +:+ Itoa p).

Lemma addr_port_local p : is_s64 p -> addr_port ("127.0.0.1:" +:+ Itoa p) = p.
Proof.
  intros Hp. unfold addr_port, Split. change ("127.0.0.1:" +:+ Itoa p) with ("127.0.0.1" +:+ String ":" (Itoa p)).
  rewrite split_go_app by done. rewrite split_go_last by apply Itoa_no_colon.
  change ("" +:+ Itoa p) with (Itoa p). by rewrite Atoi_Itoa.
Qed.

Lemma ex_os_ok : os_ok ex_listen.
Proof.
  intros tcp ip port s h addr. unfold ex_listen.
  set (p := if port =? 0 then _ else _).
  destruct (existsb _ _) eqn:Ex; [done|]. cbn [orb].
  destruct (Z.leb_spec 1 p); [|done]. destruct (Z.leb_spec p 65535); [|done]. cbn [andb negb].
  intros [= <- <-]. assert (Hp : is_s64 p) by (unfold is_s64; lia). rewrite addr_port_local by done.
  split_and!; [apply not_elem_of_dom, is_fresh| |done].
  intros h' addr' Hh' E. apply (eq_true_false_abs _ (eq_refl true)). rewrite <- Ex. symmetry.
  apply existsb_exists. exists (h', (tcp, ip, addr')). split; [apply list_elem_of_In; by apply elem_of_map_to_list|].
  cbn. by apply Z.eqb_eq.
Qed.

Lemma listeners_own_sockets_witness :
  exists rs pm, run_pms ex_listen [PmAdd "tcp" "127.0.0.1" 0; PmAdd "udp" "" 53; PmDel "udp" "" 53] (NewPortMap ∅)
      = (Ret rs, pm) /\ pm_inv ∅ pm /\
    (forall n i p q pm1, pm_op_ok (PmAdd n i p) -> AddListener ex_listen n i p pm = (Ret (q, None), pm1) ->
       AddListener ex_listen n i q pm1 = (Ret (q, None), pm1) /\
       exists l pm2, listeners pm1 !! convertIndex n i q = Some l /\
         DeleteListener n i q pm1 = (Ret tt, pm2) /\
         listeners pm2 !! convertIndex n i q = None /\ socks pm2 = delete (l_sock l) (socks pm1)) /\
    Close pm = (Ret tt, mkPortmap ∅ ∅ false).
Proof.
  apply (listeners_own_sockets ex_listen ∅ [PmAdd "tcp" "127.0.0.1" 0; PmAdd "udp" "" 53; PmDel "udp" "" 53]).
  - exact ex_os_ok.
  - repeat constructor; vm_compute; congruence.
Defined.

Definition ex_far_hs (hs : bytes) : (string * string * Z) + error := inr (ErrText "portmap app not found").
Definition ex_no_error (addr : string) : option error := None.
Definition ex_answer : handshakeRsp := far_answer ex_far_hs ex_no_error ex_no_error ex_no_error None [7].
Definition ex_pm_conn (chunks : list bytes) : Conn := mkConn (mkSource chunks EOF) [] None false false.

Lemma handshake_agrees_witness :
  exists f' cn' err,
    handleUptpStream ex_far_hs ex_no_error ex_no_error ex_no_error None (mkFar (ex_pm_conn [[7]]) []) = (Ret tt, f') /\
    relayHandshake (inl (ex_pm_conn [bytes_of_string (Marshal ex_answer)])) [7] = (Ret (true, err), Some cn') /\
    reset cn' = true /\ err = Some (ErrText "handshak response: portmap app not found") /\
    has_copy (far_trace f') = false.
Proof.
  destruct (handshake_agrees ex_far_hs ex_no_error ex_no_error ex_no_error None [7] [] EOF
              (mkFar (ex_pm_conn [[7]]) []) (ex_pm_conn [bytes_of_string (Marshal ex_answer)]))
    as (f' & cn' & err & H1 & _ & _ & H2 & _ & H3 & H4 & H5); try (vm_compute; reflexivity).
  - vm_compute; lia.
  - vm_compute; congruence.
  - by eexists [], EOF.
  - vm_compute; lia.
  - exists f', cn', err. destruct err as [e|].
    + destruct (H5 ltac:(done)) as [H6 H7]. split_and!; [exact H1|exact H2|exact H6|exact H7|].
      destruct (has_copy (far_trace f')) eqn:E; [|done]. discriminate (proj2 H3 eq_refl).
    + exfalso. vm_compute in H2. discriminate H2.
Defined.

(** An answer longer than the 100 bytes read is cut, and is no JSON. *)
Example long_answer_lost :
  let far hs := inr (ErrText "json: cannot unmarshal string into Go struct field PortmapAppHandshake.target_port of type int") in
  let wire := bytes_of_string (Marshal (far_answer far ex_no_error ex_no_error ex_no_error None [7])) in
  exists cn', relayHandshake (inl (ex_pm_conn [wire])) [7] = (Ret (true, Some ErrJSON), Some cn').
Proof. vm_compute. by eexists. Qed.

Definition ex_get_hs (n i : string) (p : Z) : string * option bytes := ("peer", Some [5]).
Definition ex_new_stream (pid : string) : Conn + error :=
  inl (ex_pm_conn [bytes_of_string (Marshal (mkHsr 0 "ok"))]).
Definition ex_near : Near := mkNear (mkNConn "tcp" "127.0.0.1" 80 None false) None.

Lemma connection_lifecycle_witness :
  exists n' c', onConnOpen ex_get_hs ex_new_stream ex_near = (Ret tt, n') /\
    nc_session (nc n') = Some SessStream /\ st n' = Some c' /\
    exists n2 c2, feed [[1]; [2; 3]] n' = (Ret tt, n2) /\ st n2 = Some c2 /\ tx c2 = [5; 1; 2; 3].
Proof.
  destruct (connection_lifecycle ex_get_hs ex_new_stream ex_near (Some [5]) "peer") as (n' & H1 & _ & _ & H2);
    try done; [by left|].
  destruct (H2 [5] (ex_pm_conn [bytes_of_string (Marshal (mkHsr 0 "ok"))])
              (mkConn (mkSource [] EOF) [5] None false false)) as (H3 & H4 & H5 & _); try done.
  exists n', (mkConn (mkSource [] EOF) [5] None false false). split_and!; [exact H1|exact H3|exact H4|].
  destruct (H5 [[1]; [2; 3]] eq_refl) as (n2 & c2 & H6 & H7 & H8 & _). exists n2, c2. done.
Defined.
