(* ===== verification/PortmapRun.v ===== *)
(** src/portmap/portmap.go as it runs: the goroutines that accept connections,
    the event engine's calls of [onConnOpen], [onConnData] and [onConnClose], the
    goroutine that copies each stream to its connection, and the console's calls
    [AddListener], [DeleteListener] and [Close], as steps that interleave in any
    order.  What a step does to the table, a connection or a stream is the code
    of Portmap; where a handler can be overtaken (between its read of the session
    and its write, between the handshake and [SetSession], between the three
    calls that end a copy) it is cut into several steps.  So is [AddListener], which
    changes the table under the read lock: taking the lock, looking the listener
    up, opening one, the beginning and the end of the write, releasing the lock.
    [DeleteListener] and [Close] have the write lock and wait until no such call is
    inside.  The theorems: the steps
    of a handler that runs alone are the handler; in every reachable state each
    stream carries its handshake and then the connection's data, in order and
    without gaps, and each connection a prefix of its stream; no stream is closed
    while both ends live, and none stays open behind its goroutine; that
    goroutine ends; connections do not see each other.  What holds of the table
    is in PortmapTable. *)
From S2P Require Import Prelude GoText GoIo GoNet Json Codec Portmap Tunnel.

(** * One connection

    [AddConn] of an accepted connection calls [onConnOpen]: it has begun, it has
    its stream and sets the session next, or it is done.  A target of
    [handleUptpStream] has its session before [AddConn]. *)
Inductive opc := OBegin | OSession | OFar | ODone.

(** The goroutine that copies: not started, copying, behind [SetSession(nil)],
    behind [s.Close()], ended; with what [io.Copy] returned. *)
Inductive cpc :=
  | CNone
  | CRun (pc : fpc)
  | CStream (e : option error)
  | CConn (e : option error)
  | CDone (e : option error).

(** [onConnData]: not called, about to write to the stream it took from the
    session, about to drop the session, about to close. *)
Inductive dpc := DIdle | DWrite (data : bytes) | DDrop | DClose.

(** [onConnClose]: not called yet, about to close the stream, done. *)
Inductive kpc := KOpen | KClose | KDone.

(** [near] is the engine's connection with its session and the stream, [out] what
    is written to the connection, [served] whether [handleUptpStream] dialled it.
    For the statements: [base], the stream as it was when the handshake was
    accepted, and [delivered], what [onConnData] was called with. *)
Record PConn := mkPC {
  near : Near; out : Conn; served : bool;
  opener : opc; copier : cpc; datah : dpc; closeh : kpc;
  base : option Conn; delivered : list bytes
}.

Definition set_near (n : Near) (p : PConn) : PConn :=
  mkPC n (out p) (served p) (opener p) (copier p) (datah p) (closeh p) (base p) (delivered p).
Definition set_out (o : Conn) (p : PConn) : PConn :=
  mkPC (near p) o (served p) (opener p) (copier p) (datah p) (closeh p) (base p) (delivered p).
Definition set_opener (o : opc) (p : PConn) : PConn :=
  mkPC (near p) (out p) (served p) o (copier p) (datah p) (closeh p) (base p) (delivered p).
Definition set_copier (c : cpc) (p : PConn) : PConn :=
  mkPC (near p) (out p) (served p) (opener p) c (datah p) (closeh p) (base p) (delivered p).
Definition set_datah (d : dpc) (p : PConn) : PConn :=
  mkPC (near p) (out p) (served p) (opener p) (copier p) d (closeh p) (base p) (delivered p).
Definition set_closeh (k : kpc) (p : PConn) : PConn :=
  mkPC (near p) (out p) (served p) (opener p) (copier p) (datah p) k (base p) (delivered p).
Definition set_base (b : option Conn) (p : PConn) : PConn :=
  mkPC (near p) (out p) (served p) (opener p) (copier p) (datah p) (closeh p) b (delivered p).
Definition deliver (d : bytes) (p : PConn) : PConn :=
  mkPC (near p) (out p) (served p) (opener p) (copier p) (datah p) (closeh p) (base p) (delivered p ++ [d]).

Definition on_near {A} : GoM Near A -> GoM PConn A := zoom near set_near.

(** A stream that was closed takes no more data and has none. *)
Definition stream_Write (p : bytes) : GoM Conn (Z * option error) :=
  c <- get ;;
  if closed c then ret (0, Some errClosed) else Conn_Write p.

(** One step of [io.Copy(c, s)]. *)
Definition copy_one (pc : fpc) (p : PConn) : PConn :=
  match st (near p) with
  | None => p
  | Some s =>
      match pc with
      | FRead => if closed s then set_copier (CRun (FEnd (Some errClosed))) p
                 else let '(pc', s', o') := copy_step pc s (out p) in
                      set_copier (CRun pc') (set_out o' (set_near (mkNear (nc (near p)) (Some s')) p))
      | FWrite _ _ => if nc_closed (nc (near p)) then set_copier (CRun (FEnd (Some errClosed))) p
                      else let '(pc', s', o') := copy_step pc s (out p) in
                           set_copier (CRun pc') (set_out o' (set_near (mkNear (nc (near p)) (Some s')) p))
      | _ => p
      end
  end.

(** What can happen to a connection.  [LOpen s]: [onConnOpen] up to the answer of
    the handshake, [s] being what [NewStream] gives; [LSession]: the rest of it;
    [LFarAdd]: [handleUptpStream] gives its target to the engine and starts the
    copy; [LData d]: the engine calls [onConnData]; [LHandler]: a step of that call;
    [LCopy]: a step of the copying goroutine; [LGone]: the other side or the
    engine closes the connection; [LClosed]: a step of [onConnClose];
    [LFail e]: the stream takes no more data. *)
Inductive clabel :=
  | LOpen (s : Conn + error)
  | LSession
  | LFarAdd
  | LData (d : bytes)
  | LHandler
  | LCopy
  | LGone
  | LClosed
  | LFail (e : error).

Abbreviation GetHandshake := (string -> string -> Z -> string * option bytes).

Definition onData (d : bytes) : GoM PConn unit :=
  p <- get ;;
  match opener p, datah p with
  | ODone, DIdle =>
      modify (deliver d) ;;;
      modify (set_datah match nc_session (nc (near p)) with
                        | None => DClose
                        | Some SessOther => DDrop
                        | Some SessStream => DWrite d
                        end)
  | _, _ => ret tt
  end.

Definition onData_next : GoM PConn unit :=
  p <- get ;;
  match datah p with
  | DIdle => ret tt
  | DWrite d =>
      let* (_, err) := on_near (on_stream (0, None) (stream_Write d)) in
      modify (set_datah match err with Some _ => DDrop | None => DIdle end)
  | DDrop => on_near (SetSession None) ;;; modify (set_datah DClose)
  | DClose => on_near nc_Close ;;; modify (set_datah DIdle)
  end.

Definition copy_next : GoM PConn unit :=
  p <- get ;;
  match copier p with
  | CRun (FEnd e) => on_near (SetSession None) ;;; modify (set_copier (CStream e))
  | CRun pc => modify (copy_one pc)
  | CStream e => on_near (on_stream tt Conn_Close) ;;; modify (set_copier (CConn e))
  | CConn e => on_near nc_Close ;;; modify (set_copier (CDone e))
  | _ => ret tt
  end.

Definition onClose_next : GoM PConn unit :=
  p <- get ;;
  match closeh p with
  | KOpen =>
      if nc_closed (nc (near p)) then
        modify (set_closeh match nc_session (nc (near p)) with
                           | Some SessStream => KClose
                           | _ => KDone
                           end)
      else ret tt
  | KClose => on_near (on_stream tt Conn_Close) ;;; modify (set_closeh KDone)
  | KDone => ret tt
  end.

(** [get] is the function [SetGetHandshakeFunc] left, nil before. *)
Definition cstep (gh : option GetHandshake) (l : clabel) : GoM PConn unit :=
  p <- get ;;
  match l with
  | LOpen s =>
      match opener p with
      | OBegin =>
          match gh with
          | None => panic
          | Some g =>
              ok <- on_near (open_begin g (fun _ => s)) ;;
              (if ok : bool then modify (fun p => set_base (st (near p)) p) else ret tt) ;;;
              modify (set_opener (if ok : bool then OSession else ODone))
          end
      | _ => ret tt
      end
  | LSession =>
      match opener p with
      | OSession =>
          on_near (SetSession (Some SessStream)) ;;;
          modify (set_copier (CRun FRead)) ;;;
          modify (set_opener ODone)
      | _ => ret tt
      end
  | LFarAdd =>
      match opener p with
      | OFar => modify (set_copier (CRun FRead)) ;;; modify (set_opener ODone)
      | _ => ret tt
      end
  | LData d => onData d
  | LHandler => onData_next
  | LCopy => copy_next
  | LGone => match opener p with OFar => ret tt | _ => on_near nc_Close end
  | LClosed => onClose_next
  | LFail e => on_near (on_stream tt (modify (fun c => mkConn (rx c) (tx c) (Some e) (closed c) (reset c))))
  end.

(** * The engine *)

Abbreviation HandleHandshake := (bytes -> (string * string * Z) + error).

(** The goroutine of a TCP listener: in [Accept], about to give the engine what
    it accepted (at the local address [ip], [port]), or ended.  [g_open] is
    whether its listener is. *)
Inductive gpc := GAccept | GAdd (ip : string) (port : Z) | GDone.
Record Accepter := mkAcc { g_sock : nat; g_open : bool; g_pc : gpc }.

(** A call of [AddListener], which holds the read lock from its first step to its
    last but one: about to take the lock, to look the listener up, to open one,
    to write it to the table, inside that write, about to release the lock, and
    returned.  [ok] is whether the listener was found; one that was not is the
    call's own until it is in the table. *)
Inductive apc :=
  | AWant (network ip : string) (port : Z)
  | ARead (network ip : string) (port : Z)
  | AOpen (network ip : string) (port : Z)
  | AStore (network ip : string) (ok : bool) (l : relayListener)
  | AStoring (network ip : string) (ok : bool) (l : relayListener)
  | AUnlock (network ip : string) (r : Z * option error)
  | ADone (r : Z * option error).

Definition inside (c : apc) : bool := match c with AWant _ _ _ | ADone _ => false | _ => true end.
(** The next step accesses the table; the call is inside its write to it. *)
Definition touches (c : apc) : bool := match c with ARead _ _ _ | AStore _ _ _ _ => true | _ => false end.
Definition stores (c : apc) : bool := match c with AStoring _ _ _ _ => true | _ => false end.
Definition own (c : apc) : option relayListener :=
  match c with AStore _ _ false l | AStoring _ _ false l => Some l | _ => None end.

Record World := mkW {
  pmap : Portmap;
  funcGetHandshake : option GetHandshake;
  funcHandleHandshake : option HandleHandshake;
  started : bool; serving : bool;  (* the engine runs; the stream handler is set *)
  calls : list apc;
  gos : list Accepter;
  conns : list PConn;
  crashed : bool
}.

Definition set_pmap (p : Portmap) (w : World) : World :=
  mkW p (funcGetHandshake w) (funcHandleHandshake w) (started w) (serving w) (calls w) (gos w) (conns w) (crashed w).
Definition set_calls (c : list apc) (w : World) : World :=
  mkW (pmap w) (funcGetHandshake w) (funcHandleHandshake w) (started w) (serving w) c (gos w) (conns w) (crashed w).
Definition set_gos (g : list Accepter) (w : World) : World :=
  mkW (pmap w) (funcGetHandshake w) (funcHandleHandshake w) (started w) (serving w) (calls w) g (conns w) (crashed w).
Definition set_conns (c : list PConn) (w : World) : World :=
  mkW (pmap w) (funcGetHandshake w) (funcHandleHandshake w) (started w) (serving w) (calls w) (gos w) c (crashed w).
Definition set_crashed (w : World) : World :=
  mkW (pmap w) (funcGetHandshake w) (funcHandleHandshake w) (started w) (serving w) (calls w) (gos w) (conns w) true.
Definition set_call (k : nat) (c : apc) (w : World) : World := set_calls (<[k := c]> (calls w)) w.

(** Some call holds the read lock; some call is inside its write. *)
Definition locked (w : World) : bool := existsb inside (calls w).
Definition storing (w : World) : bool := existsb stores (calls w).

Definition on_pmap {A} : GoM Portmap A -> GoM World A := zoom pmap set_pmap.

Definition NewWorld (s : sockets) : World := mkW (NewPortMap s) None None false false [] [] [] false.

Definition SetGetHandshakeFunc (f : GetHandshake) : GoM World unit :=
  modify (fun w => mkW (pmap w) (Some f) (funcHandleHandshake w) (started w) (serving w) (calls w) (gos w) (conns w) (crashed w)).
Definition SetHandleHandshakeFunc (f : HandleHandshake) : GoM World unit :=
  modify (fun w => mkW (pmap w) (funcGetHandshake w) (Some f) (started w) (serving w) (calls w) (gos w) (conns w) (crashed w)).

(** [Start]; a nil engine panics. *)
Definition Start (server : bool) : GoM World unit :=
  w <- get ;;
  if connEngine (pmap w) then
    modify (fun w => mkW (pmap w) (funcGetHandshake w) (funcHandleHandshake w) true
                         (if server then true else serving w) (calls w) (gos w) (conns w) (crashed w))
  else panic.

(** A connection as the engine first sees it; [conn_far] is the one
    [handleUptpStream] has dialled for the stream [s]. *)
Definition fresh_out : Conn := mkConn (mkSource [] EOF) [] None false false.
Definition conn_near (network ip : string) (port : Z) : PConn :=
  mkPC (mkNear (mkNConn network ip port None false) None) fresh_out false OBegin CNone DIdle KOpen None [].
Definition conn_far (udp : bool) (ip : string) (port : Z) (s : Conn) : PConn :=
  mkPC (mkNear (mkNConn (if udp then "udp" else "tcp") ip port (Some SessStream) false) (Some s)) fresh_out true OFar CNone DIdle KOpen (Some s) [].

(** What becomes of an accepting goroutine when [s] are the sockets left. *)
Definition still_open (s : sockets) (g : Accepter) : Accepter :=
  mkAcc (g_sock g) (g_open g && bool_decide (is_Some (s !! g_sock g))) (g_pc g).

Section Steps.
Context (Listen : bool -> string -> Z -> sockets -> (nat * string) + error).

(** [pm.listeners[convertIndex(network, ip, retPort)] = l] *)
Definition store_listener (network ip : string) (l : relayListener) : GoM Portmap unit :=
  modify (fun pm => mkPortmap (<[convertIndex network ip (getPort l) := l]> (listeners pm)) (socks pm) (connEngine pm)).

(** A step of call [k] of [AddListener].  The read lock keeps out [DeleteListener]
    and [Close], not the other calls of [AddListener]; an access to the table
    while another call writes to it is what Go's runtime ends the process for.
    A TCP listener has its goroutine from the moment it is open. *)
Definition add_next (k : nat) : GoM World unit :=
  w <- get ;;
  match calls w !! k with
  | Some (AWant n ip p) => modify (set_call k (ARead n ip p))
  | Some (ARead n ip p) =>
      if storing w then panic
      else modify (set_call k (match listeners (pmap w) !! convertIndex n ip p with
                               | Some l => AStore n ip true l
                               | None => AOpen n ip p
                               end))
  | Some (AOpen n ip p) =>
      r <- on_pmap (if Contains n "tcp" then addTCPListener Listen ip p else addUDPListener Listen ip p) ;;
      match r with
      | inr e => modify (set_call k (AUnlock n ip (0, Some e)))
      | inl l =>
          (if Contains n "tcp" then modify (fun w => set_gos (gos w ++ [mkAcc (l_sock l) true GAccept]) w) else ret tt) ;;;
          modify (set_call k (AStore n ip false l))
      end
  | Some (AStore n ip ok l) =>
      if storing w then panic else modify (set_call k (AStoring n ip ok l))
  | Some (AStoring n ip ok l) =>
      on_pmap (store_listener n ip l) ;;;
      modify (set_call k (AUnlock n ip (getPort l, None)))
  | Some (AUnlock n ip r) => modify (set_call k (ADone r))
  | Some (ADone _) | None => ret tt
  end.

(** [DeleteListener] and [Close] hold the write lock, so nothing else is at the
    table meanwhile; while a call of [AddListener] is inside they wait.  Closing a
    listener is seen by its goroutine. *)
Definition run_DeleteListener (network ip : string) (port : Z) : GoM World unit :=
  w <- get ;;
  if locked w then ret tt else
  on_pmap (DeleteListener network ip port) ;;;
  modify (fun w => set_gos (map (still_open (socks (pmap w))) (gos w)) w).

(** The engine stops, which closes its connections. *)
Definition run_Close : GoM World unit :=
  w <- get ;;
  if locked w then ret tt else
  on_pmap Close ;;;
  modify (fun w => set_gos (map (still_open (socks (pmap w))) (gos w)) w) ;;;
  modify (fun w => set_conns (map (fun p => (cstep (funcGetHandshake w) LGone p).2) (conns w)) w).

(** The loop of [addTCPListener], [a] being what [Accept] gives; any error ends
    it. *)
Definition accept_next (i : nat) (a : option (string * Z)) : GoM World unit :=
  w <- get ;;
  match gos w !! i with
  | None => ret tt
  | Some g =>
      match g_pc g with
      | GAccept =>
          let pc := match g_open g, a with true, Some (ip, port) => GAdd ip port | _, _ => GDone end in
          modify (set_gos (<[i := mkAcc (g_sock g) (g_open g) pc]> (gos w)))
      | GAdd ip port =>
          if connEngine (pmap w) then
            modify (set_conns (conns w ++ [conn_near "tcp" ip port])) ;;;
            modify (set_gos (<[i := mkAcc (g_sock g) (g_open g) GAccept]> (gos w)))
          else panic
      | GDone => ret tt
      end
  end.

(** The engine hands on the first datagram of a peer of a UDP listener. *)
Definition udp_open (ip : string) (port : Z) : GoM World unit :=
  w <- get ;;
  if connEngine (pmap w) then modify (set_conns (conns w ++ [conn_near "udp" ip port])) else ret tt.

(** [handleUptpStream], with the target dialled and the answer written to the
    stream [s], before [AddConn]; the function of [SetHandleHandshakeFunc] has been
    called. *)
Definition far_open (udp : bool) (ip : string) (port : Z) (s : Conn) : GoM World unit :=
  w <- get ;;
  if serving w then
    match funcHandleHandshake w with
    | None => panic
    | Some _ => modify (set_conns (conns w ++ [conn_far udp ip port s]))
    end
  else ret tt.

(** A step of connection [k]; [handleUptpStream] needs the engine for its
    [AddConn]. *)
Definition conn_next (k : nat) (l : clabel) : GoM World unit :=
  w <- get ;;
  match conns w !! k with
  | Some p =>
      let no_engine := match l, opener p with LFarAdd, OFar => negb (connEngine (pmap w)) | _, _ => false end in
      if no_engine then panic
      else
        let '(o, p') := cstep (funcGetHandshake w) l p in
        modify (set_conns (<[k := p']> (conns w))) ;;;
        match o with Ret _ => ret tt | Panic => panic end
  | None => ret tt
  end.

(** What happens next: the console calls [AddListener], a step of such a call,
    [DeleteListener], [Close], a step of an accepting goroutine, a new datagram
    peer, a stream whose target is dialled, something at a connection. *)
Inductive wlabel :=
  | WCall (network ip : string) (port : Z)
  | WAdd (k : nat)
  | WDel (network ip : string) (port : Z)
  | WClose
  | WAccept (i : nat) (a : option (string * Z))
  | WUdp (ip : string) (port : Z)
  | WFar (udp : bool) (ip : string) (port : Z) (s : Conn)
  | WConn (k : nat) (l : clabel).

Definition wop (l : wlabel) : GoM World unit :=
  match l with
  | WCall n i p => modify (fun w => set_calls (calls w ++ [AWant n i p]) w)
  | WAdd k => add_next k
  | WDel n i p => run_DeleteListener n i p
  | WClose => run_Close
  | WAccept i a => accept_next i a
  | WUdp i p => udp_open i p
  | WFar u i p s => far_open u i p s
  | WConn k l => conn_next k l
  end.

(** A panic of any goroutine is the end of the process. *)
Definition wstep (l : wlabel) (w : World) : World :=
  if crashed w then w
  else match wop l w with
       | (Ret _, w') => w'
       | (Panic, w') => set_crashed w'
       end.

Definition wrun (ls : list wlabel) (w : World) : World := fold_left (fun w l => wstep l w) ls w.

(** What a node sets up before connections come. *)
Definition boot (s : sockets) (g : GetHandshake) (h : HandleHandshake) (server : bool) : World :=
  ((SetGetHandshakeFunc g ;;; SetHandleHandshakeFunc h ;;; Start server) (NewWorld s)).2.
End Steps.

(** * Lemmas: one connection *)

Section Inv.
Context (g : GetHandshake).

(** How the copy may fail, and how far it is when it stands at [c]. *)
Definition copy_errs (c0 : Conn) (e : error) : Prop := e = end_err (rx c0) \/ e = errClosed.
Definition copied (c0 : Conn) (c : cpc) (s o : Conn) : Prop :=
  werr o = None /\
  match c with
  | CNone => flow (content (rx c0)) (copy_errs c0) FRead s o
  | CRun pc => pc <> FDone /\ flow (content (rx c0)) (copy_errs c0) pc s o
  | CStream None | CConn None | CDone None => tx o = content (rx c0)
  | CStream (Some e) | CConn (Some e) | CDone (Some e) => tx o `prefix_of` content (rx c0) /\ copy_errs c0 e
  end.

Definition at_tail (c : cpc) : Prop := match c with CConn _ | CDone _ => True | _ => False end.

(** The stream [c0] was opened for the connection's address. *)
Definition opened_for (c0 : Conn) (n : NConn) : Prop :=
  exists pid hs s0, g (nc_network n) (nc_ip n) (nc_port n) = (pid, Some hs) /\ pid <> "" /\
    tx c0 = tx s0 ++ hs /\ closed c0 = closed s0.

Record carries (c0 s : Conn) (p : PConn) : Prop := {
  ca_st : st (near p) = Some s;
  ca_begun : opener p <> OBegin;
  ca_early : opener p <> ODone -> copier p = CNone /\ datah p = DIdle /\ delivered p = [];
  ca_session : nc_session (nc (near p)) <> Some SessOther;
  ca_origin : served p = false -> opened_for c0 (nc (near p));
  ca_written : exists W rest, delivered p = W ++ rest /\ tx s = tx c0 ++ concat W /\
    match datah p with
    | DWrite d => rest = [d]
    | DIdle => nc_session (nc (near p)) = Some SessStream -> rest = []
    | _ => True
    end;
  ca_copied : copied c0 (copier p) s (out p);
  ca_started : copier p = CNone -> opener p <> ODone;
  ca_closed : closed s = true -> closed c0 = true \/ nc_closed (nc (near p)) = true \/ at_tail (copier p);
  ca_tail : at_tail (copier p) -> closed s = true;
  ca_done : (exists e, copier p = CDone e) -> nc_closed (nc (near p)) = true;
  ca_close : closeh p = KClose -> nc_closed (nc (near p)) = true;
  ca_drop : datah p = DClose -> nc_session (nc (near p)) = None
}.

(** No stream: nothing is carried. *)
Record idle (p : PConn) : Prop := {
  id_opener : opener p = OBegin \/ opener p = ODone;
  id_session : nc_session (nc (near p)) = None;
  id_copier : copier p = CNone;
  id_data : datah p = DIdle \/ datah p = DClose;
  id_close : closeh p <> KClose;
  id_out : tx (out p) = [] /\ werr (out p) = None;
  id_served : served p = false;
  id_early : opener p = OBegin -> delivered p = [] /\ datah p = DIdle
}.

Definition conn_inv (p : PConn) : Prop :=
  (nc_network (nc (near p)) = "tcp" \/ nc_network (nc (near p)) = "udp") /\
  match base p with
  | None => idle p
  | Some c0 => exists s, carries c0 s p
  end.
End Inv.

Section InvSteps.
Context (g : GetHandshake).

Ltac conn_fields := cbn [near out served opener copier datah closeh base delivered nc st nc_network nc_ip nc_port
  nc_session nc_closed set_near set_out set_opener set_copier set_datah set_closeh set_base deliver
  tx rx werr closed reset fst snd at_tail] in *.

Lemma copied_tx c0 c s s' o : rx s' = rx s -> copied c0 c s o -> copied c0 c s' o.
Proof.
  intros Hr [Hw H]. split; [done|]. destruct c as [|pc|[]|[]|[]]; try done.
  - by apply (flow_frame _ _ _ s o s' o).
  - split; [by destruct H|]. by apply (flow_frame _ _ _ s o s' o), H.
Qed.

Lemma copied_prefix c0 c s o : copied c0 c s o -> tx o `prefix_of` content (rx c0).
Proof.
  intros [_ H]. destruct c as [|pc|[e|]|[e|]|[e|]]; try (by apply H); try (by rewrite H).
  - exact (flow_prefix _ _ _ _ _ H).
  - exact (flow_prefix _ _ _ _ _ (proj2 H)).
Qed.

Lemma copied_start c0 s : rx s = rx c0 -> copied c0 CNone s fresh_out.
Proof.
  intros E. split; [done|]. cbn [flow]. split; [by rewrite E|]. rewrite E. split; [by left|]. done.
Qed.

Lemma carries_gone c0 s p : carries g c0 s p -> carries g c0 s (on_near nc_Close p).2.
Proof. intros []. constructor; cbn; auto. Qed.

Lemma carries_fail c0 s p e : carries g c0 s p ->
  exists s', carries g c0 s' (cstep (Some g) (LFail e) p).2.
Proof.
  intros Hc. pose proof Hc as []. unfold cstep, bind, get, on_near, zoom, on_stream, modify. cbn. rewrite ca_st0.
  eexists. constructor; cbn; try done.
Qed.

Lemma carries_data c0 s p d : carries g c0 s p -> carries g c0 s (onData d p).2.
Proof.
  intros Hc. pose proof Hc as []. unfold onData, bind, get, modify, ret.
  destruct (opener p) eqn:Eo; try done. destruct (datah p) eqn:Ed; try done. cbn [snd].
  destruct ca_written0 as (W & rest & Hd & Hw & Hr). constructor; conn_fields; rewrite ?Eo; try done.
  - exists W, (rest ++ [d]). rewrite Hd, app_assoc. split_and!; [done|done|].
    destruct (nc_session (nc (near p))) as [[]|]; try done. by rewrite Hr.
  - by destruct (nc_session (nc (near p))) as [[]|].
Qed.

Lemma carries_handler c0 s p : carries g c0 s p -> exists s', carries g c0 s' (onData_next p).2.
Proof.
  intros Hc. pose proof Hc as []. unfold onData_next, bind, get, modify, ret.
  destruct ca_written0 as (W & rest & Hd & Hw & Hr).
  assert (Eo : datah p <> DIdle -> opener p = ODone).
  { intros Hn. destruct (opener p) eqn:E; [done| | |done]; by destruct ca_early0 as (_ & ? & _). }
  destruct (datah p) as [|d| |] eqn:Ed; [by exists s| | |]; specialize (Eo ltac:(done)).
  - subst rest. unfold on_near, zoom, on_stream. rewrite ca_st0. unfold stream_Write, bind, get, ret, Conn_Write.
    destruct (closed s) eqn:Ecl; [|destruct (werr s) eqn:Ewe]; cbn [snd fst]; eexists; constructor; conn_fields; try done;
      try (by rewrite Eo); try (by rewrite Ecl).
    + by exists W, [d].
    + by exists W, [d].
    + exists (W ++ [d]), []. rewrite Hd, app_nil_r, concat_app. cbn. by rewrite Hw, <- app_assoc, app_nil_r.
  - exists s. constructor; conn_fields; try done; try (by rewrite Eo). by exists W, rest.
  - exists s. constructor; conn_fields; try done; try (by rewrite Eo); try (by right; left).
    exists W, rest. split_and!; [done|done|]. cbn. by rewrite ca_drop0.
Qed.

(** A step of the copy itself: only the stream's unread data and the connection's
    output change. *)
Lemma carries_copy_one c0 s p pc : carries g c0 s p -> copier p = CRun pc -> (forall e, pc <> FEnd e) ->
  exists s', carries g c0 s' (copy_one pc p).
Proof.
  intros Hc Ep Hpc. pose proof Hc as []. rewrite Ep in *. destruct ca_copied0 as [Hw [Hnd Hf]].
  assert (Hend : carries g c0 s (set_copier (CRun (FEnd (Some errClosed))) p)).
  { constructor; conn_fields; try done.
    - intros Ho. by destruct (ca_early0 Ho).
    - split; [done|]. split; [done|]. pose proof (flow_prefix _ _ _ _ _ Hf). destruct Hf as (_ & ? & ?).
      split; [|done]. split; [done|by right].
    - intros [? [=]]. }
  assert (Hcopy : exists s', carries g c0 s' (let '(pc', s', o') := copy_step pc s (out p) in
                      set_copier (CRun pc') (set_out o' (set_near (mkNear (nc (near p)) (Some s')) p)))).
  { destruct (copy_step pc s (out p)) as [[pc' s'] o'] eqn:E. exists s'.
    destruct (copy_flow _ _ _ _ _ _ _ _ Hf E) as (Hf' & Ht & Hwe & _ & Hwo & _).
    pose proof (copy_not_done _ _ _ _ _ _ Hnd E) as Hnd'.
    assert (Hcl : closed s' = closed s).
    { destruct pc as [|q er|e|]; cbn [copy_step] in E; [destruct (Read _ _) as [[q er] r]|destruct (werr _)| |]; by injection E as <- <- <-. }
    constructor; conn_fields; rewrite ?Ht, ?Hcl; try done.
    - intros Ho. by destruct (ca_early0 Ho).
    - split; [|done]. cbn. congruence.
    - intros [? [=]]. }
  unfold copy_one. rewrite ca_st0. destruct pc as [|q er|e|]; [| |by destruct (Hpc e)|done].
  - destruct (closed s); [by exists s|done].
  - destruct (nc_closed _); [by exists s|done].
Qed.

Lemma carries_copy c0 s p : carries g c0 s p -> exists s', carries g c0 s' (copy_next p).2.
Proof.
  intros Hc. pose proof Hc as []. unfold copy_next, bind, get, modify, ret.
  assert (Hod : copier p <> CNone -> opener p = ODone).
  { intros Hn. destruct (opener p) eqn:E; [done| | |done]; by destruct ca_early0 as (? & _). }
  assert (Hw : forall sess, sess = None -> exists W rest, delivered p = W ++ rest /\ tx s = tx c0 ++ concat W /\
    match datah p with DWrite d => rest = [d] | DIdle => sess = Some SessStream -> rest = [] | _ => True end).
  { intros sess ->. destruct ca_written0 as (W & rest & H1 & H2 & H3). exists W, rest. split_and!; [done|done|]. by destruct (datah p). }
  destruct (copier p) as [|pc|e|e|e] eqn:Ec; [by exists s| | | |by exists s]; specialize (Hod ltac:(done)).
  - assert (Hn : forall e, pc <> FEnd e \/ pc = FEnd e) by (intros e; destruct pc; try (by left); destruct (decide (e0 = e)) as [->|]; [by right|left; congruence]).
    destruct pc as [|q er|e|]; [by apply carries_copy_one with s|by apply carries_copy_one with s| |by destruct ca_copied0 as [_ [? _]]].
    exists s. constructor; conn_fields; rewrite ?Hod; try done.
    + cbn. by apply Hw.
    + destruct ca_copied0 as [H1 [_ [H2 H3]]]. split; [done|]. by destruct e.
    + intros [? [=]].
  - unfold on_near, zoom, on_stream. rewrite ca_st0. unfold Conn_Close, modify. eexists. constructor; conn_fields; rewrite ?Hod; try done.
    + intros _. by right; right.
    + intros [? [=]].
  - exists s. constructor; conn_fields; rewrite ?Hod; try done. intros _. by right; left.
Qed.

Lemma carries_closed c0 s p : carries g c0 s p -> exists s', carries g c0 s' (onClose_next p).2.
Proof.
  intros Hc. pose proof Hc as []. unfold onClose_next, bind, get, modify, ret.
  destruct (closeh p) eqn:Ek; [| |by exists s].
  - destruct (nc_closed (nc (near p))) eqn:En; [|by exists s]. exists s. constructor; conn_fields; try done.
    intros _. by right; left.
  - specialize (ca_close0 eq_refl). unfold on_near, zoom, on_stream. rewrite ca_st0. unfold Conn_Close, modify.
    eexists. constructor; conn_fields; try done.
    intros _. by right; left.
Qed.

Lemma carries_session c0 s p l : l = LSession \/ l = LFarAdd -> carries g c0 s p -> carries g c0 s (cstep (Some g) l p).2.
Proof.
  intros Hl Hc. pose proof Hc as []. assert (H : opener p <> ODone ->
    exists W rest, delivered p = W ++ rest /\ tx s = tx c0 ++ concat W /\ rest = []).
  { intros Ho. destruct (ca_early0 Ho) as (_ & Ed & El), ca_written0 as (W & rest & HW & Hw & _). rewrite El in HW.
    symmetry in HW. apply app_nil in HW as [-> ->]. exists [], []. by rewrite El. }
  destruct Hl as [-> | ->]; unfold cstep, on_near, zoom, SetSession, bind, get, modify, ret; (destruct (opener p) eqn:Eo; try done);
    destruct (ca_early0 ltac:(done)) as (Ec & Ed & El), (H ltac:(done)) as (W & rest & HW & Hw & Hr); rewrite Ec in *;
    (constructor; conn_fields; rewrite ?Ed; try done; [by exists W, rest|by destruct ca_copied0|by intros [? [=]]]).
Qed.

(** [onConnOpen] on a new connection. *)
Lemma idle_open p s0 : (nc_network (nc (near p)) = "tcp" \/ nc_network (nc (near p)) = "udp") -> idle p -> base p = None ->
  (cstep (Some g) (LOpen s0) p).1 = Ret tt /\ conn_inv g (cstep (Some g) (LOpen s0) p).2.
Proof.
  intros Hnet Hi Hb. pose proof Hi as [].
  destruct (cstep (Some g) (LOpen s0) p) as [o p'] eqn:E. revert E. cbn [fst snd]. unfold cstep, bind at 1, get.
  destruct (opener p) eqn:Eo; try (by intros [= <- <-]; split; [done|split; [done|by rewrite Hb]]).
  assert (Hfail : forall n, nc n = nc (near p) ->
     (Ret tt, set_opener ODone (set_near (mkNear (mkNConn (nc_network (nc n)) (nc_ip (nc n)) (nc_port (nc n))
                     (nc_session (nc n)) true) (st n)) p)) = (o, p') -> o = Ret tt /\ conn_inv g p').
  { intros n En [= <- <-]. split; [done|]. split; conn_fields; rewrite En; [done|]. rewrite Hb.
    constructor; conn_fields; try done. by right. }
  unfold on_near, zoom, bind at 1. rewrite (open_begin_fresh g (fun _ => s0) (near p) id_session0 Hnet).
  destruct (g _ _ _) as [pid [hs|]] eqn:Eg; [|by apply (Hfail (near p))].
  destruct (String.eqb_spec pid "") as [|Hpid]; [by apply (Hfail (near p))|].
  destruct (relayHandshake_ret s0 hs) as (b & e & c & Er). rewrite Er. destruct e as [e|].
  { by apply (Hfail (mkNear (nc (near p)) c)). }
  destruct (relayHandshake_ok _ _ _ _ Er) as (c1 & c2 & -> & -> & Htx & Hcl & _).
  intros [= <- <-]. split; [done|]. split; [done|]. conn_fields. exists c2.
  destruct id_early0 as [Hde Hda]; [done|].
  constructor; conn_fields; rewrite ?id_session0, ?id_copier0, ?Hda; try done.
  - intros _. exists pid, hs, c1. done.
  - exists [], []. rewrite Hde. cbn. by rewrite app_nil_r.
  - destruct id_out0 as [Ho1 Ho2]. split; [done|]. unfold flow. rewrite Ho1. split; [done|]. split; [by left|]. by rewrite Ho2.
  - intros H. by left.
  - by intros [? [=]].
Qed.

Lemma idle_step l p : (forall s, l <> LOpen s) -> idle p ->
  (cstep (Some g) l p).1 = Ret tt /\ idle (cstep (Some g) l p).2 /\ base (cstep (Some g) l p).2 = base p /\
  nc_network (nc (near (cstep (Some g) l p).2)) = nc_network (nc (near p)).
Proof.
  intros Hl Hi. pose proof Hi as []. destruct l as [s| | |d| | | | |e]; [by destruct (Hl s)|..]; unfold cstep;
    unfold onData, onData_next, copy_next, onClose_next, on_near, zoom, on_stream, SetSession, nc_Close, Conn_Close, bind, get, modify, ret;
    rewrite ?id_copier0, ?id_session0.
  - by destruct id_opener0 as [-> | ->].
  - by destruct id_opener0 as [-> | ->].
  - destruct id_opener0 as [-> | Eo]; [done|rewrite Eo]. destruct id_data0 as [Ed|Ed]; rewrite Ed; [|done].
    split_and!; [done| |done|done]. constructor; conn_fields; rewrite ?Eo; try done; auto.
  - destruct id_data0 as [-> | Ed]; [done|rewrite Ed]. split_and!; [done| |done|done].
    constructor; conn_fields; auto. intros Eo. destruct (id_early0 Eo) as [? ?]; auto.
  - done.
  - assert (Ef : opener p <> OFar) by (by destruct id_opener0 as [-> | ->]).
    destruct (opener p) eqn:Eo; try done; (split_and!; [done| |done|done]); constructor; conn_fields; rewrite ?Eo; auto.
  - destruct (closeh p) eqn:Ek; [|done|done]. destruct (nc_closed (nc (near p))); [|done].
    split_and!; [done| |done|done]. constructor; conn_fields; auto.
  - destruct (st (near p)); (split_and!; [done| |done|done]); constructor; conn_fields; auto.
Qed.

(** ** The invariant of a connection *)
Lemma cstep_inv l p : conn_inv g p -> (cstep (Some g) l p).1 = Ret tt /\ conn_inv g (cstep (Some g) l p).2.
Proof.
  intros [Hnet Hi]. destruct (base p) as [c0|] eqn:Eb.
  2:{ destruct l as [s| | |d| | | | |e]; [by apply idle_open|..];
        (edestruct idle_step as (H1 & H2 & H3 & H4); [|exact Hi|split; [exact H1|]; split; [by rewrite H4|by rewrite H3, Eb]]; done). }
  destruct Hi as [s Hc].
  assert (HG : (cstep (Some g) l p).1 = Ret tt /\ base (cstep (Some g) l p).2 = Some c0 /\
     nc_network (nc (near (cstep (Some g) l p).2)) = nc_network (nc (near p)) /\ exists s', carries g c0 s' (cstep (Some g) l p).2).
  { destruct l as [s1| | |d| | | | |e].
    - unfold cstep, bind, get. pose proof (ca_begun _ _ _ _ Hc). destruct (opener p); try done; (split_and!; [done|done|done|by exists s]).
    - split_and!; [| | |exists s; apply carries_session; auto]; unfold cstep, bind, get, modify; by destruct (opener p).
    - split_and!; [| | |exists s; apply carries_session; auto]; unfold cstep, bind, get, modify; by destruct (opener p).
    - split_and!; [| | |exists s; by apply carries_data]; unfold cstep, onData, bind, get, modify; by destruct (opener p), (datah p).
    - split_and!; [| | |by apply carries_handler with s]; unfold cstep, onData_next, bind, get, modify; (destruct (datah p); try done);
        unfold on_near, zoom, on_stream; destruct (st (near p)); try done;
        unfold stream_Write, ret, bind, get, Conn_Write; cbn; go_cases.
    - split_and!; [| | |by apply carries_copy with s]; unfold cstep, copy_next, bind, get, modify; (destruct (copier p) as [|[]| | |]; try done);
        unfold on_near, zoom, on_stream, copy_one; go_cases.
    - unfold cstep, bind, get. destruct (opener p) eqn:Eo; (split_and!; [done|done|done|exists s; try done; by apply carries_gone]).
    - split_and!; [| | |by apply carries_closed with s]; unfold cstep, onClose_next, bind, get, modify, on_near, zoom, on_stream; go_cases.
    - split_and!; [| | |by apply carries_fail with s]; unfold cstep, bind, get, modify, on_near, zoom, on_stream; by destruct (st (near p)). }
  destruct HG as (H1 & H2 & H3 & H4). split; [done|]. split; [by rewrite H3|]. by rewrite H2.
Qed.
End InvSteps.

(** * Lemmas: the engine *)

Section Engine.
Context (Listen : bool -> string -> Z -> sockets -> (nat * string) + error).
Context (g : GetHandshake) (h : HandleHandshake).

Record world_inv (w : World) : Prop := {
  wi_get : funcGetHandshake w = Some g;
  wi_handle : funcHandleHandshake w = Some h;
  wi_conns : forall k p, conns w !! k = Some p -> conn_inv g p
}.

Lemma conn_near_inv network ip port : network = "tcp" \/ network = "udp" -> conn_inv g (conn_near network ip port).
Proof. intros Hn. split; [done|]. constructor; cbn; auto. Qed.

Lemma conn_far_inv udp ip port s : conn_inv g (conn_far udp ip port s).
Proof.
  split; [cbn; destruct udp; auto|]. exists s. constructor; cbn; try done.
  - exists [], []. cbn. by rewrite app_nil_r.
  - by apply copied_start.
  - intros H. by left.
  - by intros [? [=]].
Qed.

Lemma conns_snoc w p0 : (forall k p, conns w !! k = Some p -> conn_inv g p) -> conn_inv g p0 ->
  forall k p, (conns w ++ [p0]) !! k = Some p -> conn_inv g p.
Proof.
  intros Hw H0 k p. rewrite lookup_app_Some. intros [?|[_ Hk]]; [by apply (Hw k)|].
  apply list_lookup_singleton_Some in Hk as [_ <-]. done.
Qed.

Lemma conns_insert w k0 p0 : (forall k p, conns w !! k = Some p -> conn_inv g p) -> conn_inv g p0 ->
  forall k p, <[k0 := p0]> (conns w) !! k = Some p -> conn_inv g p.
Proof. intros Hw H0 k p [(<- & <- & _)|[_ ?]]%list_lookup_insert_Some; [done|by apply (Hw k)]. Qed.

(** What the console's calls and the accepting goroutines leave alone. *)
Definition keeps (w w' : World) : Prop :=
  funcGetHandshake w' = funcGetHandshake w /\ funcHandleHandshake w' = funcHandleHandshake w /\ conns w' = conns w.

Lemma world_inv_keeps w w' : world_inv w -> keeps w w' -> world_inv w'.
Proof. intros [] (E1 & E2 & E3). constructor; by rewrite ?E1, ?E2, ?E3. Qed.

Lemma add_keeps k w : keeps w (add_next Listen k w).2.
Proof.
  unfold add_next, on_pmap, zoom, bind, get, modify, ret. destruct (calls w !! k) as [[]|]; try done; try by destruct (storing w).
  match goal with |- context [(if ?b then ?x else ?y) (pmap w)] => destruct ((if b then x else y) (pmap w)) as [[[l|e]|] pm'] end;
    try done. by destruct (Contains _ _).
Qed.

Lemma wop_inv l w : world_inv w -> world_inv (wop Listen l w).2.
Proof.
  intros Hi. pose proof Hi as []. destruct l as [n i p|k|n i p| |i a|i p|u i p s|k l]; cbn [wop];
    [by apply (world_inv_keeps w)|apply (world_inv_keeps w _ Hi), add_keeps|..];
    unfold run_DeleteListener, run_Close, accept_next, udp_open, far_open, conn_next, on_pmap, zoom, bind, get, modify, ret.
  - destruct (locked w); [done|]. destruct (DeleteListener _ _ _ _) as [[[]|] pm']; by apply (world_inv_keeps w).
  - destruct (locked w); [done|]. destruct (Close _) as [[[]|] pm']; [|by apply (world_inv_keeps w)]. constructor; cbn; [done|done|].
    intros k p. rewrite list_lookup_fmap. destruct (conns w !! k) as [q|] eqn:E; [|done]. intros [= <-].
    exact (proj2 (cstep_inv g LGone q (wi_conns0 k q E))).
  - destruct (gos w !! i) as [a0|]; [|done]. destruct (g_pc a0) as [|ip port|]; [by apply (world_inv_keeps w)| |done].
    destruct (connEngine _); [|done]. constructor; cbn; [done|done|]. apply conns_snoc; [done|]. apply conn_near_inv. by left.
  - destruct (connEngine _); [|done]. constructor; cbn; [done|done|]. apply conns_snoc; [done|]. apply conn_near_inv. by right.
  - destruct (serving w); [|done]. rewrite wi_handle0. constructor; cbn; [done|done|].
    apply conns_snoc; [done|]. apply conn_far_inv.
  - destruct (conns w !! k) as [p|] eqn:E; [|done].
    destruct (match l with LFarAdd => _ | _ => _ end); [done|]. rewrite wi_get0.
    destruct (cstep_inv g l p) as [H1 H2]; [by apply (wi_conns0 k)|].
    destruct (cstep (Some g) l p) as [o p']. cbn in H1. subst o. cbn in H2.
    constructor; cbn; [done|done|]. by apply conns_insert.
Qed.

Lemma wstep_inv l w : world_inv w -> world_inv (wstep Listen l w).
Proof.
  intros Hi. unfold wstep. destruct (crashed w); [done|]. pose proof (wop_inv l w Hi) as H.
  destruct (wop Listen l w) as [[[]|] w']; [done|]. by apply (world_inv_keeps w').
Qed.

Lemma wrun_inv ls w : world_inv w -> world_inv (wrun Listen ls w).
Proof. revert w. induction ls as [|l ls IH]; intros w Hw; [done|]. apply IH. by apply wstep_inv. Qed.

Lemma boot_inv s server : world_inv (boot s g h server).
Proof. constructor; [done|done|]. intros k p. cbn. by rewrite lookup_nil. Qed.

(** C30. What a mapped connection carries.  However accepting, the engine's
    events, the copying goroutines and the console's calls interleave: a
    connection without an accepted handshake gets no data and holds no session;
    one with it has written, behind what its stream began with, the data the
    engine delivered, in order and without gaps, all of it while it holds its
    session; for a local connection the stream began with the handshake of the
    mapping at its address.  The connection got a prefix of what the stream
    sends, all of it when the copy ended without an error.  A stream that was
    open is closed only once its connection is closed or its copy has ended, and
    when the goroutine is through both are closed. *)
Theorem traffic s server ls k p :
  conns (wrun Listen ls (boot s g h server)) !! k = Some p ->
  match base p with
  | None => tx (out p) = [] /\ nc_session (nc (near p)) = None
  | Some c0 =>
      exists c, st (near p) = Some c /\
        (served p = false -> opened_for g c0 (nc (near p))) /\
        (exists ds rest, delivered p = ds ++ rest /\ tx c = tx c0 ++ concat ds /\
           (nc_session (nc (near p)) = Some SessStream -> datah p = DIdle -> rest = [])) /\
        tx (out p) `prefix_of` content (rx c0) /\
        (closed c = true -> closed c0 = true \/ nc_closed (nc (near p)) = true \/ exists e, copier p = CConn e) /\
        (forall e, copier p = CDone e -> closed c = true /\ nc_closed (nc (near p)) = true /\
           match e with
           | None => tx (out p) = content (rx c0)
           | Some e => e = end_err (rx c0) \/ e = errClosed
           end)
  end.
Proof.
  intros Hk. destruct (wi_conns _ (wrun_inv ls _ (boot_inv s server)) k p Hk) as [_ Hi].
  destruct (base p) as [c0|]; [|by destruct Hi as [? ? ? ? ? []]]. destruct Hi as [c []]. exists c. split_and!; [done|done| | | |].
  - destruct ca_written0 as (W & rest & H1 & H2 & H3). exists W, rest. split_and!; [done|done|]. intros Hs Hd. rewrite Hd in H3. auto.
  - by apply copied_prefix in ca_copied0.
  - intros Hc. destruct (ca_closed0 Hc) as [?|[?|Ht]]; [by left|by right; left|].
    destruct (copier p) as [| | |e|e] eqn:E; try done; right; [right; by exists e|left]. apply ca_done0. by exists e.
  - intros e He. rewrite He in *. split; [by apply ca_tail0|]. split; [apply ca_done0; by exists e|].
    destruct ca_copied0 as [_ H]. destruct e as [e|]; [apply H|done].
Qed.
End Engine.

(** * Connections do not see each other *)

Definition crun (gh : option GetHandshake) (ls : list clabel) (p : PConn) : PConn :=
  fold_left (fun p l => (cstep gh l p).2) ls p.

Section Isolation.
Context (Listen : bool -> string -> Z -> sockets -> (nat * string) + error).

(** What the steps of the engine are to connection [k]; a [Close] that waits for
    the lock is none. *)
Definition at_conn (k : nat) (l : wlabel) (w : World) : list clabel :=
  match l with
  | WConn j c => if decide (j = k) then [c] else []
  | WClose => if locked w then [] else [LGone]
  | _ => []
  end.
Fixpoint proj (k : nat) (ls : list wlabel) (w : World) : list clabel :=
  match ls with [] => [] | l :: ls => at_conn k l w ++ proj k ls (wstep Listen l w) end.

Lemma wstep_conn l w k p : crashed (wstep Listen l w) = false -> conns w !! k = Some p ->
  funcGetHandshake (wstep Listen l w) = funcGetHandshake w /\
  conns (wstep Listen l w) !! k = Some (crun (funcGetHandshake w) (at_conn k l w) p).
Proof.
  unfold wstep. destruct (crashed w) eqn:Ec; [congruence|]. intros Hcr Hk.
  assert (Hsnoc : forall q, (conns w ++ [q]) !! k = Some p) by (intros q; by apply lookup_app_l_Some).
  destruct l as [n i q|j|n i q| |i a|i q|u i q s|j l]; cbn [at_conn];
    [done|destruct (add_keeps Listen j w) as (Eg & _ & Ec'); revert Hcr; cbn [wop]; destruct (add_next Listen j w) as [[[]|] w']; [|done];
          intros _; cbn in *; by rewrite Eg, Ec'|..];
    revert Hcr; cbn [wop];
    unfold run_DeleteListener, run_Close, accept_next, udp_open, far_open, conn_next, on_pmap, zoom, bind, get, modify, ret.
  - destruct (locked w); [done|]. by destruct (DeleteListener _ _ _ _) as [[[]|] pm'].
  - destruct (locked w); [done|]. destruct (Close _) as [[[]|] pm']; [|done]. intros _. split; [done|].
    cbn [conns set_conns set_gos set_pmap]. by rewrite list_lookup_fmap, Hk.
  - destruct (gos w !! i) as [a0|]; [|done]. destruct (g_pc a0) as [|ip port|]; [done| |done].
    destruct (connEngine _); [|done]. intros _. split; [done|]. cbn. apply Hsnoc.
  - destruct (connEngine _); [|done]. intros _. split; [done|]. cbn. apply Hsnoc.
  - destruct (serving w); [|done]. destruct (funcHandleHandshake w); [|done]. intros _. split; [done|]. cbn. apply Hsnoc.
  - destruct (conns w !! j) as [pj|] eqn:Ej; [|by destruct (decide (j = k)) as [->|]; [congruence|]].
    destruct (match l with LFarAdd => _ | _ => _ end); [done|].
    destruct (cstep (funcGetHandshake w) l pj) as [[[]|] p'] eqn:Es; [|done]. intros _. split; [done|].
    cbn [conns set_conns]. destruct (decide (j = k)) as [->|Hj].
    + rewrite list_lookup_insert_eq by (by eapply lookup_lt_Some). assert (pj = p) as -> by congruence.
      change (Some p' = Some (cstep (funcGetHandshake w) l p).2). by rewrite Es.
    + by rewrite list_lookup_insert_ne.
Qed.

Lemma wrun_crashed ls w : crashed w = true -> wrun Listen ls w = w.
Proof. intros Hc. induction ls as [|l ls IH]; [done|]. cbn. unfold wstep at 2. by rewrite Hc. Qed.

(** What becomes of a connection depends on its own events, and on [Close], and on
    nothing that happens to the others or to the table. *)
Theorem isolation ls w k p : crashed (wrun Listen ls w) = false -> conns w !! k = Some p ->
  conns (wrun Listen ls w) !! k = Some (crun (funcGetHandshake w) (proj k ls w) p).
Proof.
  revert w p. induction ls as [|l ls IH]; intros w p Hc Hk; [done|]. cbn [wrun fold_left] in *. fold (wrun Listen ls (wstep Listen l w)) in *.
  destruct (crashed (wstep Listen l w)) eqn:E; [by rewrite wrun_crashed, E in Hc|].
  destruct (wstep_conn l w k p E Hk) as [Eg Hk']. rewrite (IH _ _ Hc Hk'), Eg. f_equal. unfold crun. rewrite <- fold_left_app.
  done.
Qed.
End Isolation.

(** * The two ends of a mapping

    What one end's copy reads is what the other end wrote on the stream, as far as
    the network has brought it; at the far end [handleUptpStream] has taken the
    handshake from it, at the near end [relayHandshake] the answer. *)
Definition brought (c0 c : Conn) (received : bytes) : Prop :=
  exists data, tx c = tx c0 ++ data /\ received `prefix_of` data.

(** What was written behind [c0] is a prefix of what the engine delivered. *)
Lemma carries_written g c0 c p data : carries g c0 c p -> tx c = tx c0 ++ data -> data `prefix_of` concat (delivered p).
Proof.
  intros [] Hd. destruct ca_written0 as (W & rest & -> & Hw & _). rewrite Hw in Hd. apply app_inv_head in Hd as <-.
  exists (concat rest). by rewrite concat_app.
Qed.

(** C32. A mapping is a pipe.  Between a local connection on one node and the
    target another node dialled for its stream, with all that both nodes do at
    the same time: the target was sent a prefix of the bytes the local connection
    delivered, and the local connection a prefix of the bytes the target
    delivered, in order, nothing added and nothing left out; where a copy ended
    without an error it has passed on all that the network brought. *)
Theorem mapping_is_a_pipe L1 L2 g1 g2 h1 h2 s1 s2 server1 server2 ls1 ls2 k1 k2 p1 p2 c1 c2 d1 d2 :
  conns (wrun L1 ls1 (boot s1 g1 h1 server1)) !! k1 = Some p1 -> base p1 = Some c1 -> st (near p1) = Some d1 ->
  conns (wrun L2 ls2 (boot s2 g2 h2 server2)) !! k2 = Some p2 -> base p2 = Some c2 -> st (near p2) = Some d2 ->
  brought c1 d1 (content (rx c2)) -> brought c2 d2 (content (rx c1)) ->
  tx (out p2) `prefix_of` concat (delivered p1) /\ tx (out p1) `prefix_of` concat (delivered p2) /\
  (copier p2 = CDone None -> tx (out p2) = content (rx c2)) /\ (copier p1 = CDone None -> tx (out p1) = content (rx c1)).
Proof.
  intros H1 B1 S1 H2 B2 S2 (w1 & E1 & P1) (w2 & E2 & P2).
  destruct (wi_conns _ _ _ (wrun_inv L1 g1 h1 ls1 _ (boot_inv g1 h1 s1 server1)) _ _ H1) as [_ I1]. rewrite B1 in I1. destruct I1 as [c I1].
  destruct (wi_conns _ _ _ (wrun_inv L2 g2 h2 ls2 _ (boot_inv g2 h2 s2 server2)) _ _ H2) as [_ I2]. rewrite B2 in I2. destruct I2 as [c' I2].
  pose proof (ca_st _ _ _ _ I1) as X1. rewrite S1 in X1. injection X1 as <-.
  pose proof (ca_st _ _ _ _ I2) as X2. rewrite S2 in X2. injection X2 as <-.
  pose proof (ca_copied _ _ _ _ I1) as K1. pose proof (ca_copied _ _ _ _ I2) as K2.
  split_and!.
  - etrans; [exact (copied_prefix _ _ _ _ K2)|]. etrans; [exact P1|]. exact (carries_written _ _ _ _ _ I1 E1).
  - etrans; [exact (copied_prefix _ _ _ _ K1)|]. etrans; [exact P2|]. exact (carries_written _ _ _ _ _ I2 E2).
  - intros E. rewrite E in K2. by destruct K2.
  - intros E. rewrite E in K1. by destruct K1.
Qed.

(** * The copy ends *)

(** What the copying goroutine still has to do at most: twice the bytes and chunks
    of its stream, and five steps. *)
Definition copy_left (p : PConn) : nat :=
  match st (near p), copier p with
  | Some s, CRun pc => todo pc s + 2
  | _, CStream _ => 2
  | _, CConn _ => 1
  | _, _ => 0
  end.

Fixpoint copies (ls : list clabel) : nat :=
  match ls with
  | [] => 0
  | LCopy :: ls => S (copies ls)
  | _ :: ls => copies ls
  end.

Section Termination.
Context (g : GetHandshake).

(** Steps of others leave the copy, and what its stream still has, alone. *)
Lemma others_left l p : l <> LCopy -> opener p = ODone ->
  let p' := (cstep (Some g) l p).2 in
  opener p' = ODone /\ base p' = base p /\ copier p' = copier p /\ (rx <$> st (near p')) = (rx <$> st (near p)).
Proof.
  intros Hl Ho. cbn zeta. destruct l as [s| | |d| | | | |e]; [| | | | |done| | |]; unfold cstep, onData, onData_next, onClose_next,
    on_near, zoom, on_stream, SetSession, nc_Close, Conn_Close, bind, get, modify, ret; rewrite ?Ho; try done.
  - by destruct (datah p).
  - destruct (datah p); try done. destruct (st (near p)) as [s|] eqn:Es; cbn; [|by rewrite Es].
    unfold stream_Write, bind, get, ret, Conn_Write. destruct (closed s); [|destruct (werr s)]; done.
  - destruct (closeh p); try done; [by destruct (nc_closed (nc (near p)))|].
    destruct (st (near p)) eqn:Es; cbn; by rewrite ?Es.
  - destruct (st (near p)) eqn:Es; cbn; by rewrite ?Es.
Qed.

Lemma copy_step_left p c0 s : carries g c0 s p -> opener p = ODone ->
  let p' := (cstep (Some g) LCopy p).2 in
  opener p' = ODone /\ base p' = base p /\ (copy_left p' <= copy_left p - 1)%nat.
Proof.
  intros Hc Ho. pose proof Hc as []. unfold copy_left at 2. rewrite ca_st0. unfold cstep, copy_next, bind, get, modify.
  destruct (copier p) as [|pc|e|e|e] eqn:Ec; cbn zeta.
  - by destruct (ca_started0 eq_refl).
  - assert (Hone : (forall e, pc <> FEnd e) -> pc <> FDone -> opener (copy_one pc p) = ODone /\ base (copy_one pc p) = base p /\
       (copy_left (copy_one pc p) <= todo pc s + 2 - 1)%nat).
    { intros He Hd. unfold copy_one. rewrite ca_st0. destruct (copy_step pc s (out p)) as [[pc' s'] o'] eqn:E.
      destruct (copy_todo _ _ _ _ _ _ E) as [Ht _].
      assert (H1 : copy_left (set_copier (CRun (FEnd (Some errClosed))) p) = 3%nat) by (unfold copy_left; cbn; by rewrite ca_st0).
      assert (H2 : copy_left (set_copier (CRun pc') (set_out o' (set_near (mkNear (nc (near p)) (Some s')) p))) = (todo pc' s' + 2)%nat) by done.
      destruct pc as [|q er|e'|]; [| |by destruct (He e')|done].
      - destruct (closed s); (split_and!; [done|done|]); rewrite ?H1, ?H2; cbn [todo] in *; lia.
      - destruct (nc_closed (nc (near p))); (split_and!; [done|done|]); rewrite ?H1, ?H2; cbn [todo] in *; lia. }
    destruct pc as [|q er|e|]; [by apply Hone|by apply Hone| |].
    + cbn. unfold copy_left. cbn. rewrite ca_st0. cbn. split_and!; [done|done|lia].
    + by destruct ca_copied0 as [_ [? _]].
  - unfold on_near, zoom, on_stream. rewrite ca_st0. cbn. split_and!; [done|done|]. unfold copy_left. cbn. lia.
  - cbn. unfold copy_left. cbn. rewrite ca_st0. split_and!; [done|done|]. lia.
  - cbn. unfold copy_left. rewrite ca_st0, Ec. split_and!; [done|done|]. lia.
Qed.

Lemma crun_left ls p c0 : conn_inv g p -> base p = Some c0 -> opener p = ODone ->
  let p' := crun (Some g) ls p in
  conn_inv g p' /\ base p' = Some c0 /\ opener p' = ODone /\ (copy_left p' <= copy_left p - copies ls)%nat.
Proof.
  revert p. induction ls as [|l ls IH]; intros p Hi Hb Ho; [cbn; split_and!; [done..|lia]|].
  pose proof (proj2 (cstep_inv g l p Hi)) as Hi'. cbn [crun fold_left]. fold (crun (Some g) ls).
  assert (Hd : l = LCopy \/ l <> LCopy) by (destruct l; auto). destruct Hd as [->|Hl].
  - destruct Hi as [_ Hc]. rewrite Hb in Hc. destruct Hc as [s Hc].
    destruct (copy_step_left p c0 s Hc Ho) as (H1 & H2 & H3). rewrite Hb in H2.
    destruct (IH _ Hi' H2 H1) as (A & B & C & D). split_and!; [done..|]. unfold crun in D. cbn [copies]. lia.
  - destruct (others_left l p Hl Ho) as (H1 & H2 & H3 & H4). rewrite Hb in H2.
    destruct (IH _ Hi' H2 H1) as (A & B & C & D). split_and!; [done..|]. unfold crun in D.
    assert (E : copy_left (cstep (Some g) l p).2 = copy_left p).
    { unfold copy_left. rewrite H3. destruct (st (near p)) as [s|], (st (near (cstep (Some g) l p).2)) as [s'|]; try done.
      destruct (copier p) as [|pc| | |]; try done. injection H4 as H4. destruct pc; cbn [todo]; by rewrite ?H4. }
    assert (E2 : copies (l :: ls) = copies ls) by (by destruct l). lia.
Qed.
End Termination.

(** A forwarded connection comes to its end.  From any reachable state,
    once its copying goroutine had twice as many steps as its stream has bytes
    and chunks, and five more, it is through, whatever else happened to it and to
    the others, and has closed both the stream and the connection. *)
Theorem copy_ends Listen g h s server ls0 ls k p c0 :
  let w := wrun Listen ls0 (boot s g h server) in
  conns w !! k = Some p -> base p = Some c0 -> opener p = ODone ->
  crashed (wrun Listen ls w) = false -> (copy_left p <= copies (proj Listen k ls w))%nat ->
  exists p' c e, conns (wrun Listen ls w) !! k = Some p' /\ copier p' = CDone e /\ base p' = Some c0 /\
    st (near p') = Some c /\ closed c = true /\ nc_closed (nc (near p')) = true /\
    match e with None => tx (out p') = content (rx c0) | Some e => e = end_err (rx c0) \/ e = errClosed end.
Proof.
  intros w Hk Hb Ho Hcr Hn. destruct (wrun_inv Listen g h ls0 _ (boot_inv g h s server)) as [Hg _ Hc]. fold w in Hg, Hc.
  pose proof (isolation Listen ls w k p Hcr Hk) as Hk'. rewrite Hg in Hk'.
  destruct (crun_left g (proj Listen k ls w) p c0 (Hc _ _ Hk) Hb Ho) as ([_ Hi] & Hb' & Ho' & Hl). rewrite Hb' in Hi.
  destruct Hi as [c []]. set (p' := crun _ _ _) in *.
  assert (He : exists e, copier p' = CDone e).
  { unfold copy_left in Hl at 1. rewrite ca_st0 in Hl. destruct (copier p') as [|pc|e|e|e]; [by destruct (ca_started0 eq_refl)|lia|lia|lia|by exists e]. }
  destruct He as [e He]. exists p', c, e. rewrite He in *. split_and!; [done|done|done|done|by apply ca_tail0|apply ca_done0; by exists e|].
  destruct ca_copied0 as [_ H]. destruct e; [apply H|done].
Qed.

(** * The handlers as a whole *)

Lemma handler_steps gh p n d : near p = n -> datah p = d ->
  near (crun gh [LHandler; LHandler; LHandler] p) =
    match d with
    | DIdle => n
    | DWrite x => match on_stream (0, None) (stream_Write x) n with
                  | (Ret (_, None), n') => n'
                  | (Ret (_, Some _), n') => (nc_Close (SetSession None n').2).2
                  | (Panic, n') => near (crun gh [LHandler; LHandler; LHandler] p)
                  end
    | DDrop => (nc_Close (SetSession None n).2).2
    | DClose => (nc_Close n).2
    end.
Proof.
  intros <- <-. unfold crun. cbn [fold_left].
  assert (Hidle : forall q, datah q = DIdle -> (cstep gh LHandler q).2 = q)
    by (intros q E; unfold cstep, onData_next, bind, get; by rewrite E).
  destruct (datah p) as [|x| |] eqn:Ed.
  - by rewrite (Hidle p Ed), (Hidle p Ed), (Hidle p Ed).
  - assert (E1 : forall z e n', on_stream (0, None) (stream_Write x) (near p) = (Ret (z, e), n') ->
       (cstep gh LHandler p).2 = set_datah (match e with Some _ => DDrop | None => DIdle end) (set_near n' p)).
    { intros z e n' E. unfold cstep, onData_next, bind, get. rewrite Ed. unfold on_near, zoom. by rewrite E. }
    destruct (on_stream (0, None) (stream_Write x) (near p)) as [[[z [e|]]|] n'] eqn:E; [| |done];
      rewrite (E1 _ _ _ eq_refl); [done|]. by rewrite (Hidle (set_datah DIdle (set_near n' p)) eq_refl), (Hidle (set_datah DIdle (set_near n' p)) eq_refl).
  - assert (E1 : (cstep gh LHandler p).2 = set_datah DClose (set_near (SetSession None (near p)).2 p))
      by (unfold cstep, onData_next, bind, get; by rewrite Ed). by rewrite E1.
  - assert (E1 : (cstep gh LHandler p).2 = set_datah DIdle (set_near (nc_Close (near p)).2 p))
      by (unfold cstep, onData_next, bind, get; by rewrite Ed). by rewrite E1.
Qed.

(** The steps of a handler, or of the end of a copy, that nothing overtakes are
    the functions of Portmap. *)
Theorem handlers_alone g p :
  (forall s, opener p = OBegin -> nc_session (nc (near p)) = None ->
     nc_network (nc (near p)) = "tcp" \/ nc_network (nc (near p)) = "udp" ->
     near (crun (Some g) [LOpen s; LSession] p) = (onConnOpen g (fun _ => s) (near p)).2) /\
  (forall d, opener p = ODone -> datah p = DIdle -> (forall c, st (near p) = Some c -> closed c = false) ->
     near (crun (Some g) [LData d; LHandler; LHandler; LHandler] p) = (onConnData d (near p)).2) /\
  (closeh p = KOpen -> nc_closed (nc (near p)) = true ->
     near (crun (Some g) [LClosed; LClosed] p) = (onConnClose (near p)).2) /\
  (forall e, copier p = CRun (FEnd e) -> near (crun (Some g) [LCopy; LCopy; LCopy] p) = (copy_end (near p)).2).
Proof.
  split_and!.
  - intros s Ho Hs Hn. unfold onConnOpen, bind at 1, crun. cbn [fold_left]. unfold cstep at 2, bind at 1, get at 1. rewrite Ho.
    unfold on_near, zoom, bind at 1. rewrite (open_begin_fresh g (fun _ => s) (near p) Hs Hn).
    destruct (g _ _ _) as [pid [hs|]]; [|done]. destruct (String.eqb pid ""); [done|].
    destruct (relayHandshake_ret s hs) as (b & [e|] & c & E); rewrite E; done.
  - intros d Ho Hd Hc. set (x := match nc_session (nc (near p)) with None => DClose | Some SessOther => DDrop | Some SessStream => DWrite d end).
    assert (E1 : (cstep (Some g) (LData d) p).2 = set_datah x (deliver d p))
      by (unfold cstep, onData, bind, get, modify; by rewrite Ho, Hd).
    change (near (crun (Some g) [LHandler; LHandler; LHandler] (cstep (Some g) (LData d) p).2) = (onConnData d (near p)).2).
    rewrite E1, (handler_steps (Some g) _ (near p) x) by done. unfold onConnData, bind, get, x.
    destruct (nc_session (nc (near p))) as [[]|]; [|done|done].
    unfold on_stream. destruct (st (near p)) as [c|] eqn:Ec; [|done].
    unfold stream_Write, bind, get, ret, Conn_Write. rewrite (Hc c eq_refl). destruct (werr c); cbn; by rewrite ?(Hc c eq_refl).
  - intros Hk Hc. unfold crun. cbn [fold_left].
    assert (E1 : (cstep (Some g) LClosed p).2 = set_closeh (match nc_session (nc (near p)) with Some SessStream => KClose | _ => KDone end) p)
      by (unfold cstep, onClose_next, bind, get, modify; by rewrite Hk, Hc).
    rewrite E1. unfold onConnClose, bind, get. destruct (nc_session (nc (near p))) as [[]|]; [|done|done].
    unfold cstep, onClose_next, bind, get, modify, on_near, zoom, on_stream. cbn. by destruct (st (near p)).
  - intros e Hc. unfold crun. cbn [fold_left].
    assert (E1 : (cstep (Some g) LCopy p).2 = set_copier (CStream e) (set_near (SetSession None (near p)).2 p))
      by (unfold cstep, copy_next, bind, get, modify; by rewrite Hc).
    rewrite E1. unfold copy_end, bind, SetSession, modify, cstep, copy_next, get, on_near, zoom, on_stream. cbn.
    by destruct (st (near p)).
Qed.

(** * Concrete runs *)

Definition ex_hh (hs : bytes) : (string * string * Z) + error := inl ("tcp", "10.0.0.1", 22).
Definition ex_boot : World := boot ∅ ex_get_hs ex_hh true.
Definition ex_stream (chunks : list bytes) : Conn :=
  ex_pm_conn (bytes_of_string (Marshal (mkHsr 0 "ok")) :: chunks).

(** All steps of one addition. *)
Definition ex_add (k : nat) : list wlabel := WCall "tcp" "127.0.0.1" 80 :: replicate 6 (WAdd k).

(** A mapping is opened and a connection accepted; the engine gives its data to
    the stream, and the stream's to it; then the stream ends. *)
Definition ex_open : list wlabel :=
  ex_add 0 ++ [WAccept 0 (Some ("127.0.0.1", 80)); WAccept 0 None;
   WConn 0 (LOpen (inl (ex_stream [[50]; [48; 48]]))); WConn 0 LSession].
Definition ex_talk : list wlabel :=
  [WConn 0 (LData [71; 69]); WConn 0 LCopy; WConn 0 LHandler; WConn 0 LCopy; WConn 0 (LData [84]); WConn 0 LHandler].

Lemma traffic_witness : exists p c, conns (wrun ex_listen (ex_open ++ ex_talk) ex_boot) !! 0%nat = Some p /\
  st (near p) = Some c /\ tx c = [5; 71; 69; 84] /\ tx (out p) = [50] /\
  tx (out p) `prefix_of` [50; 48; 48].
Proof.
  set (w := wrun ex_listen (ex_open ++ ex_talk) ex_boot).
  destruct (conns w !! 0%nat) as [p|] eqn:E; [|vm_compute in E; discriminate E].
  pose proof (traffic ex_listen ex_get_hs ex_hh ∅ true (ex_open ++ ex_talk) 0 p E) as H.
  vm_compute in E. injection E as <-. cbn [base] in H. destruct H as (c & Hs & _ & _ & Hp & _).
  eexists _, c. split; [vm_compute; reflexivity|]. split; [exact Hs|]. cbn [near st] in Hs. injection Hs as <-.
  split; [reflexivity|]. split; [reflexivity|]. exact Hp.
Defined.

Lemma copy_ends_witness : exists p c e,
  conns (wrun ex_listen (replicate 15 (WConn 0 LCopy)) (wrun ex_listen ex_open ex_boot)) !! 0%nat = Some p /\
  copier p = CDone e /\ st (near p) = Some c /\ closed c = true.
Proof.
  set (w := wrun ex_listen ex_open ex_boot).
  destruct (conns w !! 0%nat) as [p|] eqn:E; [|vm_compute in E; discriminate E].
  assert (E' := E). vm_compute in E'. injection E' as Ep.
  destruct (copy_ends ex_listen ex_get_hs ex_hh ∅ true ex_open (replicate 15 (WConn 0 LCopy)) 0 p (mkConn (mkSource [[50]; [48; 48]] EOF) [5] None false false))
    as (p' & c & e & H1 & H2 & _ & H3 & H4 & _).
  - exact E.
  - by rewrite <- Ep.
  - by rewrite <- Ep.
  - vm_compute. reflexivity.
  - rewrite <- Ep. vm_compute. lia.
  - exists p', c, e. split; [exact H1|]. split; [exact H2|]. split; [exact H3|exact H4].
Defined.

(** The target of that connection on the other node answers before it has all. *)
Definition ex_far_stream : Conn := mkConn (mkSource [[71]; [69; 84]] EOF) (bytes_of_string (Marshal (mkHsr 0 "ok"))) None false false.
Definition ex_serve : list wlabel :=
  [WFar false "10.0.0.1" 22 ex_far_stream; WConn 0 LFarAdd; WConn 0 LCopy; WConn 0 (LData [50]); WConn 0 LCopy; WConn 0 LHandler;
   WConn 0 (LData [48; 48]); WConn 0 LHandler].

Lemma mapping_is_a_pipe_witness : exists p1 p2,
  conns (wrun ex_listen (ex_open ++ ex_talk) ex_boot) !! 0%nat = Some p1 /\
  conns (wrun ex_listen ex_serve ex_boot) !! 0%nat = Some p2 /\
  tx (out p2) = [71] /\ concat (delivered p1) = [71; 69; 84] /\ tx (out p2) `prefix_of` concat (delivered p1).
Proof.
  destruct (conns (wrun ex_listen (ex_open ++ ex_talk) ex_boot) !! 0%nat) as [p1|] eqn:E1; [|vm_compute in E1; discriminate E1].
  destruct (conns (wrun ex_listen ex_serve ex_boot) !! 0%nat) as [p2|] eqn:E2; [|vm_compute in E2; discriminate E2].
  assert (F1 := E1). vm_compute in F1. injection F1 as F1. assert (F2 := E2). vm_compute in F2. injection F2 as F2.
  destruct (mapping_is_a_pipe ex_listen ex_listen ex_get_hs ex_get_hs ex_hh ex_hh ∅ ∅ true true (ex_open ++ ex_talk) ex_serve 0 0 p1 p2
    (mkConn (mkSource [[50]; [48; 48]] EOF) [5] None false false) ex_far_stream
    (mkConn (mkSource [[48; 48]] EOF) [5; 71; 69; 84] None false false)
    (mkConn (mkSource [[69; 84]] EOF) (tx ex_far_stream ++ [50; 48; 48]) None false false)) as (H & _).
  - exact E1.
  - by rewrite <- F1.
  - by rewrite <- F1.
  - exact E2.
  - by rewrite <- F2.
  - rewrite <- F2. reflexivity.
  - exists [71; 69; 84]. split; reflexivity.
  - exists [50; 48; 48]. split; reflexivity.
  - exists p1, p2. split; [reflexivity|]. split; [reflexivity|]. split; [by rewrite <- F2|]. split; [by rewrite <- F1|exact H].
Defined.

(** [Close] while a goroutine holds an accepted connection: the process ends.  (So
    it does when the far end of a stream is about to give its target to the
    engine.) *)
Example close_races_with_accept :
  crashed (wrun ex_listen (ex_add 0 ++ [WAccept 0 (Some ("127.0.0.1", 80)); WClose; WAccept 0 None]) ex_boot) = true /\
  crashed (wrun ex_listen [WFar false "10.0.0.1" 22 (ex_stream []); WClose; WConn 0 LFarAdd] ex_boot) = true.
Proof. vm_compute. done. Qed.

(** Deleting a mapping leaves its connections, which go on. *)
Example deleted_mapping_goes_on :
  let w := wrun ex_listen (ex_open ++ [WDel "tcp" "127.0.0.1" 80] ++ ex_talk) ex_boot in
  listeners (pmap w) = ∅ /\
  exists p c, conns w !! 0%nat = Some p /\ st (near p) = Some c /\ tx c = [5; 71; 69; 84] /\ nc_closed (nc (near p)) = false.
Proof. vm_compute. split; [done|]. by eexists _, _. Qed.

(** Without [SetGetHandshakeFunc] the first connection ends the process. *)
Example no_function_set :
  crashed (wrun ex_listen (ex_add 0 ++ [WAccept 0 (Some ("127.0.0.1", 80)); WAccept 0 None; WConn 0 (LOpen (inl (ex_stream [])))])
             (NewWorld ∅)) = true.
Proof. vm_compute. done. Qed.
