(* ===== verification/PortmapTable.v ===== *)
(** src/portmap/portmap.go: the table of listeners under the goroutines of
    PortmapRun.  [AddListener] holds the read lock only, so its calls overlap:
    each has taken its listener from the table, or opened one of its own, before
    it writes to the table.  The theorems: sockets, table and accepting goroutines
    correspond at every moment, but for the listeners that calls are about to
    enter; the process ends only when a call accesses the table while another is
    inside its write to it; and a call that nothing overtakes is Portmap's
    [AddListener]. *)
From S2P Require Import Prelude GoText GoIo GoNet Json Codec Portmap Tunnel PortmapRun.

(** * What the calls hold *)

(** The socket a call has opened and not yet entered, as the system sees it. *)
Definition opened (c : apc) : option (nat * (bool * string * string)) :=
  match c with
  | AStore _ ip false l | AStoring _ ip false l => Some (l_sock l, (l_tcp l, ip, l_addr l))
  | _ => None
  end.

(** Some call has it. *)
Definition some_call {X} (f : apc -> option X) (cs : list apc) (x : X) : Prop := exists k c, cs !! k = Some c /\ f c = Some x.

(** One call is inside its write to the table, another about to access it. *)
Definition collide (cs : list apc) : Prop :=
  exists i j a b, i <> j /\ cs !! i = Some a /\ cs !! j = Some b /\ stores a = true /\ touches b = true.

(** The listeners of the table, and those on their way to it. *)
Definition owned (pm : Portmap) (cs : list apc) (l : relayListener) : Prop :=
  (exists key, listeners pm !! key = Some l) \/ some_call own cs l.

(** Table and sockets correspond, but for the sockets on their way and those that
    were there before. *)
Definition table_true (base0 : sockets) (pm : Portmap) (cs : list apc) : Prop :=
  exists base, pm_inv base pm /\ forall hd v, base !! hd = Some v <-> base0 !! hd = Some v \/ some_call opened cs (hd, v).

Lemma own_opened c l : own c = Some l -> exists ip, opened c = Some (l_sock l, (l_tcp l, ip, l_addr l)).
Proof. destruct c as [| | |n ip [] l'|n ip [] l'| |]; try done; intros [= <-]; by exists ip. Qed.

(** ** A call moves on *)

Lemma call_moved {X} (f : apc -> option X) cs k c c' x : cs !! k = Some c ->
  f c = Some x \/ some_call f (<[k := c']> cs) x <-> f c' = Some x \/ some_call f cs x.
Proof.
  intros Hk. assert (Hat : <[k := c']> cs !! k = Some c') by (apply list_lookup_insert_eq; by eapply lookup_lt_Some).
  split; (intros [Hf|(j & d & Hj & Hd)]; [right; by eexists k, _|]); (destruct (decide (j = k)) as [->|Hne]; [left; congruence|right]);
    exists j, d; (split; [|done]); [by rewrite list_lookup_insert_ne in Hj|by rewrite list_lookup_insert_ne].
Qed.

Lemma call_new {X} (f : apc -> option X) cs c x : f c = None -> some_call f (cs ++ [c]) x <-> some_call f cs x.
Proof.
  intros Hf. split; intros (j & d & Hj & Hd).
  - apply lookup_app_Some in Hj as [Hj|[_ Hj]]; [by exists j, d|]. apply list_lookup_singleton_Some in Hj as [_ <-]. congruence.
  - exists j, d. split; [by apply lookup_app_l_Some|done].
Qed.

Lemma call_same {X} (f : apc -> option X) cs k c c' x : cs !! k = Some c -> f c' = f c ->
  some_call f (<[k := c']> cs) x <-> some_call f cs x.
Proof.
  intros Hk E. pose proof (call_moved f cs k c c' x Hk) as H. rewrite E in H. split.
  - intros Hs. destruct (proj1 H (or_intror Hs)) as [Hf|]; [by exists k, c|done].
  - intros Hs. destruct (proj2 H (or_intror Hs)) as [Hf|]; [|done]. exists k, c'. split; [|congruence].
    apply list_lookup_insert_eq. by eapply lookup_lt_Some.
Qed.

(** No call is inside: nothing is on its way. *)
Lemma unlocked_none {X} (f : apc -> option X) w x : locked w = false -> (forall c, inside c = false -> f c = None) -> ~ some_call f (calls w) x.
Proof.
  intros Hl Hf (k & c & Hc & Hx). destruct (inside c) eqn:E; [|rewrite Hf in Hx by done; done].
  revert Hl. apply not_false_iff_true. unfold locked. apply existsb_exists. exists c. split; [|done].
  apply list_elem_of_In. by eapply list_elem_of_lookup_2.
Qed.

(** ** Sockets *)

(** A socket that is opened is nobody's yet. *)
Lemma pm_inv_open base hd v pm : pm_inv base pm -> socks pm !! hd = None ->
  pm_inv (<[hd := v]> base) (mkPortmap (listeners pm) (<[hd := v]> (socks pm)) (connEngine pm)).
Proof.
  intros (Ht & Hinj & Hs & Hb) Hfresh. split_and!; cbn [listeners socks]; [|done| |].
  - intros key l Hl. destruct (Ht _ _ Hl) as [(n & ip & Hn & Ek & Htcp & Hsock & Hg) Hbase].
    assert (Hne : hd <> l_sock l) by (intros ->; congruence). split; [|by rewrite lookup_insert_ne].
    exists n, ip. cbn. by rewrite lookup_insert_ne.
  - intros h0 v0 [[<- <-]|[Hne H0]]%lookup_insert_Some; [left; apply lookup_insert_eq|].
    destruct (Hs _ _ H0) as [?|?]; [left; by rewrite lookup_insert_ne|by right].
  - intros h0 v0 [[<- <-]|[Hne H0]]%lookup_insert_Some; [apply lookup_insert_eq|]. rewrite lookup_insert_ne by done. auto.
Qed.

(** It is the table's once it is written there. *)
Lemma pm_inv_store base n ip l pm : pm_inv base pm -> base !! l_sock l = Some (l_tcp l, ip, l_addr l) ->
  no_char ":" n = true -> l_tcp l = Contains n "tcp" -> is_s64 (getPort l) -> listeners pm !! convertIndex n ip (getPort l) = None ->
  pm_inv (delete (l_sock l) base) (mkPortmap (<[convertIndex n ip (getPort l) := l]> (listeners pm)) (socks pm) (connEngine pm)).
Proof.
  intros (Ht & Hinj & Hs & Hb) Hown Hn Htcp Hg Hnew.
  assert (Hother : forall k l0, listeners pm !! k = Some l0 -> l_sock l0 <> l_sock l).
  { intros k l0 H0 E. destruct (Ht _ _ H0) as [_ Hbase]. congruence. }
  split_and!; cbn [listeners socks].
  - intros key l0 [[<- <-]|[Hne Hl0]]%lookup_insert_Some.
    + split; [|apply lookup_delete_eq]. exists n, ip. split_and!; try done. by apply Hb.
    + destruct (Ht _ _ Hl0) as [He Hbase]. split; [exact He|]. rewrite lookup_delete_ne; [done|]. intros E. by apply (Hother _ _ Hl0).
  - intros k1 k2 l1 l2 [[<- <-]|[Hne1 H1]]%lookup_insert_Some [[<- <-]|[Hne2 H2]]%lookup_insert_Some E;
      [done|by destruct (Hother _ _ H2)|by destruct (Hother _ _ H1)|by apply (Hinj k1 k2 l1 l2)].
  - intros h0 v Hv. destruct (decide (h0 = l_sock l)) as [->|Hne].
    + right. exists (convertIndex n ip (getPort l)), l. by rewrite lookup_insert_eq.
    + destruct (Hs _ _ Hv) as [?|(key & l0 & Hl0 & E)]; [left; by rewrite lookup_delete_ne|]. right. exists key, l0.
      rewrite lookup_insert_ne; [done|]. intros <-. congruence.
  - intros h0 v [_ Hv]%lookup_delete_Some. auto.
Qed.

(** No two sockets that were opened for the same address text have one port. *)
Definition ports_differ (base0 s : sockets) : Prop := forall h1 h2 t ip a1 a2,
  s !! h1 = Some (t, ip, a1) -> s !! h2 = Some (t, ip, a2) -> addr_port a1 = addr_port a2 ->
  base0 !! h1 = None -> base0 !! h2 = None -> h1 = h2.

Lemma ports_open base0 s hd t ip a : ports_differ base0 s -> (forall h' a', s !! h' = Some (t, ip, a') -> addr_port a' <> addr_port a) ->
  ports_differ base0 (<[hd := (t, ip, a)]> s).
Proof.
  intros Hp Hport h1 h2 t1 ip1 a1 a2 [[<- E1]|[Hn1 H1]]%lookup_insert_Some [[<- E2]|[Hn2 H2]]%lookup_insert_Some E B1 B2;
    [done| | |by eapply Hp].
  - injection E1 as <- <- <-. by destruct (Hport _ _ H2).
  - injection E2 as <- <- <-. by destruct (Hport _ _ H1).
Qed.

Lemma ports_subset base0 s s' : s' ⊆ s -> ports_differ base0 s -> ports_differ base0 s'.
Proof. intros Hs Hp h1 h2 t ip a1 a2 H1 H2. by eapply Hp; eapply lookup_weaken. Qed.

(** ** Calls *)

Section Calls.
Context (base0 : sockets).

Definition call_ok (pm : Portmap) (c : apc) : Prop :=
  match c with
  | AWant n _ p | ARead n _ p | AOpen n _ p => no_char ":" n = true /\ is_s64 p
  | AStore n ip ok l | AStoring n ip ok l => no_char ":" n = true /\ l_tcp l = Contains n "tcp" /\ is_s64 (getPort l) /\
      (ok = true -> listeners pm !! convertIndex n ip (getPort l) = Some l)
  | AUnlock n ip (q, None) => exists l, listeners pm !! convertIndex n ip q = Some l /\ getPort l = q
  | _ => True
  end.

Record calls_ok (pm : Portmap) (cs : list apc) : Prop := {
  cl_each : forall k c, cs !! k = Some c -> call_ok pm c;
  cl_single : forall i j c d hd v v', cs !! i = Some c -> cs !! j = Some d ->
    opened c = Some (hd, v) -> opened d = Some (hd, v') -> i = j;
  cl_own : forall hd v, some_call opened cs (hd, v) -> base0 !! hd = None
}.

Lemma calls_new pm cs n ip p : calls_ok pm cs -> no_char ":" n = true -> is_s64 p -> calls_ok pm (cs ++ [AWant n ip p]).
Proof.
  intros [] Hn Hp. assert (Hnew : forall j d, (cs ++ [AWant n ip p]) !! j = Some d -> cs !! j = Some d \/ d = AWant n ip p).
  { intros j d [?|[_ H]]%lookup_app_Some; [by left|right]. by apply list_lookup_singleton_Some in H as [_ <-]. }
  split.
  - intros j d [?| ->]%Hnew; [by apply (cl_each0 j)|done].
  - intros i j d e hd v v' [?| ->]%Hnew [?| ->]%Hnew Hd He; [by eapply cl_single0|done..].
  - intros hd v. rewrite call_new by done. apply cl_own0.
Qed.

(** A call moves to [c'] and, if it opens a socket, a new one. *)
Lemma calls_move pm cs k c c' : calls_ok pm cs -> cs !! k = Some c -> call_ok pm c' ->
  (forall hd v, opened c' = Some (hd, v) -> opened c = Some (hd, v) \/ base0 !! hd = None /\ forall v', ~ some_call opened cs (hd, v')) ->
  calls_ok pm (<[k := c']> cs).
Proof.
  intros [] Hk Hok Hnew. split.
  - intros j d [(<- & <- & _)|[_ Hj]]%list_lookup_insert_Some; [done|by apply (cl_each0 j)].
  - assert (HX : forall j d hd v v', opened c' = Some (hd, v) -> cs !! j = Some d -> opened d = Some (hd, v') -> k = j).
    { intros j d hd v v' Hc Hj Hd. destruct (Hnew _ _ Hc) as [Ho|[_ Hno]]; [by eapply cl_single0|]. destruct (Hno v'). by exists j, d. }
    intros i j d e hd v v' [(<- & <- & _)|[Hi1 Hi]]%list_lookup_insert_Some [(<- & <- & _)|[Hj1 Hj]]%list_lookup_insert_Some Hd He;
      [done|by eapply HX|symmetry; by eapply HX|by eapply cl_single0].
  - intros hd v Hs. destruct (proj1 (call_moved opened cs k c c' (hd, v) Hk) (or_intror Hs)) as [Ho|]; [|by eapply cl_own0].
    destruct (Hnew _ _ Ho) as [?|[? _]]; [|done]. apply (cl_own0 hd v). by exists k, c.
Qed.

(** The table changed, not what a call relies on. *)
Lemma calls_frame pm pm' cs : (forall k c, cs !! k = Some c -> call_ok pm c -> call_ok pm' c) -> calls_ok pm cs -> calls_ok pm' cs.
Proof. intros Hc []. split; [|done|done]. intros k c Hk. by apply (Hc k), (cl_each0 k). Qed.

(** A table with one entry more. *)
Lemma call_ok_grow ls so en key l c : ls !! key = None -> call_ok (mkPortmap ls so en) c -> call_ok (mkPortmap (<[key := l]> ls) so en) c.
Proof.
  intros Hnew. assert (HX : forall key' l', ls !! key' = Some l' -> <[key := l]> ls !! key' = Some l').
  { intros key' l' H. rewrite lookup_insert_ne; [done|]. intros <-. congruence. }
  destruct c as [| | |n ip ok l1|n ip ok l1|n ip [q [e|]]|]; cbn; try done; [naive_solver..|].
  intros (l' & Hl & Hq). exists l'. split; [by apply HX|done].
Qed.
End Calls.

(** ** Accepting goroutines *)

Section Goroutines.
(** Whether every [Accept] of an open listener succeeds is a hypothesis of some
    of what follows. *)
Context (no_errors : Prop).

(** An open listener has one goroutine. *)
Definition goroutine_of (l : relayListener) (a : Accepter) : Prop :=
  g_sock a = l_sock l /\ g_open a = true /\ (no_errors -> g_pc a <> GDone).

Record gos_ok (O : relayListener -> Prop) (gs : list Accepter) : Prop := {
  go_has : forall l, O l -> l_tcp l = true -> exists i a, gs !! i = Some a /\ goroutine_of l a;
  go_of : forall i a, gs !! i = Some a -> g_open a = true -> exists l, O l /\ l_tcp l = true /\ l_sock l = g_sock a;
  go_one : forall i j a b, gs !! i = Some a -> gs !! j = Some b -> g_open a = true -> g_open b = true -> g_sock a = g_sock b -> i = j
}.

Lemma gos_iff O O' gs : (forall l, O' l <-> O l) -> gos_ok O gs -> gos_ok O' gs.
Proof.
  intros HO []. split; [|intros i a Ha Ho|done].
  - intros l Hl. by apply go_has0, HO.
  - destruct (go_of0 i a Ha Ho) as (l & Hl & ?). exists l. by rewrite HO.
Qed.

(** A listener more, with its goroutine if it is a TCP one. *)
Lemma gos_add O O' gs l : (forall l1, O' l1 <-> O l1 \/ l1 = l) -> (forall l1, O l1 -> l_sock l1 <> l_sock l) -> gos_ok O gs ->
  gos_ok O' (gs ++ (if l_tcp l then [mkAcc (l_sock l) true GAccept] else [])).
Proof.
  intros HO Hne []. assert (Hold : forall i a, gs !! i = Some a -> g_open a = true -> g_sock a <> l_sock l).
  { intros i a Ha Ho. destruct (go_of0 _ _ Ha Ho) as (l1 & H1 & _ & <-). by apply Hne. }
  split.
  - intros l1 [Hl1| ->]%HO Ht.
    + destruct (go_has0 _ Hl1 Ht) as (i & a & Ha & Hg). exists i, a. split; [by apply lookup_app_l_Some|done].
    + rewrite Ht. exists (length gs), (mkAcc (l_sock l) true GAccept). split; [|done]. by rewrite lookup_app_r, Nat.sub_diag.
  - intros i a [Ha|[_ Ha]]%lookup_app_Some Ho.
    + destruct (go_of0 _ _ Ha Ho) as (l1 & H1 & ?). exists l1. split; [|done]. apply HO. by left.
    + destruct (l_tcp l) eqn:Et; [|by rewrite lookup_nil in Ha]. apply list_lookup_singleton_Some in Ha as [_ <-].
      exists l. split; [|done]. apply HO. by right.
  - intros i j a b Ha Hb Hoa Hob E. destruct (l_tcp l) eqn:Et; [|rewrite app_nil_r in *; by apply (go_one0 i j a b)].
    apply lookup_app_Some in Ha as [Ha|[Hia Ha]], Hb as [Hb|[Hjb Hb]]; [by apply (go_one0 i j a b)|..].
    + apply list_lookup_singleton_Some in Hb as [_ <-]. by destruct (Hold i a Ha Hoa).
    + apply list_lookup_singleton_Some in Ha as [_ <-]. by destruct (Hold j b Hb Hob).
    + apply list_lookup_singleton_Some in Ha as [? _], Hb as [? _]. lia.
Qed.

(** The goroutines of the listeners whose sockets are left. *)
Lemma gos_close (O O' : relayListener -> Prop) gs (s : sockets) : (forall l, O' l <-> O l /\ is_Some (s !! l_sock l)) -> gos_ok O gs ->
  gos_ok O' (map (still_open s) gs).
Proof.
  intros HO []. assert (Hmap : forall i a, map (still_open s) gs !! i = Some a -> exists a0, gs !! i = Some a0 /\ a = still_open s a0).
  { intros i a. rewrite list_lookup_fmap. destruct (gs !! i) as [a0|]; [|done]. intros [= <-]. by exists a0. }
  split.
  - intros l [Hl Hs]%HO Ht. destruct (go_has0 _ Hl Ht) as (i & a & Ha & Hg & Ho & Hpc). exists i, (still_open s a).
    rewrite list_lookup_fmap, Ha. split; [done|]. split; [done|]. split; [|done]. cbn. rewrite Ho, Hg. by apply bool_decide_eq_true.
  - intros i a Ha. destruct (Hmap i a Ha) as (a0 & Ha0 & ->). intros [Ho Hs]%andb_prop. apply bool_decide_eq_true in Hs.
    destruct (go_of0 _ _ Ha0 Ho) as (l & Hl & Ht & E). exists l. split; [|done]. apply HO. by rewrite E.
  - intros i j a b Ha Hb. destruct (Hmap i a Ha) as (a0 & Ha0 & ->), (Hmap j b Hb) as (b0 & Hb0 & ->).
    intros [Hoa _]%andb_prop [Hob _]%andb_prop E. by apply (go_one0 i j a0 b0).
Qed.

(** A goroutine moves on, and does not end while its listener is open unless some
    [Accept] failed. *)
Lemma gos_move O gs i a pc : gos_ok O gs -> gs !! i = Some a -> (no_errors -> g_open a = true -> pc <> GDone) ->
  gos_ok O (<[i := mkAcc (g_sock a) (g_open a) pc]> gs).
Proof.
  intros [] Hi Hpc. assert (Hback : forall j b, <[i := mkAcc (g_sock a) (g_open a) pc]> gs !! j = Some b ->
    exists b0, gs !! j = Some b0 /\ g_sock b0 = g_sock b /\ g_open b0 = g_open b).
  { intros j b [(<- & <- & _)|[_ Hj]]%list_lookup_insert_Some; [by exists a|by exists b]. }
  split.
  - intros l Hl Ht. destruct (go_has0 _ Hl Ht) as (j & b & Hb & Hg & Ho & Hb1). destruct (decide (j = i)) as [->|Hne].
    + assert (b = a) as -> by congruence. exists i. eexists. split; [apply list_lookup_insert_eq; by eapply lookup_lt_Some|].
      split; [done|]. split; [done|]. intros Hn. by apply Hpc.
    + exists j, b. by rewrite list_lookup_insert_ne.
  - intros j b Hj Ho. destruct (Hback _ _ Hj) as (b0 & Hb0 & <- & Eo). apply (go_of0 j b0 Hb0). congruence.
  - intros j k b c Hj Hk Ho1 Ho2 E. destruct (Hback _ _ Hj) as (b0 & Hb0 & Es & Eo), (Hback _ _ Hk) as (c0 & Hc0 & Es' & Eo').
    apply (go_one0 j k b0 c0); congruence.
Qed.
End Goroutines.

(** * The invariant *)

Section Table.
Context (Listen : bool -> string -> Z -> sockets -> (nat * string) + error).
Context (g : GetHandshake) (h : HandleHandshake) (base0 : sockets) (no_errors : Prop).

Record table_inv (w : World) : Prop := {
  ti_world : world_inv g h w;
  ti_crashed : crashed w = true -> collide (calls w);
  ti_engine : connEngine (pmap w) = true;
  ti_table : table_true base0 (pmap w) (calls w);
  ti_calls : calls_ok base0 (pmap w) (calls w);
  ti_ports : ports_differ base0 (socks (pmap w));
  ti_gos : gos_ok no_errors (owned (pmap w) (calls w)) (gos w)
}.

Definition label_ok (l : wlabel) : Prop :=
  match l with
  | WCall n _ p | WDel n _ p => no_char ":" n = true /\ is_s64 p
  | WClose => False
  | WAccept _ None => ~ no_errors
  | _ => True
  end.

(** What a step must do: keep the invariant, or end the process where two calls
    collide. *)
Definition step_ok (w : World) (r : outcome unit * World) : Prop :=
  match r with
  | (Ret _, w') => table_inv w'
  | (Panic, w') => w' = w /\ collide (calls w)
  end.

(** Every owned listener's socket is open. *)
Lemma owned_open pm cs l : table_true base0 pm cs -> owned pm cs l -> is_Some (socks pm !! l_sock l).
Proof.
  intros (base & (Ht & _ & _ & Hb) & Hbase) [[key Hl]|(k & c & Hc & Hl)].
  - destruct (Ht _ _ Hl) as [(?&?&?&?&?&Hsock&?) _]. by eexists.
  - destruct (own_opened _ _ Hl) as [ip Ho]. eexists. apply Hb, Hbase. right. by exists k, c.
Qed.

(** A step that changes neither table nor calls. *)
Lemma table_keep w w' : table_inv w -> world_inv g h w' -> crashed w' = crashed w -> pmap w' = pmap w -> calls w' = calls w ->
  gos_ok no_errors (owned (pmap w) (calls w)) (gos w') -> table_inv w'.
Proof. intros [] Hw Hc Hp Hcs Hg. constructor; by rewrite ?Hp, ?Hcs, ?Hc. Qed.

(** ** The steps of [AddListener] *)

Lemma table_call w n ip p : table_inv w -> no_char ":" n = true -> is_s64 p -> table_inv (set_calls (calls w ++ [AWant n ip p]) w).
Proof.
  intros [] Hn Hp. constructor; cbn [pmap calls crashed gos set_calls]; try done.
  - by apply (world_inv_keeps g h w).
  - intros Hc. destruct (ti_crashed0 Hc) as (i & j & a & b & Hne & Ha & Hb & ?). exists i, j, a, b.
    split_and!; [done|by apply lookup_app_l_Some..|by destruct H|by destruct H].
  - destruct ti_table0 as (base & HI & Hb). exists base. split; [done|]. intros hd v. by rewrite call_new.
  - by apply calls_new.
  - eapply gos_iff; [|done]. intros l. unfold owned. by rewrite call_new.
Qed.

(** A step that neither opens a listener nor writes one to the table. *)
Lemma table_move w k c c' : table_inv w -> crashed w = false -> calls w !! k = Some c -> opened c' = opened c -> own c' = own c ->
  call_ok (pmap w) c' -> table_inv (set_call k c' w).
Proof.
  intros [] Hcr Hk Eo Ew Hok. constructor; cbn [pmap calls crashed gos set_calls set_call]; try done.
  - by apply (world_inv_keeps g h w).
  - by rewrite Hcr.
  - destruct ti_table0 as (base & HI & Hb). exists base. split; [done|]. intros hd v. by rewrite (call_same _ _ k c).
  - apply (calls_move base0 _ _ k c); [done..|]. intros hd v Hv. left. congruence.
  - eapply gos_iff; [|done]. intros l. unfold owned. by rewrite (call_same _ _ k c).
Qed.

(** The call opened a listener, which has its goroutine if it is a TCP one. *)
Lemma table_open w k n ip p l : table_inv w -> crashed w = false -> calls w !! k = Some (AOpen n ip p) ->
  socks (pmap w) !! l_sock l = None -> l_tcp l = Contains n "tcp" -> is_s64 (getPort l) ->
  (forall h' a', socks (pmap w) !! h' = Some (l_tcp l, ip, a') -> addr_port a' <> getPort l) ->
  table_inv (set_call k (AStore n ip false l) (set_gos (gos w ++ (if l_tcp l then [mkAcc (l_sock l) true GAccept] else [])) (set_pmap
    (mkPortmap (listeners (pmap w)) (<[l_sock l := (l_tcp l, ip, l_addr l)]> (socks (pmap w))) (connEngine (pmap w))) w))).
Proof.
  intros Hi Hcr Hk Hfresh Htcp Hg Hport. pose proof Hi as []. destruct ti_table0 as (base & HI & Hb). pose proof HI as (_ & _ & _ & Hsub).
  assert (Hno : forall v, base !! l_sock l <> Some v) by (intros v Hv; apply Hsub in Hv; congruence).
  assert (Hno0 : base0 !! l_sock l = None) by (destruct (base0 !! l_sock l) eqn:E; [|done]; destruct (Hno p0); apply Hb; by left).
  assert (Hnoc : forall v, ~ some_call opened (calls w) (l_sock l, v)) by (intros v Hv; apply (Hno v), Hb; by right).
  assert (HM : forall hd v, some_call opened (<[k := AStore n ip false l]> (calls w)) (hd, v) <->
     opened (AStore n ip false l) = Some (hd, v) \/ some_call opened (calls w) (hd, v)).
  { intros hd v. pose proof (call_moved opened _ k _ (AStore n ip false l) (hd, v) Hk) as H. rewrite <- H. by intuition. }
  constructor; cbn [pmap calls crashed gos set_calls set_call set_gos set_pmap connEngine socks]; try done.
  - by apply (world_inv_keeps g h w).
  - by rewrite Hcr.
  - eexists. split; [by apply (pm_inv_open base (l_sock l) (l_tcp l, ip, l_addr l))|]. intros hd v. rewrite HM, lookup_insert_Some, Hb. cbn [opened].
    split; [intros [[<- <-]|[_ [?|?]]]; auto|]. intros [H0|[[= <- <-]|Hs]]; [right|by left|right]; (split; [intros <-|by auto]); [congruence|by destruct (Hnoc v)].
  - apply (calls_move base0 _ _ k (AOpen n ip p)); [by eapply calls_frame; [|done]|done| |].
    + destruct (cl_each _ _ _ ti_calls0 k _ Hk) as [Hn _]. by split_and!.
    + intros hd v [= <- <-]. by right.
  - by apply ports_open.
  - apply (gos_add _ (owned (pmap w) (calls w))); [|by intros l1 [v Hv]%(owned_open _ _ _ ltac:(by exists base)) E; congruence|done].
    intros l1. unfold owned. pose proof (call_moved own _ k _ (AStore n ip false l) l1 Hk) as H. cbn [own] in H.
    assert (E : Some l = Some l1 <-> l1 = l) by (split; congruence). rewrite E in H. naive_solver.
Qed.

(** No entry is at the place of a listener that is to be entered. *)
Lemma store_new w k n ip l : table_inv w -> calls w !! k = Some (AStoring n ip false l) ->
  listeners (pmap w) !! convertIndex n ip (getPort l) = None.
Proof.
  intros [] Hk. destruct (listeners (pmap w) !! _) as [l'|] eqn:E; [|done]. exfalso.
  destruct (cl_each _ _ _ ti_calls0 k _ Hk) as (Hn & Htcp & Hg & _). destruct ti_table0 as (base & (Ht & _ & _ & Hb) & Hbase).
  destruct (Ht _ _ E) as [(n' & i' & Hn' & Ek & Htcp' & Hsock & Hg') Hbl]. apply convertIndex_inj in Ek as (<- & <- & Ep); [|done..].
  assert (Ho : some_call opened (calls w) (l_sock l, (l_tcp l, ip, l_addr l))) by (by exists k, (AStoring n ip false l)).
  assert (Hx : base !! l_sock l = Some (l_tcp l, ip, l_addr l)) by (apply Hbase; by right).
  assert (Hy : base0 !! l_sock l' = None).
  { destruct (base0 !! l_sock l') eqn:E0; [|done]. assert (base !! l_sock l' = Some p) by (apply Hbase; by left). congruence. }
  assert (Es : l_sock l = l_sock l').
  { apply (ti_ports0 _ _ (l_tcp l) ip (l_addr l) (l_addr l')); [by apply Hb|by rewrite Htcp, <- Htcp'|exact Ep| |exact Hy].
    by eapply (cl_own _ _ _ ti_calls0). }
  congruence.
Qed.

(** The write of a listener that is in the table changes nothing. *)
Lemma store_same n ip l pm : listeners pm !! convertIndex n ip (getPort l) = Some l -> (store_listener n ip l pm).2 = pm.
Proof. intros Hl. cbn. destruct pm as [ls so en]. cbn in *. f_equal. by apply insert_id. Qed.

(** The write of a new one. *)
Lemma table_store w k n ip l : table_inv w -> crashed w = false -> calls w !! k = Some (AStoring n ip false l) ->
  table_inv (set_call k (AUnlock n ip (getPort l, None)) (set_pmap (store_listener n ip l (pmap w)).2 w)).
Proof.
  intros Hi Hcr Hk. pose proof Hi as []. pose proof (store_new w k n ip l Hi Hk) as Hnew.
  destruct (cl_each _ _ _ ti_calls0 k _ Hk) as (Hn & Htcp & Hg & _). destruct ti_table0 as (base & HI & Hb).
  assert (Hmine : some_call opened (calls w) (l_sock l, (l_tcp l, ip, l_addr l))) by (by exists k, (AStoring n ip false l)).
  assert (HM : forall hd v, some_call opened (<[k := AUnlock n ip (getPort l, None)]> (calls w)) (hd, v) <->
     some_call opened (calls w) (hd, v) /\ hd <> l_sock l).
  { intros hd v. pose proof (call_moved opened _ k _ (AUnlock n ip (getPort l, None)) (hd, v) Hk) as H. cbn [opened] in H. split.
    - intros Hs. split; [by destruct (proj1 H (or_intror Hs))|]. intros ->. destruct Hs as (j & d & Hj & Hd).
      apply list_lookup_insert_Some in Hj as [(<- & <- & _)|[Hne Hj]]; [done|]. apply Hne.
      by eapply (cl_single _ _ _ ti_calls0 k j _ d (l_sock l)).
    - intros [Hs Hne]. destruct (proj2 H (or_intror Hs)) as [Ho|]; [congruence|done]. }
  constructor; cbn [pmap calls crashed gos set_calls set_call set_gos set_pmap store_listener modify snd connEngine socks]; try done.
  - by apply (world_inv_keeps g h w).
  - by rewrite Hcr.
  - exists (delete (l_sock l) base). split; [apply pm_inv_store; try done; apply Hb; by right|]. intros hd v. rewrite HM, lookup_delete_Some, Hb.
    split; [naive_solver|]. intros [H0|[Hs Hne]]; [|by auto]. split; [|by left]. intros <-.
    by rewrite (cl_own _ _ _ ti_calls0 _ _ Hmine) in H0.
  - apply (calls_move base0 _ _ k (AStoring n ip false l)); [|done| |done].
    + eapply calls_frame; [|done]. intros j c _ Hc. apply call_ok_grow; [done|]. by destruct (pmap w).
    + exists l. split; [apply lookup_insert_eq|done].
  - eapply gos_iff; [|done]. intros l1. unfold owned. pose proof (call_moved own _ k _ (AUnlock n ip (getPort l, None)) l1 Hk) as H. cbn [own] in H.
    cbn [listeners]. split.
    + intros [[key [[_ <-]|[_ Hl]]%lookup_insert_Some]|Hs]; [right; by exists k, (AStoring n ip false l)|left; by exists key|right].
      by destruct (proj1 H (or_intror Hs)).
    + intros [[key Hl]|Hs].
      * left. exists key. rewrite lookup_insert_ne; [done|]. intros <-. congruence.
      * destruct (proj2 H (or_intror Hs)) as [[= <-]|]; [left|by right]. eexists. apply lookup_insert_eq.
Qed.

(** A call that finds another inside its write. *)
Lemma storing_collides w k c : storing w = true -> calls w !! k = Some c -> touches c = true -> collide (calls w).
Proof.
  intros (a & Ha & Hs)%existsb_exists Hk Ht. apply list_elem_of_In, list_elem_of_lookup in Ha as [i Ha].
  exists i, k, a, c. split_and!; try done. intros ->. rewrite Ha in Hk. injection Hk as ->. by destruct c.
Qed.

Lemma table_add w k : os_ok Listen -> crashed w = false -> table_inv w -> step_ok w (add_next Listen k w).
Proof.
  intros Hos Hcr Hi. pose proof Hi as []. unfold add_next, bind at 1, get. destruct (calls w !! k) as [c|] eqn:Hk; [|done].
  pose proof (cl_each _ _ _ ti_calls0 k c Hk) as Hok. destruct c as [n ip p|n ip p|n ip p|n ip ok l|n ip ok l|n ip r|r]; [| | | | | |done].
  - by apply (table_move w k (AWant n ip p)).
  - destruct (storing w) eqn:Es; [split; [done|]; by eapply storing_collides|]. destruct Hok as [Hn Hp].
    destruct (listeners (pmap w) !! convertIndex n ip p) as [l|] eqn:El; apply (table_move w k (ARead n ip p)); try done.
    destruct ti_table0 as (base & (Ht & _) & _). destruct (Ht _ _ El) as [(n' & i' & Hn' & Ek & Htcp & _ & Hg) _].
    pose proof (convertIndex_inj _ _ _ _ _ _ Hn Hn' Hp Hg Ek) as (<- & <- & ->). by split_and!.
  - assert (Eadd : (if Contains n "tcp" then addTCPListener Listen ip p else addUDPListener Listen ip p) = addListener_os Listen (Contains n "tcp") ip p)
      by (by destruct (Contains n "tcp")).
    rewrite Eadd. unfold on_pmap, zoom, addListener_os, bind, get, put, ret, modify.
    destruct (Listen _ ip p (socks (pmap w))) as [[hd addr]|e] eqn:EL.
    2:{ assert (Hw : set_pmap (pmap w) w = w) by (by destruct w). rewrite Hw. by apply (table_move w k (AOpen n ip p)). }
    destruct (Hos _ _ _ _ _ _ EL) as (Hfresh & Hport & Hg). rewrite ti_engine0, andb_false_r.
    pose proof (table_open w k n ip p (mkListener (Contains n "tcp") hd addr) Hi Hcr Hk Hfresh eq_refl Hg Hport) as H.
    cbn [l_tcp l_sock l_addr] in H. rewrite ti_engine0 in H. destruct (Contains n "tcp"); [exact H|]. rewrite app_nil_r in H. exact H.
  - destruct (storing w) eqn:Es; [split; [done|]; by eapply storing_collides|]. by apply (table_move w k (AStore n ip ok l)); [..|destruct ok|destruct ok|].
  - unfold on_pmap, zoom, bind, modify. destruct ok; [|exact (table_store w k n ip l Hi Hcr Hk)].
    destruct Hok as (_ & _ & _ & Hl). specialize (Hl eq_refl). pose proof (store_same n ip l (pmap w) Hl) as E. cbn in E. cbn. rewrite E.
    assert (Hw : set_pmap (pmap w) w = w) by (by destruct w). rewrite Hw. apply (table_move w k (AStoring n ip true l)); try done. by exists l.
  - by apply (table_move w k (AUnlock n ip r)).
Qed.

(** ** The other steps *)

Lemma table_delete w n ip p : table_inv w -> step_ok w (run_DeleteListener n ip p w).
Proof.
  intros Hi. pose proof Hi as []. pose proof (wop_inv Listen g h (WDel n ip p) w ti_world0) as Hw. revert Hw.
  cbn [wop]. unfold run_DeleteListener, on_pmap, zoom, bind, modify, get, ret. destruct (locked w) eqn:Elock; [done|].
  assert (Hnone : forall {X} (f : apc -> option X) x, (forall c, inside c = false -> f c = None) -> some_call f (calls w) x <-> False)
    by (intros X f x Hf; split; [|done]; by apply unlocked_none).
  destruct ti_table0 as (base & HI & Hb).
  destruct (DeleteListener_spec base n ip p (pmap w) HI) as (pm' & E & HI' & He & Hl & Hs). rewrite E. cbn [fst snd].
  set (key := convertIndex n ip p) in *. intros Hw. constructor; cbn [pmap calls crashed gos set_gos set_pmap]; [done|done|by rewrite He|by exists base| | |].
  - eapply calls_frame; [|done]. intros k c Hk. destruct (inside c) eqn:Ei; [|by destruct c]. intros _.
    assert (Hx : locked w = true) by (apply existsb_exists; exists c; split; [apply list_elem_of_In; by eapply list_elem_of_lookup_2|done]). congruence.
  - eapply ports_subset; [|done]. rewrite Hs. destruct (listeners (pmap w) !! key); [apply delete_subseteq|done].
  - eapply gos_close; [|done]. intros l. unfold owned. rewrite (Hnone _ own l) by (by intros []). rewrite Hl.
    destruct HI as (Ht & Hinj & _). destruct HI' as (Ht' & _). rewrite Hl in Ht'. split.
    + intros [[k1 H1]|[]]. destruct (Ht' _ _ H1) as [(?&?&?&?&?&Hsock&?) _]. apply lookup_delete_Some in H1 as [_ H1]. split; [left; by exists k1|by eexists].
    + intros [[[k1 H1]|[]] Hx]. left. exists k1. rewrite lookup_delete_ne; [done|]. intros <-. rewrite Hs, H1, lookup_delete_eq in Hx. by destruct Hx.
Qed.

Lemma table_accept w i a : label_ok (WAccept i a) -> table_inv w -> step_ok w (accept_next i a w).
Proof.
  intros Hok Hi. pose proof Hi as []. pose proof (wop_inv Listen g h (WAccept i a) w ti_world0) as Hw. revert Hw.
  cbn [wop]. unfold accept_next, bind, get, modify, ret. destruct (gos w !! i) as [a0|] eqn:Ea; [|done].
  destruct (g_pc a0) as [|ip port|]; [| |done].
  - intros Hw. apply (table_keep w); try done. cbn. apply gos_move; [done|done|]. intros Hne Ho. rewrite Ho.
    destruct a as [[? ?]|]; [done|]. by destruct Hok.
  - rewrite ti_engine0. intros Hw. apply (table_keep w); try done. cbn. by apply gos_move.
Qed.

Lemma table_step l w : os_ok Listen -> label_ok l -> table_inv w -> table_inv (wstep Listen l w).
Proof.
  intros Hos Hok Hi. unfold wstep. destruct (crashed w) eqn:Hcr; [done|]. pose proof Hi as [].
  assert (HS : step_ok w (wop Listen l w)).
  { pose proof (wop_inv Listen g h l w ti_world0) as Hw. revert Hw.
    destruct l as [n ip p|k|n ip p| |i a|ip p|u ip p s|k l]; cbn [wop];
      [destruct Hok; intros _; by apply table_call|intros _; by apply table_add|intros _; by apply table_delete|done|intros _; by apply table_accept|..].
    - unfold udp_open, bind, get, modify. rewrite ti_engine0. intros Hw. by apply (table_keep w).
    - unfold far_open, bind, get, modify, ret. destruct (serving w); [|done].
      destruct ti_world0 as [_ Hh _]. rewrite Hh. intros Hw. by apply (table_keep w).
    - unfold conn_next, bind, get, modify, ret. destruct (conns w !! k) as [p|] eqn:Ep; [|done]. rewrite ti_engine0.
      destruct (match l with LFarAdd => _ | _ => _ end) eqn:En; [by destruct l, (opener p)|]. pose proof ti_world0 as [Hg _ Hc].
      rewrite Hg. destruct (cstep_inv g l p (Hc _ _ Ep)) as [H1 _]. destruct (cstep (Some g) l p) as [o p']. cbn in H1. subst o.
      intros Hw. by apply (table_keep w). }
  destruct (wop Listen l w) as [[[]|] w']; [done|]. destruct HS as [-> Hcol]. constructor; try done. by apply (world_inv_keeps g h w).
Qed.

Lemma table_run ls w : os_ok Listen -> Forall label_ok ls -> table_inv w -> table_inv (wrun Listen ls w).
Proof. intros Hos Hok. revert w. induction Hok as [|l ls Hl Hok IH]; intros w Hw; [done|]. apply IH. by apply table_step. Qed.

Lemma table_boot server : table_inv (boot base0 g h server).
Proof.
  assert (Hno : forall {X} (f : apc -> option X) x, some_call f [] x <-> False) by (intros X f x; split; [|done]; by intros (k & c & Hk & _)).
  constructor; [apply boot_inv|done|done|..]; cbn.
  - exists base0. split; [apply pm_inv_new|]. intros hd v. rewrite Hno. tauto.
  - split; [done|done|]. intros hd v. by rewrite Hno.
  - intros h1 h2 t ip a1 a2 H1 _ _ H0. congruence.
  - split; [|done|done]. intros l [[key Hl]|Hl]; [done|by apply Hno in Hl].
Qed.
End Table.

(** Anything but [Close], with networks and ports as the callers give them. *)
Definition calm (l : wlabel) : Prop :=
  match l with WCall n _ p | WDel n _ p => no_char ":" n = true /\ is_s64 p | WClose => False | _ => True end.

(** C31. While [Close] is not called the engine crashes in one way only, and its
    table is true.  After any interleaving of the steps of additions, of deletions,
    accepted connections, datagrams, streams and events: if the process has ended,
    one call of [AddListener] is inside its write to the table, under the read
    lock, and another about to access it; the engine is there; the sockets are
    those the table says, those that calls have opened and are about to enter, and
    the ones there were before, and with no call inside the lock the first and
    the last only; a call that is about to report a port has its listener in
    the table at that port; each TCP listener of the table or on its way there
    has exactly one open goroutine, which still accepts if no [Accept] failed; and
    an open goroutine's listener is one of these. *)
Theorem engine_alive Listen g h base0 server ls : os_ok Listen -> Forall calm ls ->
  let w := wrun Listen ls (boot base0 g h server) in
  (crashed w = true -> collide (calls w)) /\ connEngine (pmap w) = true /\
  table_true base0 (pmap w) (calls w) /\ (locked w = false -> pm_inv base0 (pmap w)) /\
  (forall k n ip q, calls w !! k = Some (AUnlock n ip (q, None)) ->
     exists l, listeners (pmap w) !! convertIndex n ip q = Some l /\ getPort l = q) /\
  (forall l, owned (pmap w) (calls w) l -> l_tcp l = true ->
     exists i a, gos w !! i = Some a /\ g_sock a = l_sock l /\ g_open a = true /\
       ((forall j, WAccept j None ∉ ls) -> g_pc a <> GDone) /\
       forall j b, gos w !! j = Some b -> g_open b = true -> g_sock b = l_sock l -> j = i) /\
  (forall i a, gos w !! i = Some a -> g_open a = true ->
     exists l, owned (pmap w) (calls w) l /\ l_tcp l = true /\ l_sock l = g_sock a).
Proof.
  intros Hos Hcalm w. set (ne := forall j, WAccept j None ∉ ls).
  assert (Hok : Forall (label_ok ne) ls).
  { apply Forall_forall. intros l Hl. rewrite Forall_forall in Hcalm. specialize (Hcalm l Hl).
    destruct l as [ | | | |i [|]| | | ]; try done. intros Hne. by apply (Hne i). }
  destruct (table_run Listen g h base0 ne ls _ Hos Hok (table_boot Listen g h base0 ne server)) as [_ Hcr He Ht Hc _ [Hhas Hof Hone]]. fold w in Hcr, He, Ht, Hc, Hhas, Hof, Hone.
  split_and!; [done|done|done| | | |done].
  - intros Hl. destruct Ht as (base & HI & Hb). replace base0 with base; [done|]. apply map_eq. intros hd. apply option_eq. intros v.
    rewrite Hb. split; [intros [?|Hs]; [done|]|by left]. by destruct (unlocked_none opened w (hd, v) Hl ltac:(by intros [])).
  - intros k n ip q Hk. exact (cl_each _ _ _ Hc k _ Hk).
  - intros l Hl Htcp. destruct (Hhas _ Hl Htcp) as (i & a & Ha & Hs & Ho & Hpc). exists i, a. split_and!; [done|done|done|done|].
    intros j b Hb Hob Hsb. apply (Hone j i b a); congruence.
Qed.

(** * A call that nothing overtakes *)

Lemma set_call_twice k c c' w : set_call k c (set_call k c' w) = set_call k c w.
Proof. unfold set_call, set_calls. cbn. by rewrite list_insert_insert_eq. Qed.

Lemma not_storing k c w : storing w = false -> stores c = false -> storing (set_call k c w) = false.
Proof.
  intros Hw Hc. apply not_true_iff_false. intros (a & Ha & Hs)%existsb_exists. apply list_elem_of_In, list_elem_of_lookup in Ha as [i Ha].
  cbn in Ha. apply list_lookup_insert_Some in Ha as [(_ & <- & _)|[_ Ha]]; [congruence|].
  assert (Hx : storing w = true) by (apply existsb_exists; exists a; split; [apply list_elem_of_In; by eapply list_elem_of_lookup_2|done]). congruence.
Qed.

Section Alone.
Context (Listen : bool -> string -> Z -> sockets -> (nat * string) + error) (k : nat).

Abbreviation steps m := (wrun Listen (replicate m (WAdd k))).

Lemma steps_S m w : steps (S m) w = steps m (wstep Listen (WAdd k) w).
Proof. done. Qed.

Lemma done_steps m w r : calls w !! k = Some (ADone r) -> steps m w = w.
Proof.
  intros Hk. induction m as [|m IH]; [done|]. rewrite steps_S. unfold wstep. destruct (crashed w) eqn:E; [done|]. cbn [wop].
  unfold add_next, bind, get. by rewrite Hk.
Qed.

Lemma at_call c w : is_Some (calls w !! k) -> calls (set_call k c w) !! k = Some c.
Proof. intros [c0 Hk]. apply list_lookup_insert_eq. by eapply lookup_lt_Some. Qed.

(** The last step. *)
Lemma unlock_alone m w n ip r : crashed w = false -> calls w !! k = Some (AUnlock n ip r) -> steps (S m) w = set_call k (ADone r) w.
Proof.
  intros Hcr Hk. rewrite steps_S. assert (E : wstep Listen (WAdd k) w = set_call k (ADone r) w)
    by (unfold wstep, wop, add_next, bind, get, modify; by rewrite Hcr, Hk).
  rewrite E. apply (done_steps m _ r), at_call. by eexists.
Qed.

(** From the place where it has its listener. *)
Lemma store_alone m w n ip ok l : crashed w = false -> storing w = false -> calls w !! k = Some (AStore n ip ok l) ->
  steps (3 + m) w = set_call k (ADone (getPort l, None)) (set_pmap (store_listener n ip l (pmap w)).2 w).
Proof.
  intros Hcr Hs Hk. set (w1 := set_call k (AStoring n ip ok l) w).
  set (w2 := set_call k (AUnlock n ip (getPort l, None)) (set_pmap (store_listener n ip l (pmap w)).2 w)).
  assert (E1 : wstep Listen (WAdd k) w = w1) by (unfold wstep, wop, add_next, bind, get, modify; by rewrite Hcr, Hk, Hs).
  assert (E2 : wstep Listen (WAdd k) w1 = w2).
  { unfold wstep, wop, add_next, bind, get. change (crashed w1) with (crashed w). unfold w1. rewrite Hcr, at_call by (by eexists).
    unfold on_pmap, zoom, modify, w2, set_call, set_calls. cbn. by rewrite list_insert_insert_eq. }
  change (3 + m)%nat with (S (S (S m))). rewrite !steps_S, E1, E2, <- steps_S.
  rewrite (unlock_alone m w2 n ip (getPort l, None)); [apply set_call_twice|done|apply at_call; by eexists].
Qed.

(** From the place where it opens one. *)
Lemma open_alone w n ip p : crashed w = false -> storing w = false -> calls w !! k = Some (AOpen n ip p) ->
  match addListener_os Listen (Contains n "tcp") ip p (pmap w) with
  | (Ret (inl l), pm) => exists gs, steps 4 w = set_call k (ADone (getPort l, None)) (set_gos gs (set_pmap (store_listener n ip l pm).2 w))
  | (Ret (inr e), pm) => steps 4 w = set_call k (ADone (0, Some e)) (set_pmap pm w)
  | (Panic, _) => crashed (steps 4 w) = true
  end.
Proof.
  intros Hcr Hs Hk. change (steps 4 w) with (steps 3 (wstep Listen (WAdd k) w)).
  assert (Eadd : (if Contains n "tcp" then addTCPListener Listen ip p else addUDPListener Listen ip p) = addListener_os Listen (Contains n "tcp") ip p)
    by (by destruct (Contains n "tcp")).
  assert (E1 : wstep Listen (WAdd k) w = match addListener_os Listen (Contains n "tcp") ip p (pmap w) with
     | (Ret (inl l), pm) => set_call k (AStore n ip false l) (set_gos (gos w ++ if Contains n "tcp" then [mkAcc (l_sock l) true GAccept] else []) (set_pmap pm w))
     | (Ret (inr e), pm) => set_call k (AUnlock n ip (0, Some e)) (set_pmap pm w)
     | (Panic, pm) => set_crashed (set_pmap pm w) end).
  { unfold wstep, wop, add_next, bind, get. rewrite Hcr, Hk, Eadd. unfold on_pmap, zoom.
    destruct (addListener_os _ _ _ _ _) as [[[l|e]|] pm]; [|done|done]. destruct (Contains n "tcp"); [done|]. cbn. unfold set_gos. cbn. by rewrite app_nil_r. }
  rewrite E1. destruct (addListener_os _ _ _ _ _) as [[[l|e]|] pm].
  - set (gs := gos w ++ _). set (w1 := set_gos gs (set_pmap pm w)). exists gs.
    change 3%nat with (3 + 0)%nat. rewrite (store_alone 0 (set_call k (AStore n ip false l) w1) n ip false l); [|done|by apply not_storing|apply at_call; by eexists].
    unfold w1, set_call, set_calls. cbn. by rewrite list_insert_insert_eq.
  - rewrite (unlock_alone 2 _ n ip (0, Some e)); [apply set_call_twice|done|apply at_call; by eexists].
  - cbn. unfold wstep. by cbn.
Qed.

(** A call that no other one writes under does to the table what Portmap's
    [AddListener] does, and returns what that returns. *)
Theorem addition_alone w n ip p : crashed w = false -> storing w = false -> calls w !! k = Some (AWant n ip p) ->
  match AddListener Listen n ip p (pmap w) with
  | (Ret r, pm) => pmap (steps 6 w) = pm /\ calls (steps 6 w) = <[k := ADone r]> (calls w) /\ conns (steps 6 w) = conns w /\ crashed (steps 6 w) = false
  | (Panic, _) => crashed (steps 6 w) = true
  end.
Proof.
  intros Hcr Hs Hk. set (next := match listeners (pmap w) !! convertIndex n ip p with Some l => AStore n ip true l | None => AOpen n ip p end).
  set (w1 := set_call k (ARead n ip p) w). set (w2 := set_call k next w).
  assert (E1 : wstep Listen (WAdd k) w = w1) by (unfold wstep, wop, add_next, bind, get, modify; by rewrite Hcr, Hk).
  assert (E2 : wstep Listen (WAdd k) w1 = w2).
  { unfold wstep, wop, add_next, bind, get. change (crashed w1) with (crashed w). unfold w1. rewrite Hcr, at_call by (by eexists).
    rewrite (not_storing k (ARead n ip p) w Hs eq_refl). unfold modify. rewrite set_call_twice. done. }
  rewrite !(steps_S 5), E1, !(steps_S 4), E2.
  assert (Hk2 : calls w2 !! k = Some next) by (apply at_call; by eexists).
  assert (Hs2 : storing w2 = false) by (apply not_storing; [done|]; by unfold next; destruct (listeners _ !! _)).
  unfold AddListener, bind at 1, get. unfold next in Hk2. destruct (listeners (pmap w) !! convertIndex n ip p) as [l|] eqn:El.
  - rewrite bind_ret. change 4%nat with (3 + 1)%nat. rewrite (store_alone 1 w2 n ip true l Hcr Hs2 Hk2). cbn. by rewrite list_insert_insert_eq.
  - pose proof (open_alone w2 n ip p Hcr Hs2 Hk2) as H. change (pmap w2) with (pmap w) in H.
    assert (Eadd : (if Contains n "tcp" then addTCPListener Listen ip p else addUDPListener Listen ip p) = addListener_os Listen (Contains n "tcp") ip p)
      by (by destruct (Contains n "tcp")).
    rewrite Eadd. unfold bind. destruct (addListener_os _ _ _ _ _) as [[[l|e]|] pm].
    + destruct H as [gs ->]. cbn. by rewrite list_insert_insert_eq.
    + rewrite H. cbn. by rewrite list_insert_insert_eq.
    + exact H.
Qed.
End Alone.

(** * Concrete runs *)

(** Two additions overlap, and not at the table: both are entered. *)
Definition ex_two : list wlabel := [WCall "tcp" "127.0.0.1" 80; WCall "tcp" "127.0.0.1" 81].
Definition ex_overlap : list wlabel := ex_two ++ map WAdd [0; 1; 0; 1; 0; 1; 0; 0; 1; 1; 0; 1]%nat.

Lemma engine_alive_witness : exists l i a,
  listeners (pmap (wrun ex_listen ex_overlap ex_boot)) !! convertIndex "tcp" "127.0.0.1" 81 = Some l /\
  gos (wrun ex_listen ex_overlap ex_boot) !! i = Some a /\ g_sock a = l_sock l /\ g_open a = true /\
  pm_inv ∅ (pmap (wrun ex_listen ex_overlap ex_boot)).
Proof.
  set (w := wrun ex_listen ex_overlap ex_boot).
  assert (Hc : Forall calm ex_overlap) by (repeat constructor; vm_compute; congruence).
  destruct (engine_alive ex_listen ex_get_hs ex_hh ∅ true ex_overlap ex_os_ok Hc) as (_ & _ & _ & Ht & _ & Hg & _). fold ex_boot in Ht, Hg. fold w in Ht, Hg.
  destruct (listeners (pmap w) !! convertIndex "tcp" "127.0.0.1" 81) as [l|] eqn:El; [|vm_compute in El; discriminate El].
  assert (Hl : l_tcp l = true) by (vm_compute in El; by injection El as <-).
  destruct (Hg l (or_introl (ex_intro _ _ El)) Hl) as (i & a & Ha & Hs & Ho & _).
  exists l, i, a. split; [done|]. split; [exact Ha|]. split; [exact Hs|]. split; [exact Ho|]. apply Ht. vm_compute. reflexivity.
Defined.

(** One is inside its write when the other looks its listener up: the process
    ends. *)
Example additions_collide :
  crashed (wrun ex_listen (ex_two ++ map WAdd [0; 0; 0; 0; 1; 1]%nat) ex_boot) = true.
Proof. vm_compute. done. Qed.

(** A failing [Accept] ends the goroutine: the listener stays open and in the
    table, a later [AddListener] finds it, and nobody accepts. *)
Example accept_error_deafens :
  let w := wrun ex_listen (ex_add 0 ++ [WAccept 0 None] ++ ex_add 1) ex_boot in
  map g_pc (gos w) = [GDone] /\ map g_open (gos w) = [true] /\ calls w !! 1%nat = Some (ADone (80, None)) /\
  getPort <$> listeners (pmap w) !! convertIndex "tcp" "127.0.0.1" 80 = Some 80.
Proof. vm_compute. done. Qed.
