(* ===== verification/AppStart.v ===== *)
(** Starting the stored applications: the loop that gateway.go's [Run] and
    agent.go's [startPortmap] both have.  [AppHost] is what the loop uses of the
    program that runs it: its mappings and its applications; each of the two
    proves that its loop body is the one described here ([starts_app]) and gets
    the theorem on the whole loop: every application that was running listens
    afterwards or is held stopped, and no other one changes. *)
From S2P Require Import Prelude GoText GoIo GoNet Json Codec TypesId Store PortmapApp Portmap.

(** An application that does not run, for the reason [err]. *)
Definition set_stopped (err : string) (a : PortmapApp) : PortmapApp :=
  mkApp (app_ID a) (app_Name a) (app_PeerID a) (app_ResID a) (app_Network a) (app_LocalIP a) (app_LocalPort a)
    (app_TargetAddr a) (app_TargetPort a) false (app_PeerName a) err.

(** What a stored application must be to have a listener of its own. *)
Definition app_ok (a : PortmapApp) : Prop := no_char ":" (app_Network a) = true /\ is_s64 (app_LocalPort a).

(** A listener of the network and address of an application, with its socket. *)
Definition listened (a : PortmapApp) (m : Portmap) : Prop :=
  exists q lst, listeners m !! convertIndex (app_Network a) (app_LocalIP a) q = Some lst /\ is_Some (socks m !! l_sock lst).

(** What the loop does to the applications. *)
Definition stopped_some (l : list PortmapApp) (rs rs' : gmap Z PortmapApp) : Prop :=
  forall k, rs' !! k = rs !! k \/
    exists a, a ∈ l /\ app_Running a = true /\ k = Uint64 (app_ID a) /\ rs' !! k = Some (set_stopped "" a).

Lemma listened_grows base a m m' : pm_inv base m' -> listened a m ->
  (forall k lst, listeners m !! k = Some lst -> is_Some (listeners m' !! k)) -> listened a m'.
Proof.
  intros (Ht & _) (q & lst & Hl & _) Hgrow. destruct (Hgrow _ _ Hl) as [lst' Hl']. exists q, lst'. split; [done|].
  destruct (Ht _ _ Hl') as [(? & ? & _ & _ & _ & Hs & _) _]. by eexists.
Qed.

(** A listener that was obtained, and those before it. *)
Lemma added_listens base Listen a m p m' : os_ok Listen -> pm_inv base m -> connEngine m = true -> app_ok a ->
  AddListener Listen (app_Network a) (app_LocalIP a) (app_LocalPort a) m = (Ret (p, None), m') ->
  listened a m' /\ forall k lst, listeners m !! k = Some lst -> is_Some (listeners m' !! k).
Proof.
  intros Hos HI Hc [Hn Hp] E.
  destruct (AddListener_spec Listen base (app_Network a) (app_LocalIP a) (app_LocalPort a) m Hos HI Hc Hn Hp)
    as (r & m2 & E2 & (Ht & _) & _ & He). rewrite E in E2. injection E2 as <- <-. destruct He as (lst & Hl & _). split.
  - exists p, lst. rewrite Hl, lookup_insert_eq. split; [done|].
    destruct (Ht (convertIndex (app_Network a) (app_LocalIP a) p) lst) as [Hok _]; [by rewrite Hl, lookup_insert_eq|].
    destruct Hok as (? & ? & _ & _ & _ & Hs & _). by eexists.
  - intros k lst' Hk. rewrite Hl. destruct (decide (convertIndex (app_Network a) (app_LocalIP a) p = k)) as [<-|Hne].
    + rewrite lookup_insert_eq. by eexists.
    + rewrite lookup_insert_ne by done. by eexists.
Qed.

(** * The program that runs the loop

    [host_with] replaces the store, the applications and the mappings. *)
Class AppHost (DB S : Type) := {
  host_db : S -> DB;
  host_pm : S -> option Portmap;
  host_apps : S -> option (gmap Z PortmapApp);
  host_with : DB -> gmap Z PortmapApp -> Portmap -> S -> S
}.
Class AppHostLaws (DB S : Type) {H : AppHost DB S} := {
  host_db_with d rs m s : host_db (host_with d rs m s) = d;
  host_pm_with d rs m s : host_pm (host_with d rs m s) = Some m;
  host_apps_with d rs m s : host_apps (host_with d rs m s) = Some rs;
  host_with_twice d d' rs rs' m m' s : host_with d' rs' m' (host_with d rs m s) = host_with d' rs' m' s;
  host_with_same s m rs : host_pm s = Some m -> host_apps s = Some rs -> host_with (host_db s) rs m s = s
}.

Section Loop.
Context {DB S : Type} {Db : LevelDB DB} {Dbl : LevelDBLaws DB} {H : AppHost DB S} {HL : AppHostLaws DB S}.
Context (Listen : bool -> string -> Z -> sockets -> (nat * string) + error) (Hos : os_ok Listen).
Context (start : PortmapApp -> GoM S unit).

(** The loop's body: an application that is to run and gets no listener is
    written back stopped. *)
Definition starts_app : Prop := forall a s m rs, host_pm s = Some m -> host_apps s = Some rs ->
  if app_Running a then
    let '(o, m') := AddListener Listen (app_Network a) (app_LocalIP a) (app_LocalPort a) m in
    match o with
    | Panic => True
    | Ret (_, None) => start a s = (Ret tt, host_with (host_db s) rs m' s)
    | Ret (_, Some _) =>
        let rs := <[Uint64 (app_ID a) := set_stopped "" a]> rs in
        start a s = (Ret tt, host_with (db_Put keyPortmapApps (Marshal rs) (host_db s)).2 rs m' s)
    end
  else start a s = (Ret tt, s).

Context (Hstart : starts_app).

(** Stores that differ in the applications at most. *)
Definition only_apps (d d' : DB) : Prop := forall k, k <> keyPortmapApps -> db_Get k d' = db_Get k d.

Lemma start_one_run base a s m rs : host_pm s = Some m -> host_apps s = Some rs -> app_ok a -> pm_inv base m -> connEngine m = true ->
  exists d rs' m', start a s = (Ret tt, host_with d rs' m' s) /\ only_apps (host_db s) d /\ pm_inv base m' /\ connEngine m' = true /\
    (forall k lst, listeners m !! k = Some lst -> is_Some (listeners m' !! k)) /\
    (app_Running a = false /\ rs' = rs \/ app_Running a = true /\
       (rs' = rs /\ listened a m' \/ rs' = <[Uint64 (app_ID a) := set_stopped "" a]> rs)).
Proof.
  intros Hm Hrs Ha HI Hc. pose proof (Hstart a s m rs Hm Hrs) as Hb. destruct (app_Running a) eqn:Er.
  - destruct Ha as [Hn Hp].
    destruct (AddListener_spec Listen base (app_Network a) (app_LocalIP a) (app_LocalPort a) m Hos HI Hc Hn Hp) as ([q e] & m' & Hadd & HI' & Hc' & He).
    rewrite Hadd in Hb. destruct e as [e|].
    + subst m'. eexists _, _, m. split_and!; [exact Hb|by intros k Hk; apply put_other|done|done|by eexists|]. right. split; [done|by right].
    + destruct (added_listens base Listen a m q m' Hos HI Hc (conj Hn Hp) Hadd) as [Hl Hg].
      exists (host_db s), rs, m'. split_and!; [exact Hb|done|done|done|exact Hg|]. right. split; [done|by left].
  - exists (host_db s), rs, m. rewrite host_with_same by done. split_and!; [exact Hb|done|done|done|by eexists|by left].
Qed.

Theorem start_all_run base l s m rs : host_pm s = Some m -> host_apps s = Some rs -> Forall app_ok l ->
  NoDup (map (fun a => Uint64 (app_ID a)) l) -> pm_inv base m -> connEngine m = true ->
  exists d rs' m', for_range l start s = (Ret tt, host_with d rs' m' s) /\ only_apps (host_db s) d /\ pm_inv base m' /\ connEngine m' = true /\
    stopped_some l rs rs' /\
    (forall a, a ∈ l -> app_Running a = true -> listened a m' \/ rs' !! Uint64 (app_ID a) = Some (set_stopped "" a)) /\
    (forall k lst, listeners m !! k = Some lst -> is_Some (listeners m' !! k)).
Proof.
  revert s m rs. induction l as [|a l IH]; intros s m rs Hm Hrs Hok Hnd HI Hc.
  - exists (host_db s), rs, m. rewrite host_with_same by done. split_and!; [done|done|done|done|intros k; by left| |by eexists].
    intros a Ha. by apply elem_of_nil in Ha.
  - apply Forall_cons in Hok as [Ha Hok]. cbn [map] in Hnd. apply NoDup_cons in Hnd as [Hni Hnd].
    destruct (start_one_run base a s m rs Hm Hrs Ha HI Hc) as (d1 & rs1 & m1 & E1 & Hd1 & HI1 & Hc1 & Hg1 & H1).
    cbn [for_range]. rewrite (bind_Ret _ _ _ _ _ E1).
    destruct (IH (host_with d1 rs1 m1 s) m1 rs1 (host_pm_with _ _ _ _) (host_apps_with _ _ _ _) Hok Hnd HI1 Hc1)
      as (d2 & rs2 & m2 & E2 & Hd2 & HI2 & Hc2 & Hs2 & Ha2 & Hg2).
    exists d2, rs2, m2. rewrite E2, host_with_twice. split_and!; [done| |done|done| | |].
    + intros k Hk. rewrite (Hd2 k Hk), host_db_with. by apply Hd1.
    + intros k. destruct (Hs2 k) as [->|(b & Hb & Hr & -> & Hv)].
      * destruct H1 as [[_ ->]|(Hr & [[-> _]| ->])]; [by left..|].
        destruct (decide (k = Uint64 (app_ID a))) as [->|Hne].
        -- right. exists a. rewrite lookup_insert_eq. split_and!; try done. by left.
        -- left. by rewrite lookup_insert_ne.
      * right. exists b. split_and!; try done. by right.
    + intros b [->|Hb]%elem_of_cons Hr; [|by apply Ha2].
      destruct H1 as [[Hr' _]|(_ & [[_ Hl]| ->])]; [congruence| |].
      * left. by apply (listened_grows base a m1).
      * right. destruct (Hs2 (Uint64 (app_ID a))) as [->|(b & Hb & _ & Hid & _)]; [by rewrite lookup_insert_eq|].
        destruct Hni. rewrite Hid. apply list_elem_of_fmap. by exists b.
    + intros k lst Hk. destruct (Hg1 k lst Hk) as [lst1 Hk1]. by apply (Hg2 k lst1).
Qed.
End Loop.
