(* ===== verification/Http.v ===== *)
(** The HTTP requests and responses the gateway's handlers work on (net/http,
    the standard library) and src/apiutil.go/api.go: the response envelope of
    the API, its writer and its reader.  The theorem: what the writer sends the
    reader takes apart. *)
From S2P Require Import Prelude GoText Json Codec.

(** * Requests

    [URLParam] is the part of the path chi binds to [id]; reading the body ends
    with [Body_err], nil at its end. *)
Record Request := mkRequest {
  URL_Path : string;
  Authorization : string;
  Accept : string;
  Cookie_auth_token : option string;
  URLParam_id : string;
  Body : string;
  Body_err : option error
}.

Definition ReadAll (r : Request) : string + error :=
  match Body_err r with Some e => inr e | None => inl (Body r) end.

(** [json.NewDecoder(r.Body).Decode(&a)]: an object or an array that is
    complete is decoded before the body's error is met. *)
Definition DecodeBody {A} `{JsonCodec A} (r : Request) (a : A) : A + error :=
  match Body_err r with
  | None => Decode (Body r) a
  | Some e =>
      match ParseFirst (Body r) with
      | Some (JObj _) | Some (JArr _) => Decode (Body r) a
      | _ => inr e
      end
  end.

(** * Responses *)

Record Cookie := mkCookie { ck_Name : string; ck_Value : string; ck_Path : string; ck_Expires : Z }.

(** [status] is set by the first write; the client may be gone, then writes
    return [write_err]. *)
Record ResponseWriter := mkWriter {
  status : option Z;
  header : gmap string (list string);
  cookies : list Cookie;
  body : string;
  write_err : option error
}.

Definition new_writer (e : option error) : ResponseWriter := mkWriter None ∅ [] "" e.

(** Changes of the header after the first write are not sent. *)
Definition Header_Set (k v : string) (w : ResponseWriter) : ResponseWriter :=
  match status w with
  | None => mkWriter None (<[k := [v]]> (header w)) (cookies w) (body w) (write_err w)
  | Some _ => w
  end.
Definition Header_Add (k v : string) (w : ResponseWriter) : ResponseWriter :=
  match status w with
  | None => mkWriter None (<[k := default [] (header w !! k) ++ [v]]> (header w)) (cookies w) (body w) (write_err w)
  | Some _ => w
  end.
Definition SetCookie (c : Cookie) (w : ResponseWriter) : ResponseWriter :=
  match status w with
  | None => mkWriter None (header w) (cookies w ++ [c]) (body w) (write_err w)
  | Some _ => w
  end.
Definition WriteHeader (code : Z) (w : ResponseWriter) : ResponseWriter :=
  match status w with
  | None => mkWriter (Some code) (header w) (cookies w) (body w) (write_err w)
  | Some _ => w
  end.
Definition Write (data : string) (w : ResponseWriter) : option error * ResponseWriter :=
  let w := WriteHeader 200 w in
  match write_err w with
  | Some e => (Some e, w)
  | None => (None, mkWriter (status w) (header w) (cookies w) (body w +:+ data) None)
  end.

Definition StatusOK : Z := 200.
Definition StatusFound : Z := 302.
Definition StatusBadRequest : Z := 400.
Definition StatusUnauthorized : Z := 401.
Definition StatusInternalServerError : Z := 500.

Definition newline : string := String "010" "".

(** [http.Error] and [http.Redirect]; the latter's body is a link to the
    target when the request's method is GET or HEAD, which is not modelled. *)
Definition http_Error (msg : string) (code : Z) (w : ResponseWriter) : ResponseWriter :=
  (Write (msg +:+ newline)
     (WriteHeader code
       (Header_Set "X-Content-Type-Options" "nosniff"
         (Header_Set "Content-Type" "text/plain; charset=utf-8" w)))).2.
Definition http_Redirect (url : string) (code : Z) (w : ResponseWriter) : ResponseWriter :=
  WriteHeader code (Header_Set "Location" url w).

(** * Handlers

    A handler changes the server's state and the response. *)
Record Http (S : Type) := mkHttp { srv : S; w : ResponseWriter }.
Arguments mkHttp {S} srv w.
Arguments srv {S} h.
Arguments w {S} h.

Definition server {S A} (m : GoM S A) : GoM (Http S) A := zoom srv (fun s h => mkHttp s (w h)) m.
Definition respond {S} (f : ResponseWriter -> ResponseWriter) : GoM (Http S) unit :=
  modify (fun h => mkHttp (srv h) (f (w h))).

Abbreviation Handler S := (Request -> GoM (Http S) unit).

Lemma server_run {S A} (m : GoM S A) h : server m h = (fst (m (srv h)), mkHttp (snd (m (srv h))) (w h)).
Proof. unfold server, zoom. by destruct (m (srv h)). Qed.

(** * The API's envelope

    [Data] is what the interface value prints as, [None] when it is nil and
    therefore left out. *)
Record ApiResponse := mkApi { Code : Z; Message : string; Data : option json }.

Definition api_json (r : ApiResponse) : json :=
  JObj ([("code", json_of (Code r)); ("message", json_of (Message r))] ++
        match Data r with Some d => [("data", d)] | None => [] end).

(** A slice in the envelope: Go prints the nil slice as [null]. *)
Definition slice_json {A} `{JsonCodec A} (l : list A) : json :=
  match l with [] => JNull | _ => json_of l end.

Definition api_body (r : ApiResponse) : ApiResponse :=
  if (Code r =? 0) && String.eqb (Message r) "" then mkApi (Code r) "ok" (Data r) else r.

(** Marshalling the values the handlers send does not fail. *)
Definition SendAPIRespWithOk_w (r : ApiResponse) (w : ResponseWriter) : option error * ResponseWriter :=
  Write (print (api_json (api_body r)))
    (WriteHeader StatusOK (Header_Set "Content-Type" "application/json" w)).
(** The handlers drop its error. *)
Definition SendAPIRespWithOk {S} (r : ApiResponse) : GoM (Http S) unit :=
  respond (fun w => (SendAPIRespWithOk_w r w).2).

(** [ParseHttpResponse]: a response with a status text, its body decoded into
    an envelope whose data points to [v].  A [null] for the data leaves [v]; what
    a decoding error leaves in the variable is not modelled, [v] stands for it. *)
Record ApiInto (A : Type) := mkInto { in_code : Z; in_message : string; in_data : A }.
Arguments mkInto {A} in_code in_message in_data.
Arguments in_code {A} a.
Arguments in_message {A} a.
Arguments in_data {A} a.

Definition into_fields {A} `{JsonCodec A} : list (field (ApiInto A)) :=
  [ jfield "code" in_code (fun c r => mkInto c (in_message r) (in_data r));
    jfield "message" in_message (fun m r => mkInto (in_code r) m (in_data r));
    mkField "data" (fun r => json_of (in_data r))
      (fun j r => match j with
                  | JNull => Some r
                  | _ => match json_into j (in_data r) with
                         | Some v => Some (mkInto (in_code r) (in_message r) v)
                         | None => None
                         end
                  end) ].

Definition ParseHttpResponse {A} `{JsonCodec A} (statusCode : Z) (statusText : string) (bodyText : string)
    (v : A) : A * option error :=
  if negb (statusCode =? StatusOK) then (v, Some (ErrText statusText))
  else
    match ParseFirst bodyText with
    | None => (v, Some ErrJSON)
    | Some j =>
        match struct_into into_fields j (mkInto 0 "" v) with
        | Some r => (in_data r, None)
        | None => (v, Some ErrJSON)
        end
    end.

(** * Lemmas *)

Lemma api_json_ok r : json_fits (Code r) -> json_fits (Message r) ->
  (forall d, Data r = Some d -> json_ok d = true) -> json_ok (api_json r) = true.
Proof.
  intros Hc Hm Hd. unfold api_json. cbn [json_ok].
  rewrite forallb_app. cbn [forallb fst snd]. rewrite (codec_ok _ Hc), (codec_ok _ Hm). simpl.
  destruct (Data r) as [d|]; [|done]. simpl. by rewrite (Hd d).
Qed.

Lemma api_json_depth r n : (forall d, Data r = Some d -> (depth d <= n)%nat) ->
  (depth (api_json r) <= S n)%nat.
Proof.
  intros Hd. unfold api_json. simpl. apply le_n_S. destruct (Data r) as [d|]; simpl.
  - specialize (Hd d eq_refl). lia.
  - lia.
Qed.

(** An API answer is sent once, with status 200. *)
Lemma SendAPIRespWithOk_fresh {S} (r : ApiResponse) (s : S) :
  SendAPIRespWithOk r (mkHttp s (new_writer None)) =
  (Ret tt, mkHttp s (mkWriter (Some 200) {[ "Content-Type" := ["application/json"] ]} []
                       (print (api_json (api_body r))) None)).
Proof. reflexivity. Qed.

Lemma api_body_code r : Code (api_body r) = Code r.
Proof. unfold api_body. by case_match. Qed.
Lemma api_body_data r : Data (api_body r) = Data r.
Proof. unfold api_body. by case_match. Qed.
Lemma api_body_msg r : json_fits (Message r) -> json_fits (Message (api_body r)).
Proof. unfold api_body. by case_match. Qed.

Lemma envelope_into {A} `{JsonCodec A} r (v : A) : is_s64 (Code r) ->
  struct_into into_fields (api_json r) (mkInto 0 "" v) =
  match Data r with
  | None | Some JNull => Some (mkInto (Code r) (Message r) v)
  | Some d => match json_into d v with
              | Some a => Some (mkInto (Code r) (Message r) a) | None => None end
  end.
Proof.
  intros Hc. assert (E : json_into (json_of (Code r)) 0 = Some (Code r)) by exact (codec_into (Code r) Hc).
  assert (F1 : find_field (into_fields (A := A)) "code" = nth_error into_fields 0) by reflexivity.
  assert (F2 : find_field (into_fields (A := A)) "message" = nth_error into_fields 1) by reflexivity.
  assert (F3 : find_field (into_fields (A := A)) "data" = nth_error into_fields 2) by reflexivity.
  assert (Es : forall m s, json_into (A := string) (json_of m) s = Some m) by done.
  unfold api_json, struct_into, obj_into. rewrite foldl_app. cbn [foldl fst snd]. rewrite F1, F2.
  cbn [nth_error into_fields jfield finto in_code in_message in_data]. rewrite E, Es.
  destruct (Data r) as [d|]; [|done]. cbn [foldl fst snd]. rewrite F3.
  cbn [nth_error into_fields finto in_code in_message in_data].
  destruct d; try done; by destruct (json_into _ v).
Qed.

(** What is sent is read back as the envelope's data. *)
Lemma parse_sent {A} `{JsonCodec A} r (v : A) :
  is_s64 (Code r) -> valid_utf8 (Message r) = true ->
  (forall d, Data r = Some d -> json_ok d = true /\ (depth d <= 100)%nat) ->
  ParseHttpResponse StatusOK "200 OK" (print (api_json (api_body r))) v =
  match Data r with
  | None | Some JNull => (v, None)
  | Some d => match json_into d v with Some a => (a, None) | None => (v, Some ErrJSON) end
  end.
Proof.
  intros Hc Hm Hd. unfold ParseHttpResponse. simpl negb. cbv iota.
  rewrite <- (string_app_nil_r (print _)), ParseFirst_print; [| | |done].
  - rewrite envelope_into, api_body_data by (by rewrite api_body_code).
    destruct (Data r) as [d|]; [|done]. destruct d; try done; by destruct (json_into _ v).
  - apply api_json_ok; rewrite ?api_body_code, ?api_body_data; [done|by apply api_body_msg|].
    intros d Hdd. by apply Hd.
  - assert (depth (api_json (api_body r)) <= 101)%nat; [|unfold maxNestingDepth; lia].
    apply api_json_depth. rewrite api_body_data. intros d Hdd. by apply Hd.
Qed.

(** The reader of the API undoes the writer: for data that JSON carries and
    that does not print as [null], what [SendAPIRespWithOk] writes to a fresh
    response has status 200 and, given to [ParseHttpResponse], yields the data;
    an answer without data leaves the caller's variable; and the envelope's code
    is not looked at, so an error answer also counts as success. *)
Theorem api_roundtrip {A} `{CodecLaws A} (a v : A) code msg :
  is_s64 code -> valid_utf8 msg = true -> json_fits a -> (json_depth (A := A) <= 100)%nat ->
  json_of a <> JNull ->
  let sent r := (SendAPIRespWithOk_w r (new_writer None)).2 in
  let read r v := ParseHttpResponse (default 0 (status (sent r))) "200 OK" (body (sent r)) v in
  status (sent (mkApi code msg (Some (json_of a)))) = Some 200 /\
  read (mkApi code msg (Some (json_of a))) zero = (json_norm a, None) /\
  read (mkApi code msg None) v = (v, None) /\
  (code <> 0 -> read (mkApi code msg None) v = read (mkApi 0 "" None) v).
Proof.
  intros Hc Hm Ha Hd Hn sent read.
  assert (Hnone : forall c m u, is_s64 c -> valid_utf8 m = true -> read (mkApi c m None) u = (u, None)).
  { intros c m u Hc1 Hm1. exact (parse_sent (mkApi c m None) u Hc1 Hm1 ltac:(done)). }
  split_and!; [done| |by apply Hnone|intros _; by rewrite !Hnone].
  assert (Hp := parse_sent (mkApi code msg (Some (json_of a))) zero Hc Hm).
  etrans; [apply Hp|]; cbn [Data].
  - intros d [= <-]. split; [by apply codec_ok|]. pose proof (codec_depth a). lia.
  - rewrite (codec_into a Ha). by destruct (json_of a).
Qed.

Lemma api_roundtrip_witness :
  let sent r := (SendAPIRespWithOk_w r (new_writer None)).2 in
  let read r v := ParseHttpResponse (default 0 (status (sent r))) "200 OK" (body (sent r)) v in
  status (sent (mkApi 500 "x" (Some (json_of "a<b")))) = Some 200 /\
  read (mkApi 500 "x" (Some (json_of "a<b"))) zero = (json_norm "a<b", None) /\
  read (mkApi 500 "x" None) "v" = ("v", None) /\
  (500 <> 0 -> read (mkApi 500 "x" None) "v" = read (mkApi 0 "" None) "v").
Proof.
  apply (api_roundtrip "a<b" "v" 500 "x"); [unfold is_s64; lia|done|done|simpl; lia|done].
Defined.
