(* ===== verification/Session.v ===== *)
(** src/gateway/gateway.go, lines 338-482 and 264-335: the login of the web
    console.  [handleLogin], [handleLogout], [handleChangePassword] and
    [authMiddleware] over the session table, its timers and the stored password.
    The theorems: the table refines a map from live tokens to deadlines, the
    middleware lets exactly the exempt paths and the live sessions through, what
    each login handler does on every branch, and that every route of the API but
    the login ones is guarded. *)
From S2P Require Import Prelude GoText Json Codec Store Http.

(** * Data *)

Record loginReq := mkLogin { lr_Username : string; lr_Password : string }.
Definition login_fields : list (field loginReq) :=
  [ jfield "username" lr_Username (fun v r => mkLogin v (lr_Password r));
    jfield "password" lr_Password (fun v r => mkLogin (lr_Username r) v) ].
#[export] Instance login_codec : JsonCodec loginReq := {
  json_of := struct_json login_fields;
  json_into := struct_into login_fields;
  zero := mkLogin "" "";
  json_fits r := json_fits (lr_Username r) /\ json_fits (lr_Password r);
  json_norm := id;
  json_depth := 1
}.
#[export] Instance login_laws : CodecLaws loginReq.
Proof. struct_laws. Qed.

Record changeReq := mkChange { cr_CurrentPassword : string; cr_NewPassword : string }.
Definition change_fields : list (field changeReq) :=
  [ jfield "current_password" cr_CurrentPassword (fun v r => mkChange v (cr_NewPassword r));
    jfield "new_password" cr_NewPassword (fun v r => mkChange (cr_CurrentPassword r) v) ].
#[export] Instance change_codec : JsonCodec changeReq := {
  json_of := struct_json change_fields;
  json_into := struct_into change_fields;
  zero := mkChange "" "";
  json_fits r := json_fits (cr_CurrentPassword r) /\ json_fits (cr_NewPassword r);
  json_norm := id;
  json_depth := 1
}.
#[export] Instance change_laws : CodecLaws changeReq.
Proof. struct_laws. Qed.

(** Times are in nanoseconds. *)
Definition Second : Z := 1000000000.
Definition Minute : Z := 60 * Second.
Definition Hour : Z := 60 * Minute.

Definition success_json : string := print (JObj [("success", JBool true)]).

(** * The routes

    [router]: the mount point, the method, the pattern below it ([Param]: its
    last segment is bound to [id]) and the handler. *)
Inductive pattern := Lit (p : string) | Param (pre : string).
Inductive handler :=
  | HLogin | HChangePassword | HLogout
  | HListResources | HGetResource | HAddResource | HUpdateResource | HDeleteResource
  | HGatewayInfo | HGatewayName | HRestart
  | HGetProxyConfig | HUpdateProxyConfig
  | HListOutbounds | HGetOutbound | HAddOutbound | HUpdateOutbound | HDeleteOutbound
  | HUpgradeMyself | HDownloadAPK
  | HAddApp | HUpdateApp | HDeleteApp | HListApps | HGetApp.

Inductive method := GET | POST.

(** The static files, mounted at the root, answer GET requests no other route
    matches. *)
Definition router : list (string * list (method * pattern * handler)) :=
  [ ("/login",
      [ (POST, Lit "/", HLogin);
        (POST, Lit "/change_password", HChangePassword);
        (POST, Lit "/logout", HLogout) ]);
    ("/resource",
      [ (GET, Lit "/list", HListResources);
        (GET, Param "/get/", HGetResource);
        (POST, Lit "/add", HAddResource);
        (POST, Lit "/update", HUpdateResource);
        (POST, Lit "/delete", HDeleteResource) ]);
    ("/gateway",
      [ (GET, Lit "/info", HGatewayInfo);
        (POST, Lit "/name", HGatewayName);
        (GET, Lit "/restart", HRestart) ]);
    ("/proxy_service",
      [ (GET, Lit "/config", HGetProxyConfig);
        (POST, Lit "/config", HUpdateProxyConfig) ]);
    ("/proxy_client",
      [ (GET, Lit "/list", HListOutbounds);
        (GET, Param "/get/", HGetOutbound);
        (POST, Lit "/add", HAddOutbound);
        (POST, Lit "/update", HUpdateOutbound);
        (POST, Lit "/delete", HDeleteOutbound) ]);
    ("/upgrade",
      [ (GET, Lit "/myself", HUpgradeMyself);
        (GET, Lit "/agent/android", HDownloadAPK) ]);
    ("/app",
      [ (POST, Lit "/add", HAddApp);
        (POST, Lit "/update", HUpdateApp);
        (POST, Lit "/delete", HDeleteApp);
        (GET, Lit "/list", HListApps);
        (GET, Param "/get/", HGetApp) ]) ].

Definition routes : list (string * method * pattern * handler) :=
  concat (map (fun g => map (fun x => (g.1, x.1.1, x.1.2, x.2)) g.2) router).

(** The path of a request that a route matches. *)
Definition route_path (mount : string) (p : pattern) (id : string) : string :=
  match p with Lit q => mount +:+ q | Param pre => mount +:+ pre +:+ id end.

(** The paths the middleware does not guard. *)
Definition exempt (path : string) : bool :=
  String.eqb path "/js/login.js" || String.eqb path "/css/login.css" ||
  String.eqb path "/css/style.css" || String.eqb path "/favicon.ico" ||
  HasPrefix path "/login" || HasPrefix path "/static/" || HasPrefix path "/api/".

Section Session.
Context {DB : Type} {Db : LevelDB DB} {Dbl : LevelDBLaws DB}.

(** The part of the gateway these handlers use.  [sessions] is [None] while the
    Go map is nil; [timers] are the pending [AfterFunc]s: when each is due and
    the token it deletes; [uuids] counts the identifiers generated. *)
Record Sessions := mkSessions {
  s_db : DB;
  sessions : option (gmap string bool);
  timers : list (Z * string);
  now : Z;
  uuids : nat
}.

Definition set_s_db (d : DB) (s : Sessions) : Sessions :=
  mkSessions d (sessions s) (timers s) (now s) (uuids s).
Definition set_sessions (m : option (gmap string bool)) (s : Sessions) : Sessions :=
  mkSessions (s_db s) m (timers s) (now s) (uuids s).

(** [delete(g.sessions, token)]: nothing happens to a nil map. *)
Definition delete_session (token : string) (s : Sessions) : Sessions :=
  set_sessions (delete token <$> sessions s) s.

(** [g.sessions[token]] *)
Definition session_get (token : string) (s : Sessions) : bool :=
  default false (default ∅ (sessions s) !! token).

Definition adminPassword : string := "admin_password".

(** [uuid.New().String()]: the n-th identifier generated. *)
Context (uuid_New : nat -> string).

Definition http_fail {S} (msg : string) (code : Z) : GoM (Http S) unit := respond (http_Error msg code).

Definition handleChangePassword : Handler Sessions := fun r =>
  match DecodeBody r (zero (A := changeReq)) with
  | inr _ => http_fail "Invalid request" StatusBadRequest
  | inl req =>
      s <- server get ;;
      match db_Get adminPassword (s_db s) with
      | inr _ => http_fail "Invalid current password" StatusUnauthorized
      | inl storedPass =>
          if negb (String.eqb (cr_CurrentPassword req) storedPass)
          then http_fail "Invalid current password" StatusUnauthorized
          else
            err <- server (zoom s_db set_s_db (dbPut adminPassword (cr_NewPassword req))) ;;
            match err with
            | Some _ => http_fail "Failed to update password" StatusInternalServerError
            | None => respond (fun w => (Write success_json w).2)
            end
      end
  end.

Definition handleLogout : Handler Sessions := fun r =>
  respond (SetCookie (mkCookie "auth_token" "" "/" 0)) ;;;
  (if negb (String.eqb (Authorization r) "")
   then server (modify (delete_session (Authorization r))) else ret tt) ;;;
  respond (fun w => (Write success_json w).2).

Definition login_token : GoM Sessions string :=
  s <- get ;;
  put (mkSessions (s_db s) (sessions s) (timers s) (now s) (S (uuids s))) ;;;
  ret (uuid_New (uuids s)).

Definition register_session (token : string) : GoM Sessions unit :=
  modify (fun s => mkSessions (s_db s) (Some (<[token := true]> (default ∅ (sessions s))))
                     (timers s ++ [(now s + Minute * 15, token)]) (now s) (uuids s)).

Definition login_json (token : string) : string :=
  print (JObj [("success", JBool true); ("token", JStr token)]) +:+ newline.

Definition handleLogin : Handler Sessions := fun r =>
  match DecodeBody r (zero (A := loginReq)) with
  | inr _ => http_fail "Invalid request" StatusBadRequest
  | inl req =>
      s <- server get ;;
      match db_Get adminPassword (s_db s) with
      | inr _ => http_fail "Internal server error" StatusInternalServerError
      | inl storedPass =>
          if negb (String.eqb (lr_Username req) "admin") || negb (String.eqb (lr_Password req) storedPass)
          then http_fail "Invalid credentials" StatusUnauthorized
          else
            token <- server login_token ;;
            respond (SetCookie (mkCookie "auth_token" token "/" (now s + Hour))) ;;;
            server (register_session token) ;;;
            respond (Header_Set "Content-Type" "application/json") ;;;
            respond (fun w => (Write (login_json token) w).2)
      end
  end.

(** ** The middleware

    [view] is the part of the server's state it looks at. *)

Definition request_token (r : Request) : string :=
  if String.eqb (Authorization r) "" then default "" (Cookie_auth_token r) else Authorization r.

Definition validSession (token : string) (s : Sessions) : bool :=
  negb (String.eqb token "") && session_get token s.

Definition authMiddleware {S} (view : S -> Sessions) (next : Handler S) : Handler S := fun r =>
  if exempt (URL_Path r) then next r
  else
    s <- server get ;;
    if negb (validSession (request_token r) (view s)) then
      if Contains (Accept r) "text/html" then respond (http_Redirect "/login.html" StatusFound)
      else http_fail "Unauthorized" StatusUnauthorized
    else next r.

(** ** Events

    What can happen to the sessions: requests to the login handlers, time, and
    a timer that is due runs (when the scheduler gets to it). *)
Inductive event := EvLogin (r : Request) | EvLogout (r : Request) | EvChange (r : Request)
  | EvTime (d : Z) | EvFire (k : nat).

Definition fire (k : nat) (s : Sessions) : Sessions :=
  match timers s !! k with
  | Some (due, token) =>
      if due <=? now s then
        delete_session token (mkSessions (s_db s) (sessions s) (delete k (timers s)) (now s) (uuids s))
      else s
  | None => s
  end.

Definition handled (h : Handler Sessions) (r : Request) (s : Sessions) : Sessions :=
  srv (h r (mkHttp s (new_writer None))).2.

Definition step (s : Sessions) (e : event) : Sessions :=
  match e with
  | EvLogin r => handled handleLogin r s
  | EvLogout r => handled handleLogout r s
  | EvChange r => handled handleChangePassword r s
  | EvTime d => mkSessions (s_db s) (sessions s) (timers s) (now s + Z.max 0 d) (uuids s)
  | EvFire k => fire k s
  end.

(** ** The specification: live tokens and their deadlines *)

(** The credentials are right. *)
Definition login_ok (r : Request) (s : Sessions) : bool :=
  match DecodeBody r (zero (A := loginReq)) with
  | inl req => String.eqb (lr_Username req) "admin" &&
               match db_Get adminPassword (s_db s) with
               | inl p => String.eqb (lr_Password req) p | inr _ => false end
  | inr _ => false
  end.

Definition spec_step (s : Sessions) (live : gmap string Z) (e : event) : gmap string Z :=
  match e with
  | EvLogin r => if login_ok r s then <[uuid_New (uuids s) := now s + Minute * 15]> live else live
  | EvLogout r => delete (Authorization r) live
  | EvChange _ | EvTime _ => live
  | EvFire k => match timers s !! k with
                | Some (due, token) => if due <=? now s then delete token live else live
                | None => live
                end
  end.

Fixpoint run_events (es : list event) (s : Sessions) (live : gmap string Z) : Sessions * gmap string Z :=
  match es with
  | [] => (s, live)
  | e :: es' => run_events es' (step s e) (spec_step s live e)
  end.

(** uuids are never empty and never repeat. *)
Definition uuid_ok : Prop :=
  (forall n, uuid_New n <> "") /\ forall n1 n2, uuid_New n1 = uuid_New n2 -> n1 = n2.

(** The table holds the live tokens, each with its timer pending, and no token
    of the future. *)
Definition sess_inv (s : Sessions) (live : gmap string Z) : Prop :=
  (forall t, session_get t s = true <-> is_Some (live !! t)) /\
  (forall t d, live !! t = Some d -> (d, t) ∈ timers s) /\
  (forall d t, (d, t) ∈ timers s -> exists n, (n < uuids s)%nat /\ t = uuid_New n) /\
  NoDup (timers s).*2.

Lemma handled_eq h r s o s' w' : h r (mkHttp s (new_writer None)) = (o, mkHttp s' w') -> handled h r s = s'.
Proof. unfold handled. by intros ->. Qed.

(** What the handlers do, on every branch. *)
Lemma handleLogin_run r s wr :
  handleLogin r (mkHttp s wr) =
  if login_ok r s then
    let token := uuid_New (uuids s) in
    (Ret tt, mkHttp (mkSessions (s_db s) (Some (<[token := true]> (default ∅ (sessions s))))
                      (timers s ++ [(now s + Minute * 15, token)]) (now s) (S (uuids s)))
               (Write (login_json token) (Header_Set "Content-Type" "application/json"
                  (SetCookie (mkCookie "auth_token" token "/" (now s + Hour)) wr))).2)
  else
    (Ret tt, mkHttp s
      match DecodeBody r (zero (A := loginReq)), db_Get adminPassword (s_db s) with
      | inr _, _ => http_Error "Invalid request" 400 wr
      | inl _, inr _ => http_Error "Internal server error" 500 wr
      | inl _, inl _ => http_Error "Invalid credentials" 401 wr
      end).
Proof.
  unfold handleLogin, login_ok. destruct (DecodeBody r zero) as [req|e]; [|reflexivity].
  unfold bind at 1. rewrite server_run. unfold get. cbn [fst snd srv w].
  destruct (db_Get adminPassword (s_db s)) as [p|e]; [|by rewrite andb_false_r].
  destruct (String.eqb (lr_Username req) "admin"), (String.eqb (lr_Password req) p); reflexivity.
Qed.

Lemma handleLogout_run r s wr :
  handleLogout r (mkHttp s wr) =
  (Ret tt, mkHttp (if String.eqb (Authorization r) "" then s else delete_session (Authorization r) s)
             (Write success_json (SetCookie (mkCookie "auth_token" "" "/" 0) wr)).2).
Proof. unfold handleLogout. by destruct (String.eqb (Authorization r) ""). Qed.

(** The current password given is the stored one: the new one. *)
Definition changes (r : Request) (s : Sessions) : option string :=
  match DecodeBody r (zero (A := changeReq)) with
  | inl req => match db_Get adminPassword (s_db s) with
               | inl p => if String.eqb (cr_CurrentPassword req) p then Some (cr_NewPassword req) else None
               | inr _ => None
               end
  | inr _ => None
  end.

Lemma handleChange_run r s wr : exists w',
  handleChangePassword r (mkHttp s wr) =
    (Ret tt, mkHttp (match changes r s with Some p => set_s_db (db_Put adminPassword p (s_db s)).2 s | None => s end) w').
Proof.
  unfold handleChangePassword, changes. destruct (DecodeBody r zero) as [req|e]; [|by eexists].
  unfold bind at 1. rewrite server_run. unfold get. cbn [fst snd srv w].
  destruct (db_Get adminPassword (s_db s)) as [p|e]; [|by eexists].
  destruct (String.eqb (cr_CurrentPassword req) p); [|by eexists].
  unfold negb, server, bind, zoom, dbPut. cbn [srv w].
  destruct (db_Put adminPassword (cr_NewPassword req) (s_db s)) as [[e|] d']; by eexists.
Qed.

Lemma handleChange_sessions r s wr : exists d w',
  handleChangePassword r (mkHttp s wr) = (Ret tt, mkHttp (set_s_db d s) w').
Proof.
  destruct (handleChange_run r s wr) as [w' E]. rewrite E. destruct (changes r s) as [p|]; [by eexists _, _|].
  exists (s_db s), w'. by destruct s.
Qed.

(** ** The table refines the live tokens *)

Definition start (d : DB) (t : Z) : Sessions := mkSessions d None [] t 0.

Lemma start_inv d t : sess_inv (start d t) ∅.
Proof.
  split_and!; try done; [| |constructor].
  - intros x. unfold session_get, start. cbn [sessions]. simpl. rewrite !lookup_empty. simpl.
    split; [done|by intros []].
  - intros x y Hx. by apply elem_of_nil in Hx.
Qed.

Lemma session_get_delete t u s :
  session_get t (delete_session u s) = if decide (t = u) then false else session_get t s.
Proof.
  unfold session_get, delete_session, set_sessions. cbn [sessions].
  destruct (sessions s) as [m|]; cbn; [|rewrite lookup_empty; by case_decide].
  case_decide as E; [by rewrite E, lookup_delete_eq|by rewrite lookup_delete_ne].
Qed.

Lemma inv_delete t s live : sess_inv s live -> sess_inv (delete_session t s) (delete t live).
Proof.
  intros (H1 & H2 & H3 & H4). split_and!; [| |exact H3|exact H4].
  - intros u. rewrite session_get_delete, lookup_delete_is_Some. case_decide as E.
    + split; [done|]. intros [? _]. congruence.
    + rewrite H1. split; [intros ?; split; [congruence|done]|tauto].
  - intros u d [_ Hu]%lookup_delete_Some. by apply H2.
Qed.

Lemma step_inv e s live : uuid_ok -> sess_inv s live -> sess_inv (step s e) (spec_step s live e).
Proof.
  intros [Hne Hinj] HI. pose proof HI as (H1 & H2 & H3 & H4). destruct e as [r|r|r|d|k]; cbn [step spec_step].
  - unfold handled. rewrite handleLogin_run. destruct (login_ok r s); [|exact HI]. cbn [snd srv].
    set (t := uuid_New (uuids s)).
    assert (Hnew : forall d u, (d, u) ∈ timers s -> u <> t).
    { intros d u Hu ->. destruct (H3 d t Hu) as (n & Hn & E). apply Hinj in E. lia. }
    split_and!; cbn [sessions timers uuids now].
    + intros u. unfold session_get. cbn [sessions from_option id]. destruct (decide (u = t)) as [->|Hu].
      * rewrite !lookup_insert_eq. split; [intros _; by eexists|done].
      * rewrite !lookup_insert_ne by done. apply H1.
    + intros u d. rewrite elem_of_app, list_elem_of_singleton. destruct (decide (u = t)) as [->|Hu].
      * rewrite lookup_insert_eq. intros [= <-]. by right.
      * rewrite lookup_insert_ne by done. intros Hl. left. by apply H2.
    + intros d u. rewrite elem_of_app, list_elem_of_singleton. intros [Hd|[= -> ->]].
      * destruct (H3 d u Hd) as (n & Hn & ->). exists n. split; [lia|done].
      * exists (uuids s). split; [lia|done].
    + rewrite fmap_app. apply NoDup_app. split_and!; [done| |apply NoDup_singleton].
      intros u ([d x] & -> & Hu)%list_elem_of_fmap Hu2. simpl in Hu2.
      apply list_elem_of_singleton in Hu2 as ->. by apply (Hnew d t).
  - unfold handled. rewrite handleLogout_run. cbn [snd srv].
    destruct (String.eqb_spec (Authorization r) "") as [E|E]; [|by apply inv_delete].
    assert (El : live !! Authorization r = None).
    { destruct (live !! Authorization r) as [d|] eqn:El; [|done]. apply H2 in El.
      destruct (H3 _ _ El) as (n & _ & Hn). rewrite E in Hn. by destruct (Hne n). }
    by rewrite delete_id.
  - unfold handled. destruct (handleChange_sessions r s (new_writer None)) as (d & w' & ->). exact HI.
  - exact HI.
  - unfold fire. destruct (timers s !! k) as [[due t]|] eqn:Ek; [|exact HI].
    destruct (due <=? now s); [|exact HI].
    pose proof (delete_Permutation _ _ _ Ek) as Hp.
    pose proof (inv_delete t s live HI) as (D1 & D2 & _ & _).
    assert (Hnd : NoDup (t :: (delete k (timers s)).*2)).
    { change (t :: (delete k (timers s)).*2) with (((due, t) :: delete k (timers s)).*2). by rewrite <- Hp. }
    split_and!; [exact D1| | |by apply NoDup_cons in Hnd as [_ ?]].
    + intros u d Hu. cbn. pose proof (D2 u d Hu) as Hin. cbn in Hin. rewrite Hp in Hin.
      apply elem_of_cons in Hin as [[= -> ->]|Hin]; [|done]. by rewrite lookup_delete_eq in Hu.
    + intros d u Hu. cbn in Hu. apply (H3 d u). rewrite Hp. by right.
Qed.

Lemma run_inv es s live : uuid_ok -> sess_inv s live ->
  sess_inv (run_events es s live).1 (run_events es s live).2.
Proof.
  intros Hu. revert s live. induction es as [|e es IH]; intros s live HI; [done|].
  cbn [run_events]. by apply IH, step_inv.
Qed.

(** The state alone, and a live token's future. *)
Definition run (es : list event) (s : Sessions) : Sessions := foldl step s es.
Lemma run_events_run es s live : (run_events es s live).1 = run es s.
Proof. revert s live. induction es as [|e es IH]; intros s live; [done|]. apply IH. Qed.

Lemma now_mono e s : now s <= now (step s e).
Proof.
  destruct e as [r|r|r|d|k]; cbn [step]; unfold handled.
  - rewrite handleLogin_run. destruct (login_ok r s); cbn; lia.
  - rewrite handleLogout_run. cbn [snd srv]. destruct (String.eqb _ _); cbn; lia.
  - destruct (handleChange_sessions r s (new_writer None)) as (d & w' & ->). cbn. lia.
  - cbn. lia.
  - unfold fire. destruct (timers s !! k) as [[d t]|]; [|lia]. destruct (d <=? now s); cbn; lia.
Qed.

Lemma run_mono es s : now s <= now (run es s).
Proof. revert s. induction es as [|e es IH]; intros s; [simpl; lia|]. specialize (IH (step s e)). pose proof (now_mono e s). simpl. unfold run in *. lia. Qed.

Lemma uuids_mono e s : (uuids s <= uuids (step s e))%nat.
Proof.
  destruct e as [r|r|r|d|k]; cbn [step]; unfold handled.
  - rewrite handleLogin_run. destruct (login_ok r s); cbn; lia.
  - rewrite handleLogout_run. cbn [snd srv]. destruct (String.eqb _ _); cbn; lia.
  - destruct (handleChange_sessions r s (new_writer None)) as (d & w' & ->). cbn. lia.
  - cbn. lia.
  - unfold fire. destruct (timers s !! k) as [[d t]|]; [|lia]. destruct (d <=? now s); cbn; lia.
Qed.

Lemma uuids_run es s : (uuids s <= uuids (run es s))%nat.
Proof. revert s. induction es as [|e es IH]; intros s; [done|]. etrans; [apply uuids_mono|apply IH]. Qed.

(** A live token keeps its deadline until it is logged out or its deadline
    passes. *)
Lemma live_kept es s live t d :
  uuid_ok -> sess_inv s live -> live !! t = Some d ->
  Forall (fun e => match e with EvLogout r => Authorization r <> t | _ => True end) es ->
  now (run es s) < d -> (run_events es s live).2 !! t = Some d.
Proof.
  intros Hu. revert s live. induction es as [|e es IH]; intros s live HI Hl Hf Hn; [done|].
  apply Forall_cons in Hf as [He Hf]. cbn [run_events].
  apply IH; [by apply step_inv| |done|exact Hn].
  pose proof HI as (_ & H2 & H3 & H4). pose proof (H2 t d Hl) as Ht.
  assert (Hlt : now s < d).
  { pose proof (now_mono e s). pose proof (run_mono es (step s e)). cbn [run foldl] in Hn. unfold run in *. lia. }
  destruct e as [r|r|r|x|k]; cbn [spec_step]; [|by rewrite lookup_delete_ne|done|done|].
  - destruct (login_ok r s); [|done]. rewrite lookup_insert_ne; [done|]. intros E.
    destruct (H3 _ _ Ht) as (n & Hlen & En). rewrite <- E in En. apply Hu in En. lia.
  - destruct (timers s !! k) as [[due u]|] eqn:Ek; [|done]. destruct (Z.leb_spec due (now s)); [|done].
    rewrite lookup_delete_ne; [done|]. intros ->. apply list_elem_of_lookup_1 in Ht as (j & Hj).
    assert (j = k) as ->.
    { eapply NoDup_lookup; [exact H4| |]; rewrite list_lookup_fmap; [by rewrite Hj|by rewrite Ek]. }
    rewrite Ek in Hj. injection Hj as ->. lia.
Qed.

(** A deadline never changes, and a token that was issued and is dead stays
    dead. *)
Lemma deadline_fixed es s live t d n :
  uuid_ok -> t = uuid_New n -> (n < uuids s)%nat -> (forall d', live !! t = Some d' -> d' = d) ->
  forall d', (run_events es s live).2 !! t = Some d' -> d' = d /\ is_Some (live !! t).
Proof.
  intros [_ Hinj] Ht. revert s live. induction es as [|e es IH]; intros s live Hn Hd d'.
  { cbn. intros Hl. split; [by apply Hd|by eexists]. }
  cbn [run_events]. intros Hl.
  assert (Hsub : forall x, spec_step s live e !! t = Some x -> live !! t = Some x).
  { intros x. destruct e as [r|r|r|y|k]; cbn [spec_step]; [| | done | done |].
    - destruct (login_ok r s); [|done]. rewrite lookup_insert_ne; [done|]. rewrite Ht. intros E%Hinj. lia.
    - by intros [_ ?]%lookup_delete_Some.
    - destruct (timers s !! k) as [[due u]|]; [|done]. destruct (due <=? now s); [|done].
      by intros [_ ?]%lookup_delete_Some. }
  apply IH in Hl as [-> [x Hx]].
  - split; [done|]. exists x. by apply Hsub.
  - pose proof (uuids_mono e s). lia.
  - intros y Hy. by apply Hd, Hsub.
Qed.

Lemma run_app es1 es2 s live :
  run_events (es1 ++ es2) s live = run_events es2 (run_events es1 s live).1 (run_events es1 s live).2.
Proof. revert s live. induction es1 as [|e es1 IH]; intros s live; [done|]. apply IH. Qed.

Lemma valid_live t s live : uuid_ok -> sess_inv s live -> validSession t s = true <-> is_Some (live !! t).
Proof.
  intros [Hne _] (H1 & H2 & H3 & _). rewrite <- H1. unfold validSession. rewrite andb_true_iff, negb_true_iff.
  split; [tauto|]. intros Hg. split; [|done]. apply String.eqb_neq. intros ->.
  apply H1 in Hg as [d Hd]. apply H2, H3 in Hd as (n & _ & E). by destruct (Hne n).
Qed.

(** A live token was issued by a login of the trace. *)
Lemma live_issued es s0 u d : (run_events es s0 ∅).2 !! u = Some d ->
  exists es1 r es2, es = es1 ++ EvLogin r :: es2 /\ login_ok r (run es1 s0) = true /\
    u = uuid_New (uuids (run es1 s0)).
Proof.
  revert u d. induction es as [|e es IH] using rev_ind; intros u d; [done|].
  rewrite run_app. cbn [run_events snd]. set (s := (run_events es s0 ∅).1) in *. set (live := (run_events es s0 ∅).2) in *.
  assert (Hold : live !! u = Some d -> exists es1 r es2, es ++ [e] = es1 ++ EvLogin r :: es2 /\
    login_ok r (run es1 s0) = true /\ u = uuid_New (uuids (run es1 s0))).
  { intros Hl. destruct (IH u d Hl) as (es1 & r & es2 & -> & Hr & Hu). exists es1, r, (es2 ++ [e]).
    by rewrite <- app_assoc. }
  destruct e as [r|r|r|x|k]; cbn [spec_step]; [|intros [_ Hx]%lookup_delete_Some; exact (Hold Hx)|exact Hold|exact Hold|].
  - destruct (login_ok r s) eqn:Er; [|exact Hold].
    destruct (decide (u = uuid_New (uuids s))) as [->|Hu]; [|by rewrite lookup_insert_ne].
    intros _. exists es, r, []. unfold s in *. rewrite run_events_run in *. done.
  - destruct (timers s !! k) as [[due v]|]; [|exact Hold]. destruct (due <=? now s); [|exact Hold].
    intros [_ Hx]%lookup_delete_Some. exact (Hold Hx).
Qed.

(** C10. The life of a session.  In any history of the gateway (requests, time
    and timers in any order) a login with the right credentials gives a new
    token which is accepted until 15 minutes have passed, unless a request to
    log out carries it, after which it is never accepted again; once the timers
    that are due have run, an accepted token is younger than 15 minutes; and a
    token is accepted at all only if a successful login of this history gave
    it. *)
Theorem session_lifetime d t0 es1 r es2 :
  uuid_ok -> let s := run es1 (start d t0) in login_ok r s = true ->
  let t := uuid_New (uuids s) in
  let s2 := run es2 (step s (EvLogin r)) in
  validSession t s = false /\
  (Forall (fun e => match e with EvLogout q => Authorization q <> t | _ => True end) es2 ->
     now s2 < now s + Minute * 15 -> validSession t s2 = true) /\
  ((exists q, Authorization q = t /\ EvLogout q ∈ es2) -> validSession t s2 = false) /\
  ((forall due u, (due, u) ∈ timers s2 -> now s2 < due) ->
     validSession t s2 = true -> now s2 < now s + Minute * 15) /\
  (forall u, validSession u s2 = true -> exists a q b, es1 ++ EvLogin r :: es2 = a ++ EvLogin q :: b /\
     login_ok q (run a (start d t0)) = true /\ u = uuid_New (uuids (run a (start d t0)))).
Proof.
  intros Hu s Hr t s2.
  pose proof (run_inv es1 _ _ Hu (start_inv d t0)) as HI. set (live := (run_events es1 (start d t0) ∅).2) in *.
  rewrite run_events_run in HI. fold s in HI.
  assert (Hnew : live !! t = None).
  { destruct (live !! t) as [x|] eqn:E; [|done]. pose proof HI as (_ & H2 & H3 & _).
    apply H2, H3 in E as (n & Hn & E). apply Hu in E. lia. }
  pose proof (step_inv (EvLogin r) s live Hu HI) as HI1. set (s1 := step s (EvLogin r)) in *.
  assert (Hl1 : spec_step s live (EvLogin r) = <[t := now s + Minute * 15]> live) by (cbn [spec_step]; by rewrite Hr).
  rewrite Hl1 in HI1. set (live1 := <[t := now s + Minute * 15]> live) in *.
  assert (Ht1 : live1 !! t = Some (now s + Minute * 15)) by apply lookup_insert_eq.
  assert (Hid : (uuids s < uuids s1)%nat).
  { unfold s1. cbn [step]. unfold handled. rewrite handleLogin_run, Hr. cbn. lia. }
  pose proof (run_inv es2 _ _ Hu HI1) as HI2. rewrite run_events_run in HI2. fold s2 in HI2.
  set (live2 := (run_events es2 s1 live1).2) in *.
  split_and!.
  - apply not_true_is_false. rewrite (valid_live _ _ _ Hu HI), Hnew. by intros [].
  - intros Hf Hn. apply (valid_live _ _ _ Hu HI2). eexists. by apply live_kept.
  - intros (q & Hq & (a & b & ->)%list_elem_of_split). apply not_true_is_false. rewrite (valid_live _ _ _ Hu HI2).
    intros [x Hx]. unfold live2 in Hx. rewrite run_app in Hx. cbn [run_events] in Hx.
    apply (deadline_fixed b _ _ t (now s + Minute * 15) (uuids s)) in Hx as [_ [y Hy]]; [|done|done| |].
    + cbn [spec_step] in Hy. by rewrite Hq, lookup_delete_eq in Hy.
    + pose proof (uuids_mono (EvLogout q) (run_events a s1 live1).1).
      assert (uuids s1 <= uuids (run_events a s1 live1).1)%nat; [|lia]. rewrite run_events_run.
      apply uuids_run.
    + intros y. cbn [spec_step]. by rewrite Hq, lookup_delete_eq.
  - intros Hdue Hv. apply (valid_live _ _ _ Hu HI2) in Hv as [x Hx].
    pose proof HI2 as (_ & H2 & _). pose proof (Hdue _ _ (H2 _ _ Hx)) as Hlt.
    apply (deadline_fixed es2 _ _ t (now s + Minute * 15) (uuids s)) in Hx as [-> _]; [done|done|done|done|].
    intros y Hy. congruence.
  - intros u Hv. apply (valid_live _ _ _ Hu HI2) in Hv as [x Hx].
    apply (live_issued _ _ _ x). rewrite run_app. cbn [run_events]. rewrite run_events_run. fold s live.
    rewrite Hl1. exact Hx.
Qed.

(** The middleware decides on the path and the session only: an exempt path
    or a live session (the Authorization header, or the cookie when the header
    is empty) reaches the handler with the request and the state unchanged; any
    other request changes nothing and is answered with a redirection to the
    login page when it accepts HTML, and with 401 otherwise; and an empty token
    is never a session. *)
Theorem auth_gate {S} (view : S -> Sessions) next r s wr :
  status wr = None ->
  (exempt (URL_Path r) || validSession (request_token r) (view s) = true ->
     authMiddleware view next r (mkHttp s wr) = next r (mkHttp s wr)) /\
  (exempt (URL_Path r) || validSession (request_token r) (view s) = false ->
     exists wr', authMiddleware view next r (mkHttp s wr) = (Ret tt, mkHttp s wr') /\
       (Contains (Accept r) "text/html" = true ->
          status wr' = Some 302 /\ header wr' !! "Location" = Some ["/login.html"]) /\
       (Contains (Accept r) "text/html" = false -> status wr' = Some 401)) /\
  (Authorization r = "" -> Cookie_auth_token r = None \/ Cookie_auth_token r = Some "" ->
     validSession (request_token r) (view s) = false).
Proof.
  intros Hs. unfold authMiddleware. split_and!.
  - destruct (exempt (URL_Path r)); [done|]. simpl. intros Hv. unfold bind at 1. rewrite server_run.
    unfold get. cbn [fst snd srv w]. by rewrite Hv.
  - intros [-> Hv]%orb_false_iff. unfold bind at 1. rewrite server_run. unfold get. cbn [fst snd srv w].
    rewrite Hv. simpl negb. cbv iota.
    destruct (Contains (Accept r) "text/html"); eexists; (split; [reflexivity|]); cbn [w]; split; try done; intros _.
    + unfold http_Redirect, Header_Set. rewrite Hs. unfold WriteHeader. cbn.
      split; [done|apply lookup_insert_eq].
    + unfold http_Error, Write, Header_Set. rewrite Hs. cbn. by destruct (write_err wr).
  - intros E Hc. unfold validSession, request_token. rewrite E. simpl.
    by destruct Hc as [->| ->].
Qed.

(** Changing the password.  The change is accepted exactly when the current
    password is the stored one and the store takes the new one; then a login
    needs the new password and the old one (if different) is refused; otherwise
    the stored password stays.  Sessions and timers are never touched: those
    opened with the old password stay valid. *)
Theorem password_change r s wr req :
  write_err wr = None -> status wr = None -> body wr = "" ->
  DecodeBody r (zero (A := changeReq)) = inl req ->
  exists s' wr', handleChangePassword r (mkHttp s wr) = (Ret tt, mkHttp s' wr') /\
    sessions s' = sessions s /\ timers s' = timers s /\
    (status wr' = Some 200 <-> db_Get adminPassword (s_db s) = inl (cr_CurrentPassword req) /\
                               (db_Put adminPassword (cr_NewPassword req) (s_db s)).1 = None) /\
    (status wr' = Some 200 -> body wr' = success_json /\
       forall q cred, DecodeBody q (zero (A := loginReq)) = inl cred ->
         login_ok q s' = true <-> lr_Username cred = "admin" /\ lr_Password cred = cr_NewPassword req) /\
    (status wr' <> Some 200 -> db_Get adminPassword (s_db s') = db_Get adminPassword (s_db s)).
Proof.
  intros We Ws Wb Hreq. unfold handleChangePassword. rewrite Hreq. unfold bind at 1.
  rewrite server_run. unfold get. cbn [fst snd srv w].
  assert (Hfail : forall msg code, status (http_Error msg code wr) = Some code).
  { intros msg code. unfold http_Error, Write, WriteHeader, Header_Set. rewrite Ws. cbn. by rewrite We. }
  destruct (db_Get adminPassword (s_db s)) as [p|e] eqn:Ep.
  2: { eexists s, _. split; [reflexivity|]. rewrite Hfail. split_and!; try done.
       split; [done|]. by intros [? _]. }
  destruct (String.eqb_spec (cr_CurrentPassword req) p) as [Ec|Ec]; cbn [negb].
  2: { eexists s, _. split; [reflexivity|]. rewrite Hfail. split_and!; try done.
       split; [done|]. intros [[= ->] _]. congruence. }
  unfold server, bind, zoom, dbPut. cbn [srv w].
  destruct (db_Put adminPassword (cr_NewPassword req) (s_db s)) as [[e|] d'] eqn:Ed.
  - eexists _, _. split; [reflexivity|]. rewrite Hfail. split_and!; try done.
    + split; [done|]. by intros [_ ?].
    + intros _. cbn. rewrite <- Ep. by eapply put_failed.
  - eexists _, _. split; [reflexivity|]. cbn [sessions timers set_s_db s_db w].
    assert (Hst : status (Write success_json wr).2 = Some 200 /\ body (Write success_json wr).2 = success_json).
    { unfold Write, WriteHeader. rewrite Ws. cbn. rewrite We. cbn. by rewrite Wb. }
    destruct Hst as [Hst Hb]. split_and!; [done|done| | |].
    + split; [|done]. intros _. by rewrite Ec.
    + intros _. split; [exact Hb|]. intros q cred Hq. unfold login_ok. rewrite Hq. cbn [s_db].
      cbn; rewrite (put_get _ _ _ _ Ed), andb_true_iff, !String.eqb_eq. done.
    + rewrite Hst. by intros [].
Qed.
End Session.

(** Every route of the console's API is behind the session check, except
    the three of the login group: whatever the parameter in the path. *)
Theorem routes_guarded mount m p h id :
  (mount, m, p, h) ∈ routes ->
  exempt (route_path mount p id) = true <-> h = HLogin \/ h = HChangePassword \/ h = HLogout.
Proof.
  intros Hin. unfold routes in Hin. cbn in Hin.
  repeat (apply elem_of_cons in Hin as [[= -> -> -> ->]|Hin]; [split;
    [intros E; vm_compute in E; first [discriminate|tauto]|
     intros [E|[E|E]]; first [discriminate|vm_compute; reflexivity]]|]).
  by apply elem_of_nil in Hin.
Qed.

Lemma routes_guarded_witness :
  ("/app", GET, Param "/get/", HGetApp) ∈ routes /\
  (exempt (route_path "/app" (Param "/get/") "7") = true <->
   HGetApp = HLogin \/ HGetApp = HChangePassword \/ HGetApp = HLogout).
Proof.
  assert (H : ("/app", GET, Param "/get/", HGetApp) ∈ routes).
  { unfold routes. apply list_elem_of_In. vm_compute. tauto. }
  split; [exact H|]. exact (routes_guarded "/app" GET (Param "/get/") HGetApp "7" H).
Defined.

(** * Concrete inputs *)

Fixpoint ex_uuid (n : nat) : string :=
  match n with O => "u" | S n => String "u" (ex_uuid n) end.

Lemma ex_uuid_ok : uuid_ok ex_uuid.
Proof.
  split; [by intros []|]. intros n1. induction n1 as [|n1 IH]; intros [|n2] E; simpl in E; try done.
  - destruct n2; discriminate.
  - destruct n1; discriminate.
  - injection E as E. f_equal. by apply IH.
Qed.

Definition ex_db : memdb := mkMem {[ adminPassword := "admin123" ]} None.
Definition ex_request (path auth accept body : string) : Request :=
  mkRequest path auth accept None "" body None.
Definition ex_login : Request :=
  ex_request "/login" "" "" (Marshal (mkLogin "admin" "admin123")).

(** A login, 14 minutes, a log-out. *)
Example ex_session :
  let s1 := step ex_uuid (start ex_db 0) (EvLogin ex_login) in
  let s2 := run ex_uuid [EvTime (14 * Minute); EvFire 0] s1 in
  let s3 := run ex_uuid [EvTime Minute; EvFire 0] s2 in
  let s4 := step ex_uuid s2 (EvLogout (ex_request "/login/logout" "u" "" "")) in
  validSession "u" s1 = true /\ validSession "u" s2 = true /\ validSession "u" s3 = false /\
  validSession "u" s4 = false.
Proof. vm_compute. done. Qed.

Lemma session_lifetime_witness :
  let s := run ex_uuid [EvTime 5] (start ex_db 0) in
  let s2 := run ex_uuid [EvTime Minute] (step ex_uuid s (EvLogin ex_login)) in
  validSession "u" s = false /\
  (Forall (fun e => match e with EvLogout q => Authorization q <> "u" | _ => True end) [EvTime Minute] ->
     now s2 < now s + Minute * 15 -> validSession "u" s2 = true) /\
  ((exists q, Authorization q = "u" /\ EvLogout q ∈ [EvTime Minute]) -> validSession "u" s2 = false) /\
  ((forall due u, (due, u) ∈ timers s2 -> now s2 < due) ->
     validSession "u" s2 = true -> now s2 < now s + Minute * 15) /\
  (forall u, validSession u s2 = true -> exists a q b,
     [EvTime 5] ++ EvLogin ex_login :: [EvTime Minute] = a ++ EvLogin q :: b /\
     login_ok q (run ex_uuid a (start ex_db 0)) = true /\ u = ex_uuid (uuids (run ex_uuid a (start ex_db 0)))).
Proof.
  assert (H : login_ok ex_login (run ex_uuid [EvTime 5] (start ex_db 0)) = true) by (vm_compute; reflexivity).
  exact (session_lifetime ex_uuid ex_db 0 [EvTime 5] ex_login [EvTime Minute] ex_uuid_ok H).
Defined.

Lemma auth_gate_witness :
  let r := ex_request "/app/list" "" "text/html" "" in
  let s := start ex_db 0 in let wr := new_writer None in let next := handleLogout in
  (exempt (URL_Path r) || validSession (request_token r) s = true ->
     authMiddleware id next r (mkHttp s wr) = next r (mkHttp s wr)) /\
  (exempt (URL_Path r) || validSession (request_token r) s = false ->
     exists wr', authMiddleware id next r (mkHttp s wr) = (Ret tt, mkHttp s wr') /\
       (Contains (Accept r) "text/html" = true ->
          status wr' = Some 302 /\ header wr' !! "Location" = Some ["/login.html"]) /\
       (Contains (Accept r) "text/html" = false -> status wr' = Some 401)) /\
  (Authorization r = "" -> Cookie_auth_token r = None \/ Cookie_auth_token r = Some "" ->
     validSession (request_token r) s = false).
Proof.
  exact (auth_gate id handleLogout (ex_request "/app/list" "" "text/html" "") (start ex_db 0)
           (new_writer None) eq_refl).
Defined.

Lemma password_change_witness :
  let s := start ex_db 0 in let wr := new_writer None in
  let req := mkChange "admin123" "better" in
  let r := ex_request "/login/change_password" "" "" (Marshal req) in
  exists s' wr', handleChangePassword r (mkHttp s wr) = (Ret tt, mkHttp s' wr') /\
    sessions s' = sessions s /\ timers s' = timers s /\
    (status wr' = Some 200 <-> db_Get adminPassword (s_db s) = inl (cr_CurrentPassword req) /\
                               (db_Put adminPassword (cr_NewPassword req) (s_db s)).1 = None) /\
    (status wr' = Some 200 -> body wr' = success_json /\
       forall q cred, DecodeBody q (zero (A := loginReq)) = inl cred ->
         login_ok q s' = true <-> lr_Username cred = "admin" /\ lr_Password cred = cr_NewPassword req) /\
    (status wr' <> Some 200 -> db_Get adminPassword (s_db s') = db_Get adminPassword (s_db s)).
Proof.
  assert (H : DecodeBody (ex_request "/login/change_password" "" "" (Marshal (mkChange "admin123" "better")))
                (zero (A := changeReq)) = inl (mkChange "admin123" "better")) by (vm_compute; reflexivity).
  exact (password_change _ (start ex_db 0) (new_writer None) _ eq_refl eq_refl eq_refl H).
Defined.
