(* ===== verification/GwCore.v ===== *)
(** src/gateway/gateway.go: the part of the gateway that every entry point
    shares.  The store, the two managers and the proxy settings that live on it,
    the gateway's name, token and port (lines 1172-1198 and 1219-1270), the
    authentication of proxy peers (499-506), the handshake of mapped connections
    on both sides (191-208 and 997-1016).  The theorems: the token is created
    once and is the only one accepted, and a handshake can only name a
    configured resource, which is the one the connecting gateway meant. *)
From S2P Require Import Prelude GoText GoIo Json Codec TypesId Store PortmapRes PortmapApp ProxyService Portmap.

(** * The handshake *)

Record PortmapAppHandshake := mkPmhs {
  pmhs_ResID : ID;
  pmhs_Network : string;
  pmhs_TargetAddr : string;
  pmhs_TargetPort : Z
}.

#[export] Instance PortmapAppHandshake_eq_dec : EqDecision PortmapAppHandshake.
Proof. solve_decision. Defined.

Definition pmhs_zero : PortmapAppHandshake := mkPmhs (mkID 0) "" "" 0.

Definition pmhs_fields : list (field PortmapAppHandshake) :=
  [ jfield "res_id" pmhs_ResID
      (fun v r => mkPmhs v (pmhs_Network r) (pmhs_TargetAddr r) (pmhs_TargetPort r));
    jfield "network" pmhs_Network
      (fun v r => mkPmhs (pmhs_ResID r) v (pmhs_TargetAddr r) (pmhs_TargetPort r));
    jfield "target_addr" pmhs_TargetAddr
      (fun v r => mkPmhs (pmhs_ResID r) (pmhs_Network r) v (pmhs_TargetPort r));
    jfield "target_port" pmhs_TargetPort
      (fun v r => mkPmhs (pmhs_ResID r) (pmhs_Network r) (pmhs_TargetAddr r) v) ].

Definition pmhs_fits (r : PortmapAppHandshake) : Prop :=
  json_fits (pmhs_ResID r) /\
  json_fits (pmhs_Network r) /\
  json_fits (pmhs_TargetAddr r) /\
  json_fits (pmhs_TargetPort r).

#[export] Instance pmhs_codec : JsonCodec PortmapAppHandshake := {
  json_of := struct_json pmhs_fields;
  json_into := struct_into pmhs_fields;
  zero := pmhs_zero;
  json_fits := pmhs_fits;
  json_norm := id;
  json_depth := 1
}.
#[export] Instance pmhs_laws : CodecLaws PortmapAppHandshake.
Proof. struct_laws. Qed.

Definition dbKeyToken : string := "token".
Definition dbKeyBootstraps : string := "bootstraps".
Definition dbKeyGatewayName : string := "gateway_name".
Definition dbKeyListenPort : string := "listen_port".
Definition trialID : ID := mkID 666666.
Definition defaultBootstrap : string :=
  "/dns6/bootstrap.isletnet.cn/tcp/2025/p2p/12D3KooWPqvupWVWbcjwKkvfBwPi19KerGwEfmWxdyrqRd7AtCaa".

Section Core.
Context {DB : Type} {Db : LevelDB DB} {Dbl : LevelDBLaws DB}.
(** [rand.Uint64] (the n-th value drawn) and [os.Hostname]. *)
Context (rand_Uint64 : nat -> Z) (Hostname : string + error).

(** The gateway's data: one store, shared by the managers; [g_proxySvc] is
    [None] while the pointer is nil. *)
Record Core := mkCore {
  g_db : DB;
  g_resources : option (gmap Z PortmapResource);
  g_apps : option (gmap Z PortmapApp);
  g_proxySvc : option proxyServiceConfig;
  trial : bool;
  g_rand : nat
}.

Definition set_g_db (d : DB) (g : Core) : Core :=
  mkCore d (g_resources g) (g_apps g) (g_proxySvc g) (trial g) (g_rand g).

Definition SetTrialMod : GoM Core unit :=
  modify (fun g => mkCore (g_db g) (g_resources g) (g_apps g) (g_proxySvc g) true (g_rand g)).

(** The managers as views of the data. *)
Definition prm {A} : GoM (@PortmapResMgr DB) A -> GoM Core A :=
  zoom (fun g => mkResMgr (g_db g) (g_resources g))
       (fun m g => mkCore (PortmapRes.db m) (resources m) (g_apps g) (g_proxySvc g) (trial g) (g_rand g)).
Definition pam {A} : GoM (@PortmapAppMgr DB) A -> GoM Core A :=
  zoom (fun g => mkAppMgr (g_db g) (g_apps g))
       (fun m g => mkCore (app_db m) (g_resources g) (apps m) (g_proxySvc g) (trial g) (g_rand g)).
(** A method of the settings service: a nil pointer panics at its lock. *)
Definition proxySvc {A} (m : GoM (@proxyService DB) A) : GoM Core A :=
  fun g => match g_proxySvc g with
           | None => (Panic, g)
           | Some c => zoom (fun g => mkPs (g_db g) c)
               (fun s g => mkCore (ps_db s) (g_resources g) (g_apps g) (Some (config s)) (trial g) (g_rand g)) m g
           end.

Definition dbPut_g (k v : string) : GoM Core (option error) := zoom g_db set_g_db (dbPut k v).

Definition next_rand : GoM Core Z :=
  g <- get ;;
  put (mkCore (g_db g) (g_resources g) (g_apps g) (g_proxySvc g) (trial g) (S (g_rand g))) ;;;
  ret (rand_Uint64 (g_rand g)).

(** * Name, token, port, bootstraps *)

Definition setToken (t : Z) : GoM Core (option error) := dbPut_g dbKeyToken (FormatUint t).

Definition getToken : GoM Core (Z * option error) :=
  g <- get ;;
  match db_Get dbKeyToken (g_db g) with
  | inr ErrNotFound =>
      t <- next_rand ;;
      err <- setToken t ;;
      match err with Some e => ret (0, Some e) | None => ret (t, None) end
  | inr e => ret (0, Some e)
  | inl v => ret (ParseUint v)
  end.

Definition getGatewayName : GoM Core (string * option error) :=
  g <- get ;;
  match db_Get dbKeyGatewayName (g_db g) with
  | inr ErrNotFound => match Hostname with inl h => ret (h, None) | inr e => ret ("", Some e) end
  | inr e => ret ("", Some e)
  | inl v => ret (v, None)
  end.

Definition setGatewayName (name : string) : GoM Core (option error) := dbPut_g dbKeyGatewayName name.

Definition getListenPort : GoM Core (Z * option error) :=
  g <- get ;;
  match db_Get dbKeyListenPort (g_db g) with
  | inr ErrNotFound => ret (0, None)
  | inr e => ret (0, Some e)
  | inl v => ret (Atoi v)
  end.

Definition setListenPort (port : Z) : GoM Core (option error) := dbPut_g dbKeyListenPort (Itoa port).

(** [None] is the nil slice. *)
Definition loadBootstraps (g : Core) : option (list string) :=
  match db_Get dbKeyBootstraps (g_db g) with
  | inr _ => None
  | inl data =>
      match Parse data with
      | Some JNull => None
      | _ => match Unmarshal data ([] : list string) with inl l => Some l | inr _ => None end
      end
  end.

Definition getBootstraps (g : Core) : list string :=
  match loadBootstraps g with None => [defaultBootstrap] | Some l => l end.

Definition proxyAuth (authToken : Z) : GoM Core bool :=
  let* (token, err) := getToken in
  match err with Some _ => ret false | None => ret (token =? authToken) end.

(** * Mapped connections *)

Definition handlePortmapHandshake (handshake : bytes) : GoM Core ((string * string * Z) + error) :=
  match Unmarshal (string_of_bytes handshake) pmhs_zero with
  | inr e => ret (inr e)
  | inl h =>
      g <- get ;;
      if trial g && bool_decide (pmhs_ResID h = trialID)
      then ret (inl (pmhs_Network h, pmhs_TargetAddr h, pmhs_TargetPort h))
      else
        pa <- prm (GetAppByID (pmhs_ResID h)) ;;
        if Uint64 (res_ID pa) =? 0 then ret (inr (ErrText "portmap app not found"))
        else ret (inl (res_Network pa, res_TargetAddr pa, res_TargetPort pa))
  end.

(** The function given to [SetGetHandshakeFunc]. *)
Definition getHandshake (range : gmap Z PortmapApp -> list (Z * PortmapApp)) (g : Core)
    (network ip : string) (port : Z) : string * option bytes :=
  let app := FindAppWithPort range network port (mkAppMgr (g_db g) (g_apps g)) in
  if Uint64 (app_ResID app) =? 0 then ("", None)
  else (app_PeerID app, Some (bytes_of_string (Marshal
         (mkPmhs (app_ResID app) (app_Network app) (app_TargetAddr app) (app_TargetPort app))))).

(** * Lemmas *)

Lemma FormatUint_token t : is_u64 t -> ParseUint (FormatUint t) = (t, None).
Proof. apply ParseUint_FormatUint. Qed.

(** The resources a core holds; looking one up allocates the nil map. *)
Definition held_res (g : Core) : gmap Z PortmapResource := default ∅ (g_resources g).
Definition alloc_res (g : Core) : Core :=
  mkCore (g_db g) (Some (held_res g)) (g_apps g) (g_proxySvc g) (trial g) (g_rand g).

Lemma prm_GetAppByID id g :
  prm (GetAppByID id) g = (Ret (default res_zero (held_res g !! Uint64 id)), alloc_res g).
Proof. reflexivity. Qed.

(** The gateway's token.  [getToken] returns the stored token; when there is
    none it draws one and stores it, and from then on returns that one, also
    after a restart; when the store refuses it, it returns the store's error.
    [proxyAuth] accepts exactly the token [getToken] returns. *)
Theorem token_created_once g a :
  (forall n, is_u64 (rand_Uint64 n)) ->
  exists t err g', getToken g = (Ret (t, err), g') /\
    (forall v, db_Get dbKeyToken (g_db g) = inl v -> g' = g /\ (t, err) = ParseUint v) /\
    (db_Get dbKeyToken (g_db g) = inr ErrNotFound ->
       (t, err) = match (db_Put dbKeyToken (FormatUint (rand_Uint64 (g_rand g))) (g_db g)).1 with
                  | None => (rand_Uint64 (g_rand g), None) | Some e => (0, Some e) end) /\
    (err = None -> getToken g' = (Ret (t, None), g') /\
       forall g2, g_db g2 = g_db g' -> getToken g2 = (Ret (t, None), g2)) /\
    proxyAuth a g = (Ret (match err with None => t =? a | Some _ => false end), g').
Proof.
  intros Hr. unfold proxyAuth.
  assert (Hstored : forall v t g2, db_Get dbKeyToken (g_db g2) = inl v -> ParseUint v = (t, None) ->
    getToken g2 = (Ret (t, None), g2)).
  { intros v t g2 Hv Hp. unfold getToken, bind at 1, get. rewrite Hv. unfold ret. by rewrite Hp. }
  destruct (db_Get dbKeyToken (g_db g)) as [v|e] eqn:Ev.
  - destruct (ParseUint v) as [t err] eqn:Ep. exists t, err, g.
    assert (Hg : getToken g = (Ret (t, err), g)).
    { unfold getToken, bind at 1, get. rewrite Ev. unfold ret. by rewrite Ep. }
    split_and!; [done|by intros ? [= <-]|done| |].
    + intros ->. split; [done|]. intros g2 E2. apply (Hstored v); [by rewrite E2|done].
    + rewrite (bind_Ret _ _ _ _ _ Hg). by destruct err.
  - destruct (decide (e = ErrNotFound)) as [->|He].
    + set (t := rand_Uint64 (g_rand g)). pose proof (Hr (g_rand g)) as Ht.
      destruct (db_Put dbKeyToken (FormatUint t) (g_db g)) as [o d'] eqn:Ed.
      set (g' := mkCore d' (g_resources g) (g_apps g) (g_proxySvc g) (trial g) (S (g_rand g))).
      assert (Hg : getToken g = (Ret (match o with None => (t, None) | Some e => (0, Some e) end), g')).
      { unfold getToken, bind at 1, get. rewrite Ev. unfold next_rand, setToken, dbPut_g, dbPut, bind, get, put, ret, zoom.
        cbn [g_db g_rand set_g_db]. fold t. rewrite Ed. cbn. by destruct o. }
      rewrite (bind_Ret _ _ _ _ _ Hg). destruct o as [e|].
      * exists 0, (Some e), g'. by split_and!.
      * exists t, None, g'. split_and!; [done|done|done| |done]. intros _.
        assert (Hall : forall g2, g_db g2 = d' -> getToken g2 = (Ret (t, None), g2)).
        { intros g2 E2. apply (Hstored (FormatUint t)); [|by apply FormatUint_token].
          rewrite E2. by eapply put_get. }
        split; [by apply Hall|]. intros g2 E2. by apply Hall.
    + exists 0, (Some e), g.
      assert (Hg : getToken g = (Ret (0, Some e), g)).
      { unfold getToken, bind at 1, get. rewrite Ev. by destruct e. }
      rewrite (bind_Ret _ _ _ _ _ Hg). split_and!; try done. by intros [=].
Qed.

(** C11. A handshake reaches configured targets only.  [handlePortmapHandshake]
    never panics and at most allocates the resource map; it accepts exactly when
    the handshake decodes and either the gateway is on trial and the handshake
    has the trial identifier, in which case the target is the peer's choice, or
    the identifier names a resource (with a non-zero identifier of its own), and
    then the target is the resource's, whatever the handshake says. *)
Theorem handshake_target_safe hs g n a p :
  (exists r g', handlePortmapHandshake hs g = (Ret r, g') /\ (g' = g \/ g' = alloc_res g)) /\
  ((handlePortmapHandshake hs g).1 = Ret (inl (n, a, p)) <->
   exists h, Unmarshal (string_of_bytes hs) pmhs_zero = inl h /\
     if trial g && bool_decide (pmhs_ResID h = trialID)
     then n = pmhs_Network h /\ a = pmhs_TargetAddr h /\ p = pmhs_TargetPort h
     else exists res, held_res g !! Uint64 (pmhs_ResID h) = Some res /\ Uint64 (res_ID res) <> 0 /\
          n = res_Network res /\ a = res_TargetAddr res /\ p = res_TargetPort res).
Proof.
  unfold handlePortmapHandshake. destruct (Unmarshal (string_of_bytes hs) pmhs_zero) as [h|e].
  2:{ split; [eexists _, g; split; [reflexivity|by left]|]. split; [done|]. by intros (? & ? & _). }
  unfold bind at 1 3, get. destruct (trial g && bool_decide (pmhs_ResID h = trialID)) eqn:Et.
  - split; [eexists _, g; split; [reflexivity|by left]|]. cbn. split.
    + intros [= <- <- <-]. exists h. split; [done|]. by rewrite Et.
    + intros (? & [= <-] & Hh). rewrite Et in Hh. by destruct Hh as (-> & -> & ->).
  - rewrite !(bind_Ret _ _ _ _ _ (prm_GetAppByID (pmhs_ResID h) g)).
    set (pa := default res_zero (held_res g !! Uint64 (pmhs_ResID h))).
    destruct (Z.eqb_spec (Uint64 (res_ID pa)) 0) as [E|E];
      (split; [eexists _, (alloc_res g); split; [reflexivity|by right]|]); cbn.
    + split; [done|]. intros (? & [= <-] & Hh). rewrite Et in Hh. destruct Hh as (res & Hres & Hne & _).
      unfold pa in E. by rewrite Hres in E.
    + assert (Hpa : held_res g !! Uint64 (pmhs_ResID h) = Some pa).
      { unfold pa in *. by destruct (held_res g !! Uint64 (pmhs_ResID h)). }
      split.
      * intros [= <- <- <-]. exists h. split; [done|]. rewrite Et. by exists pa.
      * intros (? & [= <-] & Hh). rewrite Et in Hh. destruct Hh as (res & Hres & _ & -> & -> & ->).
        rewrite Hpa in Hres. by injection Hres as <-.
Qed.

(** [handlePortmapHandshake] as the far end of a mapping calls it. *)
Definition far_handshake (g : Core) (hs : bytes) : (string * string * Z) + error :=
  match (handlePortmapHandshake hs g).1 with Ret r => r | Panic => inr (ErrText "panic") end.

(** The handshake of an application: what both ends of a mapping agree on. *)
Definition app_pmhs (app : PortmapApp) :=
  mkPmhs (app_ResID app) (app_Network app) (app_TargetAddr app) (app_TargetPort app).
Definition app_handshake (app : PortmapApp) : bytes := bytes_of_string (Marshal (app_pmhs app)).

Lemma app_pmhs_fits app : app_fits app -> json_fits (app_pmhs app).
Proof. intros (_ & _ & _ & F1 & F2 & _ & _ & F3 & F4 & _). exact (conj F1 (conj F2 (conj F3 F4))). Qed.

(** Where the handshake of an application leads at a gateway. *)
Lemma far_of_app g app : json_fits (app_pmhs app) ->
  far_handshake g (app_handshake app) =
    if trial g && bool_decide (app_ResID app = trialID)
    then inl (app_Network app, app_TargetAddr app, app_TargetPort app)
    else
      let res := default res_zero (held_res g !! Uint64 (app_ResID app)) in
      if Uint64 (res_ID res) =? 0 then inr (ErrText "portmap app not found")
      else inl (res_Network res, res_TargetAddr res, res_TargetPort res).
Proof.
  intros Hf. unfold far_handshake, handlePortmapHandshake, app_handshake. rewrite string_of_bytes_of_string.
  rewrite (Unmarshal_Marshal (app_pmhs app) Hf ltac:(cbn; lia) : Unmarshal _ pmhs_zero = inl _). unfold bind at 1, get.
  change (json_norm (app_pmhs app)) with (app_pmhs app). cbn [app_pmhs pmhs_ResID pmhs_Network pmhs_TargetAddr pmhs_TargetPort].
  destruct (trial g && bool_decide (app_ResID app = trialID)); [done|].
  rewrite (bind_Ret _ _ _ _ _ (prm_GetAppByID (app_ResID app) g)). cbv zeta.
  by destruct (Uint64 (res_ID (default res_zero (held_res g !! Uint64 (app_ResID app)))) =? 0).
Qed.

(** A relay that is given in one piece a handshake that leads to a TCP target
    opens that target and nothing else. *)
Lemma far_dials g hs addr port DialTCP ResolveUDP DialUDP NBConn f cs e :
  far_handshake g hs = inl ("tcp", addr, port) ->
  rx (far_stream f) = mkSource (hs :: cs) e -> (length hs <= 1024)%nat ->
  exists tr, far_trace (handleUptpStream (far_handshake g) DialTCP ResolveUDP DialUDP NBConn f).2 =
      far_trace f ++ FarDialTCP (addr +:+ ":" +:+ Itoa port) :: tr /\ no_dial tr.
Proof.
  intros Hfar Hrx Hlen. unfold handleUptpStream.
  assert (H1 : on_far (Conn_Read 1024) f = (Ret (hs, None),
    mkFar (mkConn (mkSource cs e) (tx (far_stream f)) (werr (far_stream f)) (closed (far_stream f)) (reset (far_stream f))) (far_trace f))).
  { unfold on_far, zoom. by rewrite (Conn_Read_chunk 1024 hs _ cs e Hrx Hlen). }
  rewrite (bind_Ret _ _ _ _ _ H1). cbn beta iota. rewrite Hfar. cbn [String.eqb Ascii.eqb Bool.eqb].
  exact (far_dial_tcp DialTCP NBConn _ (mkFar _ _)).
Qed.

(** A mapped connection reaches the resource it was mapped to.  When exactly
    one application of gateway A has the network and port of a connection, the
    handshake A sends decodes at gateway B to the application's resource, and
    B's relay, given that handshake in one piece, opens the resource's address
    and nothing else. *)
Theorem mapped_connection range ga gb network ip port id app res DialTCP ResolveUDP DialUDP NBConn f cs e :
  (forall rs, range rs ≡ₚ map_to_list rs) ->
  default ∅ (g_apps ga) !! id = Some app -> app_Network app = network -> app_LocalPort app = port ->
  (forall id' a', default ∅ (g_apps ga) !! id' = Some a' -> app_Network a' = network -> app_LocalPort a' = port -> a' = app) ->
  app_fits app -> Uint64 (app_ResID app) <> 0 ->
  trial gb = false -> held_res gb !! Uint64 (app_ResID app) = Some res -> Uint64 (res_ID res) <> 0 ->
  exists hs, getHandshake range ga network ip port = (app_PeerID app, Some hs) /\
    far_handshake gb hs = inl (res_Network res, res_TargetAddr res, res_TargetPort res) /\
    (rx (far_stream f) = mkSource (hs :: cs) e -> (length hs <= 1024)%nat -> res_Network res = "tcp" ->
     exists tr, far_trace (handleUptpStream (far_handshake gb) DialTCP ResolveUDP DialUDP NBConn f).2 =
         far_trace f ++ FarDialTCP (res_TargetAddr res +:+ ":" +:+ Itoa (res_TargetPort res)) :: tr /\
       no_dial tr).
Proof.
  intros Hperm Hid Hnet Hport Huniq Hfits Hne Htr Hres Hrid.
  assert (Hfar : far_handshake gb (app_handshake app) = inl (res_Network res, res_TargetAddr res, res_TargetPort res)).
  { rewrite (far_of_app gb app (app_pmhs_fits app Hfits)), Htr, Hres. cbn [andb default from_option Datatypes.id].
    by destruct (Z.eqb_spec (Uint64 (res_ID res)) 0). }
  exists (app_handshake app). split_and!; [|exact Hfar|].
  - unfold getHandshake. rewrite (find_app_one range network port (mkAppMgr (g_db ga) (g_apps ga)) id app Hperm Hid Hnet Hport Huniq).
    by destruct (Z.eqb_spec (Uint64 (app_ResID app)) 0).
  - intros Hrx Hlen Htcp. rewrite Htcp in Hfar. exact (far_dials gb _ _ _ _ _ _ _ f cs e Hfar Hrx Hlen).
Qed.
End Core.

(** * Concrete inputs *)

Definition ex_core : Core := mkCore mem_empty (Some {[ 7 := ex_res ]}) (Some {[ 9 := ex_app ]}) (Some psc_zero) false 0.
Definition ex_rand (n : nat) : Z := 4000 + Z.of_nat n mod 1000.

Lemma ex_rand_ok n : is_u64 (ex_rand n).
Proof. unfold is_u64, ex_rand. pose proof (Z.mod_pos_bound (Z.of_nat n) 1000 ltac:(lia)). lia. Qed.

Lemma token_created_once_witness :
  let g := ex_core in
  exists t err g', getToken ex_rand g = (Ret (t, err), g') /\
    (forall v, db_Get dbKeyToken (g_db g) = inl v -> g' = g /\ (t, err) = ParseUint v) /\
    (db_Get dbKeyToken (g_db g) = inr ErrNotFound ->
       (t, err) = match (db_Put dbKeyToken (FormatUint (ex_rand (g_rand g))) (g_db g)).1 with
                  | None => (ex_rand (g_rand g), None) | Some e => (0, Some e) end) /\
    (err = None -> getToken ex_rand g' = (Ret (t, None), g') /\
       forall g2, g_db g2 = g_db g' -> getToken ex_rand g2 = (Ret (t, None), g2)) /\
    proxyAuth ex_rand 4000 g = (Ret (match err with None => t =? 4000 | Some _ => false end), g').
Proof. exact (token_created_once ex_rand ex_core 4000 ex_rand_ok). Defined.

Definition ex_handshake : bytes :=
  bytes_of_string (Marshal (mkPmhs (app_ResID ex_app) (app_Network ex_app) (app_TargetAddr ex_app) (app_TargetPort ex_app))).

Lemma mapped_connection_witness :
  let f := mkFar (conn_of ex_handshake) [] in
  exists hs, getHandshake map_to_list ex_core "tcp" "127.0.0.1" 8080 = (app_PeerID ex_app, Some hs) /\
    far_handshake ex_core hs = inl (res_Network ex_res, res_TargetAddr ex_res, res_TargetPort ex_res) /\
    (rx (far_stream f) = mkSource (hs :: []) EOF -> (length hs <= 1024)%nat -> res_Network ex_res = "tcp" ->
     exists tr, far_trace (handleUptpStream (far_handshake ex_core) (fun _ => None) (fun _ => None) (fun _ => None) None f).2 =
         far_trace f ++ FarDialTCP (res_TargetAddr ex_res +:+ ":" +:+ Itoa (res_TargetPort ex_res)) :: tr /\
       no_dial tr).
Proof.
  assert (H1 : default ∅ (g_apps ex_core) !! 9 = Some ex_app) by (vm_compute; reflexivity).
  assert (H2 : forall id' a', default ∅ (g_apps ex_core) !! id' = Some a' -> app_Network a' = "tcp" ->
                 app_LocalPort a' = 8080 -> a' = ex_app).
  { intros id' a' Ha _ _. cbn in Ha. apply lookup_singleton_Some in Ha as [_ <-]. reflexivity. }
  assert (H3 : app_fits ex_app) by (repeat constructor; vm_compute; congruence).
  assert (H4 : held_res ex_core !! Uint64 (app_ResID ex_app) = Some ex_res) by (vm_compute; reflexivity).
  exact (mapped_connection map_to_list ex_core ex_core "tcp" "127.0.0.1" 8080 9 ex_app ex_res
           (fun _ => None) (fun _ => None) (fun _ => None) None (mkFar (conn_of ex_handshake) []) [] EOF
           (fun _ => reflexivity _) H1 eq_refl eq_refl H2 H3 ltac:(vm_compute; congruence) eq_refl H4
           ltac:(vm_compute; congruence)).
Defined.
