(* ===== verification/Authorize.v ===== *)
(** src/gateway/authorize.go: the request a gateway sends another before it
    uses one of its resources or its proxy, and the answer.  [authorizeHandler]
    serves it, [ResourceAuthorize] asks.  The theorems: what the handler answers
    on every branch, which identifiers and tokens are granted, and that the two
    ends agree. *)
From S2P Require Import Prelude GoText GoIo Json Codec TypesId Store PortmapRes ProxyService Portmap GwCore.

(** * Messages *)

Record AuthorizePortmapInfo := mkApi {
  api_ResourceID : ID
}.

#[export] Instance AuthorizePortmapInfo_eq_dec : EqDecision AuthorizePortmapInfo.
Proof. solve_decision. Defined.

Definition api_zero : AuthorizePortmapInfo := mkApi (mkID 0).

Definition api_fields : list (field AuthorizePortmapInfo) :=
  [ jfield "resource_id" api_ResourceID
      (fun v r => mkApi v) ].

Definition api_fits (r : AuthorizePortmapInfo) : Prop :=
  json_fits (api_ResourceID r) /\ True.

#[export] Instance api_codec : JsonCodec AuthorizePortmapInfo := {
  json_of := struct_json api_fields;
  json_into := struct_into api_fields;
  zero := api_zero;
  json_fits := api_fits;
  json_norm := id;
  json_depth := 1
}.
#[export] Instance api_laws : CodecLaws AuthorizePortmapInfo.
Proof. struct_laws. Qed.

Record AuthorizeProxyInfo := mkAxi {
  axi_Token : ID;
  axi_Route : string;
  axi_Dns : string
}.

#[export] Instance AuthorizeProxyInfo_eq_dec : EqDecision AuthorizeProxyInfo.
Proof. solve_decision. Defined.

Definition axi_zero : AuthorizeProxyInfo := mkAxi (mkID 0) "" "".

Definition axi_fields : list (field AuthorizeProxyInfo) :=
  [ jfield "token" axi_Token
      (fun v r => mkAxi v (axi_Route r) (axi_Dns r));
    jfield "route" axi_Route
      (fun v r => mkAxi (axi_Token r) v (axi_Dns r));
    jfield "dns" axi_Dns
      (fun v r => mkAxi (axi_Token r) (axi_Route r) v) ].

Definition axi_fits (r : AuthorizeProxyInfo) : Prop :=
  json_fits (axi_Token r) /\
  json_fits (axi_Route r) /\
  json_fits (axi_Dns r).

#[export] Instance axi_codec : JsonCodec AuthorizeProxyInfo := {
  json_of := struct_json axi_fields;
  json_into := struct_into axi_fields;
  zero := axi_zero;
  json_fits := axi_fits;
  json_norm := id;
  json_depth := 1
}.
#[export] Instance axi_laws : CodecLaws AuthorizeProxyInfo.
Proof. struct_laws. Qed.

Record AuthorizePortmapResp := mkApr {
  apr_IsTrial : bool
}.

#[export] Instance AuthorizePortmapResp_eq_dec : EqDecision AuthorizePortmapResp.
Proof. solve_decision. Defined.

Definition apr_zero : AuthorizePortmapResp := mkApr false.

Definition apr_fields : list (field AuthorizePortmapResp) :=
  [ jfield "is_trial" apr_IsTrial
      (fun v r => mkApr v) ].

Definition apr_fits (r : AuthorizePortmapResp) : Prop :=
  json_fits (apr_IsTrial r) /\ True.

#[export] Instance apr_codec : JsonCodec AuthorizePortmapResp := {
  json_of := struct_json apr_fields;
  json_into := struct_into apr_fields;
  zero := apr_zero;
  json_fits := apr_fits;
  json_norm := id;
  json_depth := 1
}.
#[export] Instance apr_laws : CodecLaws AuthorizePortmapResp.
Proof. struct_laws. Qed.

Record AuthorizeProxyResp := mkAxr {
  axr_Route : string;
  axr_Dns : string
}.

#[export] Instance AuthorizeProxyResp_eq_dec : EqDecision AuthorizeProxyResp.
Proof. solve_decision. Defined.

Definition axr_zero : AuthorizeProxyResp := mkAxr "" "".

Definition axr_fields : list (field AuthorizeProxyResp) :=
  [ jfield "route" axr_Route
      (fun v r => mkAxr v (axr_Dns r));
    jfield "dns" axr_Dns
      (fun v r => mkAxr (axr_Route r) v) ].

Definition axr_fits (r : AuthorizeProxyResp) : Prop :=
  json_fits (axr_Route r) /\
  json_fits (axr_Dns r).

#[export] Instance axr_codec : JsonCodec AuthorizeProxyResp := {
  json_of := struct_json axr_fields;
  json_into := struct_into axr_fields;
  zero := axr_zero;
  json_fits := axr_fits;
  json_norm := id;
  json_depth := 1
}.
#[export] Instance axr_laws : CodecLaws AuthorizeProxyResp.
Proof. struct_laws. Qed.

(** Pointers with [omitempty]: nil is left out. *)
Record AuthorizeReq := mkAreq {
  areq_Type : Z;
  areq_Portmap : option AuthorizePortmapInfo;
  areq_Proxy : option AuthorizeProxyInfo
}.
Definition areq_fields : list (field AuthorizeReq) :=
  [ jfield "type" areq_Type (fun v r => mkAreq v (areq_Portmap r) (areq_Proxy r));
    pfield "portmap" areq_Portmap (fun v r => mkAreq (areq_Type r) v (areq_Proxy r));
    pfield "proxy" areq_Proxy (fun v r => mkAreq (areq_Type r) (areq_Portmap r) v) ].

#[export] Instance areq_codec : JsonCodec AuthorizeReq := {
  json_of r := JObj ([("type", json_of (areq_Type r))] ++ opt_member "portmap" (areq_Portmap r) ++
                     opt_member "proxy" (areq_Proxy r));
  json_into := struct_into areq_fields;
  zero := mkAreq 0 None None;
  json_fits r := json_fits (areq_Type r) /\ opt_fits (areq_Portmap r) /\ opt_fits (areq_Proxy r);
  json_norm := id;
  json_depth := 2
}.

Record AuthorizeResp := mkAresp {
  aresp_NodeName : string;
  aresp_Err : string;
  aresp_Portmap : option AuthorizePortmapResp;
  aresp_Proxy : option AuthorizeProxyResp
}.
Definition aresp_fields : list (field AuthorizeResp) :=
  [ jfield "node_name" aresp_NodeName (fun v r => mkAresp v (aresp_Err r) (aresp_Portmap r) (aresp_Proxy r));
    jfield "err" aresp_Err (fun v r => mkAresp (aresp_NodeName r) v (aresp_Portmap r) (aresp_Proxy r));
    pfield "portmap" aresp_Portmap (fun v r => mkAresp (aresp_NodeName r) (aresp_Err r) v (aresp_Proxy r));
    pfield "proxy" aresp_Proxy (fun v r => mkAresp (aresp_NodeName r) (aresp_Err r) (aresp_Portmap r) v) ].

#[export] Instance aresp_codec : JsonCodec AuthorizeResp := {
  json_of r := JObj ([("node_name", json_of (aresp_NodeName r)); ("err", json_of (aresp_Err r))] ++
                     opt_member "portmap" (aresp_Portmap r) ++ opt_member "proxy" (aresp_Proxy r));
  json_into := struct_into aresp_fields;
  zero := mkAresp "" "" None None;
  json_fits r := json_fits (aresp_NodeName r) /\ json_fits (aresp_Err r) /\
                 opt_fits (aresp_Portmap r) /\ opt_fits (aresp_Proxy r);
  json_norm := id;
  json_depth := 2
}.

#[export] Instance areq_laws : CodecLaws AuthorizeReq.
Proof.
  split.
  - intros [t p x] (Ht & Hp & Hx). cbn [json_of areq_codec areq_Type areq_Portmap areq_Proxy json_ok].
    rewrite !forallb_app, (opt_member_ok "portmap" p eq_refl Hp), (opt_member_ok "proxy" x eq_refl Hx).
    cbn [forallb fst snd]. by rewrite (codec_ok t Ht).
  - intros [t p x]. destruct p as [p|], x as [x|]; cbn; lia.
  - intros [t p x] (Ht & Hp & Hx).
    change (obj_into areq_fields ([("type", json_of t)] ++ opt_member "portmap" p ++ opt_member "proxy" x)
              (mkAreq 0 None None) = Some (mkAreq t p x)). unfold obj_into.
    rewrite !foldl_app. cbn [foldl fst snd areq_Type areq_Portmap areq_Proxy].
    assert (F1 : find_field areq_fields "type" = nth_error areq_fields 0) by reflexivity.
    assert (F2 : find_field areq_fields "portmap" = nth_error areq_fields 1) by reflexivity.
    assert (F3 : find_field areq_fields "proxy" = nth_error areq_fields 2) by reflexivity.
    rewrite F1. cbn [nth_error areq_fields jfield finto areq_Type areq_Portmap areq_Proxy].
    assert (E : json_into (json_of t) 0 = Some t) by exact (codec_into t Ht). rewrite E.
    destruct p as [p|]; cbn [opt_member foldl fst snd];
      [rewrite F2; cbn [nth_error areq_fields pfield finto areq_Type areq_Portmap areq_Proxy];
       rewrite (ptr_into_ok p None Hp eq_refl)|];
      (destruct x as [x|]; cbn [opt_member foldl fst snd];
        [rewrite F3; cbn [nth_error areq_fields pfield finto areq_Type areq_Portmap areq_Proxy];
         rewrite (ptr_into_ok x None Hx eq_refl)|]); reflexivity.
Qed.

#[export] Instance aresp_laws : CodecLaws AuthorizeResp.
Proof.
  split.
  - intros [n e p x] (Hn & He & Hp & Hx).
    cbn [json_of aresp_codec aresp_NodeName aresp_Err aresp_Portmap aresp_Proxy json_ok].
    rewrite !forallb_app, (opt_member_ok "portmap" p eq_refl Hp), (opt_member_ok "proxy" x eq_refl Hx).
    cbn [forallb fst snd]. by rewrite (codec_ok n Hn), (codec_ok e He).
  - intros [n e p x]. destruct p as [p|], x as [x|]; cbn; lia.
  - intros [n e p x] (Hn & He & Hp & Hx).
    change (obj_into aresp_fields ([("node_name", json_of n); ("err", json_of e)] ++
              opt_member "portmap" p ++ opt_member "proxy" x)
              (mkAresp "" "" None None) = Some (mkAresp n e p x)). unfold obj_into.
    rewrite !foldl_app. cbn [foldl fst snd aresp_NodeName aresp_Err aresp_Portmap aresp_Proxy].
    assert (F0 : find_field aresp_fields "node_name" = nth_error aresp_fields 0) by reflexivity.
    assert (F1 : find_field aresp_fields "err" = nth_error aresp_fields 1) by reflexivity.
    assert (F2 : find_field aresp_fields "portmap" = nth_error aresp_fields 2) by reflexivity.
    assert (F3 : find_field aresp_fields "proxy" = nth_error aresp_fields 3) by reflexivity.
    assert (Es : forall m s, json_into (A := string) (json_of m) s = Some m) by done.
    rewrite F0, F1.
    cbn [nth_error aresp_fields jfield finto aresp_NodeName aresp_Err aresp_Portmap aresp_Proxy].
    rewrite Es. cbn [aresp_NodeName aresp_Err aresp_Portmap aresp_Proxy]. rewrite Es.
    destruct p as [p|]; cbn [opt_member foldl fst snd];
      [rewrite F2; cbn [nth_error aresp_fields pfield finto aresp_NodeName aresp_Err aresp_Portmap aresp_Proxy];
       rewrite (ptr_into_ok p None Hp eq_refl)|];
      (destruct x as [x|]; cbn [opt_member foldl fst snd];
        [rewrite F3; cbn [nth_error aresp_fields pfield finto aresp_NodeName aresp_Err aresp_Portmap aresp_Proxy];
         rewrite (ptr_into_ok x None Hx eq_refl)|]); reflexivity.
Qed.

Definition AuthorizeTypePortmap : Z := 1.
Definition AuthorizeTypeProxy : Z := 2.

(** * Serving *)

Section Server.
Context {DB : Type} {Db : LevelDB DB} {Dbl : LevelDBLaws DB}.
Context (rand_Uint64 : nat -> Z) (Hostname : string + error).

(** The gateway and the stream of the request. *)
Record Serving := mkServing { sv_core : @Core DB; sv_stream : Conn }.
Definition core {A} : GoM Core A -> GoM Serving A :=
  zoom sv_core (fun g s => mkServing g (sv_stream s)).
Definition stream {A} : GoM Conn A -> GoM Serving A :=
  zoom sv_stream (fun c s => mkServing (sv_core s) c).

(** The write's error is dropped. *)
Definition send_resp (r : AuthorizeResp) : GoM Serving unit :=
  stream (Conn_Write (bytes_of_string (Marshal r))) ;;; ret tt.

Definition handlePortmapAuth (info : option AuthorizePortmapInfo) : GoM Serving unit :=
  match info with
  | None => panic
  | Some info =>
      g <- core get ;;
      authRes <- (if bool_decide (api_ResourceID info = trialID) && trial g then ret true
                  else
                    res <- core (prm (GetAppByID (api_ResourceID info))) ;;
                    ret (bool_decide (res_ID res = api_ResourceID info))) ;;
      if (authRes : bool) then
        let* (gwName, err) := core (getGatewayName Hostname) in
        send_resp (mkAresp gwName (match err with Some e => Error e | None => "" end)
                     (Some (mkApr (bool_decide (api_ResourceID info = trialID)))) None)
      else send_resp (mkAresp "" "authorize failed" (Some (mkApr false)) None)
  end.

Definition handleProxyAuth (info : option AuthorizeProxyInfo) : GoM Serving unit :=
  let* (token, err) := core (getToken rand_Uint64) in
  match err with
  | Some _ => ret tt
  | None =>
      match info with
      | None => panic
      | Some info =>
          if negb (token =? Uint64 (axi_Token info)) then ret tt
          else
            let* (gwName, err) := core (getGatewayName Hostname) in
            pc <- core (proxySvc getConfig) ;;
            send_resp (mkAresp gwName (match err with Some e => Error e | None => "" end) None
              (Some (mkAxr (if String.eqb (psc_Route pc) "" then "0.0.0.0/0" else psc_Route pc)
                           (if String.eqb (psc_DNS pc) "" then "8.8.8.8" else psc_DNS pc))))
      end
  end.

Definition authorizeHandler : GoM Serving unit :=
  let* (buf, err) := stream (Conn_Read 1024) in
  (match err with
   | Some _ => ret tt
   | None =>
       match Unmarshal (string_of_bytes buf) (zero (A := AuthorizeReq)) with
       | inr _ => ret tt
       | inl req =>
           if areq_Type req =? AuthorizeTypePortmap then handlePortmapAuth (areq_Portmap req)
           else if areq_Type req =? AuthorizeTypeProxy then handleProxyAuth (areq_Proxy req)
           else ret tt
       end
   end) ;;;
  stream Conn_Close.
End Server.

(** * Asking *)

Section Client.
(** [peer.Decode] and [h.NewStream] of libp2p. *)
Context (Decode_peer : string -> string + error) (NewStream : string -> Conn + error).

(** The answer, the error, and the stream afterwards; the stream's deadline is
    part of when its reads fail. *)
Definition ResourceAuthorize (peerID : string) (req : AuthorizeReq) : (AuthorizeResp * option error) * option Conn :=
  let data := bytes_of_string (Marshal req) in
  match Decode_peer peerID with
  | inr e => ((zero, Some e), None)
  | inl pid =>
      match NewStream pid with
      | inr e => ((zero, Some e), None)
      | inl s =>
          let '(o, s') :=
            (Conn_Write data ;;;
             r <- Conn_Read 1024 ;;
             Conn_Close ;;;
             ret r) s in
          match o with
          | Panic => ((zero, Some (ErrText "unreachable")), Some s')
          | Ret (_, Some e) => ((zero, Some e), Some s')
          | Ret (buf, None) =>
              match Unmarshal (string_of_bytes buf) (zero (A := AuthorizeResp)) with
              | inl resp => ((resp, None), Some s')
              | inr e => ((zero, Some e), Some s')
              end
          end
      end
  end.
End Client.

(** * What is answered *)

Section Spec.
Context {DB : Type} {Db : LevelDB DB} {Dbl : LevelDBLaws DB}.
Context (rand_Uint64 : nat -> Z) (Hostname : string + error).

Definition grants_portmap (rid : ID) (g : @Core DB) : bool :=
  bool_decide (rid = trialID) && trial g ||
  bool_decide (res_ID (default res_zero (held_res g !! Uint64 rid)) = rid).

Definition name_reply (g : @Core DB) : string * string :=
  match (getGatewayName Hostname g).1 with
  | Ret (n, None) => (n, "") | Ret (n, Some e) => (n, Error e) | Panic => ("", "")
  end.

(** The answer to a request, if there is one. *)
Definition auth_reply (req : AuthorizeReq) (g : @Core DB) : option AuthorizeResp :=
  if areq_Type req =? AuthorizeTypePortmap then
    match areq_Portmap req with
    | None => None
    | Some info =>
        Some (if grants_portmap (api_ResourceID info) g
              then mkAresp (name_reply g).1 (name_reply g).2
                     (Some (mkApr (bool_decide (api_ResourceID info = trialID)))) None
              else mkAresp "" "authorize failed" (Some (mkApr false)) None)
    end
  else if areq_Type req =? AuthorizeTypeProxy then
    match areq_Proxy req, getToken rand_Uint64 g, g_proxySvc g with
    | Some info, (Ret (t, None), g'), Some pc =>
        if t =? Uint64 (axi_Token info) then
          Some (mkAresp (name_reply g').1 (name_reply g').2 None
                 (Some (mkAxr (if String.eqb (psc_Route pc) "" then "0.0.0.0/0" else psc_Route pc)
                              (if String.eqb (psc_DNS pc) "" then "8.8.8.8" else psc_DNS pc))))
        else None
    | _, _, _ => None
    end
  else None.

(** The core after serving the request. *)
Definition auth_core (req : AuthorizeReq) (g : @Core DB) : @Core DB :=
  if areq_Type req =? AuthorizeTypePortmap then
    match areq_Portmap req with
    | Some info => if bool_decide (api_ResourceID info = trialID) && trial g then g else alloc_res g
    | None => g
    end
  else if areq_Type req =? AuthorizeTypeProxy then (getToken rand_Uint64 g).2 else g.

(** The requests that crash the gateway: a type whose part is missing. *)
Definition auth_panics (req : AuthorizeReq) (g : @Core DB) : bool :=
  ((areq_Type req =? AuthorizeTypePortmap) && bool_decide (areq_Portmap req = None)) ||
  ((areq_Type req =? AuthorizeTypeProxy) && bool_decide (areq_Proxy req = None) &&
   match (getToken rand_Uint64 g).1 with Ret (_, None) => true | _ => false end).

Lemma getGatewayName_pure (g : @Core DB) : exists n e, getGatewayName Hostname g = (Ret (n, e), g) /\
  name_reply g = (n, match e with Some e => Error e | None => "" end).
Proof.
  unfold name_reply, getGatewayName, bind, get.
  destruct (db_Get dbKeyGatewayName (g_db g)) as [v|[]]; try (destruct Hostname); eexists _, _; by split.
Qed.

Lemma name_reply_db (g g' : @Core DB) : g_db g = g_db g' -> name_reply g = name_reply g'.
Proof.
  intros E. unfold name_reply, getGatewayName, bind, get. rewrite E.
  destruct (db_Get dbKeyGatewayName (g_db g')) as [v|[]]; try done; by destruct Hostname.
Qed.

Lemma getToken_Ret (g : @Core DB) : exists t e g', getToken rand_Uint64 g = (Ret (t, e), g') /\
  g_proxySvc g' = g_proxySvc g.
Proof.
  unfold getToken, bind at 1, get. destruct (db_Get dbKeyToken (g_db g)) as [v|e].
  - destruct (ParseUint v) as [t e]. by exists t, e, g.
  - destruct e; try (by eexists _, _, _).
    unfold next_rand, setToken, dbPut_g, dbPut, bind, get, put, ret, zoom. cbn [g_db g_rand].
    destruct (db_Put dbKeyToken (FormatUint (rand_Uint64 (g_rand g))) (g_db g)) as [[e|] d']; by eexists _, _, _.
Qed.

Lemma core_run {A} (m : GoM (@Core DB) A) g c o g' : m g = (o, g') ->
  core m (mkServing g c) = (o, mkServing g' c).
Proof. unfold core, zoom. cbn. by intros ->. Qed.

Lemma send_resp_run (r : AuthorizeResp) (g : @Core DB) c : werr c = None ->
  send_resp r (mkServing g c) =
  (Ret tt, mkServing g (mkConn (rx c) (tx c ++ bytes_of_string (Marshal r)) None (closed c) (reset c))).
Proof. intros Hw. unfold send_resp, stream, bind, zoom, Conn_Write. cbn. by rewrite Hw. Qed.

(** The state after a reply [r], if there is one. *)
Definition replied (g : @Core DB) (c : Conn) (r : option AuthorizeResp) : Serving :=
  mkServing g (mkConn (rx c) (tx c ++ match r with Some r => bytes_of_string (Marshal r) | None => [] end)
                 None (closed c) (reset c)).

Lemma replied_none g c : werr c = None -> replied g c None = mkServing g c.
Proof. intros Hw. unfold replied. destruct c. cbn in *. by rewrite app_nil_r, Hw. Qed.

Lemma handlePortmapAuth_run info g c : werr c = None ->
  handlePortmapAuth Hostname (Some info) (mkServing g c) =
  (Ret tt, replied (auth_core (mkAreq 1 (Some info) None) g) c (auth_reply (mkAreq 1 (Some info) None) g)).
Proof.
  intros Hw. unfold handlePortmapAuth, auth_core, auth_reply, grants_portmap. cbn [areq_Type areq_Portmap Z.eqb Pos.eqb AuthorizeTypePortmap].
  rewrite (bind_Ret _ _ _ _ _ (core_run get g c _ _ eq_refl)).
  destruct (bool_decide (api_ResourceID info = trialID) && trial g) eqn:Et; cbn [orb].
  - rewrite bind_ret. destruct (getGatewayName_pure g) as (n & e & Hn & Hr).
    rewrite (bind_Ret _ _ _ _ _ (core_run _ g c _ _ Hn)), Hr. cbn [fst snd]. by rewrite send_resp_run.
  - set (g' := alloc_res g). set (r := default res_zero (held_res g !! Uint64 (api_ResourceID info))).
    rewrite bind_assoc, (bind_Ret _ _ _ _ _ (core_run _ g c _ _ (prm_GetAppByID _ g))), bind_ret. fold r g'.
    destruct (bool_decide (res_ID r = api_ResourceID info)).
    + destruct (getGatewayName_pure g') as (n & e & Hn & Hr).
      rewrite (bind_Ret _ _ _ _ _ (core_run _ g' c _ _ Hn)).
      pose proof (name_reply_db g g' eq_refl) as Hr'.
      rewrite Hr', Hr. cbn [fst snd]. by rewrite send_resp_run.
    + by rewrite send_resp_run.
Qed.

Lemma handleProxyAuth_run info g c pc : werr c = None -> g_proxySvc g = Some pc ->
  handleProxyAuth rand_Uint64 Hostname (Some info) (mkServing g c) =
  (Ret tt, replied (getToken rand_Uint64 g).2 c (auth_reply (mkAreq 2 None (Some info)) g)).
Proof.
  intros Hw Hpc. unfold handleProxyAuth, auth_reply. cbn [areq_Type areq_Proxy Z.eqb Pos.eqb AuthorizeTypePortmap AuthorizeTypeProxy].
  destruct (getToken_Ret g) as (t & e & g' & Ht & Hp). rewrite (bind_Ret _ _ _ _ _ (core_run _ g c _ _ Ht)), Ht, Hpc. cbn [snd].
  destruct e as [e|]; [by rewrite replied_none|].
  destruct (t =? Uint64 (axi_Token info)); cbn [negb]; [|by rewrite replied_none].
  destruct (getGatewayName_pure g') as (n & e & Hn & Hr).
  rewrite (bind_Ret _ _ _ _ _ (core_run _ g' c _ _ Hn)), Hr. cbn [fst snd].
  assert (Hc : proxySvc getConfig g' = (Ret pc, g')).
  { unfold proxySvc. rewrite Hp, Hpc. unfold zoom, getConfig, gets. cbn. destruct g'. cbn in *. by rewrite Hp, Hpc. }
  rewrite (bind_Ret _ _ _ _ _ (core_run _ g' c _ _ Hc)). by rewrite send_resp_run.
Qed.

Lemma auth_reply_type1 p x g : auth_reply (mkAreq 1 p x) g = auth_reply (mkAreq 1 p None) g /\
  auth_core (mkAreq 1 p x) g = auth_core (mkAreq 1 p None) g.
Proof. done. Qed.
Lemma auth_reply_type2 p x g : auth_reply (mkAreq 2 p x) g = auth_reply (mkAreq 2 None x) g.
Proof. done. Qed.

Lemma serve_run g c m cs e pc :
  rx c = mkSource (m :: cs) e -> (length m <= 1024)%nat -> werr c = None -> g_proxySvc g = Some pc ->
  let run := authorizeHandler rand_Uint64 Hostname (mkServing g c) in
  match Unmarshal (string_of_bytes m) (zero (A := AuthorizeReq)) with
  | inr _ => run.1 = Ret tt /\ tx (sv_stream run.2) = tx c /\ closed (sv_stream run.2) = true /\ sv_core run.2 = g
  | inl req =>
      if auth_panics req g then run.1 = Panic
      else run.1 = Ret tt /\ closed (sv_stream run.2) = true /\ sv_core run.2 = auth_core req g /\
           tx (sv_stream run.2) = tx c ++ match auth_reply req g with
                                         | Some r => bytes_of_string (Marshal r) | None => [] end
  end.
Proof.
  intros Hrx Hl Hw Hpc run. set (c1 := mkConn (mkSource cs e) (tx c) (werr c) (closed c) (reset c)).
  assert (Hread : stream (Conn_Read 1024) (mkServing g c) = (Ret (m, None), mkServing g c1)).
  { unfold stream, zoom. cbn [sv_stream]. by rewrite (Conn_Read_chunk 1024 m c cs e Hrx Hl). }
  assert (Hw1 : werr c1 = None) by exact Hw.
  unfold run, authorizeHandler. rewrite (bind_Ret _ _ _ _ _ Hread). cbn beta iota.
  destruct (Unmarshal (string_of_bytes m) zero) as [[t p x]|err].
  2:{ rewrite bind_ret. by cbn. }
  unfold auth_panics. cbn [areq_Type areq_Portmap areq_Proxy].
  assert (Hdone : forall g' r, (ret tt ;;; stream Conn_Close) (replied g' c1 r) =
    (Ret tt, mkServing g' (mkConn (mkSource cs e) (tx c ++ match r with Some r => bytes_of_string (Marshal r) | None => [] end)
       None true (reset c)))) by done.
  destruct (Z.eqb_spec t AuthorizeTypePortmap) as [->|Ht1].
  { destruct p as [info|]; [|done]. cbn [andb orb AuthorizeTypePortmap AuthorizeTypeProxy Z.eqb Pos.eqb].
    rewrite (bind_Ret _ _ _ _ _ (handlePortmapAuth_run info g c1 Hw1)). cbn [bool_decide decide andb orb].
    split_and!; done. }
  assert (E1 : (t =? AuthorizeTypePortmap) = false) by by apply Z.eqb_neq. 
  cbn [andb orb].
  destruct (Z.eqb_spec t AuthorizeTypeProxy) as [->|Ht2].
  - destruct x as [info|].
    + rewrite (bind_Ret _ _ _ _ _ (handleProxyAuth_run info g c1 pc Hw1 Hpc)). split_and!; done.
    + unfold handleProxyAuth. destruct (getToken_Ret g) as (t & err & g' & Htk & _). rewrite Htk.
      rewrite bind_assoc, (bind_Ret _ _ _ _ _ (core_run _ g c1 _ _ Htk)). cbn [fst snd].
      destruct err; [|done]. unfold auth_core, auth_reply. cbn [areq_Type areq_Proxy AuthorizeTypePortmap AuthorizeTypeProxy Z.eqb Pos.eqb]. rewrite Htk. split_and!; [done|done|done|by rewrite app_nil_r].
  - rewrite bind_ret. unfold auth_core, auth_reply. cbn [areq_Type]. rewrite E1.
    assert (E2 : (t =? AuthorizeTypeProxy) = false) by by apply Z.eqb_neq. rewrite E2, app_nil_r. done.
Qed.
(** The authorization server, on every request that arrives in one piece of
    at most 1024 bytes: one that does not decode, or of an unknown type, gets no
    answer; one of a known type gets the answer [auth_reply] defines (a resource
    request always one, a proxy request only with the right token); the stream
    is closed; and the gateway crashes exactly when the part that belongs to the
    request's type is missing. *)
Theorem authorize_serves g c m cs e pc :
  rx c = mkSource (m :: cs) e -> (length m <= 1024)%nat -> werr c = None -> g_proxySvc g = Some pc ->
  let run := authorizeHandler rand_Uint64 Hostname (mkServing g c) in
  match Unmarshal (string_of_bytes m) (zero (A := AuthorizeReq)) with
  | inr _ => run.1 = Ret tt /\ tx (sv_stream run.2) = tx c /\ closed (sv_stream run.2) = true /\ sv_core run.2 = g
  | inl req =>
      if auth_panics req g then run.1 = Panic
      else run.1 = Ret tt /\ closed (sv_stream run.2) = true /\ sv_core run.2 = auth_core req g /\
           tx (sv_stream run.2) = tx c ++ match auth_reply req g with
                                         | Some r => bytes_of_string (Marshal r) | None => [] end
  end.
Proof. exact (serve_run g c m cs e pc). Qed.

Lemma grants_who rid (g : @Core DB) : grants_portmap rid g = true <->
  (rid = trialID /\ trial g = true) \/
  (exists res, held_res g !! Uint64 rid = Some res /\ res_ID res = rid) \/
  (rid = mkID 0 /\ held_res g !! 0 = None).
Proof.
  unfold grants_portmap. rewrite orb_true_iff, andb_true_iff, !bool_decide_eq_true. f_equiv.
  destruct (held_res g !! Uint64 rid) as [res|] eqn:E; cbn.
  - split; [intros Hr; left; by exists res|].
    intros [(? & [= <-] & Hr)|[Hr H0]]; [done|]. rewrite Hr in E. cbn in E. congruence.
  - split; [intros Hr; right; rewrite <- Hr in E; done|].
    intros [(? & ? & _)|[Hr _]]; done.
Qed.

Lemma name_reply_error (g : @Core DB) msg : msg <> "" -> (forall e, Hostname = inr e -> Error e <> msg) ->
  (forall e, db_Get dbKeyGatewayName (g_db g) = inr e -> Error e <> msg) -> (name_reply g).2 <> msg.
Proof.
  intros Hm Hh Hn. unfold name_reply, getGatewayName, bind, get.
  destruct (db_Get dbKeyGatewayName (g_db g)) as [v|e]; [done|].
  destruct e; try (apply (Hn _ eq_refl)). destruct Hostname as [h|e]; [done|]. apply (Hh _ eq_refl).
Qed.

Lemma Marshal_resp_nonempty (r : AuthorizeResp) : bytes_of_string (Marshal r) <> [].
Proof. discriminate. Qed.

(** C12. Who is authorized.  A resource request is always answered, and refused
    exactly when the identifier is neither the trial one on a trial gateway, nor
    that of a resource listed under it, nor 0 without such a resource: the zero
    value of a missing resource carries identifier 0, so 0 is always granted.  A
    proxy request is answered exactly when the gateway has a token and the
    request carries it. *)
Theorem authorize_grants g c m cs e pc :
  rx c = mkSource (m :: cs) e -> (length m <= 1024)%nat -> werr c = None -> g_proxySvc g = Some pc ->
  (forall e, Hostname = inr e -> Error e <> "authorize failed") ->
  (forall e, db_Get dbKeyGatewayName (g_db g) = inr e -> Error e <> "authorize failed") ->
  let sent := tx (sv_stream (authorizeHandler rand_Uint64 Hostname (mkServing g c)).2) in
  (forall info x, Unmarshal (string_of_bytes m) (zero (A := AuthorizeReq)) = inl (mkAreq 1 (Some info) x) ->
     exists r, sent = tx c ++ bytes_of_string (Marshal r) /\
       (aresp_Err r <> "authorize failed" <->
        (api_ResourceID info = trialID /\ trial g = true) \/
        (exists res, held_res g !! Uint64 (api_ResourceID info) = Some res /\ res_ID res = api_ResourceID info) \/
        (api_ResourceID info = mkID 0 /\ held_res g !! 0 = None))) /\
  (forall info x, Unmarshal (string_of_bytes m) (zero (A := AuthorizeReq)) = inl (mkAreq 2 x (Some info)) ->
     sent <> tx c <-> (getToken rand_Uint64 g).1 = Ret (Uint64 (axi_Token info), None)).
Proof.
  intros Hrx Hl Hw Hpc Hh Hn sent. pose proof (serve_run g c m cs e pc Hrx Hl Hw Hpc) as HS. cbv zeta in HS.
  split; intros info x HU; rewrite HU in HS.
  - destruct HS as (_ & _ & _ & HS). unfold auth_reply in HS. cbn [areq_Type areq_Portmap AuthorizeTypePortmap Z.eqb Pos.eqb] in HS.
    eexists. split; [exact HS|]. rewrite <- grants_who.
    destruct (grants_portmap (api_ResourceID info) g); cbn [aresp_Err]; [|split; [by intros []|done]].
    split; [done|intros _]. by apply name_reply_error.
  - assert (Hp : auth_panics (mkAreq 2 x (Some info)) g = false) by done. rewrite Hp in HS.
    destruct HS as (_ & _ & _ & HS). fold sent in HS. rewrite HS. unfold auth_reply.
    cbn [areq_Type areq_Proxy AuthorizeTypePortmap AuthorizeTypeProxy Z.eqb Pos.eqb].
    destruct (getToken_Ret g) as (t & er & g' & Ht & _). rewrite Ht, Hpc. cbn [fst].
    destruct er as [er|]; [rewrite app_nil_r; split; [by intros []|done]|].
    destruct (Z.eqb_spec t (Uint64 (axi_Token info))) as [->|Ht'].
    + split; [done|]. intros _ E. rewrite <- (app_nil_r (tx c)) in E at 2. by apply app_inv_head, Marshal_resp_nonempty in E.
    + rewrite app_nil_r. split; [by intros []|]. by intros [= ?].
Qed.

(** The asking end, when at most one piece is sent to it before its stream ends. *)
Lemma ask_run Decode_peer NewStream peerID pid req c answer e :
  Decode_peer peerID = inl pid -> NewStream pid = inl c -> werr c = None ->
  rx c = mkSource (match answer with Some m => [m] | None => [] end) e -> (forall m, answer = Some m -> (length m <= 1024)%nat) ->
  exists c', ResourceAuthorize Decode_peer NewStream peerID req =
      (match answer with
       | None => (zero, Some e)
       | Some m => match Unmarshal (string_of_bytes m) (zero (A := AuthorizeResp)) with inl r => (r, None) | inr e => (zero, Some e) end
       end, Some c') /\ tx c' = tx c ++ bytes_of_string (Marshal req) /\ closed c' = true.
Proof.
  intros Hd Hns Hw Hrx Hl. unfold ResourceAuthorize. rewrite Hd, Hns. unfold bind, Conn_Write. rewrite Hw. unfold Conn_Read. cbn [rx].
  rewrite Hrx. destruct answer as [m|].
  - rewrite Read_one_chunk by by apply Hl. cbn -[Unmarshal Marshal bytes_of_string string_of_bytes zero].
    destruct (Unmarshal (string_of_bytes m) zero); eexists; (split; [reflexivity|done]).
  - eexists. split; [reflexivity|done].
Qed.

(** Both ends of an authorization.  When the request, and the answer if
    there is one, arrive in one piece of at most 1024 bytes each, the asking end
    sends the request, closes its stream and returns exactly the answer the
    serving end defines; without an answer it returns the error its read ends
    with. *)
Theorem authorize_end_to_end Decode_peer NewStream peerID pid req g c c2 cs e e2 pc :
  let wire := bytes_of_string (Marshal req) in
  let reply := auth_reply req g in
  let answer := match reply with Some r => [bytes_of_string (Marshal r)] | None => [] end in
  Decode_peer peerID = inl pid -> NewStream pid = inl c -> werr c = None -> rx c = mkSource answer e ->
  json_fits req -> (length wire <= 1024)%nat -> auth_panics req g = false -> g_proxySvc g = Some pc ->
  (forall r, reply = Some r -> json_fits r /\ (length (bytes_of_string (Marshal r)) <= 1024)%nat) ->
  rx c2 = mkSource (wire :: cs) e2 -> werr c2 = None ->
  exists c' c2',
    ResourceAuthorize Decode_peer NewStream peerID req =
      ((default zero reply, match reply with Some _ => None | None => Some e end), Some c') /\
    tx c' = tx c ++ wire /\ closed c' = true /\
    authorizeHandler rand_Uint64 Hostname (mkServing g c2) = (Ret tt, mkServing (auth_core req g) c2') /\
    tx c2' = tx c2 ++ concat answer /\ closed c2' = true.
Proof.
  intros wire reply answer Hd Hns Hw Hrx Hreq Hlw Hnp Hpc Hrep Hrx2 Hw2.
  assert (HU : Unmarshal (string_of_bytes wire) (zero (A := AuthorizeReq)) = inl req).
  { unfold wire. rewrite string_of_bytes_of_string. exact (Unmarshal_Marshal req Hreq ltac:(cbn; lia)). }
  pose proof (serve_run g c2 wire cs e2 pc Hrx2 Hlw Hw2 Hpc) as HS. cbv zeta in HS. rewrite HU, Hnp in HS.
  destruct HS as (HS1 & HS2 & HS3 & HS4).
  destruct (authorizeHandler rand_Uint64 Hostname (mkServing g c2)) as [o [g2 c2']]. cbn [fst snd sv_stream sv_core] in *. subst.
  set (wired := (fun r => bytes_of_string (Marshal r)) <$> reply).
  assert (Ha : answer = match wired with Some m => [m] | None => [] end) by (unfold answer, wired; by destruct reply). rewrite Ha in Hrx.
  destruct (ask_run Decode_peer NewStream peerID pid req c wired e Hd Hns Hw Hrx) as (c' & E & Htx & Hcl).
  { intros m. unfold wired. intros (r & Hr & ->)%fmap_Some. exact (proj2 (Hrep r Hr)). }
  exists c', c2'. split; [|split; [exact Htx|split; [exact Hcl|split; [done|split; [|done]]]]].
  - rewrite E. unfold wired. destruct reply as [r|] eqn:Er; [|done]. cbn [fmap option_fmap option_map]. rewrite string_of_bytes_of_string.
    by rewrite (Unmarshal_Marshal r (proj1 (Hrep r eq_refl)) ltac:(cbn; lia) : Unmarshal (Marshal r) (zero (A := AuthorizeResp)) = inl r).
  - rewrite HS4, Ha. unfold wired. fold reply. destruct reply; cbn; by rewrite ?app_nil_r.
Qed.
End Spec.

(** * Concrete inputs *)

Definition ex_areq : AuthorizeReq := mkAreq 1 (Some (mkApi (mkID 7))) None.
Definition ex_host : string + error := inl "box".

Lemma authorize_serves_witness :
  let m := bytes_of_string (Marshal ex_areq) in let c := conn_of m in let g := ex_core in
  let run := authorizeHandler ex_rand ex_host (mkServing g c) in
  match Unmarshal (string_of_bytes m) (zero (A := AuthorizeReq)) with
  | inr _ => run.1 = Ret tt /\ tx (sv_stream run.2) = tx c /\ closed (sv_stream run.2) = true /\ sv_core run.2 = g
  | inl req =>
      if auth_panics ex_rand req g then run.1 = Panic
      else run.1 = Ret tt /\ closed (sv_stream run.2) = true /\ sv_core run.2 = auth_core ex_rand req g /\
           tx (sv_stream run.2) = tx c ++ match auth_reply ex_rand ex_host req g with
                                         | Some r => bytes_of_string (Marshal r) | None => [] end
  end.
Proof.
  assert (Hl : (length (bytes_of_string (Marshal ex_areq)) <= 1024)%nat) by (vm_compute; lia).
  exact (authorize_serves ex_rand ex_host ex_core (conn_of (bytes_of_string (Marshal ex_areq))) _ [] EOF
           psc_zero eq_refl Hl eq_refl eq_refl).
Defined.

Lemma authorize_grants_witness :
  let g := ex_core in let m := bytes_of_string (Marshal ex_areq) in let c := conn_of m in
  let sent := tx (sv_stream (authorizeHandler ex_rand ex_host (mkServing g c)).2) in
  (forall info x, Unmarshal (string_of_bytes m) (zero (A := AuthorizeReq)) = inl (mkAreq 1 (Some info) x) ->
     exists r, sent = tx c ++ bytes_of_string (Marshal r) /\
       (aresp_Err r <> "authorize failed" <->
        (api_ResourceID info = trialID /\ trial g = true) \/
        (exists res, held_res g !! Uint64 (api_ResourceID info) = Some res /\ res_ID res = api_ResourceID info) \/
        (api_ResourceID info = mkID 0 /\ held_res g !! 0 = None))) /\
  (forall info x, Unmarshal (string_of_bytes m) (zero (A := AuthorizeReq)) = inl (mkAreq 2 x (Some info)) ->
     sent <> tx c <-> (getToken ex_rand g).1 = Ret (Uint64 (axi_Token info), None)).
Proof.
  assert (Hl : (length (bytes_of_string (Marshal ex_areq)) <= 1024)%nat) by (vm_compute; lia).
  exact (authorize_grants ex_rand ex_host ex_core (conn_of (bytes_of_string (Marshal ex_areq))) _ [] EOF
           psc_zero eq_refl Hl eq_refl eq_refl ltac:(discriminate) ltac:(by intros e [= <-])).
Defined.

Lemma authorize_end_to_end_witness :
  let req := ex_areq in let g := ex_core in
  let wire := bytes_of_string (Marshal req) in
  let reply := auth_reply ex_rand ex_host req g in
  let answer := match reply with Some r => [bytes_of_string (Marshal r)] | None => [] end in
  let c := mkConn (mkSource answer EOF) [] None false false in let c2 := conn_of wire in
  exists c' c2',
    ResourceAuthorize inl (fun _ => inl c) "peer" req =
      ((default zero reply, match reply with Some _ => None | None => Some EOF end), Some c') /\
    tx c' = tx c ++ wire /\ closed c' = true /\
    authorizeHandler ex_rand ex_host (mkServing g c2) = (Ret tt, mkServing (auth_core ex_rand req g) c2') /\
    tx c2' = tx c2 ++ concat answer /\ closed c2' = true.
Proof.
  cbv zeta.
  assert (Hf : json_fits ex_areq) by (repeat split; vm_compute; congruence).
  assert (Hl : (length (bytes_of_string (Marshal ex_areq)) <= 1024)%nat) by (vm_compute; lia).
  assert (Hp : auth_panics ex_rand ex_areq ex_core = false) by (vm_compute; reflexivity).
  assert (Hr : forall r, auth_reply ex_rand ex_host ex_areq ex_core = Some r ->
     json_fits r /\ (length (bytes_of_string (Marshal r)) <= 1024)%nat).
  { assert (E : auth_reply ex_rand ex_host ex_areq ex_core = Some (mkAresp "box" "" (Some (mkApr false)) None)) by (vm_compute; reflexivity).
    rewrite E. intros r [= <-]. split; [repeat split; vm_compute; congruence|vm_compute; lia]. }
  exact (authorize_end_to_end ex_rand ex_host inl (fun _ => inl (mkConn (mkSource
           match auth_reply ex_rand ex_host ex_areq ex_core with Some r => [bytes_of_string (Marshal r)] | None => [] end EOF) [] None false false))
    "peer" "peer" ex_areq ex_core _ (conn_of (bytes_of_string (Marshal ex_areq))) [] EOF EOF psc_zero
    eq_refl eq_refl eq_refl eq_refl Hf Hl Hp eq_refl Hr eq_refl eq_refl).
Defined.
