(* ===== verification/GoOs.v ===== *)
(** The operating system's files as package os presents them: names, inodes,
    open handles, and a schedule of faults, so that every call may fail.
    Handles stay on their inode when names move.  The lemmas say what each
    call does when it succeeds and that a failed call changes no file. *)
From S2P Require Import Prelude GoText.

(** Error numbers; package os wraps them with the call and the path. *)
Inductive errno := ENOENT | EEXIST | ENOTEMPTY | EISDIR | ENOTDIR | EACCES | EIO | ENOSPC | EMFILE | EBADF.

#[export] Instance errno_eq_dec : EqDecision errno.
Proof. solve_decision. Defined.

Definition strerror (e : errno) : string :=
  match e with
  | ENOENT => "no such file or directory" | EEXIST => "file exists" | ENOTEMPTY => "directory not empty"
  | EISDIR => "is a directory" | ENOTDIR => "not a directory" | EACCES => "permission denied"
  | EIO => "input/output error" | ENOSPC => "no space left on device" | EMFILE => "too many open files"
  | EBADF => "file already closed"
  end.

(** [os.IsExist] of the error a call returns; nil is no error. *)
Definition IsExist (e : option errno) : bool :=
  match e with Some EEXIST | Some ENOTEMPTY => true | _ => false end.

Record file := mkFile { f_data : string; f_mode : Z; f_dir : bool }.

#[export] Instance file_eq_dec : EqDecision file.
Proof. solve_decision. Defined.

(** What goes wrong with a call: the number of bytes a write still moves, and
    the error.  The schedule answers the calls in order; when it is used up no
    call fails by itself. *)
Record fault := mkFault { moved : nat; err_of : errno }.

Record FS := mkFS {
  names : gmap string nat;
  files : gmap nat file;
  handles : gmap nat nat;
  next : nat;
  umask : Z;
  faults : list (option fault)
}.

Definition set_names (n : gmap string nat) (s : FS) : FS :=
  mkFS n (files s) (handles s) (next s) (umask s) (faults s).
Definition set_files (f : gmap nat file) (s : FS) : FS :=
  mkFS (names s) f (handles s) (next s) (umask s) (faults s).
Definition set_handles (h : gmap nat nat) (s : FS) : FS :=
  mkFS (names s) (files s) h (next s) (umask s) (faults s).
Definition set_faults (l : list (option fault)) (s : FS) : FS :=
  mkFS (names s) (files s) (handles s) (next s) (umask s) l.

(** The fate of the next call. *)
Definition fate : GoM FS (option fault) := fun s =>
  match faults s with
  | [] => (Ret None, s)
  | f :: l => (Ret f, set_faults l s)
  end.

(** A call that either fails by itself or does [k]. *)
Definition syscall {A} (k : FS -> (A + errno) * FS) : GoM FS (A + errno) :=
  f <- fate ;;
  match f with
  | Some f => ret (inr (err_of f))
  | None => fun s => let '(r, s') := k s in (Ret r, s')
  end.

(** The error of a call that has no other result. *)
Definition err_only {A} (m : GoM FS (A + errno)) : GoM FS (option errno) :=
  r <- m ;; ret (match r with inl _ => None | inr e => Some e end).

Definition node (path : string) (s : FS) : option (nat * file) :=
  i ← names s !! path; f ← files s !! i; Some (i, f).

(** The file at a path. *)
Definition at_path (path : string) (s : FS) : option file :=
  i ← names s !! path; files s !! i.

(** [filepath.Base] of a path whose last element is not empty. *)
Definition Base (path : string) : string := default "" (last (Split path "/")).

Record FileInfo := mkInfo { fi_Name : string; fi_Size : Z; fi_IsDir : bool }.
Definition info_of (path : string) (f : file) : FileInfo :=
  mkInfo (Base path) (Z.of_nat (String.length (f_data f))) (f_dir f).

Definition Stat (path : string) : GoM FS (FileInfo + errno) := syscall (fun s =>
  match node path s with
  | None => (inr ENOENT, s)
  | Some (_, f) => (inl (info_of path f), s)
  end).

(** An open file: its handle and the path it was opened under. *)
Record File := mkOpen { fd : nat; f_path : string }.

Definition open_inode (path : string) (i : nat) (s : FS) : File * FS :=
  (mkOpen (next s) path,
   mkFS (names s) (files s) (<[next s := i]> (handles s)) (Datatypes.S (next s)) (umask s) (faults s)).

Definition Open (path : string) : GoM FS (File + errno) := syscall (fun s =>
  match node path s with
  | None => (inr ENOENT, s)
  | Some (i, _) => let '(f, s') := open_inode path i s in (inl f, s')
  end).

(** A new file under a free name; inodes and handles are numbered together. *)
Definition make_file (path : string) (data : string) (perm : Z) (s : FS) : nat * FS :=
  (next s, mkFS (<[path := next s]> (names s))
                (<[next s := mkFile data (Z.land perm (Z.lnot (umask s))) false]> (files s))
                (handles s) (Datatypes.S (next s)) (umask s) (faults s)).

(** [os.OpenFile] with O_CREATE|O_WRONLY and O_TRUNC or O_APPEND. *)
Definition OpenFile (trunc : bool) (path : string) (perm : Z) : GoM FS (File + errno) := syscall (fun s =>
  match node path s with
  | Some (i, f) =>
      if f_dir f then (inr EISDIR, s)
      else
        let s := if trunc then set_files (<[i := mkFile "" (f_mode f) false]> (files s)) s else s in
        let '(h, s') := open_inode path i s in (inl h, s')
  | None =>
      let '(i, s) := make_file path "" perm s in
      let '(h, s') := open_inode path i s in (inl h, s')
  end).
Definition Create (path : string) : GoM FS (File + errno) := OpenFile true path 438.

(** [f.Stat()]; a closed file has none. *)
Definition File_Stat (f : File) : GoM FS (FileInfo + errno) := syscall (fun s =>
  match i ← handles s !! fd f; files s !! i with
  | None => (inr EBADF, s)
  | Some x => (inl (info_of (f_path f) x), s)
  end).

Definition append_data (d : string) (f : file) : file := mkFile (f_data f +:+ d) (f_mode f) (f_dir f).

(** A write at the end of the file, where every writer of the source stands. *)
Definition Write (f : File) (d : string) : GoM FS (option errno) := fun s =>
  let '(x, s) := match faults s with [] => (None, s) | x :: l => (x, set_faults l s) end in
  match handles s !! fd f with
  | None => (Ret (Some EBADF), s)
  | Some i =>
      let d' := match x with Some x => String.substring 0 (moved x) d | None => d end in
      (Ret (err_of <$> x), set_files (alter (append_data d') i (files s)) s)
  end.

Definition Close (f : File) : GoM FS unit := modify (fun s => set_handles (delete (fd f) (handles s)) s).

(** [io.Copy] from a source that delivers [src] and ends with [e]: what was
    read before the source's error is written. *)
Definition Copy (f : File) (src : string) (e : option error) : GoM FS (option error) :=
  r <- Write f src ;;
  ret (match r with Some x => Some (ErrText (strerror x)) | None => e end).

(** The bytes left behind a handle for reading from its start. *)
Definition contents (f : File) (s : FS) : string :=
  match i ← handles s !! fd f; files s !! i with Some x => f_data x | None => "" end.

(** [io.Copy] from an open file. *)
Definition Copy_file (dst src : File) : GoM FS (option error) :=
  s <- get ;; Copy dst (contents src s) None.

Definition Rename (old new : string) : GoM FS (option errno) := err_only (syscall (fun s =>
  match node old s, node new s with
  | None, _ => (inr ENOENT, s)
  | Some (i, f), Some (j, g) =>
      if f_dir g then (inr EEXIST, s)
      else if f_dir f then (inr ENOTDIR, s)
      else if (i =? j)%nat then (inl tt, s)
      else (inl tt, set_names (<[new := i]> (delete old (names s))) s)
  | Some (i, _), None => (inl tt, set_names (<[new := i]> (delete old (names s))) s)
  end)).

Definition Remove (path : string) : GoM FS (option errno) := err_only (syscall (fun s =>
  match names s !! path with
  | None => (inr ENOENT, s)
  | Some _ => (inl tt, set_names (delete path (names s)) s)
  end)).

Definition Chmod (path : string) (m : Z) : GoM FS (option errno) := err_only (syscall (fun s =>
  match node path s with
  | None => (inr ENOENT, s)
  | Some (i, f) => (inl tt, set_files (<[i := mkFile (f_data f) m (f_dir f)]> (files s)) s)
  end)).

(** [os.CreateTemp]: [name] is what its random string comes to; an existing
    name makes it try others, which are not modelled. *)
Definition CreateTemp (name : string) : GoM FS (File + errno) := syscall (fun s =>
  match names s !! name with
  | Some _ => (inr EEXIST, s)
  | None =>
      let '(i, s) := make_file name "" 384 s in
      let '(h, s') := open_inode name i s in (inl h, s')
  end).

Definition ReadFile (path : string) : GoM FS (string + errno) := syscall (fun s =>
  match node path s with
  | None => (inr ENOENT, s)
  | Some (_, f) => if f_dir f then (inr EISDIR, s) else (inl (f_data f), s)
  end).

Definition WriteFile (path : string) (d : string) (perm : Z) : GoM FS (option errno) :=
  f <- OpenFile true path perm ;;
  match f with
  | inr e => ret (Some e)
  | inl f => e <- Write f d ;; Close f ;;; ret e
  end.

(** * Lemmas *)

(** No file, name or handle refers to what was not yet allocated; there are no
    hard links, and a name has a file. *)
Record wf (s : FS) : Prop := mkWf {
  wf_names : forall p i, names s !! p = Some i -> (i < next s)%nat /\ is_Some (files s !! i);
  wf_files : forall i x, files s !! i = Some x -> (i < next s)%nat;
  wf_handles : forall h i, handles s !! h = Some i -> (h < next s)%nat;
  wf_links : forall p q i, names s !! p = Some i -> names s !! q = Some i -> p = q
}.

Lemma fresh_inode s : wf s -> files s !! next s = None.
Proof. intros W. apply eq_None_not_Some. intros [x Hx%(wf_files s W)]. lia. Qed.
Lemma fresh_handle s : wf s -> handles s !! next s = None.
Proof. intros W. apply eq_None_not_Some. intros [x Hx%(wf_handles s W)]. lia. Qed.

(** Everything but the schedule. *)
Definition same_files (s s' : FS) : Prop :=
  names s' = names s /\ files s' = files s /\ handles s' = handles s /\ next s' = next s /\ umask s' = umask s.

#[export] Instance same_files_refl : Reflexive same_files.
Proof. by intros s. Qed.
#[export] Instance same_files_trans : Transitive same_files.
Proof. unfold same_files. intros a b c; naive_solver congruence. Qed.

Lemma same_files_set_faults l s : same_files s (set_faults l s).
Proof. by destruct s. Qed.

Lemma node_at path s : at_path path s = snd <$> node path s.
Proof. unfold at_path, node. destruct (names s !! path) as [i|]; [|done]. simpl. by destruct (files s !! i). Qed.

Lemma node_Some path s i f : node path s = Some (i, f) <-> names s !! path = Some i /\ files s !! i = Some f.
Proof.
  unfold node. destruct (names s !! path) as [j|]; simpl; [|naive_solver].
  destruct (files s !! j) as [g|] eqn:E; simpl; naive_solver congruence.
Qed.
Lemma node_same path s s' : same_files s s' -> node path s' = node path s.
Proof. unfold node. by intros (-> & -> & _). Qed.
Lemma at_path_same path s s' : same_files s s' -> at_path path s' = at_path path s.
Proof. unfold at_path. by intros (-> & -> & _). Qed.
Lemma wf_same s s' : same_files s s' -> wf s -> wf s'.
Proof. intros (En & Ef & Eh & Ex & _) [A B C D]. split; rewrite ?En, ?Ef, ?Eh, ?Ex; done. Qed.

(** A handle that is open on a path. *)
Definition holds (f : File) (path : string) (s : FS) : Prop :=
  exists i, handles s !! fd f = Some i /\ names s !! path = Some i.

(** What every call but [Close] respects: well-formedness, the open handles,
    and the absence of faults. *)
Record step_ok (s s' : FS) : Prop := mkStep {
  ok_wf : wf s';
  ok_handles : forall h i, handles s !! h = Some i -> handles s' !! h = Some i;
  ok_faults : faults s = [] -> faults s' = []
}.

(** Two states that agree on the paths outside [ps]. *)
Definition frame (ps : list string) (s s' : FS) : Prop :=
  forall p, p ∉ ps -> at_path p s' = at_path p s /\ names s' !! p = names s !! p.

Lemma frame_trans ps s1 s2 s3 : frame ps s1 s2 -> frame ps s2 s3 -> frame ps s1 s3.
Proof. intros H1 H2 p Hp. destruct (H1 p Hp) as [E1 E2], (H2 p Hp) as [E3 E4]. split; congruence. Qed.
Lemma frame_weaken ps qs s s' : frame ps s s' -> ps ⊆ qs -> frame qs s s'.
Proof. intros H Hs p Hp. apply H. set_solver. Qed.
Lemma frame_nil ps s s' : frame [] s s' -> frame ps s s'.
Proof. intros H p _. apply H. set_solver. Qed.
Lemma frame_same ps s s' : same_files s s' -> frame ps s s'.
Proof. intros E p _. rewrite (at_path_same p _ _ E). split; [done|]. by destruct E as (-> & _). Qed.

Lemma holds_step f path ps s s' : holds f path s -> step_ok s s' -> frame ps s s' -> path ∉ ps -> holds f path s'.
Proof.
  intros (i & Hh & Hn) H F Hp. exists i. split; [by apply (ok_handles _ _ H)|]. by rewrite (proj2 (F path Hp)).
Qed.

(** * What the calls do *)

Lemma at_path_Some path s f : at_path path s = Some f <-> exists i, names s !! path = Some i /\ files s !! i = Some f.
Proof. unfold at_path. destruct (names s !! path) as [i|]; simpl; naive_solver. Qed.

Lemma node_None path s : wf s -> node path s = None -> names s !! path = None.
Proof.
  intros W. unfold node. destruct (names s !! path) as [i|] eqn:E; [|done]. simpl.
  destruct (wf_names s W _ _ E) as [_ [x ->]]. done.
Qed.

Lemma step_same s s' : wf s -> same_files s s' -> (faults s = [] -> faults s' = []) -> step_ok s s'.
Proof.
  intros W E F. split; [by apply (wf_same s)| |done]. destruct E as (_ & _ & -> & _). done.
Qed.

Lemma syscall_step {A} (k : FS -> (A + errno) * FS) s : wf s ->
  exists s1, same_files s s1 /\ step_ok s s1 /\ wf s1 /\
    ((exists e, syscall k s = (Ret (inr e), s1) /\ faults s <> []) \/
     syscall k s = (let '(r, s2) := k s1 in (Ret r, s2))).
Proof.
  intros W. unfold syscall, fate, bind. destruct (faults s) as [|[f|] l] eqn:E.
  - exists s. split; [done|]. split; [by apply step_same|]. split; [done|]. by right.
  - exists (set_faults l s). pose proof (same_files_set_faults l s) as X.
    split; [done|]. split; [apply step_same; [done..|congruence]|]. split; [by apply (wf_same s)|].
    left. by exists (err_of f).
  - exists (set_faults l s). pose proof (same_files_set_faults l s) as X.
    split; [done|]. split; [apply step_same; [done..|congruence]|]. split; [by apply (wf_same s)|]. by right.
Qed.

Lemma step_trans s1 s2 s3 : step_ok s1 s2 -> step_ok s2 s3 -> step_ok s1 s3.
Proof. intros [A B C] [A' B' C']. split; auto. Qed.

#[export] Hint Resolve step_trans frame_same : go.

Lemma open_inode_step path i s f s' : wf s -> names s !! path = Some i -> open_inode path i s = (f, s') ->
  step_ok s s' /\ holds f path s' /\ f_path f = path /\ fd f = next s /\ frame [] s s'.
Proof.
  intros W Hi [= <- <-]. destruct (wf_names s W _ _ Hi) as [Hlt _]. split_and!; [| |done..].
  - split; [|intros h j Hh; simpl; rewrite lookup_insert_ne; [done|]|done].
    + destruct W as [A B C D]. split; simpl.
      * intros p j Hp. destruct (A p j Hp). split; [lia|done].
      * intros j x Hj. specialize (B j x Hj). lia.
      * intros h j Hh. destruct (decide (h = next s)) as [->|Hne]; [lia|].
        rewrite lookup_insert_ne in Hh by done. specialize (C h j Hh). lia.
      * done.
    + intros <-. by rewrite (fresh_handle s W) in Hh.
  - exists i. simpl. by rewrite lookup_insert_eq.
Qed.

Lemma make_file_step path data perm s i s' : wf s -> names s !! path = None -> make_file path data perm s = (i, s') ->
  step_ok s s' /\ names s' !! path = Some i /\ frame [path] s s' /\
  at_path path s' = Some (mkFile data (Z.land perm (Z.lnot (umask s))) false).
Proof.
  intros W Hno [= <- <-]. pose proof (fresh_inode s W) as Hfi.
  assert (Hnn : forall p j, names s !! p = Some j -> j <> next s).
  { intros p j Hp. destruct (wf_names s W _ _ Hp). lia. }
  split_and!; simpl.
  - split; [|done..]. destruct W as [A B C D]. split; simpl.
    + intros p j Hp. destruct (decide (p = path)) as [->|Hne].
      * rewrite lookup_insert_eq in Hp. injection Hp as <-. rewrite lookup_insert_eq. split; [lia|by eexists].
      * rewrite lookup_insert_ne in Hp by done. destruct (A p j Hp) as [Hl Hs].
        rewrite lookup_insert_ne by (pose proof (Hnn p j Hp); congruence). split; [lia|done].
    + intros j x Hj. destruct (decide (j = next s)) as [->|Hne]; [lia|].
      rewrite lookup_insert_ne in Hj by done. specialize (B j x Hj). lia.
    + intros h j Hh. specialize (C h j Hh). lia.
    + intros p q j Hp Hq. destruct (decide (p = path)) as [->|Hp'], (decide (q = path)) as [->|Hq']; [done| | |].
      * rewrite lookup_insert_eq in Hp. rewrite lookup_insert_ne in Hq by done. injection Hp as <-.
        destruct (Hnn _ _ Hq eq_refl).
      * rewrite lookup_insert_eq in Hq. rewrite lookup_insert_ne in Hp by done. injection Hq as <-.
        destruct (Hnn _ _ Hp eq_refl).
      * rewrite lookup_insert_ne in Hp, Hq by done. by apply (D p q j).
  - apply lookup_insert_eq.
  - intros p Hp. assert (Hne : path <> p) by set_solver. unfold at_path. simpl.
    rewrite !lookup_insert_ne by done. split; [|done].
    destruct (names s !! p) as [j|] eqn:E; [|done]. simpl. rewrite lookup_insert_ne; [done|].
    pose proof (Hnn _ _ E). congruence.
  - unfold at_path. simpl. by rewrite lookup_insert_eq; simpl; rewrite lookup_insert_eq.
Qed.

(** Changing the file behind a name. *)
Lemma set_file_step path i x s : wf s -> names s !! path = Some i -> is_Some (files s !! i) ->
  let s' := set_files (<[i := x]> (files s)) s in
  step_ok s s' /\ frame [path] s s' /\ at_path path s' = Some x.
Proof.
  intros W Hi [y Hy] s'. split_and!.
  - split; [|done..]. destruct W as [A B C D]. split; simpl; [| |done..].
    + intros p j Hp. destruct (A p j Hp) as [Hl Hs]. split; [done|].
      destruct (decide (i = j)) as [->|Hne]; [rewrite lookup_insert_eq; by eexists|by rewrite lookup_insert_ne].
    + intros j z Hj. destruct (decide (i = j)) as [->|Hne]; [by apply (B j y)|].
      rewrite lookup_insert_ne in Hj by done. by apply (B j z).
  - intros p Hp. assert (Hne : path <> p) by set_solver. split; [|done]. unfold at_path. simpl.
    destruct (names s !! p) as [j|] eqn:E; [|done]. simpl. rewrite lookup_insert_ne; [done|].
    intros ->. apply Hne. by apply (wf_links s W path p j).
  - unfold at_path. simpl. rewrite Hi. simpl. by rewrite lookup_insert_eq.
Qed.

Lemma CreateTemp_spec name s : wf s -> exists r s', CreateTemp name s = (Ret r, s') /\ step_ok s s' /\
  match r with
  | inr _ => frame [] s s' /\ (faults s <> [] \/ names s !! name <> None)
  | inl f => f_path f = name /\ names s !! name = None /\ holds f name s' /\ frame [name] s s' /\
             exists m, at_path name s' = Some (mkFile "" m false)
  end.
Proof.
  intros W. unfold CreateTemp.
  destruct (syscall_step (fun s => match names s !! name with
    | Some _ => (inr EEXIST, s)
    | None => let '(i, s) := make_file name "" 384 s in let '(h, s') := open_inode name i s in (inl h, s') end) s W)
    as (s1 & E & H1 & W1 & [(e & -> & Hf)| ->]).
  { exists (inr e), s1. split; [done|]. split; [done|]. split; [by apply frame_same|by left]. }
  assert (En : names s1 !! name = names s !! name) by (by destruct E as (-> & _)). rewrite En.
  destruct (names s !! name) as [j|] eqn:Ej.
  { exists (inr EEXIST), s1. split; [done|]. split; [done|]. split; [by apply frame_same|by right]. }
  destruct (make_file name "" 384 s1) as [i s2] eqn:Em.
  destruct (make_file_step _ _ _ _ _ _ W1 En Em) as (H2 & Hi & F2 & A2).
  destruct (open_inode name i s2) as [f s3] eqn:Eo.
  destruct (open_inode_step _ _ _ _ _ (ok_wf _ _ H2) Hi Eo) as (H3 & Hh & Hp & _ & F3).
  exists (inl f), s3. split; [done|]. split; [eauto using step_trans|]. split_and!; [done..| |].
  - apply (frame_trans _ _ s1); [by apply frame_same|]. apply (frame_trans _ _ s2); [done|].
    apply (frame_weaken [] _ _ _ F3). set_solver.
  - eexists. by rewrite (proj1 (F3 name ltac:(set_solver))).
Qed.

Lemma Open_spec path s : wf s -> exists r s', Open path s = (Ret r, s') /\ step_ok s s' /\ frame [] s s' /\
  match r with
  | inr _ => faults s <> [] \/ names s !! path = None
  | inl f => f_path f = path /\ holds f path s'
  end.
Proof.
  intros W. unfold Open.
  match goal with |- context [syscall ?k s] =>
    destruct (syscall_step k s W) as (s1 & E & H1 & W1 & [(e & -> & Hf)| ->]) end.
  { exists (inr e), s1. split; [done|]. split; [done|]. split; [by apply frame_same|by left]. }
  rewrite (node_same path _ _ E). destruct (node path s) as [[i x]|] eqn:En.
  - apply node_Some in En as [Hn _].
    assert (Hn1 : names s1 !! path = Some i) by (destruct E as (-> & _); done).
    destruct (open_inode path i s1) as [f s2] eqn:Eo.
    destruct (open_inode_step _ _ _ _ _ W1 Hn1 Eo) as (H2 & Hh & Hp & _ & F2).
    exists (inl f), s2. split; [done|]. split; [by eapply step_trans|]. split; [|done].
    eapply frame_trans; [by apply frame_same|done].
  - exists (inr ENOENT), s1. split; [done|]. split; [done|]. split; [by apply frame_same|]. right. by apply node_None.
Qed.

(** Opening to write: an existing file keeps its mode, a new one is empty. *)
Lemma OpenFile_spec trunc path perm s : wf s -> exists r s', OpenFile trunc path perm s = (Ret r, s') /\ step_ok s s' /\
  match r with
  | inr _ => frame [] s s' /\ (faults s <> [] \/ exists x, at_path path s = Some x /\ f_dir x = true)
  | inl f => f_path f = path /\ holds f path s' /\ frame [path] s s' /\
      at_path path s' = match at_path path s with
        | Some x => Some (mkFile (if trunc then "" else f_data x) (f_mode x) (f_dir x))
        | None => Some (mkFile "" (Z.land perm (Z.lnot (umask s))) false)
        end /\ (at_path path s = None \/ exists x, at_path path s = Some x /\ f_dir x = false)
  end.
Proof.
  intros W. unfold OpenFile.
  match goal with |- context [syscall ?k s] =>
    destruct (syscall_step k s W) as (s1 & E & H1 & W1 & [(e & -> & Hf)| ->]) end.
  { exists (inr e), s1. split; [done|]. split; [done|]. split; [by apply frame_same|by left]. }
  rewrite (node_same path _ _ E), (node_at path s).
  destruct (node path s) as [[i x]|] eqn:En; cbn [snd fmap option_fmap option_map].
  - apply node_Some in En as [Hn Hx].
    assert (Hn1 : names s1 !! path = Some i) by (destruct E as (-> & _); done).
    assert (Hx1 : files s1 !! i = Some x) by (destruct E as (_ & -> & _); done).
    destruct (f_dir x) eqn:Ed.
    { exists (inr EISDIR), s1. split; [done|]. split; [done|]. split; [by apply frame_same|]. right. by exists x. }
    set (s2 := if trunc then set_files (<[i := mkFile "" (f_mode x) false]> (files s1)) s1 else s1).
    assert (H2 : step_ok s1 s2 /\ frame [path] s1 s2 /\
              at_path path s2 = Some (mkFile (if trunc then "" else f_data x) (f_mode x) false) /\
              names s2 !! path = Some i).
    { unfold s2. destruct trunc.
      - destruct (set_file_step path i (mkFile "" (f_mode x) false) s1 W1 Hn1 ltac:(by eexists)) as (A & B & C).
        split_and!; done.
      - split_and!; [by split|by apply frame_same| |done]. unfold at_path. rewrite Hn1. simpl. rewrite Hx1.
        destruct x; simpl in *; congruence. }
    destruct H2 as (H2 & F2 & A2 & Hn2).
    destruct (open_inode path i s2) as [f s3] eqn:Eo.
    destruct (open_inode_step _ _ _ _ _ (ok_wf _ _ H2) Hn2 Eo) as (H3 & Hh & Hp & _ & F3).
    exists (inl f), s3. split; [done|]. split; [eauto using step_trans|]. split_and!; [done..| | |].
    + eapply frame_trans; [by apply frame_same|]. eapply frame_trans; [done|]. eapply frame_weaken; [done|set_solver].
    + by rewrite (proj1 (F3 path ltac:(set_solver))).
    + right. by exists x.
  - destruct (make_file path "" perm s1) as [i s2] eqn:Em.
    assert (Hno : names s1 !! path = None) by (apply node_None; [done|]; by rewrite (node_same path _ _ E)).
    destruct (make_file_step _ _ _ _ _ _ W1 Hno Em) as (H2 & Hi & F2 & A2).
    destruct (open_inode path i s2) as [f s3] eqn:Eo.
    destruct (open_inode_step _ _ _ _ _ (ok_wf _ _ H2) Hi Eo) as (H3 & Hh & Hp & _ & F3).
    assert (Hu : umask s1 = umask s) by (destruct E as (_ & _ & _ & _ & ->); done).
    exists (inl f), s3. split; [done|]. split; [eauto using step_trans|]. split_and!; [done..| | |by left].
    + eapply frame_trans; [by apply frame_same|]. eapply frame_trans; [done|]. eapply frame_weaken; [done|set_solver].
    + by rewrite (proj1 (F3 path ltac:(set_solver))), A2, Hu.
Qed.

(** A write through an open handle: all of it, or a part and an error. *)
Lemma Write_spec f path d s x : wf s -> holds f path s -> at_path path s = Some x ->
  exists r s' n, Write f d s = (Ret r, s') /\ step_ok s s' /\ frame [path] s s' /\
    at_path path s' = Some (append_data (String.substring 0 n d) x) /\
    match r with
    | Some _ => faults s <> []
    | None => String.substring 0 n d = d
    end.
Proof.
  intros W (i & Hh & Hn) Hx. apply at_path_Some in Hx as (j & Hj & Hx). assert (j = i) as -> by congruence.
  unfold Write. set (p := match faults s with [] => _ | _ => _ end).
  assert (Hp : same_files s p.2 /\ (faults s = [] -> faults p.2 = []) /\ (p.1 <> None -> faults s <> [])).
  { unfold p. destruct (faults s) as [|y l] eqn:Ef; split_and!; try done; apply same_files_set_faults. }
  destruct p as [y s1]. simpl in Hp. destruct Hp as (E & Hf & Hy).
  pose proof (wf_same _ _ E W) as W1.
  assert (Hh1 : handles s1 !! fd f = Some i) by (destruct E as (_ & _ & -> & _); done).
  assert (Hn1 : names s1 !! path = Some i) by (destruct E as (-> & _); done).
  assert (Hx1 : files s1 !! i = Some x) by (destruct E as (_ & -> & _); done).
  rewrite Hh1.
  set (n := match y with Some y => moved y | None => String.length d end).
  assert (Hd : match y with Some y => String.substring 0 (moved y) d | None => d end = String.substring 0 n d).
  { unfold n. destruct y; [done|]. clear. induction d as [|c d IH]; [done|]. simpl. by rewrite <- IH. }
  rewrite Hd.
  assert (Ea : set_files (alter (append_data (String.substring 0 n d)) i (files s1)) s1 =
               set_files (<[i := append_data (String.substring 0 n d) x]> (files s1)) s1).
  { f_equal. apply map_eq. intros k. destruct (decide (k = i)) as [->|Hk].
    - rewrite lookup_insert_eq, lookup_alter_eq, Hx1. done.
    - by rewrite lookup_insert_ne, lookup_alter_ne by congruence. }
  rewrite Ea.
  destruct (set_file_step path i (append_data (String.substring 0 n d) x) s1 W1 Hn1 ltac:(by eexists)) as (A & B & C).
  eexists _, _, n. split; [done|]. split_and!; [| |done|].
  - apply (step_trans _ s1); [by apply step_same|done].
  - eapply frame_trans; [by apply frame_same|done].
  - destruct y; simpl; [apply Hy; done|]. by rewrite <- Hd.
Qed.

Lemma Write_holds f path d s r s' : Write f d s = (Ret r, s') -> holds f path s -> holds f path s'.
Proof.
  intros E (i & Hh & Hn). unfold Write in E. exists i.
  destruct (faults s) as [|y l]; simpl in E; rewrite Hh in E; injection E as _ <-; done.
Qed.

Lemma Copy_spec f path d e s x : wf s -> holds f path s -> at_path path s = Some x ->
  exists r s' n, Copy f d e s = (Ret r, s') /\ step_ok s s' /\ frame [path] s s' /\
    at_path path s' = Some (append_data (String.substring 0 n d) x) /\
    match r with
    | Some _ => faults s <> [] \/ e <> None
    | None => String.substring 0 n d = d /\ e = None
    end.
Proof.
  intros W Hh Hx. destruct (Write_spec f path d s x W Hh Hx) as (r & s' & n & E & H & F & A & C).
  unfold Copy. rewrite (bind_Ret _ _ _ _ _ E). eexists _, s', n. split; [done|].
  split_and!; [done..|]. destruct r; [by left|]. destruct e; [by right|done].
Qed.

Lemma Close_spec f s : wf s -> exists s', Close f s = (Ret tt, s') /\ wf s' /\ frame [] s s' /\ faults s' = faults s /\
  (forall g p, fd g <> fd f -> holds g p s -> holds g p s').
Proof.
  intros W. eexists. split; [done|]. split_and!; [| |done|].
  - destruct W as [A B C D]. split; simpl; [done..| |done]. intros h i Hh. apply lookup_delete_Some in Hh as [_ Hh]. by apply (C h i).
  - intros p _. done.
  - intros g p Hne (i & Hh & Hn). exists i. simpl. split; [|done]. by rewrite lookup_delete_ne.
Qed.

Lemma Rename_spec old new s x : wf s -> old <> new -> at_path old s = Some x -> f_dir x = false ->
  exists r s', Rename old new s = (Ret r, s') /\ step_ok s s' /\
  match r with
  | Some _ => frame [] s s' /\ (faults s <> [] \/ exists y, at_path new s = Some y /\ f_dir y = true)
  | None => frame [old; new] s s' /\ at_path new s' = Some x /\ at_path old s' = None /\ names s' !! old = None
  end.
Proof.
  intros W Hne Hx Hd. unfold Rename, err_only.
  match goal with |- context [syscall ?k] =>
    destruct (syscall_step k s W) as (s1 & E & H1 & W1 & [(e & Ek & Hf)| Ek]) end.
  { exists (Some e), s1. split; [by rewrite (bind_Ret _ _ _ _ _ Ek)|]. split; [done|]. split; [by apply frame_same|by left]. }
  rewrite !(node_same _ _ _ E) in Ek. apply at_path_Some in Hx as (i & Hn & Hi).
  assert (En : node old s = Some (i, x)) by (by apply node_Some). rewrite En in Ek.
  assert (Hdone : match node new s with Some (j, _) => j <> i | None => True end ->
    let s2 := set_names (<[new := i]> (delete old (names s1))) s1 in
    step_ok s s2 /\ frame [old; new] s s2 /\ at_path new s2 = Some x /\ at_path old s2 = None /\ names s2 !! old = None).
  { intros Hj s2. assert (Hn1 : names s1 = names s) by (by destruct E as (-> & _)).
    assert (Hf1 : files s1 = files s) by (by destruct E as (_ & -> & _)).
    split_and!.
    - apply (step_trans _ s1); [done|]. split; [|done..]. destruct W1 as [A B C D]. split; simpl; [|done..|].
      + intros p k Hp. destruct (decide (p = new)) as [->|Hp'].
        * rewrite lookup_insert_eq in Hp. injection Hp as <-. apply (A old). by rewrite Hn1.
        * rewrite lookup_insert_ne in Hp by done. apply lookup_delete_Some in Hp as [_ Hp]. by apply (A p).
      + assert (Hu : forall p, p <> new -> delete old (names s1) !! p = Some i -> False).
        { intros p _ Hp. apply lookup_delete_Some in Hp as [Hp' Hp]. apply Hp'.
          apply (D old p i); [by rewrite Hn1|done]. }
        intros p q k Hp Hq. destruct (decide (p = new)) as [->|Hp'], (decide (q = new)) as [->|Hq']; [done| | |].
        * rewrite lookup_insert_eq in Hp. injection Hp as <-. rewrite lookup_insert_ne in Hq by done. destruct (Hu q Hq' Hq).
        * rewrite lookup_insert_eq in Hq. injection Hq as <-. rewrite lookup_insert_ne in Hp by done. destruct (Hu p Hp' Hp).
        * rewrite lookup_insert_ne in Hp, Hq by done. apply lookup_delete_Some in Hp as [_ Hp], Hq as [_ Hq]. by apply (D p q k).
    - intros p Hp. assert (old <> p /\ new <> p) as [Ho Hw] by set_solver.
      unfold at_path. simpl. rewrite lookup_insert_ne, lookup_delete_ne, Hn1, Hf1 by done. done.
    - unfold at_path. simpl. rewrite lookup_insert_eq. simpl. by rewrite Hf1.
    - unfold at_path. simpl. by rewrite lookup_insert_ne, lookup_delete_eq by done.
    - simpl. by rewrite lookup_insert_ne, lookup_delete_eq by done. }
  rewrite (node_at new s). destruct (node new s) as [[j y]|] eqn:Ey.
  - destruct (f_dir y) eqn:Edy.
    { exists (Some EEXIST), s1. split; [by rewrite (bind_Ret _ _ _ _ _ Ek)|]. split; [done|].
      split; [by apply frame_same|]. right. by exists y. }
    assert (Hji : j <> i).
    { intros ->. apply node_Some in Ey as [Hy _]. apply Hne. by apply (wf_links s W old new i). }
    rewrite Hd in Ek. rewrite (proj2 (Nat.eqb_neq i j)) in Ek by congruence.
    eexists None, _. split; [by rewrite (bind_Ret _ _ _ _ _ Ek)|]. by apply Hdone.
  - eexists None, _. split; [by rewrite (bind_Ret _ _ _ _ _ Ek)|]. by apply Hdone.
Qed.

Lemma Chmod_spec path m s x : wf s -> at_path path s = Some x -> exists r s', Chmod path m s = (Ret r, s') /\ step_ok s s' /\
  frame [path] s s' /\
  match r with
  | Some _ => at_path path s' = Some x /\ faults s <> []
  | None => at_path path s' = Some (mkFile (f_data x) m (f_dir x))
  end.
Proof.
  intros W Hx. unfold Chmod, err_only.
  match goal with |- context [syscall ?k] =>
    destruct (syscall_step k s W) as (s1 & E & H1 & W1 & [(e & Ek & Hf)| Ek]) end.
  { exists (Some e), s1. split; [by rewrite (bind_Ret _ _ _ _ _ Ek)|]. split; [done|]. split; [by apply frame_same|].
    split; [by rewrite (at_path_same _ _ _ E)|done]. }
  apply at_path_Some in Hx as (i & Hn & Hi). rewrite (node_same _ _ _ E), (proj2 (node_Some _ _ _ _) (conj Hn Hi)) in Ek.
  assert (Hn1 : names s1 !! path = Some i) by (destruct E as (-> & _); done).
  assert (Hx1 : files s1 !! i = Some x) by (destruct E as (_ & -> & _); done).
  destruct (set_file_step path i (mkFile (f_data x) m (f_dir x)) s1 W1 Hn1 ltac:(by eexists)) as (A & B & C).
  eexists None, _. split; [by rewrite (bind_Ret _ _ _ _ _ Ek)|]. split; [by apply (step_trans _ s1)|].
  split; [|done]. eapply frame_trans; [by apply frame_same|done].
Qed.

Lemma Remove_spec path s : wf s -> exists r s', Remove path s = (Ret r, s') /\ step_ok s s' /\
  match r with
  | Some _ => frame [] s s' /\ (faults s <> [] \/ names s !! path = None)
  | None => frame [path] s s' /\ at_path path s' = None
  end.
Proof.
  intros W. unfold Remove, err_only.
  match goal with |- context [syscall ?k] =>
    destruct (syscall_step k s W) as (s1 & E & H1 & W1 & [(e & Ek & Hf)| Ek]) end.
  { exists (Some e), s1. split; [by rewrite (bind_Ret _ _ _ _ _ Ek)|]. split; [done|]. split; [by apply frame_same|by left]. }
  assert (En : names s1 = names s) by (by destruct E as (-> & _)).
  destruct (names s1 !! path) as [i|] eqn:Ep; rewrite En in Ep.
  - exists None, (set_names (delete path (names s1)) s1). split; [by rewrite (bind_Ret _ _ _ _ _ Ek)|]. split_and!.
    + apply (step_trans _ s1); [done|]. split; [|done..]. destruct W1 as [A B C D]. split; simpl; [|done..|].
      * intros p j Hp. apply lookup_delete_Some in Hp as [_ Hp]. by apply (A p).
      * intros p q j Hp Hq. apply lookup_delete_Some in Hp as [_ Hp], Hq as [_ Hq]. by apply (D p q j).
    + intros p Hp. assert (path <> p) by set_solver. unfold at_path. simpl. rewrite lookup_delete_ne, En by done.
      by destruct E as (_ & -> & _).
    + unfold at_path. simpl. by rewrite lookup_delete_eq.
  - exists (Some ENOENT), s1. split; [by rewrite (bind_Ret _ _ _ _ _ Ek)|]. split; [done|]. split; [by apply frame_same|by right].
Qed.

Lemma File_Stat_spec f path s x : wf s -> holds f path s -> at_path path s = Some x ->
  exists r s', File_Stat f s = (Ret r, s') /\ step_ok s s' /\ same_files s s' /\
  match r with inr _ => faults s <> [] | inl i => i = info_of (f_path f) x end.
Proof.
  intros W (i & Hh & Hn) Hx. apply at_path_Some in Hx as (j & Hj & Hx). assert (j = i) as -> by congruence.
  unfold File_Stat.
  match goal with |- context [syscall ?k s] =>
    destruct (syscall_step k s W) as (s1 & E & H1 & W1 & [(e & -> & Hf)| ->]) end.
  { by exists (inr e), s1. }
  exists (inl (info_of (f_path f) x)), s1.
  assert (handles s1 !! fd f = Some i) as -> by (by destruct E as (_ & _ & -> & _)). simpl.
  assert (files s1 !! i = Some x) as -> by (by destruct E as (_ & -> & _)). done.
Qed.

(** A closed or nil handle has no file. *)
Lemma Stat_spec path s : wf s -> exists r s', Stat path s = (Ret r, s') /\ step_ok s s' /\ same_files s s' /\
  match r with
  | inr e => e = ENOENT \/ exists x, Some x ∈ faults s /\ e = err_of x
  | inl i => exists x, at_path path s = Some x /\ i = info_of path x
  end.
Proof.
  intros W. unfold Stat, syscall, fate, bind. destruct (faults s) as [|[x|] l] eqn:E.
  - destruct (node path s) as [[i x]|] eqn:En; eexists _, s; (split; [done|]).
    + split; [by apply step_same|]. split; [done|]. exists x. split; [by rewrite node_at, En|done].
    + split; [by apply step_same|]. split; [done|]. by left.
  - exists (inr (err_of x)), (set_faults l s). split; [done|]. split; [apply step_same; [done|apply same_files_set_faults|by rewrite E]|].
    split; [apply same_files_set_faults|]. right. exists x. split; [set_solver|done].
  - destruct (node path (set_faults l s)) as [[i x]|] eqn:En; eexists _, (set_faults l s); (split; [done|]);
      (split; [apply step_same; [done|apply same_files_set_faults|by rewrite E]|]); (split; [apply same_files_set_faults|]).
    + exists x. rewrite (node_same _ _ _ (same_files_set_faults l s)) in En. split; [by rewrite node_at, En|done].
    + by left.
Qed.

Lemma File_Stat_closed f s : handles s !! fd f = None -> exists e s', File_Stat f s = (Ret (inr e), s').
Proof.
  intros Hh. unfold File_Stat, syscall, fate, bind. destruct (faults s) as [|[x|] l]; simpl; rewrite ?Hh; by eexists _, _.
Qed.

Lemma holds_same f p s s' : same_files s s' -> holds f p s -> holds f p s'.
Proof. intros (En & _ & Eh & _) (i & Hh & Hn). exists i. by rewrite Eh, En. Qed.

Lemma holds_contents f p s x : holds f p s -> at_path p s = Some x -> contents f s = f_data x.
Proof.
  intros (i & Hh & Hn) (j & Hj & Hx)%at_path_Some. assert (j = i) as -> by congruence.
  unfold contents. rewrite Hh. simpl. by rewrite Hx.
Qed.

(** * The last element of a path *)

Lemma split_go_no sep cur s : no_char sep s = true -> split_go sep cur s = [cur +:+ s].
Proof.
  revert cur. induction s as [|c s IH]; intros cur H; simpl in *; [by rewrite string_app_nil_r|].
  apply andb_prop in H as [Hc Hs]. apply negb_true_iff in Hc. rewrite Hc, IH by done.
  by rewrite string_app_assoc.
Qed.

Lemma last_split sep cur a b : no_char sep b = true -> last (split_go sep cur (a +:+ String sep b)) = Some b.
Proof.
  intros Hb. revert cur. induction a as [|c a IH]; intros cur.
  - rewrite string_app_nil_l. cbn [split_go]. rewrite Ascii.eqb_refl. by rewrite (split_go_no sep "" b Hb).
  - rewrite string_app_cons. cbn [split_go]. destruct (Ascii.eqb c sep); [|apply IH].
    assert (Hne : split_go sep "" (a +:+ String sep b) <> []).
    { intros E. specialize (IH ""). by rewrite E in IH. }
    destruct (split_go sep "" (a +:+ String sep b)) as [|y l] eqn:E; [done|].
    rewrite <- (IH ""), E. done.
Qed.

Lemma Base_app a b : no_char "/" b = true -> Base (a +:+ "/" +:+ b) = b.
Proof. intros H. unfold Base, Split. rewrite string_app_cons, string_app_nil_l. by rewrite last_split. Qed.

Lemma Chmod_holds f p path m s r s' : Chmod path m s = (Ret r, s') -> holds f p s -> holds f p s'.
Proof.
  intros E (i & Hh & Hn). exists i. unfold Chmod, err_only, syscall, fate, bind in E.
  destruct (faults s) as [|[y|] l]; [|by injection E as _ <-|].
  - destruct (node path s) as [[j x]|]; injection E as _ <-; done.
  - destruct (node path _) as [[j x]|]; injection E as _ <-; done.
Qed.
