(* ===== verification/TunStack.v ===== *)
(** src/tun_stack: the engine that owns the TUN device and the user-space
    network stack of the proxy client.  The devices, the stack and the log levels
    are dependencies and parameters.  The theorem: the engine never records that
    it runs, so it opens a device on every start and never closes one. *)
From S2P Require Import Prelude GoText.

(** Key: the fields the engine reads; a duration in nanoseconds. *)
Record Key := mkKey { MTU : Z; Mark : Z; Device : string; LogLevel : string; UDPTimeout : Z }.

#[export] Instance Key_eq_dec : EqDecision Key.
Proof. solve_decision. Defined.

(** The package's variables, the process's devices and stacks that are open
    (handles with the name of the device), and what [tunnel.T()] was set to. *)
Record Engine := mkEngine {
  _running : bool;
  _defaultKey : option Key;
  _defaultDevice : option nat;
  _defaultStack : option nat;
  devices : gmap nat string;
  stacks : gset nat;
  next_handle : nat;
  mark : Z;
  udp_timeout : Z;
  dialer_set : bool
}.

Definition engine_zero : Engine := mkEngine false None None None ∅ ∅ 0 0 0 false.

Definition set_device (d : option nat) (e : Engine) : Engine :=
  mkEngine (_running e) (_defaultKey e) d (_defaultStack e) (devices e) (stacks e) (next_handle e) (mark e) (udp_timeout e) (dialer_set e).
Definition set_stack (d : option nat) (e : Engine) : Engine :=
  mkEngine (_running e) (_defaultKey e) (_defaultDevice e) d (devices e) (stacks e) (next_handle e) (mark e) (udp_timeout e) (dialer_set e).

Section Engine.
(** [url.Parse] (an ASCII scheme, and the host), the two drivers' [Open] beside the open
    devices, [core.CreateStack], [log.ParseLevel], and whether the system is iOS. *)
Context (url_Parse : string -> (string * string) + error)
        (open_fd open_tun : string -> Z -> gmap nat string -> option error)
        (CreateStack : string -> option error)
        (ParseLevel : string -> option error).

Definition Insert (k : Key) : GoM Engine unit :=
  modify (fun e => mkEngine (_running e) (Some k) (_defaultDevice e) (_defaultStack e) (devices e)
                     (stacks e) (next_handle e) (mark e) (udp_timeout e) (dialer_set e)).

Definition SetProxyDialer : GoM Engine unit :=
  modify (fun e => mkEngine (_running e) (_defaultKey e) (_defaultDevice e) (_defaultStack e) (devices e)
                     (stacks e) (next_handle e) (mark e) (udp_timeout e) true).

Definition Second : Z := 1000000000.

(** A nil key panics at its first field. *)
Definition general (k : option Key) : GoM Engine (option error) :=
  match k with
  | None => panic
  | Some k =>
      match ParseLevel (LogLevel k) with
      | Some e => ret (Some e)
      | None =>
          (if negb (Mark k =? 0) then
             modify (fun e => mkEngine (_running e) (_defaultKey e) (_defaultDevice e) (_defaultStack e)
                                (devices e) (stacks e) (next_handle e) (Mark k) (udp_timeout e) (dialer_set e))
           else ret tt) ;;;
          if 0 <? UDPTimeout k then
            if UDPTimeout k <? Second then ret (Some (ErrText "invalid udp timeout value"))
            else
              modify (fun e => mkEngine (_running e) (_defaultKey e) (_defaultDevice e) (_defaultStack e)
                                 (devices e) (stacks e) (next_handle e) (mark e) (UDPTimeout k) (dialer_set e)) ;;;
              ret None
          else ret None
      end
  end.

(** A driver's [Open]. *)
Definition open_device (opn : string -> Z -> gmap nat string -> option error) (host : string) (mtu : Z)
  : GoM Engine (nat + error) :=
  e <- get ;;
  match opn host mtu (devices e) with
  | Some err => ret (inr err)
  | None =>
      put (mkEngine (_running e) (_defaultKey e) (_defaultDevice e) (_defaultStack e)
             (<[next_handle e := host]> (devices e)) (stacks e) (S (next_handle e)) (mark e)
             (udp_timeout e) (dialer_set e)) ;;;
      ret (inl (next_handle e))
  end.

Definition parseFD := open_device open_fd.
Definition parseTUN := open_device open_tun.

Definition parseDevice (s : string) (mtu : Z) : GoM Engine (nat + error) :=
  let s := if Contains s "://" then s else "tun" +:+ "://" +:+ s in
  match url_Parse s with
  | inr e => ret (inr e)
  | inl (scheme, host) =>
      let driver := ToLower scheme in
      if String.eqb driver "fd" then parseFD host mtu
      else if String.eqb driver "tun" then parseTUN host mtu
      else ret (inr (ErrText ("unsupported driver: " +:+ driver)))
  end.

(** The second half of [netstack]. *)
Definition with_device (name : string) (d : nat + error) : GoM Engine (option error) :=
  match d with
  | inr e => modify (set_device None) ;;; ret (Some e)
  | inl h =>
      modify (set_device (Some h)) ;;;
      match CreateStack name with
      | Some e => modify (set_stack None) ;;; ret (Some e)
      | None =>
          modify (fun e => mkEngine (_running e) (_defaultKey e) (_defaultDevice e) (Some h) (devices e)
                             ({[ h ]} ∪ stacks e) (next_handle e) (mark e) (udp_timeout e) (dialer_set e)) ;;;
          ret None
      end
  end.

Definition netstack (k : option Key) : GoM Engine (option error) :=
  match k with
  | None => panic
  | Some k => d <- parseDevice (Device k) (u32 (MTU k)) ;; with_device (Device k) d
  end.

Definition start : GoM Engine (option error) :=
  e <- get ;;
  if _running e then ret None
  else
    err <- general (_defaultKey e) ;;
    match err with
    | Some err => ret (Some err)
    | None => netstack (_defaultKey e)
    end.

Definition stop : GoM Engine (option error) :=
  e <- get ;;
  if negb (_running e) then ret None
  else
    (match _defaultDevice e with
     | Some d => modify (fun e => mkEngine (_running e) (_defaultKey e) (_defaultDevice e) (_defaultStack e)
                          (delete d (devices e)) (stacks e) (next_handle e) (mark e) (udp_timeout e) (dialer_set e))
     | None => ret tt
     end) ;;;
    (match _defaultStack e with
     | Some d => modify (fun e => mkEngine (_running e) (_defaultKey e) (_defaultDevice e) (_defaultStack e)
                          (devices e) (stacks e ∖ {[ d ]}) (next_handle e) (mark e) (udp_timeout e) (dialer_set e))
     | None => ret tt
     end) ;;;
    ret None.

Definition Start := start.
Definition Stop := stop.

(** * What a start does *)

(** Handles are fresh. *)
Definition handles_ok (e : Engine) : Prop := forall h, is_Some (devices e !! h) -> (h < next_handle e)%nat.

(** The settings of a start that do not concern the devices. *)
Lemma general_devices k e : exists o e', general k e = (o, e') /\
  devices e' = devices e /\ next_handle e' = next_handle e /\ _running e' = _running e /\ _defaultKey e' = _defaultKey e /\
  (o = Panic <-> k = None).
Proof.
  unfold general. destruct k as [k|]; [|by eexists _, e].
  destruct (ParseLevel (LogLevel k)); [eexists _, e; split_and!; done|].
  unfold bind, modify, ret. destruct (negb (Mark k =? 0)), (0 <? UDPTimeout k), (UDPTimeout k <? Second);
    (eexists _, _; split; [reflexivity|split_and!; done]).
Qed.

Lemma open_device_devices opn host mtu e : exists r e', open_device opn host mtu e = (Ret r, e') /\
  _running e' = _running e /\ _defaultKey e' = _defaultKey e /\
  match r with
  | inl h => devices e' = <[h := host]> (devices e) /\ h = next_handle e /\ next_handle e' = S h
  | inr _ => e' = e
  end.
Proof.
  unfold open_device, bind, get. destruct (opn host mtu (devices e)); (eexists _, _; split; [reflexivity|done]).
Qed.

Lemma parseDevice_devices s mtu e : exists r e', parseDevice s mtu e = (Ret r, e') /\
  _running e' = _running e /\ _defaultKey e' = _defaultKey e /\
  match r with
  | inl h => (exists host, devices e' = <[h := host]> (devices e)) /\ h = next_handle e /\ next_handle e' = S h
  | inr _ => e' = e
  end.
Proof.
  unfold parseDevice. destruct (url_Parse _) as [[scheme host]|err]; [|by eexists _, e].
  assert (H : forall opn, exists r e', open_device opn host mtu e = (Ret r, e') /\
    _running e' = _running e /\ _defaultKey e' = _defaultKey e /\
    match r with
    | inl h => (exists host, devices e' = <[h := host]> (devices e)) /\ h = next_handle e /\ next_handle e' = S h
    | inr _ => e' = e
    end).
  { intros opn. destruct (open_device_devices opn host mtu e) as (r & e' & E & ? & ? & Hr). exists r, e'.
    split_and!; [done..|]. destruct r; [|done]. destruct Hr as (? & ? & ?). split; [by exists host|done]. }
  destruct (String.eqb _ "fd"); [apply H|]. destruct (String.eqb _ "tun"); [apply H|]. by eexists _, e.
Qed.

(** A start that succeeds leaves one more device open; none of the devices open
    before is closed, whatever happens. *)
Lemma start_devices e : _running e = false -> handles_ok e ->
  exists o e', start e = (o, e') /\ _running e' = false /\ handles_ok e' /\ devices e ⊆ devices e' /\
    (o = Ret None -> size (devices e') = S (size (devices e))) /\ _defaultKey e' = _defaultKey e /\
    (o = Panic -> _defaultKey e = None).
Proof.
  intros Hr Hh. unfold start, bind, get. rewrite Hr.
  destruct (general_devices (_defaultKey e) e) as (o & e1 & -> & Hd1 & Hn1 & Hr1 & Hk1 & Hp1).
  assert (Hh1 : handles_ok e1) by (intros h; rewrite Hd1, Hn1; apply Hh).
  destruct o as [[err|]|].
  - eexists _, e1. split_and!; [reflexivity|congruence|done|by rewrite Hd1|done|done|done].
  - destruct (_defaultKey e) as [k|]; [|by destruct Hp1 as [_ Hp1]; specialize (Hp1 eq_refl)].
    unfold netstack. destruct (parseDevice_devices (Device k) (u32 (MTU k)) e1) as (r & e2 & E2 & Hr2 & Hk2 & Hd2).
    rewrite (bind_Ret _ _ _ _ _ E2). destruct r as [h|err].
    + destruct Hd2 as ((host & Hd2) & -> & Hn2).
      assert (Hfresh : devices e1 !! next_handle e1 = None).
      { apply eq_None_not_Some. intros Hs. apply Hh1 in Hs. lia. }
      assert (Hh2 : forall x, is_Some (devices e2 !! x) -> (x < next_handle e2)%nat).
      { intros x. rewrite Hd2, Hn2. destruct (decide (x = next_handle e1)) as [->|Hx]; [lia|].
        rewrite lookup_insert_ne by done. intros Hs. apply Hh1 in Hs. lia. }
      assert (Hsub : devices e ⊆ devices e2).
      { rewrite Hd2, Hd1 in *. by apply insert_subseteq. }
      assert (Hsz : size (devices e2) = S (size (devices e))).
      { rewrite Hd2, map_size_insert_None, Hd1; done. }
      unfold with_device, modify, bind, ret. destruct (CreateStack (Device k)) as [err|];
        (eexists _, _; split; [reflexivity|]); unfold set_stack, set_device, handles_ok;
        cbn [_running _defaultKey devices next_handle]; split_and!; try done; congruence.
    + subst e2. unfold with_device, modify, bind, ret. eexists _, _. split; [reflexivity|].
      unfold set_device, handles_ok. cbn [_running _defaultKey devices next_handle]. rewrite Hd1.
      split_and!; try done; [congruence|]. by rewrite <- Hd1.
  - eexists _, e1. split_and!; [reflexivity|congruence|done|by rewrite Hd1|done|done|]. intros _. by apply Hp1.
Qed.

(** A start after one that succeeded fails, when the device is refused while
    it is open. *)
Lemma start_busy e0 e1 e2 k :
  (forall name mtu devs h, devs !! h = Some name -> is_Some (open_tun name mtu devs) /\ is_Some (open_fd name mtu devs)) ->
  _running e0 = false -> _defaultKey e0 = Some k -> Start e0 = (Ret None, e1) ->
  _defaultKey e2 = Some k -> devices e2 = devices e1 -> _running e2 = false ->
  exists err e3, Start e2 = (Ret (Some err), e3).
Proof.
  intros Hbusy Hr0 Hk0 HS Hk2 Hd2 Hr2. unfold Start, start, bind, get in *. rewrite Hr0, Hk0 in HS. rewrite Hr2, Hk2.
  destruct (general_devices (Some k) e2) as (o2 & e2' & G2 & Hd2' & _ & _ & _ & Hp2). rewrite G2.
  destruct o2 as [[err|]|]; [by eexists _, _| |by destruct Hp2 as [Hp2 _]; specialize (Hp2 eq_refl)].
  destruct (general_devices (Some k) e0) as (o0 & e0' & G0 & Hd0' & _). rewrite G0 in HS.
  destruct o0 as [[err|]|]; [done| |done].
  unfold netstack in *. unfold parseDevice in *.
  destruct (url_Parse (if Contains (Device k) "://" then Device k else "tun" +:+ "://" +:+ Device k)) as [[scheme host]|err];
    [|unfold with_device, bind, ret, modify in *; by eexists _, _].
  assert (HO : forall opn, (forall h, devices e1 !! h = Some host -> is_Some (opn host (u32 (MTU k)) (devices e1))) ->
    (match open_device opn host (u32 (MTU k)) e0' with (Ret (inl h), e) => devices e1 = devices e | _ => False end) ->
    exists err, open_device opn host (u32 (MTU k)) e2' = (Ret (inr err), e2')).
  { intros opn Hb He. unfold open_device, bind, get in *. destruct (opn host (u32 (MTU k)) (devices e0')); [done|].
    cbn in He. destruct (Hb (next_handle e0')) as [err Herr].
    - rewrite He. apply lookup_insert_eq.
    - exists err. by rewrite Hd2', Hd2, Herr. }
  assert (Hfin : forall opn, (forall h, devices e1 !! h = Some host -> is_Some (opn host (u32 (MTU k)) (devices e1))) ->
    bind (open_device opn host (u32 (MTU k))) (with_device (Device k)) e0' = (Ret None, e1) ->
    exists err e3, bind (open_device opn host (u32 (MTU k))) (with_device (Device k)) e2' = (Ret (Some err), e3)).
  { intros opn Hb HR. destruct (HO opn Hb) as (err & HE).
    - unfold bind at 1 in HR. destruct (open_device_devices opn host (u32 (MTU k)) e0') as (r & e' & E & _).
      rewrite E in HR. rewrite E. destruct r as [h|err]; [|done]. unfold with_device, bind, modify, ret in HR.
      destruct (CreateStack (Device k)); [done|]. by injection HR as <-.
    - exists err. rewrite (bind_Ret _ _ _ _ _ HE). unfold with_device, bind, modify, ret. by eexists. }
  destruct (String.eqb _ "fd"); [|destruct (String.eqb _ "tun")].
  - apply (Hfin open_fd); [|exact HS]. intros h Hl. by apply (Hbusy host _ _ h).
  - apply (Hfin open_tun); [|exact HS]. intros h Hl. by apply (Hbusy host _ _ h).
  - unfold with_device, bind, ret, modify in *. by eexists _, _.
Qed.

(** * The life of the engine *)

Inductive call := CInsert (k : Key) | CDialer | CStart | CStop.
Definition run_call (c : call) (e : Engine) : Engine :=
  match c with
  | CInsert k => (Insert k e).2
  | CDialer => (SetProxyDialer e).2
  | CStart => (Start e).2
  | CStop => (Stop e).2
  end.
Definition run_calls (cs : list call) (e : Engine) : Engine := foldl (fun e c => run_call c e) e cs.

(** How many starts of a history succeed. *)
Fixpoint starts (cs : list call) (e : Engine) : nat :=
  match cs with
  | [] => 0
  | c :: cs' => (match c with CStart => match (Start e).1 with Ret None => 1 | _ => 0 end | _ => 0 end
                 + starts cs' (run_call c e))%nat
  end.

Lemma run_call_inv c e : _running e = false -> handles_ok e ->
  _running (run_call c e) = false /\ handles_ok (run_call c e) /\ devices e ⊆ devices (run_call c e) /\
  (size (devices e) + match c with CStart => match (Start e).1 with Ret None => 1 | _ => 0 end | _ => 0 end
     <= size (devices (run_call c e)))%nat.
Proof.
  intros Hr Hh. destruct c; cbn [run_call].
  - by rewrite Nat.add_0_r.
  - by rewrite Nat.add_0_r.
  - destruct (start_devices e Hr Hh) as (o & e' & E & ? & ? & Hs & Ho & _). unfold Start. rewrite E.
    cbn [fst snd]. split_and!; [done..|]. destruct o as [[err|]|].
    + rewrite Nat.add_0_r. by apply map_subseteq_size.
    + rewrite Ho by done. lia.
    + rewrite Nat.add_0_r. by apply map_subseteq_size.
  - unfold Stop, stop, bind, get. rewrite Hr. cbn. by rewrite Nat.add_0_r.
Qed.

(** The engine never closes what it opens.  In every history of calls from
    the program's start: [Stop] changes nothing, the record of running stays
    false, every device once open stays open, and each start that succeeds has
    opened one more. *)
Theorem engine_never_closes cs cs' :
  let e := run_calls cs engine_zero in
  let e' := run_calls cs' e in
  _running e = false /\ Stop e = (Ret None, e) /\ devices e ⊆ devices e' /\
  (starts cs engine_zero <= size (devices e))%nat.
Proof.
  assert (H : forall cs e, _running e = false -> handles_ok e ->
    _running (run_calls cs e) = false /\ handles_ok (run_calls cs e) /\ devices e ⊆ devices (run_calls cs e) /\
    (size (devices e) + starts cs e <= size (devices (run_calls cs e)))%nat).
  { clear cs cs'. intros cs. induction cs as [|c cs IH]; intros e Hr Hh; [cbn; split_and!; try done; lia|].
    destruct (run_call_inv c e Hr Hh) as (Hr1 & Hh1 & Hs1 & Hn1).
    destruct (IH _ Hr1 Hh1) as (Hr2 & Hh2 & Hs2 & Hn2). cbn [run_calls foldl starts]. unfold run_calls in *.
    split_and!; [done|done|by etrans|]. lia. }
  destruct (H cs engine_zero eq_refl) as (Hr & Hh & _ & Hn).
  { intros h [x Hx]. cbn [devices engine_zero] in Hx. by rewrite lookup_empty in Hx. }
  destruct (H cs' _ Hr Hh) as (_ & _ & Hs & _). cbv zeta.
  split_and!; [done| |done|exact Hn]. unfold Stop, stop, bind, get. by rewrite Hr.
Qed.
End Engine.
