(* ===== verification/SysLinux.v ===== *)
(** src/gateway/sys_linux.go: the address of the TUN interface and the routes
    into it.  netlink is the kernel's interface, its calls are parameters over an
    abstract kernel.  The theorems: what a call that succeeds asked for, in order,
    that only a missing link, an address that cannot be parsed and the last
    request make it fail, and which routes are asked for. *)
From S2P Require Import Prelude GoText GoIo GoNet.

Section Netlink.
Context {OS Link : Type}.
Context (LinkByName : string -> OS -> Link + error)
        (LinkSetMTU LinkSetTxQLen : Link -> Z -> OS -> option error * OS)
        (LinkSetUp : Link -> OS -> option error * OS)
        (ParseIPNet : string -> IPNet + error)
        (AddrAdd : Link -> IPNet -> IPNet -> OS -> option error * OS)
        (RouteAdd : IPNet -> bytes -> OS -> option error * OS)
        (RouteDel : IPNet -> OS -> option error * OS).

(** [net.CIDRMask(32, 32)] *)
Definition mask32 : bytes := [255; 255; 255; 255].
Definition with_mask32 (n : IPNet) : IPNet := mkIPNet (net_ip n) mask32.

(** The addresses of both ends, each a network of one address. *)
Definition add_addr (ifce : Link) (localAddr remoteAddr : string) (o : OS) : option error * OS :=
  match ParseIPNet localAddr with
  | inr err => (Some err, o)
  | inl ln =>
      match ParseIPNet remoteAddr with
      | inr err => (Some err, o)
      | inl rn => AddrAdd ifce (with_mask32 ln) (with_mask32 rn) o
      end
  end.

Definition setTunAddr (ifname localAddr remoteAddr : string) (o : OS) : option error * OS :=
  match LinkByName ifname o with
  | inr err => (Some err, o)
  | inl ifce =>
      let '(_, o) := LinkSetMTU ifce 1375 o in
      let '(_, o) := LinkSetTxQLen ifce 100 o in
      let '(_, o) := LinkSetUp ifce o in
      add_addr ifce localAddr remoteAddr o
  end.

Definition addTunAddr (ifname localAddr remoteAddr : string) (o : OS) : option error * OS :=
  match LinkByName ifname o with
  | inr err => (Some err, o)
  | inl ifce => add_addr ifce localAddr remoteAddr o
  end.

(** The route to a network by a gateway, which may be written as a network. *)
Definition addRoute (dst gw : string) (o : OS) : option error * OS :=
  match ParseCIDR_err dst with
  | inr err => (Some err, o)
  | inl (_, networkid) =>
      match ParseCIDR_err gw with
      | inr err => (Some err, o)
      | inl (ipGW, _) => RouteAdd networkid ipGW o
      end
  end.

(** The gateway is not looked at. *)
Definition delRoute (dst gw : string) (o : OS) : option error * OS :=
  match ParseCIDR_err dst with
  | inr err => (Some err, o)
  | inl (_, networkid) => RouteDel networkid o
  end.

(** The errors of the link's settings are dropped: over a link that exists and
    addresses that parse the result is the last request's, made after them. *)
Theorem setTunAddr_spec ifname l r o ifce ln rn :
  LinkByName ifname o = inl ifce -> ParseIPNet l = inl ln -> ParseIPNet r = inl rn ->
  let o3 := (LinkSetUp ifce (LinkSetTxQLen ifce 100 (LinkSetMTU ifce 1375 o).2).2).2 in
  setTunAddr ifname l r o = AddrAdd ifce (with_mask32 ln) (with_mask32 rn) o3.
Proof.
  intros Hl H1 H2. unfold setTunAddr, add_addr. rewrite Hl, H1, H2.
  destruct (LinkSetMTU ifce 1375 o), (LinkSetTxQLen ifce 100 _), (LinkSetUp ifce _). done.
Qed.

(** A call that fails before the last request adds no address: an address that
    cannot be parsed leaves the link up without one. *)
Theorem setTunAddr_unparsed ifname l r o ifce e : LinkByName ifname o = inl ifce -> ParseIPNet l = inr e ->
  setTunAddr ifname l r o = (Some e, (LinkSetUp ifce (LinkSetTxQLen ifce 100 (LinkSetMTU ifce 1375 o).2).2).2).
Proof.
  intros Hl H1. unfold setTunAddr, add_addr. rewrite Hl, H1.
  destruct (LinkSetMTU ifce 1375 o), (LinkSetTxQLen ifce 100 _), (LinkSetUp ifce _). done.
Qed.

(** Deleting a route asks for the network that adding it asked for, whatever the
    gateways; only what is no network is refused by both, with the same error. *)
Theorem routes_paired dst gw gw' :
  (exists n, (forall o, delRoute dst gw' o = RouteDel n o) /\
     ((exists ip, forall o, addRoute dst gw o = RouteAdd n ip o) \/ exists e, forall o, addRoute dst gw o = (Some e, o))) \/
  exists e, forall o, addRoute dst gw o = (Some e, o) /\ delRoute dst gw' o = (Some e, o).
Proof.
  unfold addRoute, delRoute. destruct (ParseCIDR_err dst) as [[x n]|e]; [left|right; by exists e].
  exists n. split; [done|]. destruct (ParseCIDR_err gw) as [[ip y]|e]; [left; by exists ip|right; by exists e].
Qed.
End Netlink.
