(* ===== verification/ProxyClient.v ===== *)
(** src/gateway/proxy_client.go: the outbounds,
    peers through which this machine reaches networks.  The manager keeps them in
    memory and in the store; the client starts the TUN engine, keeps the address
    router and the system's routes, and dials through the outbound whose network
    holds an address.  The theorems: the outbounds survive a restart with their
    running information, an added outbound carries the traffic of its network,
    what deleting and stopping leave behind. *)
From S2P Require Import Prelude GoText GoIo GoNet Json Codec TypesId Store Avl ProxyRouter Socks5Util Socks5Client Socks5Rfc Authorize TunStack.

Record socksOutbound := mkOb {
  ob_ID : ID;
  ob_Remark : string;
  ob_Open : bool;
  ob_Peer : string;
  ob_PeerName : string;
  ob_Token : ID;
  ob_Route : string;
  ob_routeNet : option IPNet;
  ob_socks5Peer : PeerWithAuth
}.

Definition ob_zero : socksOutbound := mkOb (mkID 0) "" false "" "" (mkID 0) "" None (mkPeer "" [] []).

Definition ob_fields : list (field socksOutbound) :=
  [ jfield "id" ob_ID
      (fun v r => mkOb v (ob_Remark r) (ob_Open r) (ob_Peer r) (ob_PeerName r) (ob_Token r) (ob_Route r) (ob_routeNet r) (ob_socks5Peer r));
    jfield "remark" ob_Remark
      (fun v r => mkOb (ob_ID r) v (ob_Open r) (ob_Peer r) (ob_PeerName r) (ob_Token r) (ob_Route r) (ob_routeNet r) (ob_socks5Peer r));
    jfield "open" ob_Open
      (fun v r => mkOb (ob_ID r) (ob_Remark r) v (ob_Peer r) (ob_PeerName r) (ob_Token r) (ob_Route r) (ob_routeNet r) (ob_socks5Peer r));
    jfield "peer" ob_Peer
      (fun v r => mkOb (ob_ID r) (ob_Remark r) (ob_Open r) v (ob_PeerName r) (ob_Token r) (ob_Route r) (ob_routeNet r) (ob_socks5Peer r));
    jfield "peer_name" ob_PeerName
      (fun v r => mkOb (ob_ID r) (ob_Remark r) (ob_Open r) (ob_Peer r) v (ob_Token r) (ob_Route r) (ob_routeNet r) (ob_socks5Peer r));
    jfield "token" ob_Token
      (fun v r => mkOb (ob_ID r) (ob_Remark r) (ob_Open r) (ob_Peer r) (ob_PeerName r) v (ob_Route r) (ob_routeNet r) (ob_socks5Peer r));
    jfield "route" ob_Route
      (fun v r => mkOb (ob_ID r) (ob_Remark r) (ob_Open r) (ob_Peer r) (ob_PeerName r) (ob_Token r) v (ob_routeNet r) (ob_socks5Peer r)) ].

Definition ob_fits (r : socksOutbound) : Prop :=
  json_fits (ob_ID r) /\
  json_fits (ob_Remark r) /\
  json_fits (ob_Open r) /\
  json_fits (ob_Peer r) /\
  json_fits (ob_PeerName r) /\
  json_fits (ob_Token r) /\
  json_fits (ob_Route r).

(** What JSON carries of an outbound. *)
Definition ob_norm (o : socksOutbound) : socksOutbound :=
  mkOb (ob_ID o) (ob_Remark o) (ob_Open o) (ob_Peer o) (ob_PeerName o) (ob_Token o) (ob_Route o) None (mkPeer "" [] []).

#[export] Instance ob_codec : JsonCodec socksOutbound := {
  json_of := struct_json ob_fields;
  json_into := struct_into ob_fields;
  zero := ob_zero;
  json_fits := ob_fits;
  json_norm := ob_norm;
  json_depth := 1
}.
#[export] Instance ob_laws : CodecLaws socksOutbound.
Proof. struct_laws. Qed.

Definition set_running_info (n : option IPNet) (p : PeerWithAuth) (o : socksOutbound) : socksOutbound :=
  mkOb (ob_ID o) (ob_Remark o) (ob_Open o) (ob_Peer o) (ob_PeerName o) (ob_Token o) (ob_Route o) n p.
Definition set_Open (b : bool) (o : socksOutbound) : socksOutbound :=
  mkOb (ob_ID o) (ob_Remark o) b (ob_Peer o) (ob_PeerName o) (ob_Token o) (ob_Route o) (ob_routeNet o) (ob_socks5Peer o).
Definition set_PeerName (n : string) (o : socksOutbound) : socksOutbound :=
  mkOb (ob_ID o) (ob_Remark o) (ob_Open o) (ob_Peer o) n (ob_Token o) (ob_Route o) (ob_routeNet o) (ob_socks5Peer o).

Definition tunName : string := "uptptun0".
Definition tunLocal : string := "10.8.0.3/32".
Definition tunRemote : string := "10.8.0.254/32".
Definition keySocksOutbound : string := "socks_outbound".

(** * The manager of the outbounds *)

Section Manager.
Context {DB : Type} {Db : LevelDB DB} {Dbl : LevelDBLaws DB}.
(** [peer.Decode] of libp2p. *)
Context (Decode_peer : string -> string + error).

Definition socks5OutboundFillRunningInfo (ob : socksOutbound) : option error * socksOutbound :=
  match Decode_peer (ob_Peer ob) with
  | inr e => (Some e, ob)
  | inl pid =>
      match ParseCIDR_err (ob_Route ob) with
      | inr e => (Some e, ob)
      | inl (_, n) =>
          let tokenBytes := LE_PutUint64 (Uint64 (ob_Token ob)) in
          (None, set_running_info (Some n) (mkPeer pid tokenBytes tokenBytes) ob)
      end
  end.

(** The map's pointers are never shared: each operation stores a fresh value
    and [ListOutbounds] copies.  A [null] element in the store, which no save
    writes, would be a nil pointer; it decodes to the zero outbound here. *)
Record socks5ProxyManager := mkObMgr { ob_db : DB; outbounds : option (gmap Z socksOutbound) }.
Definition set_ob_db (d : DB) (m : socks5ProxyManager) : socks5ProxyManager := mkObMgr d (outbounds m).

Definition saveOutbounds : GoM socks5ProxyManager (option error) :=
  m <- get ;;
  match outbounds m with
  | None => ret None
  | Some rs => zoom ob_db set_ob_db (dbPut keySocksOutbound (Marshal rs))
  end.

(** The error of filling the running information is dropped. *)
Definition fill_all (rs : option (gmap Z socksOutbound)) : option (gmap Z socksOutbound) :=
  match rs with
  | Some rs => Some ((fun ob => (socks5OutboundFillRunningInfo ob).2) <$> rs)
  | None => None
  end.

Definition loadOutbounds : GoM socks5ProxyManager (option error) :=
  m <- get ;;
  match db_Get keySocksOutbound (ob_db m) with
  | inr ErrNotFound => ret None
  | inr e => ret (Some e)
  | inl v =>
      match Unmarshal v (outbounds m) with
      | inr e => ret (Some e)
      | inl rs =>
          put (mkObMgr (ob_db m) (fill_all rs)) ;;;
          ret None
      end
  end.

Definition NewSocksOutboundsManager (d : DB) : socks5ProxyManager + error :=
  match loadOutbounds (mkObMgr d None) with
  | (Ret None, m) => inl m
  | (Ret (Some e), _) => inr e
  | (Panic, _) => inr (ErrText "unreachable")
  end.

(** The outbound after the call is returned too: the caller's variable is
    filled through its pointer. *)
Definition mgr_put (outbound : socksOutbound) : GoM socks5ProxyManager (option error * socksOutbound) :=
  match socks5OutboundFillRunningInfo outbound with
  | (Some e, ob) => ret (Some e, ob)
  | (None, ob) =>
      m <- get ;;
      put (mkObMgr (ob_db m) (Some (<[Uint64 (ob_ID ob) := ob]> (default ∅ (outbounds m))))) ;;;
      err <- saveOutbounds ;;
      ret (err, ob)
  end.
Definition mgr_AddOutbound := mgr_put.
Definition mgr_UpdateOutbound := mgr_put.

Definition mgr_DeleteOutbound (id : ID) : GoM socks5ProxyManager (option socksOutbound * option error) :=
  m <- get ;;
  match outbounds m with
  | None => ret (None, None)
  | Some rs =>
      match rs !! Uint64 id with
      | None => ret (None, None)
      | Some ob =>
          put (mkObMgr (ob_db m) (Some (delete (Uint64 id) rs))) ;;;
          err <- saveOutbounds ;;
          ret (Some ob, err)
      end
  end.

(** [None] is the nil pointer. *)
Definition GetOutbound (id : ID) : GoM socks5ProxyManager (option socksOutbound) :=
  m <- get ;;
  put (mkObMgr (ob_db m) (Some (default ∅ (outbounds m)))) ;;;
  ret (default ∅ (outbounds m) !! Uint64 id).

Definition ListOutbounds (range : gmap Z socksOutbound -> list (Z * socksOutbound))
  : GoM socks5ProxyManager (list socksOutbound) :=
  gets (fun m => (range (default ∅ (outbounds m))).*2).

(** ** The outbounds survive a restart *)

Inductive ob_op := ObPut (o : socksOutbound) | ObDel (id : ID).
Definition run_ob (o : ob_op) : GoM socks5ProxyManager (option error) :=
  match o with
  | ObPut ob => r <- mgr_put ob ;; ret r.1
  | ObDel id => r <- mgr_DeleteOutbound id ;; ret r.2
  end.
Fixpoint run_obs (os : list ob_op) : GoM socks5ProxyManager (list (option error)) :=
  match os with
  | [] => ret []
  | o :: os' => e <- run_ob o ;; es <- run_obs os' ;; ret (e :: es)
  end.

(** The map: an outbound that cannot be filled is not stored. *)
Definition spec_ob (m : gmap Z socksOutbound) (o : ob_op) : gmap Z socksOutbound :=
  match o with
  | ObPut ob => match socks5OutboundFillRunningInfo ob with
                | (None, ob') => <[Uint64 (ob_ID ob) := ob']> m
                | (Some _, _) => m
                end
  | ObDel id => delete (Uint64 id) m
  end.
Definition ob_op_fits (o : ob_op) : Prop := match o with ObPut ob => ob_fits ob | _ => True end.

Definition held_obs (m : socks5ProxyManager) : gmap Z socksOutbound := default ∅ (outbounds m).

(** Every outbound held is storable and filled. *)
Definition ob_ok (k : Z) (o : socksOutbound) : Prop :=
  is_u64 k /\ ob_fits o /\ socks5OutboundFillRunningInfo (ob_norm o) = (None, o).
(** The store agrees with the memory, up to the running information. *)
Definition stored_obs (d : DB) (rs : option (gmap Z socksOutbound)) : Prop :=
  match rs with
  | None => db_Get keySocksOutbound d = inr ErrNotFound
  | Some rs => saved keySocksOutbound rs d \/ (rs = ∅ /\ db_Get keySocksOutbound d = inr ErrNotFound)
  end.

Lemma fill_norm ob ob' : socks5OutboundFillRunningInfo ob = (None, ob') ->
  socks5OutboundFillRunningInfo (ob_norm ob') = (None, ob') /\ ob_ID ob' = ob_ID ob /\ (ob_fits ob -> ob_fits ob').
Proof.
  unfold socks5OutboundFillRunningInfo. destruct (Decode_peer (ob_Peer ob)) as [pid|] eqn:Ed; [|done].
  destruct (ParseCIDR_err (ob_Route ob)) as [[x n]|] eqn:Ep; [|done]. intros [= <-].
  cbn [set_running_info ob_norm ob_Peer ob_Route ob_Token ob_ID]. rewrite Ed, Ep. done.
Qed.

Lemma stored_restart d rs : map_Forall ob_ok (default ∅ rs) -> stored_obs d rs ->
  exists m, NewSocksOutboundsManager d = inl m /\ held_obs m = default ∅ rs /\ ob_db m = d.
Proof.
  intros Hok Hs. unfold NewSocksOutboundsManager, loadOutbounds, bind, get, put, ret. cbn [ob_db outbounds].
  destruct rs as [rs|]; cbn [stored_obs from_option] in Hs; [destruct Hs as [Hs|[-> Hs]]|];
    [|rewrite Hs; by eexists..].
  unfold saved in Hs. rewrite Hs.
  assert (Hf : json_fits rs).
  { intros k o Hk. destruct (Hok k o Hk) as (? & ? & _). by split. }
  pose proof (Unmarshal_Marshal (A := option (gmap Z socksOutbound)) (Some rs) Hf ltac:(cbn; lia)) as HU.
  change (Unmarshal (Marshal rs) None = inl (Some (ob_norm <$> rs))) in HU. rewrite HU. eexists. split; [reflexivity|].
  split; [|done]. unfold held_obs. cbn. rewrite <- map_fmap_compose. rewrite <- (map_fmap_id rs) at 2.
  apply map_fmap_ext. intros k o Hk. destruct (Hok k o Hk) as (_ & _ & Hn). cbn. by rewrite Hn.
Qed.

Lemma saveOutbounds_run d rs : exists e d', saveOutbounds (mkObMgr d (Some rs)) = (Ret e, mkObMgr d' (Some rs)) /\
  (e = None -> saved keySocksOutbound rs d').
Proof.
  unfold saveOutbounds, bind, get, zoom, dbPut. cbn [outbounds ob_db].
  destruct (db_Put keySocksOutbound (Marshal rs) d) as [e d'] eqn:E. exists e, d'. split; [done|].
  intros ->. by eapply put_get.
Qed.

Lemma run_ob_spec o m : ob_op_fits o -> map_Forall ob_ok (held_obs m) ->
  exists e m', run_ob o m = (Ret e, m') /\ held_obs m' = spec_ob (held_obs m) o /\ map_Forall ob_ok (held_obs m') /\
    (e = None -> stored_obs (ob_db m) (outbounds m) -> stored_obs (ob_db m') (outbounds m')).
Proof.
  intros Ho Hok. destruct m as [d rs]. unfold held_obs in *. cbn [outbounds ob_db] in *.
  destruct o as [ob|id]; cbn [run_ob spec_ob].
  - unfold mgr_put. destruct (socks5OutboundFillRunningInfo ob) as [[e|] ob'] eqn:Ef.
    { exists (Some e), (mkObMgr d rs). by split_and!. }
    destruct (fill_norm ob ob' Ef) as (Hn & Hi & Hf). rewrite <- Hi.
    assert (Hok' : map_Forall ob_ok (<[Uint64 (ob_ID ob') := ob']> (default ∅ rs))).
    { apply map_Forall_insert_2; [|done]. split; [|split; [by apply Hf|done]]. apply Hf in Ho. apply Ho. }
    destruct (saveOutbounds_run d (<[Uint64 (ob_ID ob') := ob']> (default ∅ rs))) as (e & d' & Hs & Hsv).
    unfold bind, get, put. cbn [ob_db outbounds]. rewrite Hs.
    exists e, (mkObMgr d' (Some (<[Uint64 (ob_ID ob') := ob']> (default ∅ rs)))).
    split_and!; [done|done|done|]. intros He _. left. by apply Hsv.
  - unfold mgr_DeleteOutbound. unfold bind, get. cbn [outbounds]. destruct rs as [rs|].
    2:{ exists None, (mkObMgr d None). cbn. rewrite delete_empty. by split_and!. }
    cbn [from_option] in *. destruct (rs !! Uint64 id) as [ob|] eqn:E.
    2:{ exists None, (mkObMgr d (Some rs)). cbn. unfold Datatypes.id in *. rewrite delete_id by done. by split_and!. }
    destruct (saveOutbounds_run d (delete (Uint64 id) rs)) as (e & d' & Hs & Hsv).
    unfold bind, put. cbn [ob_db]. rewrite Hs.
    exists e, (mkObMgr d' (Some (delete (Uint64 id) rs))).
    split_and!; [done|done|by apply map_Forall_delete|]. intros He _. left. by apply Hsv.
Qed.

Lemma run_obs_total os m : Forall ob_op_fits os -> map_Forall ob_ok (held_obs m) ->
  exists es m', run_obs os m = (Ret es, m') /\ held_obs m' = foldl spec_ob (held_obs m) os.
Proof.
  intros Hos. revert m. induction Hos as [|o os Ho Hos IH]; intros m Hok; [by exists [], m|].
  destruct (run_ob_spec o m Ho Hok) as (e & m1 & H1 & Hh & Hok1 & _).
  destruct (IH m1 Hok1) as (es & m2 & H2 & Hh2). exists (e :: es), m2. cbn [run_obs foldl].
  rewrite (bind_Ret _ _ _ _ _ H1), (bind_Ret _ _ _ _ _ H2). split; [done|]. by rewrite Hh2, Hh.
Qed.

(** The outbounds are a durable map.  From a manager that agrees with its
    store, any sequence of additions, updates and deletions runs to its end
    whatever the store answers; the map held is the one they define, where an
    outbound whose peer or route does not parse is refused; and when every
    change reported no error, a manager started on the store holds exactly the same outbounds, their dialing
    information computed anew. *)
Theorem outbounds_durable os m :
  Forall ob_op_fits os -> map_Forall ob_ok (held_obs m) -> stored_obs (ob_db m) (outbounds m) ->
  exists es m', run_obs os m = (Ret es, m') /\ held_obs m' = foldl spec_ob (held_obs m) os /\
    (Forall (fun e => e = None) es -> exists m2, NewSocksOutboundsManager (ob_db m') = inl m2 /\ held_obs m2 = held_obs m') /\
    (forall id, exists m2, GetOutbound id m' = (Ret (held_obs m' !! Uint64 id), m2) /\ held_obs m2 = held_obs m').
Proof.
  intros Hos. revert m. assert (Hget : forall m id, exists m2,
    GetOutbound id m = (Ret (held_obs m !! Uint64 id), m2) /\ held_obs m2 = held_obs m) by (intros m id; by eexists).
  induction Hos as [|o os Ho Hos IH]; intros m Hok Hst.
  { exists [], m. split_and!; [done|done| |apply Hget]. intros _.
    destruct (stored_restart _ _ Hok Hst) as (m2 & ? & ? & _). by exists m2. }
  destruct (run_ob_spec o m Ho Hok) as (e & m1 & H1 & Hh & Hok1 & Hst1).
  destruct e as [e|].
  - destruct (run_obs_total os m1 Hos Hok1) as (es & m2 & H2 & Hh2). exists (Some e :: es), m2. cbn [run_obs foldl].
    rewrite (bind_Ret _ _ _ _ _ H1), (bind_Ret _ _ _ _ _ H2). split_and!; [done|by rewrite Hh2, Hh| |apply Hget].
    by intros [? _]%Forall_cons.
  - destruct (IH m1 Hok1 (Hst1 eq_refl Hst)) as (es & m2 & H2 & Hh2 & Hd2 & Hg2).
    exists (None :: es), m2. cbn [run_obs foldl]. rewrite (bind_Ret _ _ _ _ _ H1), (bind_Ret _ _ _ _ _ H2).
    split_and!; [done|by rewrite Hh2, Hh| |done]. intros [_ He]%Forall_cons. by apply Hd2.
Qed.
End Manager.

(** * The client *)

(** The decimal address and the port a connection is dialled to; [DstIP] has 4
    or 16 bytes. *)
Record Metadata := mkMetadata { md_network : string; DstIP : bytes; DstPort : Z }.

(** What the client uses of its surroundings: libp2p (peer identifiers, the
    streams of the authorization and of the SOCKS5 protocol), the engine's
    dependencies, the system's interfaces and routes (netlink), [net.LookupPort],
    and the order maps are iterated in. *)
Class System := {
  Decode_peer : string -> string + error;
  NewStream : string -> Conn + error;
  NewStream5 : string -> Conn + error;
  url_Parse : string -> (string * string) + error;
  open_fd : string -> Z -> gmap nat string -> option error;
  open_tun : string -> Z -> gmap nat string -> option error;
  CreateStack : string -> option error;
  ParseLevel : string -> option error;
  OS : Type;
  sys_setTunAddr : string -> string -> string -> OS -> option error * OS;
  sys_addRoute : string -> string -> OS -> option error * OS;
  sys_delRoute : string -> string -> OS -> option error * OS;
  LookupPort : string -> string -> Z + error;
  range_obs : gmap Z socksOutbound -> list (Z * socksOutbound)
}.

Section Client.
Context {DB : Type} {Db : LevelDB DB} {Dbl : LevelDBLaws DB}.
Context {T : Type} {Tree : AvlTree (routeItem PeerWithAuth) T} {TreeLaws : AvlLaws (routeItem PeerWithAuth) T}.
Context {Lib : Socks5Lib} {Sys : System}.

Record proxyClient := mkPc {
  pc_mgr : @socks5ProxyManager DB;
  tunStackRunning : bool;
  pc_engine : Engine;
  pc_router : @proxyRouter T;
  os : OS
}.

Definition mgr {A} : GoM socks5ProxyManager A -> GoM proxyClient A :=
  zoom pc_mgr (fun m c => mkPc m (tunStackRunning c) (pc_engine c) (pc_router c) (os c)).
Definition engine {A} : GoM Engine A -> GoM proxyClient A :=
  zoom pc_engine (fun e c => mkPc (pc_mgr c) (tunStackRunning c) e (pc_router c) (os c)).
Definition router {A} : GoM proxyRouter A -> GoM proxyClient A :=
  zoom pc_router (fun r c => mkPc (pc_mgr c) (tunStackRunning c) (pc_engine c) r (os c)).
Definition on_os {A} (f : OS -> A * OS) : GoM proxyClient A :=
  fun c => let '(a, o) := f (os c) in (Ret a, mkPc (pc_mgr c) (tunStackRunning c) (pc_engine c) (pc_router c) o).
Definition set_tunStackRunning (b : bool) : GoM proxyClient unit :=
  modify (fun c => mkPc (pc_mgr c) b (pc_engine c) (pc_router c) (os c)).

Definition newProxyClient (d : DB) (o : OS) (e : Engine) : proxyClient + error :=
  match NewSocksOutboundsManager Decode_peer d with
  | inr err => inr err
  | inl m => inl (mkPc m false e newProxyRouter o)
  end.

(** The router's answer is dropped; a nil network panics. *)
Definition addOutboundRoute (ob : socksOutbound) (d : PeerWithAuth) : GoM proxyClient (option error) :=
  match ob_routeNet ob with
  | None => panic
  | Some n => router (addRoute n d) ;;; on_os (sys_addRoute (ob_Route ob) tunRemote)
  end.
Definition DeleteOutboundRoute (ob : socksOutbound) : GoM proxyClient (option error) :=
  match ob_routeNet ob with
  | None => panic
  | Some n => router (delRoute n) ;;; on_os (sys_delRoute (ob_Route ob) tunRemote)
  end.

Definition Minute : Z := 60 * TunStack.Second.

Definition startTunStack : GoM proxyClient (option error) :=
  c <- get ;;
  if tunStackRunning c then ret None
  else
    engine (Insert (mkKey 0 0 tunName "silent" Minute)) ;;;
    engine SetProxyDialer ;;;
    err <- engine (TunStack.Start url_Parse open_fd open_tun CreateStack ParseLevel) ;;
    match err with
    | Some e => ret (Some e)
    | None =>
        err <- on_os (sys_setTunAddr tunName tunLocal tunRemote) ;;
        match err with
        | Some e => engine TunStack.Stop ;;; ret (Some e)
        | None => set_tunStackRunning true ;;; ret None
        end
    end.

Definition stopTunStack : GoM proxyClient (option error) :=
  c <- get ;;
  if negb (tunStackRunning c) then ret None
  else
    err <- engine TunStack.Stop ;;
    match err with
    | Some e => ret (Some e)
    | None => set_tunStackRunning false ;;; ret None
    end.

Definition dialer_of (ob : socksOutbound) : PeerWithAuth :=
  NewDialer (peer_ID (ob_socks5Peer ob)) (UserName (ob_socks5Peer ob)) (Password (ob_socks5Peer ob)).

Definition start_one (ob : socksOutbound) : GoM proxyClient unit :=
  if negb (ob_Open ob) then ret tt
  else
    err <- startTunStack ;;
    match err with
    | Some _ => mgr (mgr_UpdateOutbound Decode_peer (set_Open false ob)) ;;; ret tt
    | None => addOutboundRoute ob (dialer_of ob) ;;; ret tt
    end.
Definition Start : GoM proxyClient unit :=
  obs <- mgr (ListOutbounds range_obs) ;;
  for_range obs start_one.

Definition Stop : GoM proxyClient unit :=
  obs <- mgr (ListOutbounds range_obs) ;;
  for_range obs (fun ob => if negb (ob_Open ob) then ret tt else DeleteOutboundRoute ob ;;; ret tt) ;;;
  stopTunStack ;;;
  ret tt.

(** [CheckPeer]: the other gateway's name, if it takes the token. *)
Definition CheckPeer (peer : string) (token : ID) : string + error :=
  match ResourceAuthorize Decode_peer NewStream peer
          (mkAreq AuthorizeTypeProxy None (Some (mkAxi token "" ""))) with
  | ((_, Some e), _) => inr e
  | ((rsp, None), _) =>
      if negb (String.eqb (aresp_Err rsp) "") then inr (ErrText (aresp_Err rsp)) else inl (aresp_NodeName rsp)
  end.

(** The common end of adding and updating. *)
Definition open_route (ob : socksOutbound) : GoM proxyClient (option error) :=
  err <- startTunStack ;;
  match err with
  | Some e => ret (Some e)
  | None =>
      if ob_Open ob then addOutboundRoute ob (dialer_of ob) ;;; ret None else ret None
  end.

Definition AddOutbound (outbound : socksOutbound) : GoM proxyClient (option error) :=
  match CheckPeer (ob_Peer outbound) (ob_Token outbound) with
  | inr e => ret (Some e)
  | inl peerName =>
      let* (err, ob) := mgr (mgr_AddOutbound Decode_peer (set_PeerName peerName outbound)) in
      match err with
      | Some e => ret (Some e)
      | None => if negb (ob_Open ob) then ret None else open_route ob
      end
  end.

Definition UpdateOutbound (outbound : socksOutbound) : GoM proxyClient (option error) :=
  match CheckPeer (ob_Peer outbound) (ob_Token outbound) with
  | inr e => ret (Some e)
  | inl peerName =>
      let* (err, ob) := mgr (mgr_UpdateOutbound Decode_peer (set_PeerName peerName outbound)) in
      match err with
      | Some e => ret (Some e)
      | None => open_route ob
      end
  end.

Definition DeleteOutbound (id : ID) : GoM proxyClient (option error) :=
  let* (ob, err) := mgr (mgr_DeleteOutbound id) in
  match err, ob with
  | Some e, _ => ret (Some e)
  | None, None => ret None
  | None, Some ob =>
      match ob_routeNet ob with
      | None => panic
      | Some n => router (delRoute n) ;;; ret None
      end
  end.

(** [DialContext]: the outbound whose network holds the address dials it; an
    address of 16 bytes is not supported. *)
Definition DialContext (md : Metadata) (c : proxyClient) : outcome (streamConn + error) * option Conn :=
  match DstIP md with
  | [b0; b1; b2; b3] =>
      let uip := Z.lor (Z.lor (Z.lor b3 (Z.shiftl b2 8)) (Z.shiftl b1 16)) (Z.shiftl b0 24) in
      match lookup_ip uip (pc_router c) with
      | None => (Ret (inr (ErrText "no route found")), None)
      | Some d =>
          Socks5Client.DialContext LookupPort d (NewStream5 (peer_ID d)) (md_network md)
            (JoinHostPort (IP4_String (DstIP md)) (Itoa (DstPort md)))
      end
  | _ => (Ret (inr (ErrText "not support v6")), None)
  end.
Definition DialUDP (md : Metadata) : error := ErrText "unsuport".

(** ** What the operations do *)

Lemma mgr_run {A} (m : GoM socks5ProxyManager A) c o m' : m (pc_mgr c) = (o, m') ->
  mgr m c = (o, mkPc m' (tunStackRunning c) (pc_engine c) (pc_router c) (os c)).
Proof. unfold mgr, zoom. by intros ->. Qed.
Lemma router_run {A} (m : GoM proxyRouter A) c o r : m (pc_router c) = (o, r) ->
  router m c = (o, mkPc (pc_mgr c) (tunStackRunning c) (pc_engine c) r (os c)).
Proof. unfold router, zoom. by intros ->. Qed.
Lemma engine_run {A} (m : GoM Engine A) c o e : m (pc_engine c) = (o, e) ->
  engine m c = (o, mkPc (pc_mgr c) (tunStackRunning c) e (pc_router c) (os c)).
Proof. unfold engine, zoom. by intros ->. Qed.

(** The address of a connection as the router's 32-bit key. *)
Lemma or_bytes b0 b1 b2 b3 : is_byte b0 -> is_byte b1 -> is_byte b2 -> is_byte b3 ->
  Z.lor (Z.lor (Z.lor b3 (Z.shiftl b2 8)) (Z.shiftl b1 16)) (Z.shiftl b0 24) = SetBytes [b0; b1; b2; b3].
Proof.
  intros H0 H1 H2 H3. unfold is_byte in *.
  assert (Hadd : forall x b k, 0 <= k -> 0 <= x < 2 ^ k -> 0 <= b < 256 -> k <= 24 -> Z.lor x (Z.shiftl b k) = x + b * 2 ^ k).
  { intros x b k Hk Hx Hb Hk2. rewrite <- (lor_shift_add x b k Hk Hx (proj1 Hb)).
    - f_equal. symmetry. apply u64_small. unfold is_u64. rewrite Z.shiftl_mul_pow2 by done.
      pose proof (Z.pow_le_mono_r 2 k 24 ltac:(lia) Hk2). change (2 ^ 24) with 16777216 in *. nia.
    - pose proof (Z.pow_le_mono_r 2 k 24 ltac:(lia) Hk2). change (2 ^ 24) with 16777216 in *.
      change (2 ^ 64) with 18446744073709551616. nia. }
  unfold SetBytes. cbn [foldl]. rewrite (Hadd b3 b2 8), (Hadd (b3 + b2 * 2 ^ 8) b1 16),
    (Hadd (b3 + b2 * 2 ^ 8 + b1 * 2 ^ 16) b0 24); try lia.
  all: change (2 ^ 8) with 256; change (2 ^ 16) with 65536; change (2 ^ 24) with 16777216; lia.
Qed.

Lemma DialContext_v4 md c b0 b1 b2 b3 :
  DstIP md = [b0; b1; b2; b3] -> is_byte b0 -> is_byte b1 -> is_byte b2 -> is_byte b3 ->
  DialContext md c = match lookup_ip (SetBytes (DstIP md)) (pc_router c) with
    | None => (Ret (inr (ErrText "no route found")), None)
    | Some d => Socks5Client.DialContext LookupPort d (NewStream5 (peer_ID d)) (md_network md)
                  (JoinHostPort (IP4_String (DstIP md)) (Itoa (DstPort md)))
    end.
Proof. intros E H0 H1 H2 H3. unfold DialContext. by rewrite E, or_bytes. Qed.

Lemma mgr_put_run ob ob' m : socks5OutboundFillRunningInfo Decode_peer ob = (None, ob') ->
  let rs := <[Uint64 (ob_ID ob') := ob']> (held_obs m) in
  mgr_put Decode_peer ob m =
  (Ret ((db_Put keySocksOutbound (Marshal rs) (ob_db m)).1, ob'),
   mkObMgr (db_Put keySocksOutbound (Marshal rs) (ob_db m)).2 (Some rs)).
Proof.
  intros Hf rs. unfold mgr_put. rewrite Hf. unfold bind, get, put, saveOutbounds, zoom, dbPut. cbn [outbounds ob_db].
  unfold rs, held_obs. unfold bind, get. cbn [outbounds ob_db]. by destruct (db_Put _ _ _).
Qed.

Lemma fill_inv ob ob' : socks5OutboundFillRunningInfo Decode_peer ob = (None, ob') ->
  exists pid n x, Decode_peer (ob_Peer ob) = inl pid /\ ParseCIDR_err (ob_Route ob) = inl (x, n) /\
    ob' = set_running_info (Some n) (mkPeer pid (LE_PutUint64 (Uint64 (ob_Token ob))) (LE_PutUint64 (Uint64 (ob_Token ob)))) ob.
Proof.
  unfold socks5OutboundFillRunningInfo. destruct (Decode_peer (ob_Peer ob)) as [pid|]; [|done].
  destruct (ParseCIDR_err (ob_Route ob)) as [[x n]|]; [|done]. intros [= <-]. by exists pid, n, x.
Qed.

Lemma addOutboundRoute_run ob n d c : ob_routeNet ob = Some n -> Inv (pc_router c) ->
  exists ok r e, addRoute n d (pc_router c) = (Ret ok, r) /\ Inv r /\
    addOutboundRoute ob d c =
      (Ret e, mkPc (pc_mgr c) (tunStackRunning c) (pc_engine c) r (sys_addRoute (ob_Route ob) tunRemote (os c)).2).
Proof.
  intros Hn HI. pose proof (addRoute_run n d (pc_router c) HI) as Hadd.
  destruct (getCidrIntRange n) as [a b]. destruct Hadd as (ok & r & Hr & HI' & _).
  exists ok, r, (sys_addRoute (ob_Route ob) tunRemote (os c)).1. split_and!; [done|done|].
  unfold addOutboundRoute. rewrite Hn, (bind_Ret _ _ _ _ _ (router_run _ c _ _ Hr)).
  unfold on_os. cbn [os]. by destruct (sys_addRoute _ _ (os c)).
Qed.

Lemma DeleteOutboundRoute_run ob n c : ob_routeNet ob = Some n -> Inv (pc_router c) ->
  exists r e, delRoute n (pc_router c) = (Ret tt, r) /\ Inv r /\
    abs r = delete (getCidrIntRange n).1 (abs (pc_router c)) /\
    DeleteOutboundRoute ob c =
      (Ret e, mkPc (pc_mgr c) (tunStackRunning c) (pc_engine c) r (sys_delRoute (ob_Route ob) tunRemote (os c)).2).
Proof.
  intros Hn HI. destruct (delRoute_refines n (pc_router c) HI) as (r & Hr & Ha & HI').
  exists r, (sys_delRoute (ob_Route ob) tunRemote (os c)).1. split_and!; [done..|].
  unfold DeleteOutboundRoute. rewrite Hn, (bind_Ret _ _ _ _ _ (router_run _ c _ _ Hr)).
  unfold on_os. cbn [os]. by destruct (sys_delRoute _ _ (os c)).
Qed.

(** A range taken out of the table routes nothing. *)
Lemma deleted_range_unrouted n v ip (r r' : @proxyRouter T) :
  Inv r -> Inv r' -> abs r !! (getCidrIntRange n).1 = Some v -> max v = (getCidrIntRange n).2 ->
  abs r' = delete (getCidrIntRange n).1 (abs r) ->
  (getCidrIntRange n).1 <= ip <= (getCidrIntRange n).2 -> lookup_ip ip r' = None.
Proof.
  intros [_ [_ Hd]] HI' Hv Hmax Habs Hin. destruct (lookup_ip ip r') as [dl|] eqn:El; [|done].
  apply (lookup_ip_routes _ _ _ HI') in El as (k & w & Hk & Hkw & _). rewrite Habs in Hk.
  apply lookup_delete_Some in Hk as [Hne Hk].
  destruct (Hd k w (getCidrIntRange n).1 v Hk Hv); [done|]. unfold overlaps. lia.
Qed.

(** Adding an outbound, and where connections go then. *)
Lemma add_outbound_run ob ob' name c :
  Inv (pc_router c) -> tunStackRunning c = true -> CheckPeer (ob_Peer ob) (ob_Token ob) = inl name ->
  socks5OutboundFillRunningInfo Decode_peer (set_PeerName name ob) = (None, ob') -> ob_Open ob = true ->
  (db_Put keySocksOutbound (Marshal (<[Uint64 (ob_ID ob) := ob']> (held_obs (pc_mgr c)))) (ob_db (pc_mgr c))).1 = None ->
  exists c' pid n x, AddOutbound ob c = (Ret None, c') /\
    Decode_peer (ob_Peer ob) = inl pid /\ ParseCIDR_err (ob_Route ob) = inl (x, n) /\
    held_obs (pc_mgr c') = <[Uint64 (ob_ID ob) := ob']> (held_obs (pc_mgr c)) /\
    os c' = (sys_addRoute (ob_Route ob) tunRemote (os c)).2 /\ Inv (pc_router c') /\
    let '(a, b) := getCidrIntRange n in
    let peer := mkPeer pid (LE_PutUint64 (Uint64 (ob_Token ob))) (LE_PutUint64 (Uint64 (ob_Token ob))) in
    (abs (pc_router c) !! a = None -> a <= b -> free (abs (pc_router c)) a b ->
     forall md b0 b1 b2 b3, DstIP md = [b0; b1; b2; b3] -> is_byte b0 -> is_byte b1 -> is_byte b2 -> is_byte b3 ->
       DialContext md c' = if decide (a <= SetBytes (DstIP md) <= b)
         then Socks5Client.DialContext LookupPort peer (NewStream5 pid) (md_network md)
                (JoinHostPort (IP4_String (DstIP md)) (Itoa (DstPort md)))
         else DialContext md c) /\
    (abs (pc_router c) !! a = None -> ~ free (abs (pc_router c)) a b -> abs (pc_router c') = abs (pc_router c)).
Proof.
  intros HI Htun Hcheck Hfill Hopen Hput. destruct (fill_inv _ _ Hfill) as (pid & n & x & Hpid & Hcidr & Hob).
  cbn [set_PeerName ob_Peer ob_Route ob_Token] in Hpid, Hcidr, Hob.
  assert (Hid : ob_ID ob' = ob_ID ob) by by rewrite Hob.
  pose proof (mgr_put_run _ _ (pc_mgr c) Hfill) as Hm. cbv zeta in Hm. rewrite Hid, Hput in Hm.
  set (rs := <[Uint64 (ob_ID ob) := ob']> (held_obs (pc_mgr c))) in *.
  set (c1 := mkPc (mkObMgr (db_Put keySocksOutbound (Marshal rs) (ob_db (pc_mgr c))).2 (Some rs)) true (pc_engine c) (pc_router c) (os c)).
  destruct (addOutboundRoute_run ob' n (dialer_of ob') c1) as (ok & r & e & Hr & HI' & Hadd); [by rewrite Hob|done|].
  assert (Hrt : ob_Route ob' = ob_Route ob) by by rewrite Hob. rewrite Hrt in Hadd.
  assert (Hrun : AddOutbound ob c = (Ret None, mkPc (pc_mgr c1) true (pc_engine c) r (sys_addRoute (ob_Route ob) tunRemote (os c)).2)).
  { unfold AddOutbound. rewrite Hcheck. unfold mgr_AddOutbound.
    rewrite (bind_Ret _ _ _ _ _ (mgr_run _ c _ _ Hm)), Htun. fold c1. cbn beta iota.
    assert (Ho : ob_Open ob' = true) by by rewrite Hob. rewrite Ho. cbn [negb]. unfold open_route.
    assert (Hs : startTunStack c1 = (Ret None, c1)) by done.
    rewrite (bind_Ret _ _ _ _ _ Hs), Ho. by rewrite (bind_Ret _ _ _ _ _ Hadd). }
  eexists _, pid, n, x. split; [exact Hrun|]. split_and!; [done..|].
  pose proof (addRoute_run n (dialer_of ob') (pc_router c) HI) as Hspec.
  destruct (getCidrIntRange n) as [a b]. destruct Hspec as (ok2 & r2 & Hr2 & _ & Hok & Hno & Hyes).
  change (pc_router c1) with (pc_router c) in Hr. rewrite Hr in Hr2. injection Hr2 as <- <-. split.
  - intros Hna Hab Hfree md b0 b1 b2 b3 Hmd H0 H1 H2 H3.
    rewrite !(DialContext_v4 md _ b0 b1 b2 b3) by done. cbn [pc_router].
    assert (ok = true) as -> by (apply Hok; by right). rewrite (Hyes eq_refl).
    case_decide; [|done]. rewrite Hob. unfold dialer_of. cbn [ob_socks5Peer set_running_info peer_ID UserName Password NewDialer]. done.
  - intros Hna Hnf. cbn [pc_router]. apply Hno. apply not_true_is_false. intros Hy. apply Hok in Hy as [(v & Hv & _)|(_ & _ & Hf)]; [|done].
    congruence.
Qed.

(** C14. An added outbound carries its network.  On a client whose TUN stack runs,
    adding an open outbound that the peer authorizes, that parses and that the
    store takes reports success; it is held under the peer's name for itself; the
    system gets the route of its network.  When the network does not overlap
    those routed already, a connection to each of its addresses is dialled
    through the outbound's peer with its token and all others as before; when it
    overlaps one, and none of those begins at its first address, the router stays
    as it was although success is reported and the system's route is added. *)
Theorem added_outbound_dials ob ob' name c :
  Inv (pc_router c) -> tunStackRunning c = true -> CheckPeer (ob_Peer ob) (ob_Token ob) = inl name ->
  socks5OutboundFillRunningInfo Decode_peer (set_PeerName name ob) = (None, ob') -> ob_Open ob = true ->
  (db_Put keySocksOutbound (Marshal (<[Uint64 (ob_ID ob) := ob']> (held_obs (pc_mgr c)))) (ob_db (pc_mgr c))).1 = None ->
  exists c' pid n x, AddOutbound ob c = (Ret None, c') /\
    Decode_peer (ob_Peer ob) = inl pid /\ ParseCIDR_err (ob_Route ob) = inl (x, n) /\
    held_obs (pc_mgr c') = <[Uint64 (ob_ID ob) := ob']> (held_obs (pc_mgr c)) /\
    os c' = (sys_addRoute (ob_Route ob) tunRemote (os c)).2 /\ Inv (pc_router c') /\
    let '(a, b) := getCidrIntRange n in
    let peer := mkPeer pid (LE_PutUint64 (Uint64 (ob_Token ob))) (LE_PutUint64 (Uint64 (ob_Token ob))) in
    (abs (pc_router c) !! a = None -> a <= b -> free (abs (pc_router c)) a b ->
     forall md b0 b1 b2 b3, DstIP md = [b0; b1; b2; b3] -> is_byte b0 -> is_byte b1 -> is_byte b2 -> is_byte b3 ->
       DialContext md c' = if decide (a <= SetBytes (DstIP md) <= b)
         then Socks5Client.DialContext LookupPort peer (NewStream5 pid) (md_network md)
                (JoinHostPort (IP4_String (DstIP md)) (Itoa (DstPort md)))
         else DialContext md c) /\
    (abs (pc_router c) !! a = None -> ~ free (abs (pc_router c)) a b -> abs (pc_router c') = abs (pc_router c)).
Proof. exact (add_outbound_run ob ob' name c). Qed.

(** Deleting an outbound: it is forgotten, and no connection to an address
    of its network is dialled any more; the system's route to the network stays. *)
Theorem deleted_outbound id ob n x c :
  Inv (pc_router c) -> held_obs (pc_mgr c) !! Uint64 id = Some ob -> ob_routeNet ob = Some n ->
  ParseCIDR_err (ob_Route ob) = inl (x, n) ->
  (db_Put keySocksOutbound (Marshal (delete (Uint64 id) (held_obs (pc_mgr c)))) (ob_db (pc_mgr c))).1 = None ->
  (exists v, abs (pc_router c) !! (getCidrIntRange n).1 = Some v /\ max v = (getCidrIntRange n).2) ->
  exists c', DeleteOutbound id c = (Ret None, c') /\ os c' = os c /\
    held_obs (pc_mgr c') = delete (Uint64 id) (held_obs (pc_mgr c)) /\
    (forall md b0 b1 b2 b3, DstIP md = [b0; b1; b2; b3] -> is_byte b0 -> is_byte b1 -> is_byte b2 -> is_byte b3 ->
       (getCidrIntRange n).1 <= SetBytes (DstIP md) <= (getCidrIntRange n).2 ->
       DialContext md c' = (Ret (inr (ErrText "no route found")), None)).
Proof.
  intros HI Hob Hn Hp Hput (v & Hv & Hmax). destruct c as [[d rs] tr en ro o]. unfold held_obs in *. cbn [pc_mgr outbounds ob_db pc_router] in *.
  destruct rs as [rs|]; [|cbn in Hob; by rewrite lookup_empty in Hob]. cbn [from_option] in *. unfold Datatypes.id in *.
  destruct (db_Put keySocksOutbound (Marshal (delete (Uint64 id) rs)) d) as [e d'] eqn:Ed. cbn [fst] in Hput. subst e.
  destruct (delRoute_refines n ro HI) as (r' & Hr & Habs & HI').
  assert (Hm : mgr_DeleteOutbound id (mkObMgr d (Some rs)) = (Ret (Some ob, None), mkObMgr d' (Some (delete (Uint64 id) rs)))).
  { unfold mgr_DeleteOutbound, bind, get. cbn [outbounds]. rewrite Hob. unfold put, saveOutbounds, bind, get, zoom, dbPut.
    cbn [outbounds ob_db]. by rewrite Ed. }
  eexists. split.
  - unfold DeleteOutbound. rewrite (bind_Ret _ _ _ _ _ (mgr_run _ (mkPc _ tr en ro o) _ _ Hm)). cbn beta iota. rewrite Hn.
    match goal with |- bind (router _) _ ?st = _ => rewrite (bind_Ret _ _ st _ _ (router_run _ st _ _ Hr)) end. reflexivity.
  - split_and!; [done|done|]. intros md b0 b1 b2 b3 Hmd H0 H1 H2 H3 Hin.
    rewrite (DialContext_v4 md _ b0 b1 b2 b3) by done. cbn [pc_router].
    by rewrite (deleted_range_unrouted n v _ ro r').
Qed.

(** A start of the stack: the settings, then the engine's start and the address. *)
Lemma startTunStack_shape c : tunStackRunning c = false -> exists e0, startTunStack c =
    bind (engine (TunStack.Start url_Parse open_fd open_tun CreateStack ParseLevel))
      (fun err => match err with
        | Some e => ret (Some e)
        | None => err <- on_os (sys_setTunAddr tunName tunLocal tunRemote) ;;
            match err with
            | Some e => engine TunStack.Stop ;;; ret (Some e)
            | None => set_tunStackRunning true ;;; ret None
            end
        end) (mkPc (pc_mgr c) false e0 (pc_router c) (os c)) /\
  devices e0 = devices (pc_engine c) /\ next_handle e0 = next_handle (pc_engine c) /\
  _running e0 = _running (pc_engine c) /\ _defaultKey e0 = Some (mkKey 0 0 tunName "silent" Minute).
Proof.
  intros Hc. eexists. split.
  - unfold startTunStack, bind at 1, get. rewrite Hc. unfold engine at 1 2, zoom at 1 2, Insert, SetProxyDialer, modify.
    unfold bind at 1 2. cbn [pc_mgr tunStackRunning pc_engine pc_router os]. rewrite Hc. reflexivity.
  - split_and!; done.
Qed.

(** The TUN stack does not come back.  The system refuses to open a device
    that is open: then after a start that succeeded, stopping reports success and
    marks the stack as stopped, but the next start fails, for the device was
    never closed. *)
Theorem tun_restart_fails c :
  (forall name mtu devs h, devs !! h = Some name -> is_Some (open_tun name mtu devs) /\ is_Some (open_fd name mtu devs)) ->
  _running (pc_engine c) = false -> handles_ok (pc_engine c) -> tunStackRunning c = false ->
  (startTunStack c).1 = Ret None ->
  let c1 := (startTunStack c).2 in
  tunStackRunning c1 = true /\
  exists c2, stopTunStack c1 = (Ret None, c2) /\ tunStackRunning c2 = false /\
    exists e, (startTunStack c2).1 = Ret (Some e).
Proof.
  intros Hbusy Hr Hh Ht Hok c1.
  destruct (startTunStack_shape c Ht) as (e0 & Hs & Hd0 & Hn0 & Hr0 & Hk0).
  assert (Hr0' : _running e0 = false) by congruence.
  assert (Hh0 : handles_ok e0) by (intros h; rewrite Hd0, Hn0; apply Hh).
  assert (HST : exists oo e1, TunStack.Start url_Parse open_fd open_tun CreateStack ParseLevel e0 = (oo, e1) /\
     _running e1 = false /\ handles_ok e1).
  { destruct (start_devices url_Parse open_fd open_tun CreateStack ParseLevel e0 Hr0' Hh0) as (oo & e1 & E & ? & ? & _). by exists oo, e1. }
  destruct HST as (oo & e1 & HS & Hr1 & Hh1).
  rewrite (bind_eq _ _ _ _ _ (engine_run _ (mkPc _ false e0 _ _) _ _ HS)) in Hs. cbn [pc_mgr tunStackRunning pc_engine pc_router os] in Hs.
  destruct oo as [[err|]|]; cbn beta iota in Hs; [by rewrite Hs in Hok| |by rewrite Hs in Hok].
  unfold on_os, bind at 1 in Hs. cbn [os] in Hs. destruct (sys_setTunAddr tunName tunLocal tunRemote (os c)) as [[err|] o1].
  { unfold bind, engine, zoom in Hs. cbn [pc_engine] in Hs. unfold TunStack.Stop, stop, bind, get in Hs. rewrite Hr1 in Hs. by rewrite Hs in Hok. }
  assert (Hc1 : c1 = mkPc (pc_mgr c) true e1 (pc_router c) o1) by (unfold c1; rewrite Hs; done).
  split; [by rewrite Hc1|].
  assert (Hstop : stopTunStack c1 = (Ret None, mkPc (pc_mgr c) false e1 (pc_router c) o1)).
  { rewrite Hc1. unfold stopTunStack, bind, get, engine, zoom, TunStack.Stop, stop, bind, get. cbn [tunStackRunning negb pc_engine].
    rewrite Hr1. done. }
  eexists. split; [exact Hstop|]. split; [done|].
  destruct (startTunStack_shape (mkPc (pc_mgr c) false e1 (pc_router c) o1) eq_refl) as (e2 & Hs2 & Hd2 & Hn2 & Hr2 & Hk2).
  cbn [pc_engine] in *.
  destruct (start_busy url_Parse open_fd open_tun CreateStack ParseLevel e0 e1 e2 _ Hbusy Hr0' Hk0 HS Hk2 Hd2 ltac:(congruence))
    as (err & e3 & HS2).
  exists err. rewrite Hs2. unfold bind at 1. by rewrite (engine_run _ (mkPc _ false e2 _ _) _ _ HS2).
Qed.
End Client.

(** * Concrete inputs *)

Definition ex_ob_reply : bytes := bytes_of_string (Marshal (mkAresp "office" "" None (Some (mkAxr "0.0.0.0/0" "8.8.8.8")))).

(** A system that lets everything happen but refuses to open a device twice. *)
#[local] Instance ex_system : System := {
  Decode_peer := inl;
  NewStream _ := inl (conn_of ex_ob_reply);
  NewStream5 _ := inr EOF;
  url_Parse s := inl ("tun", "uptptun0");
  open_fd name _ devs := if bool_decide (map_Forall (fun _ n => n <> name) devs) then None else Some (ErrText "busy");
  open_tun name _ devs := if bool_decide (map_Forall (fun _ n => n <> name) devs) then None else Some (ErrText "busy");
  CreateStack _ := None;
  ParseLevel _ := None;
  OS := list string;
  sys_setTunAddr _ _ _ o := (None, o);
  sys_addRoute dst _ o := (None, dst :: o);
  sys_delRoute _ _ o := (None, o);
  LookupPort := ex_port;
  range_obs := map_to_list
}.

Definition ex_client : @proxyClient memdb (node (routeItem PeerWithAuth)) ex_system :=
  mkPc (mkObMgr mem_empty None) true engine_zero newProxyRouter [].
Definition ex_stopped : @proxyClient memdb (node (routeItem PeerWithAuth)) ex_system :=
  mkPc (mkObMgr mem_empty None) false engine_zero newProxyRouter [].
Definition ex_ob : socksOutbound := mkOb (mkID 5) "" true "peer" "" (mkID 42) "10.0.0.0/8" None (mkPeer "" [] []).
Definition ex_ob_net : IPNet := mkIPNet [10; 0; 0; 0] [255; 0; 0; 0].
Definition ex_ob_filled : socksOutbound :=
  mkOb (mkID 5) "" true "peer" "office" (mkID 42) "10.0.0.0/8" (Some ex_ob_net)
    (mkPeer "peer" (LE_PutUint64 42) (LE_PutUint64 42)).

Lemma outbounds_durable_witness :
  exists es m', run_obs inl [ObPut ex_ob; ObDel (mkID 3)] (mkObMgr mem_empty None) = (Ret es, m') /\
    held_obs m' = foldl (spec_ob inl) ∅ [ObPut ex_ob; ObDel (mkID 3)] /\
    (Forall (fun e => e = None) es -> exists m2, NewSocksOutboundsManager inl (ob_db m') = inl m2 /\ held_obs m2 = held_obs m') /\
    (forall id, exists m2, GetOutbound id m' = (Ret (held_obs m' !! Uint64 id), m2) /\ held_obs m2 = held_obs m').
Proof.
  apply (outbounds_durable inl [ObPut ex_ob; ObDel (mkID 3)] (mkObMgr mem_empty None)).
  - repeat constructor; vm_compute; congruence.
  - apply map_Forall_empty.
  - reflexivity.
Defined.

Lemma added_outbound_dials_witness :
  exists c', AddOutbound ex_ob ex_client = (Ret None, c') /\ os c' = ["10.0.0.0/8"] /\ Inv (pc_router c') /\
    DialContext (mkMetadata "tcp" [10; 1; 2; 3] 80) c' =
      Socks5Client.DialContext ex_port (mkPeer "peer" (LE_PutUint64 42) (LE_PutUint64 42)) (inr EOF) "tcp" "10.1.2.3:80".
Proof.
  assert (H1 : CheckPeer (ob_Peer ex_ob) (ob_Token ex_ob) = inl "office") by (vm_compute; reflexivity).
  assert (H2 : socks5OutboundFillRunningInfo Decode_peer (set_PeerName "office" ex_ob) = (None, ex_ob_filled)) by (vm_compute; reflexivity).
  assert (H3 : (db_Put keySocksOutbound (Marshal (<[Uint64 (ob_ID ex_ob) := ex_ob_filled]> (held_obs (pc_mgr ex_client)))) (ob_db (pc_mgr ex_client))).1 = None) by (vm_compute; reflexivity).
  destruct (added_outbound_dials ex_ob ex_ob_filled "office" ex_client Inv_new eq_refl H1 H2 eq_refl H3)
    as (c' & pid & n & x & Hadd & Hpid & Hn & _ & Hos & HI & Hspec).
  exists c'. split; [exact Hadd|].
  assert (En : ParseCIDR_err (ob_Route ex_ob) = inl (v4InV6Prefix ++ [10; 0; 0; 0], ex_ob_net)) by (vm_compute; reflexivity).
  assert (n = ex_ob_net) as -> by congruence.
  assert (pid = "peer") as -> by (cbn in Hpid; congruence).
  split; [exact Hos|]. split; [exact HI|].
  assert (Er : getCidrIntRange ex_ob_net = (167772160, 184549375)) by (vm_compute; reflexivity).
  rewrite Er in Hspec. destruct Hspec as [Hd _].
  specialize (Hd ltac:(vm_compute; reflexivity) ltac:(vm_compute; congruence)).
  assert (Hf : free (abs (pc_router ex_client)) 167772160 184549375).
  { intros k v Hk. assert (E : abs (pc_router ex_client) !! k = None) by (vm_compute; reflexivity). congruence. }
  specialize (Hd Hf (mkMetadata "tcp" [10; 1; 2; 3] 80) 10 1 2 3 eq_refl
    ltac:(vm_compute; split; congruence) ltac:(vm_compute; split; congruence) ltac:(vm_compute; split; congruence) ltac:(vm_compute; split; congruence)).
  rewrite Hd. vm_compute. reflexivity.
Defined.

Definition ex_client1 := (AddOutbound ex_ob ex_client).2.

Lemma ex_client1_Inv : Inv (pc_router ex_client1).
Proof.
  pose proof (addRoute_refines ex_ob_net (mkPeer "peer" (LE_PutUint64 42) (LE_PutUint64 42)) (pc_router ex_client) Inv_new) as H.
  destruct (getCidrIntRange ex_ob_net), (spec_add _ _ _ _). destruct H as (r' & Hr & _ & HI).
  assert (E : pc_router ex_client1 = (addRoute ex_ob_net (mkPeer "peer" (LE_PutUint64 42) (LE_PutUint64 42)) (pc_router ex_client)).2)
    by (vm_compute; reflexivity).
  rewrite E, Hr. exact HI.
Qed.

Lemma deleted_outbound_witness :
  exists c', DeleteOutbound (mkID 5) ex_client1 = (Ret None, c') /\ os c' = ["10.0.0.0/8"] /\
    DialContext (mkMetadata "tcp" [10; 1; 2; 3] 80) c' = (Ret (inr (ErrText "no route found")), None).
Proof.
  assert (H1 : held_obs (pc_mgr ex_client1) !! Uint64 (mkID 5) = Some ex_ob_filled) by (vm_compute; reflexivity).
  assert (H2 : ParseCIDR_err (ob_Route ex_ob_filled) = inl (v4InV6Prefix ++ [10; 0; 0; 0], ex_ob_net)) by (vm_compute; reflexivity).
  assert (H3 : (db_Put keySocksOutbound (Marshal (delete (Uint64 (mkID 5)) (held_obs (pc_mgr ex_client1)))) (ob_db (pc_mgr ex_client1))).1 = None) by (vm_compute; reflexivity).
  assert (H4 : exists v, abs (pc_router ex_client1) !! (getCidrIntRange ex_ob_net).1 = Some v /\ max v = (getCidrIntRange ex_ob_net).2)
    by (eexists; split; vm_compute; reflexivity).
  destruct (deleted_outbound (mkID 5) ex_ob_filled ex_ob_net _ ex_client1 ex_client1_Inv H1 eq_refl H2 H3 H4)
    as (c' & Hdel & Hos & _ & Hd).
  exists c'. split; [exact Hdel|]. split; [rewrite Hos; vm_compute; reflexivity|].
  apply (Hd _ 10 1 2 3); vm_compute; try split; congruence.
Defined.

Lemma tun_restart_fails_witness :
  let c := ex_stopped in
  let c1 := (startTunStack c).2 in
  tunStackRunning c1 = true /\
  exists c2, stopTunStack c1 = (Ret None, c2) /\ tunStackRunning c2 = false /\
    exists e, (startTunStack c2).1 = Ret (Some e).
Proof.
  assert (Hbusy : forall name (mtu : Z) (devs : gmap nat string) h, devs !! h = Some name ->
     is_Some (open_tun name mtu devs) /\ is_Some (open_fd name mtu devs)).
  { intros name mtu devs h Hh. cbn. rewrite bool_decide_eq_false_2; [split; by eexists|].
    intros Hall. by apply (Hall h name). }
  apply (tun_restart_fails ex_stopped Hbusy eq_refl).
  - intros h [x Hx]. cbn in Hx. by rewrite lookup_empty in Hx.
  - reflexivity.
  - vm_compute. reflexivity.
Defined.
