(* ===== verification/SysWindows.v ===== *)
(** src/gateway/sys_windows.go and src/tun_stack/sys_windows.go: what the two
    packages have of the system on Windows.  The gateway's calls refuse; the
    device driver (wintun) is a parameter, as are the decoding of a query and the
    reading of an identifier.  The theorems: a proxy client on Windows carries
    nothing, whatever is asked of it, and the identifier a device is opened
    under. *)
From S2P Require Import Prelude GoText GoIo GoNet Json Codec TypesId Store Avl ProxyRouter Socks5Util Socks5Client Socks5Rfc.
From S2P Require Import Authorize TunStack ProxyClient.

Section Gateway.
Context {OS : Type}.

Definition not_supported : error := ErrText "not supoort".
Definition setTunAddr (ifname localAddr remoteAddr : string) (o : OS) : option error * OS := (Some not_supported, o).
Definition addRoute (dst gw : string) (o : OS) : option error * OS := (Some not_supported, o).
Definition delRoute (dst gw : string) (o : OS) : option error * OS := (Some not_supported, o).
End Gateway.

(** The surroundings of a client with these calls. *)
Definition windows (S : System) : System := {|
  Decode_peer := @Decode_peer S; NewStream := @NewStream S; NewStream5 := @NewStream5 S; url_Parse := @url_Parse S;
  open_fd := @open_fd S; open_tun := @open_tun S; CreateStack := @CreateStack S; ParseLevel := @ParseLevel S; OS := @OS S;
  sys_setTunAddr := setTunAddr; sys_addRoute := addRoute; sys_delRoute := delRoute;
  LookupPort := @LookupPort S; range_obs := @range_obs S
|}.

(** * The client on Windows *)

Section Client.
Context {DB : Type} {Db : LevelDB DB} {Dbl : LevelDBLaws DB}.
Context {T : Type} {Tree : AvlTree (routeItem PeerWithAuth) T} {TreeLaws : AvlLaws (routeItem PeerWithAuth) T}.
Context {Lib : Socks5Lib} (Base : System).
#[local] Instance Win : System := windows Base.

Abbreviation client := (@proxyClient DB T Win).

(** What the gateway asks of its client. *)
Inductive client_op :=
  | OpStart | OpStop | OpAdd (ob : socksOutbound) | OpUpdate (ob : socksOutbound) | OpDelete (id : ID)
  | OpDeleteRoute (ob : socksOutbound).

Definition perform (op : client_op) : GoM client (option error) :=
  match op with
  | OpStart => ProxyClient.Start ;;; ret None
  | OpStop => ProxyClient.Stop ;;; ret None
  | OpAdd ob => AddOutbound ob
  | OpUpdate ob => UpdateOutbound ob
  | OpDelete id => DeleteOutbound id
  | OpDeleteRoute ob => DeleteOutboundRoute ob
  end.

(** The client after [ops]; the state is kept over a panic, which only a caller
    that recovers from it could see. *)
Definition after (ops : list client_op) (c : client) : client := foldl (fun c op => (perform op c).2) c ops.

(** No stack, no route, and a system that was not touched. *)
Definition idle (o : OS) (c : client) : Prop :=
  tunStackRunning c = false /\ os c = o /\ Inv (pc_router c) /\ abs (pc_router c) = ∅.

Section Idle.
Context (o : OS).

Lemma engine_idle {A} (m : GoM Engine A) : safe (idle o) (engine m) any.
Proof. by apply (safe_zoom _ any). Qed.
Lemma mgr_idle {A} (m : GoM socks5ProxyManager A) : safe (idle o) (mgr m) any.
Proof. by apply (safe_zoom _ any). Qed.
Lemma delRoute_idle n : safe (idle o) (router (ProxyRouter.delRoute n)) any.
Proof.
  intros c (H1 & H2 & H3 & H4). split; [|done]. destruct (delRoute_refines n (pc_router c) H3) as (r & Hr & Ha & HI).
  rewrite (router_run _ c _ _ Hr). split_and!; [done..|]. cbn [snd pc_router]. by rewrite Ha, H4, delete_empty.
Qed.
Lemma sys_delRoute_idle dst gw : safe (idle o) (on_os (sys_delRoute dst gw)) any.
Proof. by intros c H. Qed.
Lemma setTunAddr_fails n l r : safe (idle o) (on_os (sys_setTunAddr n l r)) (fun e => e = Some not_supported).
Proof. intros c H. split; [done|]. by intros e [= <-]. Qed.

(** The stack never comes up: the device is opened, the address is refused. *)
Lemma startTunStack_fails : safe (idle o) startTunStack (fun e => e <> None).
Proof.
  apply safe_get. intros c (Hr & _). rewrite Hr. do 2 (apply (safe_bind _ _ _ any); [apply engine_idle|intros _ _]).
  apply (safe_bind _ _ _ any); [apply engine_idle|]. intros [e|] _; [by apply safe_ret|].
  apply (safe_bind _ _ _ _ _ (setTunAddr_fails _ _ _)). intros e ->.
  apply (safe_bind _ _ _ any); [apply engine_idle|intros _ _]. by apply safe_ret.
Qed.

Lemma stopTunStack_idle : safe (idle o) stopTunStack any.
Proof. apply safe_get. intros c (Hr & _). rewrite Hr. by apply safe_ret. Qed.

Lemma open_route_fails ob : safe (idle o) (open_route ob) (fun e => e <> None).
Proof.
  unfold open_route. apply (safe_bind _ _ _ _ _ startTunStack_fails). intros [e|] He; [by apply safe_ret|done].
Qed.

Lemma DeleteOutboundRoute_idle ob : safe (idle o) (DeleteOutboundRoute ob) any.
Proof.
  unfold DeleteOutboundRoute. destruct (ob_routeNet ob); [|apply safe_panic].
  apply (safe_bind _ _ _ any); [apply delRoute_idle|intros _ _; apply sys_delRoute_idle].
Qed.

Lemma for_range_idle {B} (l : list B) (f : B -> GoM client unit) :
  (forall x, safe (idle o) (f x) any) -> safe (idle o) (for_range l f) any.
Proof.
  intros Hf. induction l as [|x l IH]; [by apply safe_ret|].
  apply (safe_bind _ _ _ any); [apply Hf|intros _ _; exact IH].
Qed.

Lemma start_one_idle ob : safe (idle o) (start_one ob) any.
Proof.
  unfold start_one. destruct (negb _); [by apply safe_ret|]. apply (safe_bind _ _ _ _ _ startTunStack_fails).
  intros [e|] He; [|done]. apply (safe_bind _ _ _ any); [apply mgr_idle|intros; by apply safe_ret].
Qed.

Lemma UpdateOutbound_fails ob : safe (idle o) (UpdateOutbound ob) (fun e => e <> None).
Proof.
  unfold UpdateOutbound. destruct (CheckPeer _ _) as [name|e]; [|by apply safe_ret].
  apply (safe_bind _ _ _ any); [apply mgr_idle|]. intros [[e|] ob'] _; [by apply safe_ret|apply open_route_fails].
Qed.

Lemma AddOutbound_idle ob : safe (idle o) (AddOutbound ob) any.
Proof.
  unfold AddOutbound. destruct (CheckPeer _ _) as [name|e]; [|by apply safe_ret].
  apply (safe_bind _ _ _ any); [apply mgr_idle|]. intros [[e|] ob'] _; [by apply safe_ret|].
  destruct (negb _); [by apply safe_ret|]. by apply (safe_weaken _ _ _ _ (open_route_fails ob')).
Qed.

Lemma perform_idle op : safe (idle o) (perform op) any.
Proof.
  destruct op; cbn [perform].
  - apply (safe_bind _ _ _ any); [|by intros; apply safe_ret]. unfold ProxyClient.Start.
    apply (safe_bind _ _ _ any); [apply mgr_idle|intros; apply for_range_idle, start_one_idle].
  - apply (safe_bind _ _ _ any); [|by intros; apply safe_ret]. unfold ProxyClient.Stop.
    apply (safe_bind _ _ _ any); [apply mgr_idle|intros obs _].
    apply (safe_bind _ _ _ any).
    { apply for_range_idle. intros ob. destruct (negb _); [by apply safe_ret|].
      apply (safe_bind _ _ _ any); [apply DeleteOutboundRoute_idle|intros; by apply safe_ret]. }
    intros _ _. apply (safe_bind _ _ _ any); [apply stopTunStack_idle|intros; by apply safe_ret].
  - apply AddOutbound_idle.
  - by apply (safe_weaken _ _ _ _ (UpdateOutbound_fails ob)).
  - unfold DeleteOutbound. apply (safe_bind _ _ _ any); [apply mgr_idle|]. intros [ob [e|]] _; [by apply safe_ret|].
    destruct ob as [ob|]; [|by apply safe_ret]. destruct (ob_routeNet ob); [|apply safe_panic].
    apply (safe_bind _ _ _ any); [apply delRoute_idle|intros; by apply safe_ret].
  - apply DeleteOutboundRoute_idle.
Qed.
End Idle.

Lemma after_idle o ops c : idle o c -> idle o (after ops c).
Proof.
  revert c. induction ops as [|op ops IH]; intros c H; [done|]. cbn. apply IH, perform_idle, H.
Qed.

(** A proxy client on Windows carries nothing.  From a new client on, whatever is
    asked of it and whatever the store, the peers and the driver answer: its stack
    does not run, the system's routes are as they were, and no connection is
    dialled; an update of an outbound always answers an error, after it was
    stored. *)
Theorem windows_carries_nothing ops d o e c : newProxyClient d o e = inl c ->
  let c' := after ops c in
  tunStackRunning c' = false /\ os c' = o /\ (forall md, exists err, DialContext md c' = (Ret (inr err), None)) /\
  forall ob r, (UpdateOutbound ob c').1 = Ret r -> r <> None.
Proof.
  intros Hn c'. assert (H : idle o c').
  { apply after_idle. unfold newProxyClient in Hn. destruct (NewSocksOutboundsManager _ d); [|done]. injection Hn as <-.
    split_and!; [done..|apply Inv_new|]. cbn. apply avl_empty_map. }
  destruct (H) as (H1 & H2 & H3 & H4). split_and!; [done|done| |].
  - intros md. assert (Hl : forall ip, lookup_ip ip (pc_router c') = None).
    { intros ip. destruct (lookup_ip ip (pc_router c')) as [d'|] eqn:E; [|done].
      apply (lookup_ip_routes _ _ _ H3) in E as (k & v & Hk & _). by rewrite H4, lookup_empty in Hk. }
    unfold DialContext. repeat (case_match; try by eexists). congruence.
  - intros ob r. by apply (UpdateOutbound_fails o).
Qed.
End Client.

(** * The device

    wintun's package variables. *)
Section Wintun.
Context {GUID Query Device : Type}.
Context (GUIDFromString : string -> GUID * option error)
        (Decode : Query -> string + error)
        (Open : option GUID -> string -> string -> Z -> Device + error).

Definition tunGUID : string := "{D5BFEE3A-9DC2-44CC-9FFC-A7F6B53474F2}".
Record wun := mkWun { WintunStaticRequestedGUID : option GUID; WintunTunnelType : string }.

(** The error of reading the constant is dropped. *)
Definition init : GoM wun unit := put (mkWun (Some (GUIDFromString tunGUID).1) "uptptun").

(** A URL's host and its query, of which the field [GUID] is decoded. *)
Definition parseTUN (host : string) (query : Query) (mtu : Z) : GoM wun (Device + error) :=
  match Decode query with
  | inr e => ret (inr e)
  | inl guid =>
      let* ok :=
        if String.eqb guid "" then ret None
        else
          match GUIDFromString guid with
          | (_, Some e) => ret (Some e)
          | (g, None) => modify (fun w => mkWun (Some g) (WintunTunnelType w)) ;;; ret None
          end in
      match ok with
      | Some e => ret (inr e)
      | None => w <- get ;; ret (Open (WintunStaticRequestedGUID w) (WintunTunnelType w) host mtu)
      end
  end.

(** The identifier a device is opened under: the one its query names; the device
    after it that names none is opened under that one as well, and only the first
    ones under the program's. *)
Theorem guid_sticks w host q mtu s g host' q' mtu' : Decode q = inl s -> s <> "" -> GUIDFromString s = (g, None) -> Decode q' = inl "" ->
  (init ;;; parseTUN host' q' mtu') w = (Ret (Open (Some (GUIDFromString tunGUID).1) "uptptun" host' mtu'), (init w).2) /\
  exists w', (init ;;; parseTUN host q mtu) w = (Ret (Open (Some g) "uptptun" host mtu), w') /\
    parseTUN host' q' mtu' w' = (Ret (Open (Some g) "uptptun" host' mtu'), w').
Proof.
  intros H1 H2 H3 H4. unfold parseTUN, init, bind, put, modify, ret, get. rewrite H1, H4, H3.
  destruct (String.eqb_spec s ""); [done|]. split; [done|]. by eexists.
Qed.
End Wintun.
