(* ===== verification/GatewayApi.v ===== *)
(** src/gateway/gateway.go, lines 508-519, 625-660, 768-973 and 1019-1533: the
    handlers of the console's API over the whole gateway, and what [Run] does
    with the stored mappings.  The gateway's parts are views of one state with
    one store.  The theorems: what the handlers answer and change on every
    branch, what a running application owns, and where they crash. *)
From S2P Require Import Prelude GoText GoIo GoNet Json Codec TypesId Version Store PortmapRes PortmapApp ProxyService.
From S2P Require Import Avl ProxyRouter Socks5Util Socks5Client Portmap AppStart GwCore Authorize TunStack ProxyClient Http.

Record GatewayInfo := mkInfo {
  gi_P2PID : string;
  gi_Token : ID;
  gi_Name : string;
  gi_Port : Z;
  gi_Version : string
}.

#[export] Instance GatewayInfo_eq_dec : EqDecision GatewayInfo.
Proof. solve_decision. Defined.

Definition gi_zero : GatewayInfo := mkInfo "" (mkID 0) "" 0 "".

Definition gi_fields : list (field GatewayInfo) :=
  [ jfield "p2p_id" gi_P2PID
      (fun v r => mkInfo v (gi_Token r) (gi_Name r) (gi_Port r) (gi_Version r));
    jfield "token" gi_Token
      (fun v r => mkInfo (gi_P2PID r) v (gi_Name r) (gi_Port r) (gi_Version r));
    jfield "name" gi_Name
      (fun v r => mkInfo (gi_P2PID r) (gi_Token r) v (gi_Port r) (gi_Version r));
    jfield "running_port" gi_Port
      (fun v r => mkInfo (gi_P2PID r) (gi_Token r) (gi_Name r) v (gi_Version r));
    jfield "version" gi_Version
      (fun v r => mkInfo (gi_P2PID r) (gi_Token r) (gi_Name r) (gi_Port r) v) ].

Definition gi_fits (r : GatewayInfo) : Prop :=
  json_fits (gi_P2PID r) /\
  json_fits (gi_Token r) /\
  json_fits (gi_Name r) /\
  json_fits (gi_Port r) /\
  json_fits (gi_Version r).

#[export] Instance gi_codec : JsonCodec GatewayInfo := {
  json_of := struct_json gi_fields;
  json_into := struct_into gi_fields;
  zero := gi_zero;
  json_fits := gi_fits;
  json_norm := id;
  json_depth := 1
}.
#[export] Instance gi_laws : CodecLaws GatewayInfo.
Proof. struct_laws. Qed.

(** The bodies of the requests that only name something. *)
Record idReq := mkIdReq {
  idr_ID : ID
}.

#[export] Instance idReq_eq_dec : EqDecision idReq.
Proof. solve_decision. Defined.

Definition idr_zero : idReq := mkIdReq (mkID 0).

Definition idr_fields : list (field idReq) :=
  [ jfield "id" idr_ID
      (fun v r => mkIdReq v) ].

Definition idr_fits (r : idReq) : Prop :=
  json_fits (idr_ID r) /\ True.

#[export] Instance idr_codec : JsonCodec idReq := {
  json_of := struct_json idr_fields;
  json_into := struct_into idr_fields;
  zero := idr_zero;
  json_fits := idr_fits;
  json_norm := id;
  json_depth := 1
}.
#[export] Instance idr_laws : CodecLaws idReq.
Proof. struct_laws. Qed.

Record nameReq := mkNameReq {
  nr_Name : string
}.

#[export] Instance nameReq_eq_dec : EqDecision nameReq.
Proof. solve_decision. Defined.

Definition nr_zero : nameReq := mkNameReq "".

Definition nr_fields : list (field nameReq) :=
  [ jfield "name" nr_Name
      (fun v r => mkNameReq v) ].

Definition nr_fits (r : nameReq) : Prop :=
  json_fits (nr_Name r) /\ True.

#[export] Instance nr_codec : JsonCodec nameReq := {
  json_of := struct_json nr_fields;
  json_into := struct_into nr_fields;
  zero := nr_zero;
  json_fits := nr_fits;
  json_norm := id;
  json_depth := 1
}.
#[export] Instance nr_laws : CodecLaws nameReq.
Proof. struct_laws. Qed.

Definition validatePortmapResource (res : PortmapResource) : option error :=
  if String.eqb (res_Name res) "" then Some (ErrText "resource name is required")
  else if negb (String.eqb (res_Network res) "tcp") && negb (String.eqb (res_Network res) "udp")
  then Some (ErrText "invalid network type, must be tcp or udp")
  else if String.eqb (res_TargetAddr res) "" then Some (ErrText "target address is required")
  else if (res_TargetPort res <=? 0) || (65535 <? res_TargetPort res) then Some (ErrText "invalid target port")
  else if (0 <? res_LocalPort res) && (65535 <? res_LocalPort res) then Some (ErrText "invalid local port")
  else None.

Section Api.
Context {DB : Type} {Db : LevelDB DB} {Dbl : LevelDBLaws DB}.
Context {T : Type} {Tree : AvlTree (routeItem PeerWithAuth) T} {TreeLaws : AvlLaws (routeItem PeerWithAuth) T}.
Context {Lib : Socks5Lib} {Sys : System}.
Context (rand_Uint64 : nat -> Z) (Hostname : string + error).
Context (Listen : bool -> string -> Z -> sockets -> (nat * string) + error).
Context (range_res : gmap Z PortmapResource -> list (Z * PortmapResource))
        (range_apps : gmap Z PortmapApp -> list (Z * PortmapApp)).
(** The host's identifier and listening port. *)
Context (host_ID : string) (GetListenPort : Z).

(** [gw_outbound] is what [socks5.SetOutboundProxy] was called with. *)
Record Gateway := mkGw {
  gw_core : @Core DB;
  gw_pm : Portmap;
  gw_obs : option (gmap Z socksOutbound);
  gw_tun : bool;
  gw_engine : Engine;
  gw_router : @proxyRouter T;
  gw_os : OS;
  gw_outbound : string * string * string
}.

Definition core {A} : GoM Core A -> GoM Gateway A :=
  zoom gw_core (fun c g => mkGw c (gw_pm g) (gw_obs g) (gw_tun g) (gw_engine g) (gw_router g) (gw_os g) (gw_outbound g)).
Definition pm {A} : GoM Portmap A -> GoM Gateway A :=
  zoom gw_pm (fun p g => mkGw (gw_core g) p (gw_obs g) (gw_tun g) (gw_engine g) (gw_router g) (gw_os g) (gw_outbound g)).
Definition proxyCli {A} : GoM proxyClient A -> GoM Gateway A :=
  zoom (fun g => mkPc (mkObMgr (g_db (gw_core g)) (gw_obs g)) (gw_tun g) (gw_engine g) (gw_router g) (gw_os g))
       (fun c g => mkGw (set_g_db (ob_db (pc_mgr c)) (gw_core g)) (gw_pm g) (outbounds (pc_mgr c)) (tunStackRunning c)
                     (pc_engine c) (pc_router c) (os c) (gw_outbound g)).
Definition SetOutboundProxy (addr user pass : string) : GoM Gateway unit :=
  modify (fun g => mkGw (gw_core g) (gw_pm g) (gw_obs g) (gw_tun g) (gw_engine g) (gw_router g) (gw_os g) (addr, user, pass)).

(** * Answers

    [rsp.Code = c; rsp.Message = m; SendAPIRespWithOk(w, rsp); return], and the
    answer of success with its data. *)
Definition fail (c : Z) (m : string) : GoM (Http Gateway) unit := SendAPIRespWithOk (Http.mkApi c m None).
Definition ok_msg : GoM (Http Gateway) unit := SendAPIRespWithOk (Http.mkApi 0 "ok" None).
Definition ok_data (d : json) : GoM (Http Gateway) unit := SendAPIRespWithOk (Http.mkApi 0 "" (Some d)).

(** [io.ReadAll(r.Body)] and [json.Unmarshal] with their two error answers, as
    every handler with a body begins. *)
Definition with_body {A} `{JsonCodec A} (r : Request) (k : A -> GoM (Http Gateway) unit) : GoM (Http Gateway) unit :=
  match ReadAll r with
  | inr e => fail 500 (Error e)
  | inl body =>
      match Unmarshal body zero with
      | inr e => fail 400 (Error e)
      | inl a => k a
      end
  end.

(** The id of the path. *)
Definition with_id (r : Request) (k : Z -> GoM (Http Gateway) unit) : GoM (Http Gateway) unit :=
  match ParseUint (URLParam_id r) with
  | (_, Some _) => respond (http_Error "Invalid ID" StatusBadRequest)
  | (id, None) => k id
  end.

(** The last step of the handlers that save: the error, or ok. *)
Definition finish (err : option error) : GoM (Http Gateway) unit :=
  match err with Some e => fail 500 (Error e) | None => ok_msg end.

(** * Settings of the proxy server *)

Definition with_proxySvc (k : GoM (Http Gateway) unit) : GoM (Http Gateway) unit :=
  g <- server get ;;
  match g_proxySvc (gw_core g) with
  | None => fail 500 "proxy service not initialized"
  | Some _ => k
  end.

Definition getProxyConfig : Handler Gateway := fun r =>
  with_proxySvc
    (c <- server (core (proxySvc getConfig)) ;;
     ok_data (json_of c)).

Definition updateProxyConfig : Handler Gateway := fun r =>
  with_proxySvc
    (with_body r (fun req =>
       err <- server (core (proxySvc (ProxyService.set req))) ;;
       match err with
       | Some e => fail 500 (Error e)
       | None =>
           server (SetOutboundProxy (psc_ProxyAddr req) (psc_ProxyUser req) (psc_ProxyPass req)) ;;;
           ok_msg
       end)).

(** * Applications *)

Definition set_app (id : ID) (peerName : string) (a : PortmapApp) : PortmapApp :=
  mkApp id (app_Name a) (app_PeerID a) (app_ResID a) (app_Network a) (app_LocalIP a) (app_LocalPort a)
    (app_TargetAddr a) (app_TargetPort a) (app_Running a) peerName (app_Err a).

(** The authorization of an application's resource. *)
Definition authorize_app (a : PortmapApp) (k : string -> GoM (Http Gateway) unit) : GoM (Http Gateway) unit :=
  match ResourceAuthorize Decode_peer NewStream (app_PeerID a)
          (mkAreq AuthorizeTypePortmap (Some (Authorize.mkApi (app_ResID a))) None) with
  | ((_, Some e), _) => fail 400 (Error e)
  | ((authRsp, None), _) =>
      if negb (String.eqb (aresp_Err authRsp) "") then fail 400 (aresp_Err authRsp)
      else k (aresp_NodeName authRsp)
  end.

(** A running application listens; it is stopped when it cannot. *)
Definition listen_app (a : PortmapApp) : GoM Gateway PortmapApp :=
  if app_Running a then
    let* (_, err) := pm (AddListener Listen (app_Network a) (app_LocalIP a) (app_LocalPort a)) in
    ret (match err with Some e => set_stopped (Error e) a | None => a end)
  else ret a.

Definition addApp : Handler Gateway := fun r =>
  with_body r (fun app =>
    authorize_app app (fun peerName =>
      id <- server (core (next_rand rand_Uint64)) ;;
      app <- server (listen_app (set_app (mkID id) peerName app)) ;;
      err <- server (core (pam (UpdatePortmapApp app))) ;;
      finish err)).

Definition updateApp : Handler Gateway := fun r =>
  with_body r (fun app =>
    if Uint64 (app_ID app) =? 0 then fail 400 "app id is empty"
    else
      oldApp <- server (core (pam (gets (GetPortmapApp (Uint64 (app_ID app)))))) ;;
      match oldApp with
      | None => fail 404 "app not found"
      | Some oldApp =>
          let cont peerName :=
            let app := set_app (app_ID app) peerName app in
            (if app_Running oldApp
             then server (pm (DeleteListener (app_Network oldApp) (app_LocalIP oldApp) (app_LocalPort oldApp)))
             else ret tt) ;;;
            app <- server (listen_app app) ;;
            err <- server (core (pam (UpdatePortmapApp app))) ;;
            finish err in
          if negb (String.eqb (app_PeerID app) (app_PeerID oldApp)) || negb (bool_decide (app_ResID app = app_ResID oldApp))
          then authorize_app app cont
          else cont (app_PeerName oldApp)
      end).

Definition deleteApp : Handler Gateway := fun r =>
  with_body r (fun req =>
    app <- server (core (pam (gets (GetPortmapApp (Uint64 (idr_ID req)))))) ;;
    match app with
    | Some app =>
        if app_Running app then server (pm (DeleteListener (app_Network app) (app_LocalIP app) (app_LocalPort app)))
        else ret tt
    | None => ret tt
    end ;;;
    err <- server (core (pam (PortmapApp.DelPortmapApp (Uint64 (idr_ID req))))) ;;
    finish err).

Definition listApps : Handler Gateway := fun r =>
  apps <- server (core (pam (gets (GetPortmapApps range_apps)))) ;;
  ok_data (json_of apps).

Definition getApp : Handler Gateway := fun r =>
  with_id r (fun id =>
    app <- server (core (pam (gets (GetPortmapApp id)))) ;;
    match app with
    | None => fail 404 "app not found"
    | Some a => ok_data (json_of a)
    end).

(** * Resources *)

Definition listResources : Handler Gateway := fun r =>
  rs <- server (core (prm (GetResources range_res))) ;;
  SendAPIRespWithOk (Http.mkApi 0 "ok" (Some (slice_json rs))).

Definition getResource : Handler Gateway := fun r =>
  with_id r (fun id =>
    res <- server (core (prm (GetAppByID (mkID id)))) ;;
    if Uint64 (res_ID res) =? 0 then fail 404 "resource not found" else ok_data (json_of res)).

Definition set_res_ID (id : ID) (a : PortmapResource) : PortmapResource :=
  mkRes id (res_Name a) (res_Type a) (res_Network a) (res_TargetAddr a) (res_TargetPort a) (res_LocalIP a) (res_LocalPort a).

Definition addResource : Handler Gateway := fun r =>
  with_body r (fun pa =>
    id <- server (core (next_rand rand_Uint64)) ;;
    err <- server (core (prm (AddPortmapRes (set_res_ID (mkID id) pa)))) ;;
    match err with
    | Some e => fail 500 (Error e)
    | None => SendAPIRespWithOk (Http.mkApi 0 "ok" (Some (json_of (mkID id))))
    end).

Definition updateResource : Handler Gateway := fun r =>
  with_body r (fun pa =>
    if Uint64 (res_ID pa) =? 0 then fail 400 "resource id is required"
    else
      existing <- server (core (prm (GetAppByID (res_ID pa)))) ;;
      if Uint64 (res_ID existing) =? 0 then fail 404 "resource not found"
      else
        match validatePortmapResource pa with
        | Some e => fail 400 (Error e)
        | None =>
            err <- server (core (prm (UpdatePortmapRes pa))) ;;
            finish err
        end).

Definition deleteResource : Handler Gateway := fun r =>
  with_body r (fun req =>
    if Uint64 (idr_ID req) =? 0 then fail 400 "resource id is required"
    else
      existing <- server (core (prm (GetAppByID (idr_ID req)))) ;;
      if Uint64 (res_ID existing) =? 0 then fail 404 "resource not found"
      else
        err <- server (core (prm (PortmapRes.DelPortmapApp (idr_ID req)))) ;;
        finish err).

(** * The gateway itself *)

Definition getGatewayInfo : Handler Gateway := fun r =>
  let* (name, err) := server (core (getGatewayName Hostname)) in
  match err with
  | Some e => fail 500 (Error e)
  | None =>
      let* (token, err) := server (core (getToken rand_Uint64)) in
      match err with
      | Some e => fail 500 (Error e)
      | None =>
          let* (token, err) :=
            (if token =? 0 then
               t <- server (core (next_rand rand_Uint64)) ;;
               err <- server (core (setToken t)) ;;
               ret (t, err)
             else ret (token, None)) in
          match err with
          | Some e => fail 500 (Error e)
          | None => ok_data (json_of (mkInfo host_ID (mkID token) name GetListenPort GatewayVersion))
          end
      end
  end.

Definition updateGatewayName : Handler Gateway := fun r =>
  with_body r (fun req =>
    if String.eqb (nr_Name req) "" then fail 400 "name is required"
    else
      err <- server (core (setGatewayName (nr_Name req))) ;;
      finish err).

(** * Outbounds *)

Definition listOutbounds : Handler Gateway := fun r =>
  with_proxySvc
    (obs <- server (proxyCli (mgr (ListOutbounds range_obs))) ;;
     SendAPIRespWithOk (Http.mkApi 0 "ok" (Some (slice_json obs)))).

(** Reading the identifier of a nil pointer panics. *)
Definition deref {A B} (p : option A) (k : A -> GoM (Http Gateway) B) : GoM (Http Gateway) B :=
  match p with None => panic | Some a => k a end.

Definition getOutbound : Handler Gateway := fun r =>
  with_id r (fun id =>
    with_proxySvc
      (outbound <- server (proxyCli (mgr (GetOutbound (mkID id)))) ;;
       deref outbound (fun ob =>
         if Uint64 (ob_ID ob) =? 0 then fail 404 "outbound not found" else ok_data (json_of ob)))).

Definition set_ob_ID (id : ID) (o : socksOutbound) : socksOutbound :=
  mkOb id (ob_Remark o) (ob_Open o) (ob_Peer o) (ob_PeerName o) (ob_Token o) (ob_Route o) (ob_routeNet o) (ob_socks5Peer o).

Definition addOutbound : Handler Gateway := fun r =>
  with_body r (fun ob =>
    id <- server (core (next_rand rand_Uint64)) ;;
    err <- server (proxyCli (AddOutbound (set_ob_ID (mkID id) ob))) ;;
    match err with
    | Some e => fail 500 (Error e)
    | None => SendAPIRespWithOk (Http.mkApi 0 "ok" (Some (json_of (mkID id))))
    end).

Definition updateOutbound : Handler Gateway := fun r =>
  with_body r (fun ob =>
    if Uint64 (ob_ID ob) =? 0 then fail 400 "outbound id is required"
    else
      existing <- server (proxyCli (mgr (GetOutbound (ob_ID ob)))) ;;
      deref existing (fun existing =>
        if Uint64 (ob_ID existing) =? 0 then fail 404 "outbound not found"
        else
          (if ob_Open existing then server (proxyCli (DeleteOutboundRoute existing)) ;;; ret tt else ret tt) ;;;
          err <- server (proxyCli (UpdateOutbound ob)) ;;
          finish err)).

Definition deleteOutbound : Handler Gateway := fun r =>
  with_body r (fun req =>
    if Uint64 (idr_ID req) =? 0 then fail 400 "outbound id is required"
    else
      existing <- server (proxyCli (mgr (GetOutbound (idr_ID req)))) ;;
      deref existing (fun existing =>
        if Uint64 (ob_ID existing) =? 0 then fail 404 "outbound not found"
        else
          err <- server (proxyCli (DeleteOutbound (idr_ID req))) ;;
          finish err)).

(** * Starting the mappings

    The loop of [Run] over the stored applications. *)
Definition start_app (a : PortmapApp) : GoM Gateway unit :=
  if negb (app_Running a) then ret tt
  else
    let* (_, err) := pm (AddListener Listen (app_Network a) (app_LocalIP a) (app_LocalPort a)) in
    match err with
    | Some _ => core (pam (UpdatePortmapApp (set_stopped "" a))) ;;; ret tt
    | None => ret tt
    end.
Definition start_apps (pmApps : list PortmapApp) : GoM Gateway unit := for_range pmApps start_app.

(** * Lemmas *)

Lemma server_Ret {A} (m : GoM Gateway A) g wr a g' : m g = (Ret a, g') ->
  server m (mkHttp g wr) = (Ret a, mkHttp g' wr).
Proof. intros H. rewrite server_run. cbn [srv w]. by rewrite H. Qed.

Definition set_core (c : @Core DB) (g : Gateway) : Gateway :=
  mkGw c (gw_pm g) (gw_obs g) (gw_tun g) (gw_engine g) (gw_router g) (gw_os g) (gw_outbound g).
Definition set_pm (p : Portmap) (g : Gateway) : Gateway :=
  mkGw (gw_core g) p (gw_obs g) (gw_tun g) (gw_engine g) (gw_router g) (gw_os g) (gw_outbound g).

Lemma core_Ret {A} (m : GoM Core A) g a c : m (gw_core g) = (Ret a, c) -> core m g = (Ret a, set_core c g).
Proof. unfold core, zoom. by intros ->. Qed.
Lemma pm_Ret {A} (m : GoM Portmap A) g a p : m (gw_pm g) = (Ret a, p) -> pm m g = (Ret a, set_pm p g).
Proof. unfold pm, zoom. by intros ->. Qed.

(** The answer the console gets. *)
Definition answer (c : Z) (m : string) (d : option json) : ResponseWriter :=
  mkWriter (Some 200) {[ "Content-Type" := ["application/json"] ]} []
    (print (api_json (api_body (Http.mkApi c m d)))) None.

Lemma answer_run (c : Z) (m : string) (d : option json) (g : Gateway) :
  SendAPIRespWithOk (Http.mkApi c m d) (mkHttp g (new_writer None)) = (Ret tt, mkHttp g (answer c m d)).
Proof. reflexivity. Qed.

Lemma with_body_ok {A} `{JsonCodec A} r (a : A) k h : ReadAll r = inl (Body r) -> Unmarshal (Body r) zero = inl a ->
  with_body r k h = k a h.
Proof. intros Hr Hu. unfold with_body. by rewrite Hr, Hu. Qed.

(** Saving the resources. *)
Definition put_res (rs : gmap Z PortmapResource) (g : Gateway) : option error * Gateway :=
  let '(e, d) := db_Put keyPortmapRes (Marshal rs) (g_db (gw_core g)) in
  (e, set_core (mkCore d (Some rs) (g_apps (gw_core g)) (g_proxySvc (gw_core g)) (trial (gw_core g)) (g_rand (gw_core g))) g).

Lemma update_res_run pa g : core (prm (UpdatePortmapRes pa)) g =
  let '(e, g') := put_res (<[Uint64 (res_ID pa) := pa]> (held_res (gw_core g))) g in (Ret e, g').
Proof.
  unfold put_res, core, prm, zoom, UpdatePortmapRes, set_resources, savePortmap, bind, get, modify, zoom, dbPut, held_res.
  cbn [db resources g_db g_resources]. unfold bind, get. cbn [db resources]. by destruct (db_Put _ _ _).
Qed.
Lemma delete_res_run id rs g : g_resources (gw_core g) = Some rs -> core (prm (PortmapRes.DelPortmapApp id)) g =
  let '(e, g') := put_res (delete (Uint64 id) rs) g in (Ret e, g').
Proof.
  intros Hrs. unfold put_res, core, prm, zoom, PortmapRes.DelPortmapApp, set_resources, savePortmap, bind, get, modify, zoom, dbPut.
  cbn [db resources g_db g_resources]. rewrite Hrs. unfold bind, get. cbn [db resources]. by destruct (db_Put _ _ _).
Qed.

Lemma alloc_core_run id g : core (prm (GetAppByID id)) g =
  (Ret (default res_zero (held_res (gw_core g) !! Uint64 id)), set_core (alloc_res (gw_core g)) g).
Proof. reflexivity. Qed.

Definition found_res (id : ID) (g : Gateway) : PortmapResource := default res_zero (held_res (gw_core g) !! Uint64 id).

(** C15. Changing resources through the API.  [updateResource] refuses, changing
    no resource, an identifier that is 0 or unknown and every resource that
    breaks one of the documented rules (a name, tcp or udp, a target address, a
    target port from 1 to 65535, a local port of at most 65535); otherwise it
    replaces the resource, saves, and answers ok, or 500 with the store's error.
    [deleteResource] does the same without the rules.  [addResource] applies no
    rule: whatever the resource, it is stored under a fresh identifier, which is
    the answer's data. *)
Theorem resource_api r g pa id (req : idReq) :
  let h := mkHttp g (new_writer None) in let g1 := set_core (alloc_res (gw_core g)) g in
  ReadAll r = inl (Body r) ->
  (Unmarshal (Body r) (zero (A := PortmapResource)) = inl pa ->
     (validatePortmapResource pa = None <->
        res_Name pa <> "" /\ (res_Network pa = "tcp" \/ res_Network pa = "udp") /\ res_TargetAddr pa <> "" /\
        0 < res_TargetPort pa <= 65535 /\ res_LocalPort pa <= 65535) /\
     updateResource r h =
       if Uint64 (res_ID pa) =? 0 then (Ret tt, mkHttp g (answer 400 "resource id is required" None))
       else if Uint64 (res_ID (found_res (res_ID pa) g)) =? 0 then (Ret tt, mkHttp g1 (answer 404 "resource not found" None))
       else match validatePortmapResource pa with
            | Some e => (Ret tt, mkHttp g1 (answer 400 (Error e) None))
            | None => let '(e, g') := put_res (<[Uint64 (res_ID pa) := pa]> (held_res (gw_core g))) g1 in
                      (Ret tt, mkHttp g' match e with Some e => answer 500 (Error e) None | None => answer 0 "ok" None end)
            end) /\
  (Unmarshal (Body r) (zero (A := idReq)) = inl req -> id = idr_ID req ->
     deleteResource r h =
       if Uint64 id =? 0 then (Ret tt, mkHttp g (answer 400 "resource id is required" None))
       else if Uint64 (res_ID (found_res id g)) =? 0 then (Ret tt, mkHttp g1 (answer 404 "resource not found" None))
       else let '(e, g') := put_res (delete (Uint64 id) (held_res (gw_core g))) g1 in
            (Ret tt, mkHttp g' match e with Some e => answer 500 (Error e) None | None => answer 0 "ok" None end)) /\
  (Unmarshal (Body r) (zero (A := PortmapResource)) = inl pa -> id = mkID (rand_Uint64 (g_rand (gw_core g))) ->
     exists g2, core (next_rand rand_Uint64) g = (Ret (Uint64 id), g2) /\
     addResource r h =
       let '(e, g') := put_res (<[Uint64 id := set_res_ID id pa]> (held_res (gw_core g))) g2 in
       (Ret tt, mkHttp g' match e with Some e => answer 500 (Error e) None
                          | None => answer 0 "ok" (Some (json_of id)) end)).
Proof.
  clear Hostname. intros h g1 Hbody. split; [|split].
  - intros Hu. split.
    + unfold validatePortmapResource.
      destruct (String.eqb_spec (res_Name pa) ""); [split; [done|tauto]|].
      destruct (String.eqb_spec (res_Network pa) "tcp"), (String.eqb_spec (res_Network pa) "udp"); cbn [negb andb];
        try (split; [done|tauto]);
        (destruct (String.eqb_spec (res_TargetAddr pa) ""); [split; [done|tauto]|]);
        (destruct (Z.leb_spec (res_TargetPort pa) 0), (Z.ltb_spec 65535 (res_TargetPort pa)); cbn [orb];
          try (split; [done|lia]));
        (destruct (Z.ltb_spec 0 (res_LocalPort pa)), (Z.ltb_spec 65535 (res_LocalPort pa)); cbn [andb];
          split; try done; try lia; intros _; split_and!; auto; lia).
    + unfold updateResource, h. rewrite (with_body_ok r pa _ _ Hbody Hu).
      destruct (Uint64 (res_ID pa) =? 0); [done|].
      rewrite (bind_Ret _ _ _ _ _ (server_Ret _ g (new_writer None) _ _ (alloc_core_run (res_ID pa) g))).
      fold (found_res (res_ID pa) g) g1.
      destruct (Uint64 (res_ID (found_res (res_ID pa) g)) =? 0); [done|].
      destruct (validatePortmapResource pa) as [e|]; [done|].
      pose proof (update_res_run pa g1) as HR. change (held_res (gw_core g1)) with (held_res (gw_core g)) in HR.
      destruct (put_res (<[Uint64 (res_ID pa) := pa]> (held_res (gw_core g))) g1) as [e g'].
      rewrite (bind_Ret _ _ _ _ _ (server_Ret _ g1 (new_writer None) _ _ HR)). by destruct e.
  - intros Hu ->. unfold deleteResource, h. rewrite (with_body_ok r req _ _ Hbody Hu).
    destruct (Uint64 (idr_ID req) =? 0); [done|].
    rewrite (bind_Ret _ _ _ _ _ (server_Ret _ g (new_writer None) _ _ (alloc_core_run (idr_ID req) g))).
    fold (found_res (idr_ID req) g) g1.
    destruct (Uint64 (res_ID (found_res (idr_ID req) g)) =? 0); [done|].
    pose proof (delete_res_run (idr_ID req) (held_res (gw_core g)) g1 eq_refl) as HR.
    destruct (put_res (delete (Uint64 (idr_ID req)) (held_res (gw_core g))) g1) as [e g'].
    rewrite (bind_Ret _ _ _ _ _ (server_Ret _ g1 (new_writer None) _ _ HR)). by destruct e.
  - intros Hu ->. set (g2 := (core (next_rand rand_Uint64) g).2). exists g2. split; [reflexivity|].
    unfold addResource, h. rewrite (with_body_ok r pa _ _ Hbody Hu).
    assert (Hn : core (next_rand rand_Uint64) g = (Ret (rand_Uint64 (g_rand (gw_core g))), g2)) by reflexivity.
    rewrite (bind_Ret _ _ _ _ _ (server_Ret _ g (new_writer None) _ _ Hn)).
    set (id := mkID (rand_Uint64 (g_rand (gw_core g)))).
    assert (HR : core (prm (AddPortmapRes (set_res_ID id pa))) g2 =
      (Ret (put_res (<[Uint64 id := set_res_ID id pa]> (held_res (gw_core g))) g2).1,
       (put_res (<[Uint64 id := set_res_ID id pa]> (held_res (gw_core g))) g2).2)).
    { etrans; [exact (update_res_run (set_res_ID id pa) g2)|]. by destruct (put_res _ g2). }
    rewrite (bind_Ret _ _ _ _ _ (server_Ret _ g2 (new_writer None) _ _ HR)).
    destruct (put_res (<[Uint64 id := set_res_ID id pa]> (held_res (gw_core g))) g2) as [[e|] g']; reflexivity.
Qed.

(** The console's requests about an outbound the gateway does not have crash
    their handler: the manager answers nil, whose identifier is read.  (net/http
    aborts the connection; the intended answer is 404.)  Nothing is changed but
    the map's allocation. *)
Theorem unknown_outbound_crashes r g id (req : idReq) (ob : socksOutbound) :
  default ∅ (gw_obs g) !! Uint64 id = None -> Uint64 id <> 0 -> ReadAll r = inl (Body r) ->
  let h := mkHttp g (new_writer None) in
  let run := fun (hd : Handler Gateway) => hd r h in
  (ParseUint (URLParam_id r) = (Uint64 id, None) -> g_proxySvc (gw_core g) <> None -> (run getOutbound).1 = Panic) /\
  (Unmarshal (Body r) (zero (A := socksOutbound)) = inl ob -> ob_ID ob = id -> (run updateOutbound).1 = Panic) /\
  (Unmarshal (Body r) (zero (A := idReq)) = inl req -> idr_ID req = id -> (run deleteOutbound).1 = Panic).
Proof.
  intros Hno Hid Hbody h run.
  assert (HG : forall i, Uint64 i = Uint64 id -> exists g', proxyCli (mgr (GetOutbound i)) g = (Ret None, g')).
  { intros i Hi. unfold proxyCli, mgr, zoom, GetOutbound, bind, get, put, ret. cbn [pc_mgr outbounds ob_db].
    rewrite Hi, Hno. by eexists. }
  split_and!.
  - intros Hp Hsvc. unfold run, getOutbound, with_id. rewrite Hp. unfold with_proxySvc, h.
    rewrite (bind_Ret _ _ _ _ _ (server_Ret get g (new_writer None) _ _ eq_refl)).
    destruct (g_proxySvc (gw_core g)); [|done]. destruct (HG (mkID (Uint64 id)) eq_refl) as (g' & E).
    by rewrite (bind_Ret _ _ _ _ _ (server_Ret _ g (new_writer None) _ _ E)).
  - intros Hu Ho. unfold run, updateOutbound, h. rewrite (with_body_ok r ob _ _ Hbody Hu).
    rewrite Ho. destruct (Z.eqb_spec (Uint64 id) 0); [done|]. destruct (HG id eq_refl) as (g' & E).
    by rewrite (bind_Ret _ _ _ _ _ (server_Ret _ g (new_writer None) _ _ E)).
  - intros Hu Ho. unfold run, deleteOutbound, h. rewrite (with_body_ok r req _ _ Hbody Hu).
    rewrite Ho. destruct (Z.eqb_spec (Uint64 id) 0); [done|]. destruct (HG id eq_refl) as (g' & E).
    by rewrite (bind_Ret _ _ _ _ _ (server_Ret _ g (new_writer None) _ _ E)).
Qed.

(** ** Applications *)

Definition put_apps (rs : gmap Z PortmapApp) (g : Gateway) : option error * Gateway :=
  let '(e, d) := db_Put keyPortmapApps (Marshal rs) (g_db (gw_core g)) in
  (e, set_core (mkCore d (g_resources (gw_core g)) (Some rs) (g_proxySvc (gw_core g)) (trial (gw_core g)) (g_rand (gw_core g))) g).

Lemma update_app_run a rs g : g_apps (gw_core g) = Some rs -> core (pam (UpdatePortmapApp a)) g =
  (Ret (put_apps (<[Uint64 (app_ID a) := a]> rs) g).1, (put_apps (<[Uint64 (app_ID a) := a]> rs) g).2).
Proof.
  intros Hrs. unfold put_apps, core, pam, zoom, UpdatePortmapApp, bind, get, put. cbn [app_db apps]. rewrite Hrs.
  unfold savePortmapApps, bind, get, zoom, dbPut. cbn [app_db apps]. by destruct (db_Put _ _ _).
Qed.
Lemma delete_app_run id rs g : g_apps (gw_core g) = Some rs -> core (pam (PortmapApp.DelPortmapApp id)) g =
  (Ret (put_apps (delete id rs) g).1, (put_apps (delete id rs) g).2).
Proof.
  intros Hrs. unfold put_apps, core, pam, zoom, PortmapApp.DelPortmapApp, bind, get, put. cbn [app_db apps]. rewrite Hrs.
  unfold savePortmapApps, bind, get, zoom, dbPut. cbn [app_db apps fmap option_fmap option_map]. by destruct (db_Put _ _ _).
Qed.

(** A listener opened for an application. *)
Definition listening (a : PortmapApp) := opened (app_Network a) (app_LocalIP a).

Lemma AddListener_new a h addr p :
  listeners p !! convertIndex (app_Network a) (app_LocalIP a) (app_LocalPort a) = None -> connEngine p = true ->
  Listen (Contains (app_Network a) "tcp") (app_LocalIP a) (app_LocalPort a) (socks p) = inl (h, addr) ->
  AddListener Listen (app_Network a) (app_LocalIP a) (app_LocalPort a) p =
    (Ret (addr_port addr, None), listening a h addr p).
Proof. apply AddListener_free. Qed.

(** Closing under the configured port what was opened under the reported one. *)
Lemma delete_listening app hd addr p : is_s64 (app_LocalPort app) -> is_s64 (addr_port addr) -> socks p !! hd = None -> connEngine p = true ->
  listeners p !! convertIndex (app_Network app) (app_LocalIP app) (app_LocalPort app) = None ->
  DeleteListener (app_Network app) (app_LocalIP app) (app_LocalPort app) (listening app hd addr p) =
    (Ret tt, if decide (addr_port addr = app_LocalPort app) then p else listening app hd addr p).
Proof.
  intros Hp1 Hp2 Hfresh Hce Hno. unfold DeleteListener, bind, get, modify, close, listening, opened. cbn [listeners socks connEngine].
  case_decide as Hp.
  - rewrite Hp, lookup_insert_eq. unfold modify. cbn [listeners socks connEngine l_sock]. rewrite !delete_insert_id by done.
    destruct p as [ls sk ce]. cbn in *. by rewrite Hce.
  - rewrite lookup_insert_ne, Hno; [done|]. intros E. apply convertIndex_port_inj in E; done.
Qed.

Lemma put_apps_keeps rs g : g_apps (gw_core (put_apps rs g).2) = Some rs /\ gw_pm (put_apps rs g).2 = gw_pm g.
Proof. unfold put_apps. by destruct (db_Put _ _ _). Qed.

Lemma get_app_run id rs g : g_apps (gw_core g) = Some rs -> core (pam (gets (GetPortmapApp id))) g = (Ret (rs !! id), g).
Proof.
  intros H. unfold core, pam, zoom, gets, GetPortmapApp. cbn [apps app_db]. rewrite H. cbn [default from_option].
  unfold Datatypes.id. rewrite <- H. by destruct g as [[]].
Qed.

(** C16. The life of a running application's listener.  Adding a running
    application that the peer authorizes and whose address is free opens its
    socket, stores the application under a fresh identifier and the peer's name,
    and answers ok (500 when the store fails: then the listener stays too).
    Deleting it later closes the socket and forgets the listener exactly when
    the port the system reports, read off the text of the listening address, is
    the one configured; otherwise (port 0, or an address whose text has more
    than one colon) the socket stays open with no application behind it. *)
Theorem app_listener_life r r2 g app req hd addr rs peerResp cn :
  os_ok Listen -> ReadAll r = inl (Body r) -> Unmarshal (Body r) (zero (A := PortmapApp)) = inl app ->
  ResourceAuthorize Decode_peer NewStream (app_PeerID app)
    (mkAreq AuthorizeTypePortmap (Some (Authorize.mkApi (app_ResID app))) None) = ((peerResp, None), cn) ->
  aresp_Err peerResp = "" -> app_Running app = true -> is_s64 (app_LocalPort app) ->
  g_apps (gw_core g) = Some rs -> connEngine (gw_pm g) = true ->
  listeners (gw_pm g) !! convertIndex (app_Network app) (app_LocalIP app) (app_LocalPort app) = None ->
  listeners (gw_pm g) !! convertIndex (app_Network app) (app_LocalIP app) (addr_port addr) = None ->
  Listen (Contains (app_Network app) "tcp") (app_LocalIP app) (app_LocalPort app) (socks (gw_pm g)) = inl (hd, addr) ->
  ReadAll r2 = inl (Body r2) -> Unmarshal (Body r2) (zero (A := idReq)) = inl req ->
  idr_ID req = mkID (rand_Uint64 (g_rand (gw_core g))) ->
  exists g' g2 e e2, let id := rand_Uint64 (g_rand (gw_core g)) in
    let a := set_app (mkID id) (aresp_NodeName peerResp) app in
    addApp r (mkHttp g (new_writer None)) =
      (Ret tt, mkHttp g' match e with Some e => answer 500 (Error e) None | None => answer 0 "ok" None end) /\
    g_apps (gw_core g') = Some (<[id := a]> rs) /\ gw_pm g' = listening a hd addr (gw_pm g) /\
    deleteApp r2 (mkHttp g' (new_writer None)) =
      (Ret tt, mkHttp g2 match e2 with Some e => answer 500 (Error e) None | None => answer 0 "ok" None end) /\
    g_apps (gw_core g2) = Some (delete id rs) /\
    (addr_port addr = app_LocalPort app -> gw_pm g2 = gw_pm g) /\
    (addr_port addr <> app_LocalPort app -> gw_pm g2 = gw_pm g').
Proof.
  intros Hos Hbody HU Hauth Herr Hrun Hport Happs Hce Hno Hno2 HL Hbody2 HU2 Hreq.
  set (id := rand_Uint64 (g_rand (gw_core g))). set (a := set_app (mkID id) (aresp_NodeName peerResp) app).
  destruct (Hos _ _ _ _ _ _ HL) as (Hfresh & _ & Hq).
  set (g1 := (core (next_rand rand_Uint64) g).2).
  assert (H1 : core (next_rand rand_Uint64) g = (Ret id, g1)) by reflexivity.
  assert (H2 : listen_app a g1 = (Ret a, set_pm (listening a hd addr (gw_pm g)) g1)).
  { unfold listen_app. change (app_Running a) with (app_Running app). rewrite Hrun.
    rewrite (bind_Ret _ _ _ _ _ (pm_Ret _ g1 _ _ (AddListener_new a hd addr (gw_pm g) Hno Hce HL))). done. }
  set (g3 := set_pm (listening a hd addr (gw_pm g)) g1).
  assert (Happs3 : g_apps (gw_core g3) = Some rs) by exact Happs.
  pose proof (update_app_run a rs g3 Happs3) as H3. change (Uint64 (app_ID a)) with id in H3.
  destruct (put_apps_keeps (<[id := a]> rs) g3) as [Happs' Hpm'].
  set (g' := (put_apps (<[id := a]> rs) g3).2) in *. set (e := (put_apps (<[id := a]> rs) g3).1) in *.
  set (p2 := if decide (addr_port addr = app_LocalPort app) then gw_pm g else gw_pm g').
  assert (H4 : pm (DeleteListener (app_Network app) (app_LocalIP app) (app_LocalPort app)) g' = (Ret tt, set_pm p2 g')).
  { apply pm_Ret. unfold p2. rewrite Hpm'. by apply (delete_listening a). }
  set (g4 := set_pm p2 g').
  assert (Happs4 : g_apps (gw_core g4) = Some (<[id := a]> rs)) by exact Happs'.
  pose proof (delete_app_run id _ g4 Happs4) as H5.
  set (g2 := (put_apps (delete id (<[id := a]> rs)) g4).2) in *. set (e2 := (put_apps (delete id (<[id := a]> rs)) g4).1) in *.
  exists g', g2, e, e2. cbv zeta. fold id a. split_and!; [|exact Happs'|exact Hpm'| | | |].
  - unfold addApp. rewrite (with_body_ok r app _ _ Hbody HU). unfold authorize_app. rewrite Hauth, Herr.
    change (negb (String.eqb "" "")) with false. cbv iota.
    rewrite (bind_Ret _ _ _ _ _ (server_Ret _ g (new_writer None) _ _ H1)).
    rewrite (bind_Ret _ _ _ _ _ (server_Ret _ g1 (new_writer None) _ _ H2)).
    rewrite (bind_Ret _ _ _ _ _ (server_Ret _ g3 (new_writer None) _ _ H3)). by destruct e.
  - unfold deleteApp. rewrite (with_body_ok r2 req _ _ Hbody2 HU2), Hreq. cbn [Uint64]. fold id.
    assert (Hget : core (pam (gets (GetPortmapApp id))) g' = (Ret (Some a), g')) by (rewrite (get_app_run id _ g' Happs'); by rewrite lookup_insert_eq).
    rewrite (bind_Ret _ _ _ _ _ (server_Ret _ g' (new_writer None) _ _ Hget)). cbn beta iota.
    change (app_Running a) with (app_Running app). rewrite Hrun.
    change (app_Network a) with (app_Network app). change (app_LocalIP a) with (app_LocalIP app). change (app_LocalPort a) with (app_LocalPort app).
    rewrite (bind_Ret _ _ _ _ _ (server_Ret _ g' (new_writer None) _ _ H4)).
    rewrite (bind_Ret _ _ _ _ _ (server_Ret _ g4 (new_writer None) _ _ H5)). by destruct e2.
  - destruct (put_apps_keeps (delete id (<[id := a]> rs)) g4) as [E _]. unfold g2. rewrite E. by rewrite delete_insert_eq.
  - intros Hp. destruct (put_apps_keeps (delete id (<[id := a]> rs)) g4) as [_ E]. unfold g2. rewrite E. cbn. unfold p2. by rewrite decide_True.
  - intros Hp. destruct (put_apps_keeps (delete id (<[id := a]> rs)) g4) as [_ E]. unfold g2. rewrite E. cbn. unfold p2. by rewrite decide_False.
Qed.

(** An update that is refused breaks the outbound.  When the other gateway
    does not authorize the new settings of an open outbound, [updateOutbound]
    answers 500 with its error and keeps the old outbound, still marked open,
    but its route is gone: no connection to its network is dialled any more. *)
Theorem refused_update_unroutes r g ob existing n x v e obs :
  gw_obs g = Some obs -> obs !! Uint64 (ob_ID ob) = Some existing -> Uint64 (ob_ID ob) <> 0 -> Uint64 (ob_ID existing) <> 0 ->
  ob_Open existing = true -> ob_routeNet existing = Some n -> ParseCIDR_err (ob_Route existing) = inl (x, n) ->
  Inv (gw_router g) -> abs (gw_router g) !! (getCidrIntRange n).1 = Some v -> max v = (getCidrIntRange n).2 ->
  ReadAll r = inl (Body r) -> Unmarshal (Body r) (zero (A := socksOutbound)) = inl ob ->
  CheckPeer (ob_Peer ob) (ob_Token ob) = inr e ->
  exists g', updateOutbound r (mkHttp g (new_writer None)) = (Ret tt, mkHttp g' (answer 500 (Error e) None)) /\
    gw_obs g' = gw_obs g /\ g_db (gw_core g') = g_db (gw_core g) /\
    forall ip, (getCidrIntRange n).1 <= ip <= (getCidrIntRange n).2 -> lookup_ip ip (gw_router g') = None.
Proof.
  intros Hobs Hex Hid Hide Hopen Hnet Hcidr HI Hv Hmax Hbody HU Hcheck.
  assert (H1 : proxyCli (mgr (GetOutbound (ob_ID ob))) g = (Ret (Some existing), g)).
  { unfold proxyCli, mgr, zoom, GetOutbound, bind, get, put, ret. cbn. rewrite Hobs. cbn. unfold Datatypes.id. rewrite Hex.
    rewrite <- Hobs. by destruct g as [[]]. }
  set (c := mkPc (mkObMgr (g_db (gw_core g)) (gw_obs g)) (gw_tun g) (gw_engine g) (gw_router g) (gw_os g)).
  destruct (DeleteOutboundRoute_run existing n c Hnet HI) as (r' & e1 & _ & HI' & Habs & HD).
  set (g' := mkGw (set_g_db (g_db (gw_core g)) (gw_core g)) (gw_pm g) (gw_obs g) (gw_tun g) (gw_engine g) r' (sys_delRoute (ob_Route existing) tunRemote (gw_os g)).2 (gw_outbound g)).
  assert (H2 : proxyCli (DeleteOutboundRoute existing) g = (Ret e1, g')).
  { unfold proxyCli, zoom. fold c. by rewrite HD. }
  assert (H3 : proxyCli (UpdateOutbound ob) g' = (Ret (Some e), g')).
  { unfold proxyCli, zoom, UpdateOutbound. rewrite Hcheck. done. }
  exists g'. split_and!; [|done|done|].
  - unfold updateOutbound. rewrite (with_body_ok r ob _ _ Hbody HU).
    destruct (Z.eqb_spec (Uint64 (ob_ID ob)) 0); [done|].
    rewrite (bind_Ret _ _ _ _ _ (server_Ret _ g (new_writer None) _ _ H1)). unfold deref.
    destruct (Z.eqb_spec (Uint64 (ob_ID existing)) 0); [done|]. rewrite Hopen, bind_assoc.
    rewrite (bind_Ret _ _ _ _ _ (server_Ret _ g (new_writer None) _ _ H2)), bind_ret.
    by rewrite (bind_Ret _ _ _ _ _ (server_Ret _ g' (new_writer None) _ _ H3)).
  - intros ip Hip. cbn [gw_router g']. exact (deleted_range_unrouted n v ip (gw_router g) r' HI HI' Hv Hmax Habs Hip).
Qed.
End Api.

(** * Concrete inputs *)

#[local] Existing Instance ex_system.

Definition ex_api_req (body id : string) : Request := mkRequest "" "" "" None id body None.
Abbreviation ex_gateway_t := (@Gateway memdb (node (routeItem PeerWithAuth)) ex_system).
Definition ex_gw : ex_gateway_t :=
  mkGw ex_core (NewPortMap ∅) None false engine_zero newProxyRouter [] ("", "", "").
Definition ex_gw_open : ex_gateway_t :=
  mkGw ex_core (NewPortMap ∅) (Some {[ 5 := ex_ob_filled ]}) true engine_zero (pc_router ex_client1) [] ("", "", "").
Definition ex_bad_res : PortmapResource := mkRes (mkID 7) "" 0 "sctp" "" 0 "" 0.
Definition ex_other_app : PortmapApp := mkApp (mkID 0) "web" "peer" (mkID 7) "tcp" "127.0.0.1" 9000 "" 80 true "" "".
(** An outbound to a peer whose answer is an error. *)
Definition ex_refused : Conn := conn_of (bytes_of_string (Marshal (mkAresp "" "no" None None))).

Lemma resource_api_witness :
  (addResource ex_rand (ex_api_req (Marshal ex_bad_res) "") (mkHttp ex_gw (new_writer None))).1 = Ret tt /\
  updateResource (ex_api_req (Marshal ex_bad_res) "") (mkHttp ex_gw (new_writer None)) =
    (Ret tt, mkHttp (set_core (alloc_res (gw_core ex_gw)) ex_gw) (answer 400 "resource name is required" None)).
Proof.
  assert (HU : Unmarshal (Marshal ex_bad_res) (zero (A := PortmapResource)) = inl ex_bad_res) by (vm_compute; reflexivity).
  destruct (resource_api ex_rand (ex_api_req (Marshal ex_bad_res) "") ex_gw ex_bad_res (mkID 4000) (mkIdReq (mkID 7)) eq_refl)
    as (H1 & _ & H3).
  destruct (H1 HU) as [_ Hup]. destruct (H3 HU eq_refl) as (g2 & _ & Hadd). split.
  - rewrite Hadd. destruct (put_res _ g2). reflexivity.
  - rewrite Hup. vm_compute. reflexivity.
Defined.

Lemma unknown_outbound_crashes_witness :
  (getOutbound (ex_api_req "" "6") (mkHttp ex_gw_open (new_writer None))).1 = Panic.
Proof.
  assert (H0 : default ∅ (gw_obs ex_gw_open) !! Uint64 (mkID 6) = None) by (vm_compute; reflexivity).
  destruct (unknown_outbound_crashes (ex_api_req "" "6") ex_gw_open (mkID 6) (mkIdReq (mkID 6)) ex_ob H0 ltac:(discriminate) eq_refl)
    as (H & _).
  apply H; [vm_compute; reflexivity|discriminate].
Defined.

Lemma app_listener_life_witness :
  exists g' g2 e e2, addApp ex_rand ex_listen (ex_api_req (Marshal ex_other_app) "") (mkHttp ex_gw (new_writer None)) =
      (Ret tt, mkHttp g' match e with Some e => answer 500 (Error e) None | None => answer 0 "ok" None end) /\
    gw_pm g' = listening (set_app (mkID 4000) "office" ex_other_app) 0 "127.0.0.1:9000" (gw_pm ex_gw) /\
    deleteApp (ex_api_req (Marshal (mkIdReq (mkID 4000))) "") (mkHttp g' (new_writer None)) =
      (Ret tt, mkHttp g2 match e2 with Some e => answer 500 (Error e) None | None => answer 0 "ok" None end) /\
    gw_pm g2 = gw_pm ex_gw.
Proof.
  assert (HU : Unmarshal (Marshal ex_other_app) (zero (A := PortmapApp)) = inl ex_other_app) by (vm_compute; reflexivity).
  assert (HU2 : Unmarshal (Marshal (mkIdReq (mkID 4000))) (zero (A := idReq)) = inl (mkIdReq (mkID 4000))) by (vm_compute; reflexivity).
  assert (HL : ex_listen (Contains (app_Network ex_other_app) "tcp") (app_LocalIP ex_other_app) (app_LocalPort ex_other_app)
                 (socks (gw_pm ex_gw)) = inl (0%nat, "127.0.0.1:9000")) by (vm_compute; reflexivity).
  assert (HA : exists cn, ResourceAuthorize Decode_peer NewStream (app_PeerID ex_other_app)
     (mkAreq AuthorizeTypePortmap (Some (Authorize.mkApi (app_ResID ex_other_app))) None) =
     ((mkAresp "office" "" None (Some (mkAxr "0.0.0.0/0" "8.8.8.8")), None), cn)) by (eexists; vm_compute; reflexivity).
  destruct HA as (cn & HA).
  destruct (app_listener_life ex_rand ex_listen (ex_api_req (Marshal ex_other_app) "")
      (ex_api_req (Marshal (mkIdReq (mkID 4000))) "") ex_gw ex_other_app (mkIdReq (mkID 4000)) 0 "127.0.0.1:9000"
      {[ 9 := ex_app ]} _ cn ex_os_ok eq_refl HU HA eq_refl eq_refl ltac:(vm_compute; split; congruence) eq_refl eq_refl
      ltac:(vm_compute; reflexivity) ltac:(vm_compute; reflexivity) HL eq_refl HU2 eq_refl)
    as (g' & g2 & e & e2 & H1 & _ & H2 & H3 & _ & H4 & _).
  exists g', g2, e, e2. split; [exact H1|]. split; [exact H2|]. split; [exact H3|].
  apply H4. vm_compute. reflexivity.
Defined.

Definition ex_refusing : System := {|
  Decode_peer := inl; NewStream _ := inl ex_refused; NewStream5 _ := inr EOF; url_Parse s := inl ("tun", "uptptun0");
  open_fd _ _ _ := None; open_tun _ _ _ := None; CreateStack _ := None; ParseLevel _ := None;
  OS := list string; sys_setTunAddr _ _ _ o := (None, o); sys_addRoute dst _ o := (None, dst :: o); sys_delRoute _ _ o := (None, o);
  LookupPort := ex_port; range_obs := map_to_list |}.
Definition ex_gw_refused : @Gateway memdb (node (routeItem PeerWithAuth)) ex_refusing :=
  @mkGw memdb _ ex_refusing ex_core (NewPortMap ∅) (Some {[ 5 := ex_ob_filled ]}) true engine_zero (pc_router ex_client1) [] ("", "", "").

Lemma refused_update_unroutes_witness :
  exists g', @updateOutbound memdb _ _ _ ex_refusing (ex_api_req (Marshal ex_ob) "") (mkHttp ex_gw_refused (new_writer None)) =
      (Ret tt, mkHttp g' (answer 500 "no" None)) /\
    gw_obs g' = gw_obs ex_gw_refused /\ lookup_ip 167772161 (gw_router g') = None /\
    lookup_ip 167772161 (gw_router ex_gw_refused) <> None.
Proof.
  assert (HU : Unmarshal (Marshal ex_ob) (zero (A := socksOutbound)) = inl ex_ob) by (vm_compute; reflexivity).
  assert (HC : ParseCIDR_err (ob_Route ex_ob_filled) = inl (v4InV6Prefix ++ [10; 0; 0; 0], ex_ob_net)) by (vm_compute; reflexivity).
  assert (HV : exists v, abs (gw_router ex_gw_refused) !! (getCidrIntRange ex_ob_net).1 = Some v /\ max v = (getCidrIntRange ex_ob_net).2)
    by (eexists; split; vm_compute; reflexivity).
  destruct HV as (v & HV1 & HV2).
  assert (HX : @CheckPeer ex_refusing (ob_Peer ex_ob) (ob_Token ex_ob) = inr (ErrText "no")) by (vm_compute; reflexivity).
  destruct (@refused_update_unroutes memdb _ _ _ _ ex_refusing (ex_api_req (Marshal ex_ob) "") ex_gw_refused ex_ob ex_ob_filled ex_ob_net _ v
     (ErrText "no") {[ 5 := ex_ob_filled ]} eq_refl ltac:(vm_compute; reflexivity) ltac:(discriminate) ltac:(discriminate)
     eq_refl eq_refl HC ex_client1_Inv HV1 HV2 eq_refl HU HX) as (g' & H1 & H2 & _ & H3).
  exists g'. split; [exact H1|]. split; [exact H2|]. split; [apply H3; vm_compute; split; congruence|vm_compute; discriminate].
Defined.
