(* ===== verification/GatewayTypes.v ===== *)
(** The types of the gateway's data under the console (src/gateway/gateway.go):
    Go's integers have a width, which the numbers of the model do not.  Whatever
    bytes a request carries, what is decoded from it and what the gateway holds
    afterwards are machine integers, the tables are keyed by the identifiers of
    their entries, and every outbound held has the network its route names. *)
From S2P Require Import Prelude GoText GoIo GoNet Json Codec TypesId Store PortmapRes PortmapApp ProxyService Portmap AppStart Http.
From S2P Require Import GwCore Authorize Avl ProxyRouter Socks5Util Socks5Client Socks5Rfc TunStack ProxyClient GatewayApi.

(** * Well-typed data *)

Definition u64_id (i : ID) : Prop := is_u64 (Uint64 i).

Record res_typed (r : PortmapResource) : Prop := mkResTyped {
  rt_id : u64_id (res_ID r);
  rt_type : is_s64 (res_Type r);
  rt_target : is_s64 (res_TargetPort r);
  rt_local : is_s64 (res_LocalPort r)
}.
Record app_typed (a : PortmapApp) : Prop := mkAppTyped {
  at_id : u64_id (app_ID a);
  at_res : u64_id (app_ResID a);
  at_local : is_s64 (app_LocalPort a);
  at_target : is_s64 (app_TargetPort a)
}.
Record ob_typed (o : socksOutbound) : Prop := mkObTyped {
  ot_id : u64_id (ob_ID o);
  ot_token : u64_id (ob_Token o)
}.
(** The network of an outbound that is held, as its route names it. *)
Definition ob_filled (o : socksOutbound) : Prop :=
  exists n x, ob_routeNet o = Some n /\ ParseCIDR_err (ob_Route o) = inl (x, n).

(** A table whose keys are the identifiers of its entries. *)
Definition keyed {A} (id : A -> ID) (P : A -> Prop) (m : gmap Z A) : Prop :=
  map_Forall (fun k a => k = Uint64 (id a) /\ P a) m.

Lemma keyed_empty {A} id (P : A -> Prop) : keyed id P ∅.
Proof. apply map_Forall_empty. Qed.
Lemma keyed_insert {A} id (P : A -> Prop) a m : P a -> keyed id P m -> keyed id P (<[Uint64 (id a) := a]> m).
Proof. intros Ha Hm. by apply map_Forall_insert_2. Qed.
Lemma keyed_delete {A} id (P : A -> Prop) k m : keyed id P m -> keyed id P (delete k m).
Proof. apply map_Forall_delete. Qed.
Lemma keyed_lookup {A} id (P : A -> Prop) k m a : keyed id P m -> m !! k = Some a -> P a.
Proof. intros Hm Hk. by apply (Hm k a). Qed.

(** * What is decoded *)

Lemma into_int j z z' : is_s64 z -> json_into (A := Z) j z = Some z' -> is_s64 z'.
Proof.
  intros Hz. destruct j; simpl; try done; [by intros [= <-]|].
  destruct (ParseInt lit) as [v [e|]] eqn:E; [done|]. intros [= <-]. by apply (ParseInt_range lit).
Qed.
Lemma Sscanf_range s v : Sscanf_d s = Some v -> is_u64 v.
Proof.
  unfold Sscanf_d. destruct (SkipSpace (runes s)) as [us|]; [|done]. destruct (accept_digits us) as [|c ds]; [done|].
  destruct (ParseUint (String c ds)) as [x [e|]] eqn:E; [done|]. intros [= <-]. by apply (ParseUint_range (String c ds)).
Qed.
Lemma into_id j i i' : json_into (A := ID) j i = Some i' -> u64_id i'.
Proof.
  simpl. unfold UnmarshalJSON. destruct j; try done.
  destruct (Sscanf_d _) as [v|] eqn:E; [|done]. intros [= <-]. by apply (Sscanf_range s).
Qed.

(** One field: the value decoded for it replaces that of a well-typed struct. *)
Ltac field_type :=
  let Hj := fresh in intros ? ? ? [] Hj; cbn [jfield finto] in Hj;
  match type of Hj with context [json_into ?j ?v] => destruct (json_into j v) eqn:? end; [|done];
  injection Hj as <-; split; cbn; first [done | by eapply into_id | eapply into_int; [|eassumption]; assumption].
Ltac field_types := match goal with |- Forall _ ?fs => unfold fs end;
  repeat apply Forall_cons_2; [..|apply Forall_nil_2]; field_type.

Lemma decoded_res text r : Unmarshal text (zero (A := PortmapResource)) = inl r -> res_typed r.
Proof.
  unfold Unmarshal. destruct (Parse text) as [j|]; [|done]. destruct (json_into j zero) as [x|] eqn:E; [|done]. intros [= <-].
  apply (struct_into_inv res_typed res_fields j res_zero x); [field_types|by split|exact E].
Qed.
Lemma decoded_app text a : Unmarshal text (zero (A := PortmapApp)) = inl a -> app_typed a.
Proof.
  unfold Unmarshal. destruct (Parse text) as [j|]; [|done]. destruct (json_into j zero) as [x|] eqn:E; [|done]. intros [= <-].
  apply (struct_into_inv app_typed app_fields j app_zero x); [field_types|by split|exact E].
Qed.
Lemma decoded_ob text o : Unmarshal text (zero (A := socksOutbound)) = inl o -> ob_typed o.
Proof.
  unfold Unmarshal. destruct (Parse text) as [j|]; [|done]. destruct (json_into j zero) as [x|] eqn:E; [|done]. intros [= <-].
  apply (struct_into_inv ob_typed ob_fields j ob_zero x); [field_types|by split|exact E].
Qed.
Lemma decoded_idr text q : Unmarshal text (zero (A := idReq)) = inl q -> u64_id (idr_ID q).
Proof.
  unfold Unmarshal. destruct (Parse text) as [j|]; [|done]. destruct (json_into j zero) as [x|] eqn:E; [|done]. intros [= <-].
  apply (struct_into_inv (fun q => u64_id (idr_ID q)) idr_fields j idr_zero x); [|done|exact E].
  unfold idr_fields. repeat apply Forall_cons_2; [..|apply Forall_nil_2]. cbn [jfield finto]. intros j' a b Ha Hj.
  destruct (json_into j' (idr_ID a)) as [i|] eqn:Ei; [|done]. injection Hj as <-. by apply (into_id j' (idr_ID a)).
Qed.

(** * What the operations keep *)

Section Types.
Context {DB : Type} {Db : LevelDB DB} {Dbl : LevelDBLaws DB}.
Context {T : Type} {Tree : AvlTree (routeItem PeerWithAuth) T} {TreeLaws : AvlLaws (routeItem PeerWithAuth) T}.
Context {Lib : Socks5Lib} {Sys : System}.
Context (rand_Uint64 : nat -> Z) (Hostname : string + error).
Context (Listen : bool -> string -> Z -> sockets -> (nat * string) + error).
Context (range_res : gmap Z PortmapResource -> list (Z * PortmapResource))
        (range_apps : gmap Z PortmapApp -> list (Z * PortmapApp)).
Context (host_ID : string) (listen_port : Z).
(** [rand.Uint64] returns an uint64. *)
Context (rand_u64 : forall n, is_u64 (rand_Uint64 n)).

Abbreviation res_table m := (keyed res_ID res_typed (default ∅ m)).
Abbreviation app_table m := (keyed app_ID app_typed (default ∅ m)).
Abbreviation ob_table m := (keyed ob_ID (fun o => ob_typed o /\ ob_filled o) (default ∅ m)).

Record gw_typed (g : @Gateway DB T Sys) : Prop := mkGwTyped {
  gt_res : res_table (g_resources (gw_core g));
  gt_apps : app_table (g_apps (gw_core g));
  gt_obs : ob_table (gw_obs g)
}.
Definition srv_typed (h : Http (@Gateway DB T Sys)) : Prop := gw_typed (srv h).

Lemma zero_res_typed : res_typed res_zero.
Proof. by split. Qed.

(** ** Resources *)

Definition res_mgr_typed (m : @PortmapResMgr DB) : Prop := res_table (resources m).

Lemma savePortmap_safe : safe res_mgr_typed savePortmap any.
Proof.
  intros [d [rs|]] H; [|done]. split; [|done]. unfold savePortmap, dbPut, bind, get, zoom. cbn [resources PortmapRes.db].
  by destruct (db_Put _ _ _).
Qed.
Lemma set_resources_safe rs : keyed res_ID res_typed rs -> safe res_mgr_typed (set_resources rs) any.
Proof. intros Hrs. by apply safe_modify. Qed.
Lemma put_res_safe r : res_typed r -> safe res_mgr_typed (AddPortmapRes r) any.
Proof.
  intros Hr. apply safe_get. intros m Hm. apply (safe_bind _ _ _ any); [|intros; apply savePortmap_safe]. by apply set_resources_safe, keyed_insert.
Qed.
Lemma del_res_safe id : safe res_mgr_typed (PortmapRes.DelPortmapApp id) any.
Proof.
  apply safe_get. intros m Hm. destruct (resources m) as [rs|] eqn:E; [|by apply safe_ret].
  apply (safe_bind _ _ _ any); [|intros; apply savePortmap_safe]. apply set_resources_safe, keyed_delete.
  unfold res_mgr_typed in Hm. by rewrite E in Hm.
Qed.
Lemma get_res_safe id : safe res_mgr_typed (GetAppByID id) res_typed.
Proof.
  intros m Hm. unfold GetAppByID, bind, get, set_resources, modify, ret. split; [exact Hm|]. intros r [= <-].
  destruct (default ∅ (resources m) !! Uint64 id) as [r|] eqn:E; [|apply zero_res_typed]. by apply (keyed_lookup _ _ _ _ _ Hm E).
Qed.

(** ** Applications *)

Definition app_mgr_typed (m : @PortmapAppMgr DB) : Prop := app_table (apps m).

Lemma savePortmapApps_safe : safe app_mgr_typed savePortmapApps any.
Proof.
  intros [d [rs|]] H; (split; [|done]); unfold savePortmapApps, dbPut, dbDelete, bind, get, zoom; cbn [apps app_db];
    [by destruct (db_Put _ _ _)|by destruct (db_Delete _ _)].
Qed.
Lemma put_app_safe a : app_typed a -> safe app_mgr_typed (UpdatePortmapApp a) any.
Proof.
  intros Ha. apply safe_get. intros m Hm. destruct (apps m) as [rs|] eqn:E; [|apply safe_panic].
  apply (safe_bind _ _ _ any); [|intros; apply savePortmapApps_safe].
  intros s _. split; [|done]. unfold put, app_mgr_typed. cbn. apply keyed_insert; [done|]. unfold app_mgr_typed in Hm. by rewrite E in Hm.
Qed.
Lemma del_app_safe id : safe app_mgr_typed (PortmapApp.DelPortmapApp id) any.
Proof.
  apply safe_get. intros m Hm. apply (safe_bind _ _ _ any); [|intros; apply savePortmapApps_safe].
  intros s _. split; [|done]. unfold put, app_mgr_typed in *. cbn. destruct (apps m); [by apply keyed_delete|done].
Qed.
Lemma get_app_safe id : safe app_mgr_typed (gets (GetPortmapApp id)) (fun o => forall a, o = Some a -> app_typed a).
Proof. intros m Hm. split; [done|]. intros o [= <-] a Ha. by apply (keyed_lookup _ _ _ _ _ Hm Ha). Qed.

(** ** Outbounds *)

Definition ob_mgr_typed (m : @socks5ProxyManager DB) : Prop := ob_table (outbounds m).
Definition cli_typed (c : @proxyClient DB T Sys) : Prop := ob_mgr_typed (pc_mgr c).

Lemma filled_ok ob ob' : ob_typed ob -> socks5OutboundFillRunningInfo Decode_peer ob = (None, ob') ->
  ob_typed ob' /\ ob_filled ob' /\ ob_ID ob' = ob_ID ob.
Proof.
  intros [H1 H2] Hf. destruct (fill_inv _ _ Hf) as (pid & n & x & _ & Hc & ->).
  split; [by split|]. split; [|done]. by exists n, x.
Qed.

Lemma mgr_put_safe ob : ob_typed ob -> safe ob_mgr_typed (mgr_put Decode_peer ob) (fun r => r.1 = None -> ob_typed r.2 /\ ob_filled r.2).
Proof.
  intros Ho m Hm. unfold mgr_put. destruct (socks5OutboundFillRunningInfo Decode_peer ob) as [[e|] ob'] eqn:Ef.
  { split; [done|]. by intros r [= <-]. }
  destruct (filled_ok _ _ Ho Ef) as (Ht & Hfl & _). unfold saveOutbounds, dbPut, bind, get, put, ret, zoom. cbn [outbounds ob_db].
  destruct (db_Put _ _ _) as [e d]. split; [by apply keyed_insert|]. by intros r [= <-].
Qed.
Lemma mgr_del_safe id : safe ob_mgr_typed (mgr_DeleteOutbound id) any.
Proof.
  intros [d [rs|]] Hm; [|done]. unfold mgr_DeleteOutbound, bind at 1, get. cbn [outbounds]. destruct (rs !! Uint64 id) as [ob|]; [|done].
  unfold saveOutbounds, dbPut, bind, get, put, ret, zoom. cbn [outbounds ob_db]. destruct (db_Put _ _ _) as [e d'].
  split; [by apply keyed_delete|done].
Qed.
Lemma get_ob_safe id : safe ob_mgr_typed (GetOutbound id) (fun o => forall ob, o = Some ob -> ob_typed ob /\ ob_filled ob).
Proof.
  intros m Hm. unfold GetOutbound, bind, get, put, ret. split; [exact Hm|]. intros o [= <-] ob Hob.
  by apply (keyed_lookup _ _ _ _ _ Hm Hob).
Qed.

(** ** The proxy client *)

Lemma engine_safe {A} (m : GoM Engine A) : safe cli_typed (ProxyClient.engine m) any.
Proof. by apply (safe_zoom _ any). Qed.
Lemma router_safe {A} (m : GoM proxyRouter A) : safe cli_typed (ProxyClient.router m) any.
Proof. by apply (safe_zoom _ any). Qed.
Lemma on_os_safe {A} (f : OS -> A * OS) : safe cli_typed (on_os f) any.
Proof. intros c Hc. unfold on_os. destruct (f (ProxyClient.os c)). done. Qed.
Lemma tun_flag_safe b : safe cli_typed (set_tunStackRunning b) any.
Proof. done. Qed.
Lemma mgr_safe {A} (m : GoM socks5ProxyManager A) Q : safe ob_mgr_typed m Q -> safe cli_typed (mgr m) Q.
Proof. by apply safe_zoom. Qed.

Ltac client_leaf := idtac; lazymatch goal with
  | |- safe _ (ProxyClient.engine _) _ => apply engine_safe
  | |- safe _ (ProxyClient.router _) _ => apply router_safe
  | |- safe _ (on_os _) _ => apply on_os_safe
  | |- safe _ (set_tunStackRunning _) _ => apply tun_flag_safe
  end.

Lemma startTunStack_safe : safe cli_typed startTunStack any.
Proof. unfold startTunStack. safe_with client_leaf. Qed.
Lemma addOutboundRoute_safe ob d : safe cli_typed (addOutboundRoute ob d) any.
Proof. unfold addOutboundRoute. safe_with client_leaf. Qed.
Lemma DeleteOutboundRoute_safe ob : safe cli_typed (DeleteOutboundRoute ob) any.
Proof. unfold DeleteOutboundRoute. safe_with client_leaf. Qed.
Lemma open_route_safe ob : safe cli_typed (open_route ob) any.
Proof.
  unfold open_route. safe_with ltac:(first [apply startTunStack_safe | apply addOutboundRoute_safe]).
Qed.

Lemma mgr_put_any ob : ob_typed ob -> safe cli_typed (mgr (mgr_put Decode_peer ob)) any.
Proof. intros Ho. apply mgr_safe. eapply safe_weaken; [by apply mgr_put_safe|done]. Qed.

Lemma AddOutbound_safe ob : ob_typed ob -> safe cli_typed (AddOutbound ob) any.
Proof.
  intros [H1 H2]. unfold AddOutbound. safe_with ltac:(first [apply open_route_safe | apply mgr_put_any; by split]).
Qed.
Lemma UpdateOutbound_safe ob : ob_typed ob -> safe cli_typed (UpdateOutbound ob) any.
Proof.
  intros [H1 H2]. unfold UpdateOutbound. safe_with ltac:(first [apply open_route_safe | apply mgr_put_any; by split]).
Qed.
Lemma DeleteOutbound_safe id : safe cli_typed (DeleteOutbound id) any.
Proof.
  unfold DeleteOutbound. safe_with ltac:(first [apply router_safe | apply mgr_safe, mgr_del_safe]).
Qed.

(** ** The gateway *)

Lemma core_safe {A} (m : GoM (@Core DB) A) Q :
  safe (fun c => res_table (g_resources c) /\ app_table (g_apps c)) m Q -> safe gw_typed (core m) Q.
Proof.
  apply safe_zoom.
  - by intros g [H1 H2 H3].
  - intros g c [H1 H2 H3] [H4 H5]. by split.
Qed.
Lemma prm_safe {A} (m : GoM (@PortmapResMgr DB) A) Q : safe res_mgr_typed m Q -> safe gw_typed (core (prm m)) Q.
Proof. intros H. apply core_safe. eapply safe_zoom; [..|exact H]; [by intros c [H1 _]|by intros c r [_ H2]]. Qed.
Lemma pam_safe {A} (m : GoM (@PortmapAppMgr DB) A) Q : safe app_mgr_typed m Q -> safe gw_typed (core (pam m)) Q.
Proof. intros H. apply core_safe. eapply safe_zoom; [..|exact H]; [by intros c [_ H2]|by intros c r [H1 _]]. Qed.
Lemma cli_safe {A} (m : GoM (@proxyClient DB T Sys) A) Q : safe cli_typed m Q -> safe gw_typed (proxyCli m) Q.
Proof.
  apply safe_zoom.
  - by intros g [H1 H2 H3].
  - intros g c [H1 H2 H3] H4. by split.
Qed.
Lemma pm_safe {A} (m : GoM Portmap A) : safe gw_typed (pm m) any.
Proof. apply (safe_zoom _ any); [done| |done]. by intros g c [H1 H2 H3]. Qed.
Lemma outbound_safe a u w : safe gw_typed (SetOutboundProxy a u w) any.
Proof. apply safe_modify. by intros g [H1 H2 H3]. Qed.
Lemma next_rand_safe : safe gw_typed (core (next_rand rand_Uint64)) is_u64.
Proof. apply core_safe. intros c Hc. split; [exact Hc|]. by intros z [= <-]. Qed.
Lemma proxySvc_safe {A} (m : GoM (@proxyService DB) A) : safe gw_typed (core (proxySvc m)) any.
Proof.
  apply core_safe. intros c Hc. unfold proxySvc. destruct (g_proxySvc c); [|done]. unfold zoom.
  by destruct (m _).
Qed.
Lemma dbPut_safe k v : safe gw_typed (core (dbPut_g k v)) any.
Proof. apply core_safe. apply (safe_zoom _ any); [done| |done]. by intros c d Hc _. Qed.
Lemma getToken_safe : safe gw_typed (core (getToken rand_Uint64)) any.
Proof.
  apply core_safe. unfold getToken. apply safe_get. intros c Hc. destruct (db_Get dbKeyToken (g_db c)) as [v|[]]; try by apply safe_ret.
  apply (safe_bind _ _ _ any); [done|]. intros t _. apply (safe_bind _ _ _ any); [|intros [e|] _; by apply safe_ret].
  apply (safe_zoom _ any); [done| |done]. by intros c' d Hc' _.
Qed.
Lemma getName_safe : safe gw_typed (core (getGatewayName Hostname)) any.
Proof.
  apply core_safe. unfold getGatewayName. apply safe_get. intros c Hc. repeat case_match; by apply safe_ret.
Qed.

(** ** The handlers *)

Lemma server_safe {A} (m : GoM (@Gateway DB T Sys) A) Q : safe gw_typed m Q -> safe srv_typed (server m) Q.
Proof. by apply safe_zoom. Qed.
Lemma respond_safe f : safe srv_typed (respond f) any.
Proof. done. Qed.
Lemma with_body_safe {A} `{JsonCodec A} r (k : A -> GoM (Http (@Gateway DB T Sys)) unit) :
  (forall text a, Unmarshal text zero = inl a -> safe srv_typed (k a) any) -> safe srv_typed (with_body r k) any.
Proof.
  intros Hk. unfold with_body. destruct (ReadAll r) as [body|e]; [|apply respond_safe].
  destruct (Unmarshal body zero) as [a|e] eqn:E; [by apply (Hk body)|apply respond_safe].
Qed.

Ltac handler_leaf := idtac; lazymatch goal with
  | |- safe _ (respond _) _ => apply respond_safe
  | |- safe _ (SendAPIRespWithOk _) _ => apply respond_safe
  | |- safe _ (fail _ _) _ => apply respond_safe
  | |- safe _ ok_msg _ => apply respond_safe
  | |- safe _ (ok_data _) _ => apply respond_safe
  | |- safe _ (finish _) _ => unfold finish
  | |- safe _ (server (pm _)) _ => apply server_safe, pm_safe
  | |- safe _ (server (SetOutboundProxy _ _ _)) _ => apply server_safe, outbound_safe
  | |- safe _ (server (core (proxySvc _))) _ => apply server_safe, proxySvc_safe
  | |- safe _ (server (core (setGatewayName _))) _ => apply server_safe, dbPut_safe
  | |- safe _ (server (core (setToken _))) _ => apply server_safe, dbPut_safe
  | |- safe _ (server (core (getToken _))) _ => apply server_safe, getToken_safe
  | |- safe _ (server (core (getGatewayName _))) _ => apply server_safe, getName_safe
  | |- safe _ (server (core (next_rand _))) _ => eapply safe_weaken; [apply server_safe, next_rand_safe|done]
  | |- safe _ (server (core (prm (PortmapRes.DelPortmapApp _)))) _ => apply server_safe, prm_safe, del_res_safe
  | |- safe _ (server (core (prm (GetAppByID _)))) _ => eapply safe_weaken; [apply server_safe, prm_safe, get_res_safe|done]
  | |- safe _ (server (core (prm (GetResources _)))) _ => by apply server_safe, prm_safe
  | |- safe _ (server (core (pam (PortmapApp.DelPortmapApp _)))) _ => apply server_safe, pam_safe, del_app_safe
  | |- safe _ (server (core (pam (gets _)))) _ => by apply server_safe, pam_safe
  | |- safe _ (server (proxyCli (DeleteOutboundRoute _))) _ => apply server_safe, cli_safe, DeleteOutboundRoute_safe
  | |- safe _ (server (proxyCli (DeleteOutbound _))) _ => apply server_safe, cli_safe, DeleteOutbound_safe
  | |- safe _ (server (proxyCli (mgr (GetOutbound _)))) _ =>
      eapply safe_weaken; [apply server_safe, cli_safe, mgr_safe, get_ob_safe|done]
  | |- safe _ (server (proxyCli (mgr (ListOutbounds _)))) _ => by apply server_safe, cli_safe, mgr_safe
  | |- safe _ (with_proxySvc _) _ => unfold with_proxySvc
  | |- safe _ (with_id _ _) _ => unfold with_id
  | |- safe _ (deref _ _) _ => unfold deref
  | |- safe _ (server get) _ => by apply server_safe
  end.
Ltac handler := safe_with handler_leaf.

Lemma addResource_safe r : safe srv_typed (addResource rand_Uint64 r) any.
Proof.
  unfold addResource. apply with_body_safe. intros text pa [H1 H2 H3 H4]%decoded_res.
  apply (safe_bind _ _ _ is_u64); [apply server_safe, next_rand_safe|]. intros id Hid.
  apply (safe_bind _ _ _ any); [|intros ? _; handler]. apply server_safe, prm_safe, put_res_safe. by split.
Qed.
Lemma updateResource_safe r : safe srv_typed (updateResource r) any.
Proof.
  unfold updateResource. apply with_body_safe. intros text pa Hpa%decoded_res.
  safe_with ltac:(first [handler_leaf | by apply server_safe, prm_safe, put_res_safe]).
Qed.
Lemma deleteResource_safe r : safe srv_typed (deleteResource r) any.
Proof. unfold deleteResource. apply with_body_safe. intros text q _. handler. Qed.

Lemma set_stopped_typed e a : app_typed a -> app_typed (set_stopped e a).
Proof. intros []. by split. Qed.
Lemma listen_app_safe a : app_typed a -> safe gw_typed (listen_app Listen a) app_typed.
Proof.
  intros Ha. unfold listen_app. destruct (app_Running a); [|by apply safe_ret].
  apply (safe_bind _ _ _ any); [apply pm_safe|]. intros [q [e|]] _; apply safe_ret; [by apply set_stopped_typed|done].
Qed.
(** The end of adding and updating an application. *)
Lemma store_app_safe a : app_typed a ->
  safe srv_typed (app <- server (listen_app Listen a) ;; err <- server (core (pam (UpdatePortmapApp app))) ;; finish err) any.
Proof.
  intros Ha. apply (safe_bind _ _ _ app_typed); [by apply server_safe, listen_app_safe|]. intros b Hb.
  apply (safe_bind _ _ _ any); [by apply server_safe, pam_safe, put_app_safe|]. intros e _. handler.
Qed.
Lemma authorize_safe a (k : string -> GoM (Http (@Gateway DB T Sys)) unit) :
  (forall n, safe srv_typed (k n) any) -> safe srv_typed (authorize_app a k) any.
Proof. intros Hk. unfold authorize_app. safe_with ltac:(first [apply Hk | handler_leaf]). Qed.

Lemma addApp_safe r : safe srv_typed (addApp rand_Uint64 Listen r) any.
Proof.
  unfold addApp. apply with_body_safe. intros text a [H1 H2 H3 H4]%decoded_app. apply authorize_safe. intros n.
  apply (safe_bind _ _ _ is_u64); [apply server_safe, next_rand_safe|]. intros id Hid. apply store_app_safe. by split.
Qed.
Lemma updateApp_safe r : safe srv_typed (updateApp Listen r) any.
Proof.
  unfold updateApp. apply with_body_safe. intros text a [H1 H2 H3 H4]%decoded_app.
  destruct (Uint64 (app_ID a) =? 0); [handler|].
  apply (safe_bind _ _ _ any); [by apply server_safe, pam_safe|]. intros [old|] _; [|handler].
  assert (Hcont : forall n, safe srv_typed
    ((if app_Running old then server (pm (DeleteListener (app_Network old) (app_LocalIP old) (app_LocalPort old))) else ret tt) ;;;
     app <- server (listen_app Listen (set_app (app_ID a) n a)) ;;
     err <- server (core (pam (UpdatePortmapApp app))) ;; finish err) any).
  { intros n. apply (safe_bind _ _ _ any); [handler|]. intros _ _. apply store_app_safe. by split. }
  destruct (negb _ || negb _); [by apply authorize_safe|apply Hcont].
Qed.
Lemma deleteApp_safe r : safe srv_typed (deleteApp r) any.
Proof. unfold deleteApp. apply with_body_safe. intros text q _. handler. Qed.

Lemma addOutbound_safe r : safe srv_typed (addOutbound rand_Uint64 r) any.
Proof.
  unfold addOutbound. apply with_body_safe. intros text ob [H1 H2]%decoded_ob.
  apply (safe_bind _ _ _ is_u64); [apply server_safe, next_rand_safe|]. intros id Hid.
  apply (safe_bind _ _ _ any); [|intros ? _; handler]. apply server_safe, cli_safe, AddOutbound_safe. by split.
Qed.
Lemma updateOutbound_safe r : safe srv_typed (updateOutbound r) any.
Proof.
  unfold updateOutbound. apply with_body_safe. intros text ob Hob%decoded_ob.
  safe_with ltac:(first [handler_leaf | by apply server_safe, cli_safe, UpdateOutbound_safe]).
Qed.
Lemma deleteOutbound_safe r : safe srv_typed (deleteOutbound r) any.
Proof. unfold deleteOutbound. apply with_body_safe. intros text q _. handler. Qed.

(** Every handler of the console's data; the session's own and the upgrade's
    are not among them. *)
Definition handlers : list (Handler (@Gateway DB T Sys)) :=
  [ getProxyConfig; updateProxyConfig;
    addApp rand_Uint64 Listen; updateApp Listen; deleteApp; listApps range_apps; getApp;
    addResource rand_Uint64; updateResource; deleteResource; listResources range_res; getResource;
    getGatewayInfo rand_Uint64 Hostname host_ID listen_port; updateGatewayName;
    addOutbound rand_Uint64; updateOutbound; deleteOutbound; listOutbounds; getOutbound ].

Lemma handlers_safe h r : h ∈ handlers -> safe srv_typed (h r) any.
Proof.
  unfold handlers. rewrite !elem_of_cons, elem_of_nil. intros Hh.
  repeat (destruct Hh as [->|Hh]); [..|done].
  - unfold getProxyConfig. handler.
  - unfold updateProxyConfig, with_proxySvc. apply (safe_bind _ _ _ any); [by apply server_safe|]. intros g _.
    destruct (g_proxySvc (gw_core g)); [|handler]. apply with_body_safe. intros text c _. handler.
  - apply addApp_safe.
  - apply updateApp_safe.
  - apply deleteApp_safe.
  - unfold listApps. handler.
  - unfold getApp. handler.
  - apply addResource_safe.
  - apply updateResource_safe.
  - apply deleteResource_safe.
  - unfold listResources. handler.
  - unfold getResource. handler.
  - unfold getGatewayInfo. handler.
  - unfold updateGatewayName. apply with_body_safe. intros text n _. handler.
  - apply addOutbound_safe.
  - apply updateOutbound_safe.
  - apply deleteOutbound_safe.
  - unfold listOutbounds. handler.
  - unfold getOutbound. handler.
Qed.

(** Requests one after the other; a handler that panics loses its connection
    only. *)
Definition serve (g : @Gateway DB T Sys) (rs : list (Handler (@Gateway DB T Sys) * Http.Request)) : @Gateway DB T Sys :=
  foldl (fun g hr => srv (hr.1 hr.2 (mkHttp g (new_writer None))).2) g rs.

(** C27. The console keeps the types of the gateway's data.  Through every
    sequence of requests with whatever bytes, the panics of handlers included,
    the ports and kinds held stay within 64-bit integers and the identifiers
    and tokens within unsigned ones, every resource, application and outbound
    is held under its own identifier, and every outbound held has the network
    that its route names, which starting, updating and deleting it dereference. *)
Theorem api_types g rs : gw_typed g -> Forall (fun hr => hr.1 ∈ handlers) rs ->
  let g' := serve g rs in
  gw_typed g' /\
  (forall ob k, default ∅ (gw_obs g') !! k = Some ob -> k = Uint64 (ob_ID ob) /\ is_Some (ob_routeNet ob)) /\
  (forall a k, default ∅ (g_apps (gw_core g')) !! k = Some a -> k = Uint64 (app_ID a) /\ is_s64 (app_LocalPort a) /\ is_s64 (app_TargetPort a)) /\
  (forall x k, default ∅ (g_resources (gw_core g')) !! k = Some x -> k = Uint64 (res_ID x) /\ is_s64 (res_TargetPort x) /\ is_u64 k).
Proof.
  intros Hg Hrs. assert (H : gw_typed (serve g rs)).
  { revert g Hg. induction Hrs as [|[h r] rs Hh _ IH]; intros g Hg; [done|]. apply IH.
    exact (proj1 (handlers_safe h r Hh (mkHttp g (new_writer None)) Hg)). }
  cbv zeta. destruct H as [H1 H2 H3]. split; [by split|]. split_and!.
  - intros ob k Hk. destruct (H3 k ob Hk) as (-> & _ & n & x & Hn & _). by eauto.
  - intros a k Hk. destruct (H2 k a Hk) as (-> & []). done.
  - intros x k Hk. destruct (H1 k x Hk) as (-> & []). done.
Qed.
End Types.

(** * Concrete inputs *)

#[local] Existing Instance ex_system.

Lemma ex_gw_typed : gw_typed ex_gw_open.
Proof.
  assert (Hcidr : exists x, ParseCIDR_err "10.0.0.0/8" = inl (x, ex_ob_net)) by (eexists; vm_compute; reflexivity).
  assert (Hone : forall A (id : A -> ID) (P : A -> Prop) k a, k = Uint64 (id a) -> P a -> keyed id P {[ k := a ]}).
  { intros A id P k a -> Ha i b Hb. apply lookup_singleton_Some in Hb as [<- <-]. done. }
  split; apply Hone; try reflexivity.
  - split; vm_compute; (split; congruence).
  - split; vm_compute; (split; congruence).
  - split; [split; vm_compute; (split; congruence)|]. destruct Hcidr as [x Hx]. by exists ex_ob_net, x.
Qed.

Lemma ex_rand_u64 n : is_u64 (ex_rand n).
Proof. unfold ex_rand, is_u64. pose proof (Z.mod_pos_bound (Z.of_nat n) 1000). lia. Qed.

Lemma api_types_witness :
  let rs := [(addResource ex_rand, ex_api_req (Marshal ex_bad_res) ""); (deleteOutbound, ex_api_req (Marshal (mkIdReq (mkID 6))) "")] in
  gw_typed (serve ex_gw_open rs).
Proof.
  intros rs. apply (api_types ex_rand (inl "host") ex_listen map_to_list map_to_list "peer" 2025 ex_rand_u64 ex_gw_open rs ex_gw_typed).
  unfold rs, handlers. constructor; [|constructor; [|constructor]]; rewrite !elem_of_cons; tauto.
Defined.
