(* ===== verification/Upgrade.v ===== *)
(** src/upgrade/api.go, src/gateway/upgrade.go and [transferHTTP] of
    src/gateway/gateway.go: how a gateway replaces its own executable by the
    latest version, over files whose every call may fail and an HTTP client over
    libp2p.  The theorems: the running executable is never lost, which answer
    goes with which state of the files, and that a foreign response is passed on
    as it is. *)
From S2P Require Import Prelude GoText Json Codec Http Version GoOs.

Record LatestInfo := mkLatest {
  li_Program : string;
  li_Version : string;
  li_DownloadServer : string;
  li_DownloadPath : string;
  li_Checksum : string
}.

#[export] Instance LatestInfo_eq_dec : EqDecision LatestInfo.
Proof. solve_decision. Defined.

Definition li_zero : LatestInfo := mkLatest "" "" "" "" "".

Definition li_fields : list (field LatestInfo) :=
  [ jfield "program" li_Program
      (fun v r => mkLatest v (li_Version r) (li_DownloadServer r) (li_DownloadPath r) (li_Checksum r));
    jfield "version" li_Version
      (fun v r => mkLatest (li_Program r) v (li_DownloadServer r) (li_DownloadPath r) (li_Checksum r));
    jfield "download_Server" li_DownloadServer
      (fun v r => mkLatest (li_Program r) (li_Version r) v (li_DownloadPath r) (li_Checksum r));
    jfield "download_path" li_DownloadPath
      (fun v r => mkLatest (li_Program r) (li_Version r) (li_DownloadServer r) v (li_Checksum r));
    jfield "checksum" li_Checksum
      (fun v r => mkLatest (li_Program r) (li_Version r) (li_DownloadServer r) (li_DownloadPath r) v) ].

Definition li_fits (r : LatestInfo) : Prop :=
  json_fits (li_Program r) /\
  json_fits (li_Version r) /\
  json_fits (li_DownloadServer r) /\
  json_fits (li_DownloadPath r) /\
  json_fits (li_Checksum r).

#[export] Instance li_codec : JsonCodec LatestInfo := {
  json_of := struct_json li_fields;
  json_into := struct_into li_fields;
  zero := li_zero;
  json_fits := li_fits;
  json_norm := id;
  json_depth := 1
}.
#[export] Instance li_laws : CodecLaws LatestInfo.
Proof. struct_laws. Qed.

(** The client's view of a response (net/http): its headers with their values
    in order; the body ends with [rs_err], nil at its end. *)
Record HttpResponse := mkResponse {
  StatusCode : Z;
  Status : string;
  rs_Header : list (string * list string);
  rs_Body : string;
  rs_err : option error
}.

(** [ParseHttpResponse] on a response: a body that breaks off is decoded when
    the value it carries was complete. *)
Definition ParseResponse {A} `{JsonCodec A} (resp : HttpResponse) (v : A) : A * option error :=
  match rs_err resp with
  | None => ParseHttpResponse (StatusCode resp) (Status resp) (rs_Body resp) v
  | Some e =>
      if negb (StatusCode resp =? StatusOK) then (v, Some (ErrText (Status resp)))
      else
        match ParseFirst (rs_Body resp) with
        | Some (JObj _) | Some (JArr _) => ParseHttpResponse (StatusCode resp) (Status resp) (rs_Body resp) v
        | _ => (v, Some e)
        end
  end.

Definition UpgradeServer : string := "12D3KooWCobLm1afjdE3aqTvHjPNdFyHT54Zgjkpmrg8ABV3FzWh".

Section Upgrade.
(** [Get] of the client over libp2p, the platform the program was built for,
    the executable's path, the directory of temporary files, and the random
    part of the name [os.CreateTemp] takes. *)
Context (HttpGet : string -> HttpResponse + error) (GOOS GOARCH : string)
        (Executable : string + errno) (TempDir random : string).

Definition temp_name : string := TempDir +:+ "/uptp-gateway" +:+ random +:+ ".tmp".

Definition QueryLatestVersion (program : string) : LatestInfo * option error :=
  match HttpGet ("libp2p://" +:+ UpgradeServer +:+ "/version/" +:+ program +:+ "?sys_type=" +:+ GOOS +:+ "-" +:+ GOARCH) with
  | inr e => (zero, Some e)
  | inl resp => ParseResponse resp zero
  end.

Definition DownloadGatewayAgentApk : HttpResponse + error :=
  HttpGet ("libp2p://" +:+ UpgradeServer +:+ "/gateway-agent.apk").

Definition DownloadLatestGateway (downloadServer downloadPath : string) : HttpResponse + error :=
  HttpGet ("libp2p://" +:+ downloadServer +:+ "/" +:+ downloadPath).

(** [rsp.Code = 500; rsp.Message = m; SendAPIRespWithOk(w, rsp)] *)
Definition fail500 {S} (m : string) : GoM (Http S) unit := SendAPIRespWithOk (mkApi 500 m None).

(** The last part: the executable is moved away and the downloaded file copied
    in its place.  The deferred calls close the files. *)
Definition replace (binPath downloaded : string) : GoM (Http FS) unit :=
  df <- server (Open downloaded) ;;
  match df with
  | inr _ => fail500 "open downloaded executable failed"
  | inl df =>
      tf <- server (Create binPath) ;;
      match tf with
      | inr _ => fail500 "open target executable failed" ;;; server (Close df)
      | inl tf =>
          err <- server (Copy_file tf df) ;;
          match err with
          | Some _ => fail500 "copy file failed"
          | None =>
              err <- server (Chmod binPath 509) ;;
              match err with
              | Some _ => ret tt
              | None => SendAPIRespWithOk (mkApi 0 "upgrade gateway success, please restart" None)
              end
          end ;;;
          server (Close tf) ;;; server (Close df)
      end
  end.

(** The running executable is moved aside and the downloaded one put in its
    place. *)
Definition swap (binPath temp : string) : GoM (Http FS) unit :=
  err <- server (Rename binPath (binPath +:+ ".bak")) ;;
  match err with
  | Some _ => fail500 "rename executable failed"
  | None => replace binPath temp
  end.

Definition install (resp : HttpResponse) : GoM (Http FS) unit :=
  downloadFile <- server (CreateTemp temp_name) ;;
  match downloadFile with
  | inr _ => fail500 "create team file failed"
  | inl downloadFile =>
      err <- server (Copy downloadFile (rs_Body resp) (rs_err resp)) ;;
      match err with
      | Some _ => fail500 "download latest version failed" ;;; server (Close downloadFile)
      | None =>
          server (Close downloadFile) ;;;
          match Executable with
          | inr _ => fail500 "get executable path failed"
          | inl binPath => swap binPath (f_path downloadFile)
          end
      end
  end.

Definition upgradeMyself : Handler FS := fun r =>
  match QueryLatestVersion "gateway" with
  | (_, Some _) => fail500 "query latest version failed"
  | (latestGWInfo, None) =>
      if negb (CompareVersion GatewayVersion (li_Version latestGWInfo) =? LESS)
      then SendAPIRespWithOk (mkApi 0 "is latest version" None)
      else
        match DownloadLatestGateway (li_DownloadServer latestGWInfo) (li_DownloadPath latestGWInfo) with
        | inr _ => fail500 "download latest version failed"
        | inl resp =>
            if negb (StatusCode resp =? StatusOK) then fail500 "download latest version failed"
            else install resp
        end
  end.

(** net/http panics on a status of fewer or more than three digits, sends a
    status 1xx other than 101 ahead of the response, and refuses a body after
    some. *)
Definition WriteHeader_any {S} (code : Z) : GoM (Http S) unit :=
  if (code <? 100) || (999 <? code) then panic
  else if (code <=? 199) && negb (code =? 101) then ret tt
  else respond (WriteHeader code).
Definition bodyAllowed (w : ResponseWriter) : bool :=
  match status w with Some c => negb ((c =? 101) || (c =? 204) || (c =? 304)) | None => true end.

(** The names of a received header are in canonical form already. *)
Definition transferHTTP {S} (resp : HttpResponse) : GoM (Http S) unit :=
  for_range (rs_Header resp) (fun '(k, v) => for_range v (fun s => respond (Header_Add k s))) ;;;
  WriteHeader_any (StatusCode resp) ;;;
  respond (fun w => if bodyAllowed w then (Http.Write (rs_Body resp) w).2 else w).

Definition downloadAPK {S} : Handler S := fun r =>
  match DownloadGatewayAgentApk with
  | inr _ => fail500 "download gateway agent apk failed"
  | inl resp => transferHTTP resp
  end.

(** * The upgrade *)

(** Where an upgrade ends: before the executable was touched, done, or with the
    executable moved away and at most a part of the new one in its place. *)
Inductive verdict := Untouched (code : Z) (msg : string) | Upgraded (resp : HttpResponse) | Broken (msg : option string).

Definition api_answer (c : Z) (m : string) : ResponseWriter :=
  mkWriter (Some 200) {[ "Content-Type" := ["application/json"] ]} [] (print (api_json (api_body (mkApi c m None)))) None.

(** What a verdict says of the answer and of the files, [s] before and [s'] after. *)
Definition verdict_holds (binPath : string) (old : file) (v : verdict) (s s' : FS) (wr : ResponseWriter) : Prop :=
  match v with
  | Untouched c m => wr = api_answer c m /\ at_path binPath s' = Some old /\
      at_path (binPath +:+ ".bak") s' = at_path (binPath +:+ ".bak") s /\ m <> "upgrade gateway success, please restart"
  | Upgraded resp => wr = api_answer 0 "upgrade gateway success, please restart" /\
      at_path binPath s' = Some (mkFile (rs_Body resp) 509 false) /\ rs_err resp = None /\ StatusCode resp = 200 /\
      at_path (binPath +:+ ".bak") s' = Some old
  | Broken m => wr = match m with Some m => api_answer 500 m | None => new_writer None end /\
      at_path (binPath +:+ ".bak") s' = Some old /\
      (at_path binPath s' = None \/ exists body n mode, at_path binPath s' = Some (mkFile (String.substring 0 n body) mode false)) /\
      m <> Some "upgrade gateway success, please restart"
  end.

Lemma answered (c : Z) (m : string) (s : FS) :
  SendAPIRespWithOk (mkApi c m None) (mkHttp s (new_writer None)) = (Ret tt, mkHttp s (api_answer c m)).
Proof. reflexivity. Qed.

Lemma upgrade_server_Ret {S A} (m : GoM S A) s wr a s' : m s = (Ret a, s') -> server m (mkHttp s wr) = (Ret a, mkHttp s' wr).
Proof. intros H. rewrite server_run. cbn [srv w]. by rewrite H. Qed.

(** Closing a file after the answer. *)
Lemma closing (f : File) (s : FS) (wr : ResponseWriter) : wf s ->
  exists s', server (Close f) (mkHttp s wr) = (Ret tt, mkHttp s' wr) /\ wf s' /\ frame [] s s' /\ faults s' = faults s /\
    (forall g p, fd g <> fd f -> holds g p s -> holds g p s').
Proof.
  intros W. destruct (Close_spec f s W) as (s' & E & H). exists s'. split; [by apply upgrade_server_Ret|done].
Qed.

(** A part of the new executable, or none. *)
Definition partial (body : string) (x : option file) : Prop :=
  x = None \/ exists n mode, x = Some (mkFile (String.substring 0 n body) mode false).

Lemma substring_whole (b : string) : String.substring 0 (String.length b) b = b.
Proof. induction b as [|c b IH]; [done|]. simpl. by rewrite IH. Qed.

Ltac close_up H := let s := fresh "s" in let E := fresh "E" in let W := fresh "W" in let F := fresh "F" in
  let L := fresh "L" in let K := fresh "K" in destruct H as (s & E & W & F & L & K).

(** What is left of a replacement that did not succeed: the answer, and that
    something failed. *)
Definition half_done (binPath body : string) (s s' : FS) (wr : ResponseWriter) : Prop :=
  faults s <> [] /\ partial body (at_path binPath s') /\
  exists m, m <> Some "upgrade gateway success, please restart" /\
    wr = match m with Some m => api_answer 500 m | None => new_writer None end.
Definition done_well (binPath body : string) (s' : FS) (wr : ResponseWriter) : Prop :=
  wr = api_answer 0 "upgrade gateway success, please restart" /\ at_path binPath s' = Some (mkFile body 509 false).

(** [replace] once both files are open. *)
Definition fill (binPath : string) (tf df : File) : GoM (Http FS) unit :=
  err <- server (Copy_file tf df) ;;
  match err with
  | Some _ => fail500 "copy file failed"
  | None =>
      err <- server (Chmod binPath 509) ;;
      match err with
      | Some _ => ret tt
      | None => SendAPIRespWithOk (mkApi 0 "upgrade gateway success, please restart" None)
      end
  end ;;;
  server (Close tf) ;;; server (Close df).

Lemma close_both binPath tf df s s4 wr : wf s4 -> frame [binPath] s s4 -> exists s6,
  (server (Close tf) ;;; server (Close df)) (mkHttp s4 wr) = (Ret tt, mkHttp s6 wr) /\ wf s6 /\
  frame [binPath] s s6 /\ at_path binPath s6 = at_path binPath s4.
Proof.
  intros W4 F4. close_up (closing tf s4 wr W4). rewrite (bind_Ret _ _ _ _ _ E).
  close_up (closing df s0 wr W). rewrite E0. exists s1. split_and!; [done..| |].
  - eapply frame_trans; [done|]. apply frame_nil. eauto using frame_trans.
  - by rewrite (proj1 (F0 binPath ltac:(set_solver))), (proj1 (F binPath ltac:(set_solver))).
Qed.

Lemma fill_run binPath tf df body m s : wf s -> holds tf binPath s -> at_path binPath s = Some (mkFile "" m false) ->
  contents df s = body ->
  exists s' wr, fill binPath tf df (mkHttp s (new_writer None)) = (Ret tt, mkHttp s' wr) /\ wf s' /\ frame [binPath] s s' /\
    (done_well binPath body s' wr \/ half_done binPath body s s' wr).
Proof.
  intros W Htf A Hsrc. unfold fill, fail500.
  destruct (Copy_spec tf binPath body None s _ W Htf A) as (err & s3 & n & E3 & H3 & F3 & A3 & P3).
  assert (E3' : Copy_file tf df s = (Ret err, s3)) by (unfold Copy_file, bind, get; by rewrite Hsrc).
  rewrite (bind_Ret _ _ _ _ _ (upgrade_server_Ret _ s (new_writer None) _ _ E3')). pose proof (ok_wf _ _ H3) as W3.
  destruct err as [err|].
  - rewrite (bind_Ret _ _ _ _ _ (answered _ _ s3)).
    destruct (close_both binPath tf df s s3 (api_answer 500 "copy file failed") W3 F3) as (s6 & E6 & W6 & F6 & A6). rewrite E6.
    eexists _, _. split_and!; [done..|]. right. split_and!.
    + intros Hf. destruct P3 as [P3|P3]; [by apply P3|done].
    + right. rewrite A6, A3. by eexists _, _.
    + exists (Some "copy file failed"). split; [discriminate|done].
  - destruct P3 as [P3 _].
    assert (A3' : at_path binPath s3 = Some (mkFile body m false)) by (rewrite A3; unfold append_data; simpl; by rewrite P3).
    destruct (Chmod_spec binPath 509 s3 _ W3 A3') as (r4 & s4 & E4 & H4 & F4 & P4).
    rewrite bind_assoc, (bind_Ret _ _ _ _ _ (upgrade_server_Ret _ s3 (new_writer None) _ _ E4)).
    assert (F14 : frame [binPath] s s4) by eauto using frame_trans.
    destruct r4 as [r4|].
    + rewrite bind_ret. destruct (close_both binPath tf df s s4 (new_writer None) (ok_wf _ _ H4) F14) as (s6 & E6 & W6 & F6 & A6). rewrite E6.
      eexists _, _. split_and!; [done..|]. right. split_and!.
      * destruct P4 as [_ P4]. intros Hf. by apply P4, (ok_faults _ _ H3).
      * right. rewrite A6, (proj1 P4). exists (String.length body), m. by rewrite substring_whole.
      * exists None. split; [discriminate|done].
    + rewrite (bind_Ret _ _ _ _ _ (answered _ _ s4)).
      destruct (close_both binPath tf df s s4 (api_answer 0 "upgrade gateway success, please restart") (ok_wf _ _ H4) F14) as (s6 & E6 & W6 & F6 & A6).
      rewrite E6. eexists _, _. split_and!; [done..|]. left. split; [done|]. by rewrite A6, P4.
Qed.

Lemma replace_run binPath temp body mode s : wf s -> names s !! binPath = None -> temp <> binPath ->
  at_path temp s = Some (mkFile body mode false) ->
  exists s' wr, replace binPath temp (mkHttp s (new_writer None)) = (Ret tt, mkHttp s' wr) /\ wf s' /\ frame [binPath] s s' /\
    (done_well binPath body s' wr \/ half_done binPath body s s' wr).
Proof.
  intros W Hno Hne Ht. unfold replace, fail500.
  assert (Hnone : at_path binPath s = None) by (unfold at_path; by rewrite Hno).
  destruct (Open_spec temp s W) as ([df|e] & s1 & E1 & H1 & F1 & P1);
    rewrite (bind_Ret _ _ _ _ _ (upgrade_server_Ret _ s (new_writer None) _ _ E1)).
  2: { rewrite answered. exists s1, (api_answer 500 "open downloaded executable failed").
       split_and!; [done|apply H1|by apply frame_nil|]. right. split_and!.
       - destruct P1 as [P1|P1]; [done|]. unfold at_path in Ht. by rewrite P1 in Ht.
       - left. by rewrite (proj1 (F1 binPath ltac:(set_solver))).
       - exists (Some "open downloaded executable failed"). split; [discriminate|done]. }
  destruct P1 as [_ Hdf]. pose proof (ok_wf _ _ H1) as W1.
  assert (Hnone1 : at_path binPath s1 = None) by (by rewrite (proj1 (F1 binPath ltac:(set_solver)))).
  assert (Ht1 : at_path temp s1 = Some (mkFile body mode false)) by (by rewrite (proj1 (F1 temp ltac:(set_solver)))).
  destruct (OpenFile_spec true binPath 438 s1 W1) as ([tf|e] & s2 & E2 & H2 & P2); fold (Create binPath) in E2;
    rewrite (bind_Ret _ _ _ _ _ (upgrade_server_Ret _ s1 (new_writer None) _ _ E2)).
  2: { rewrite (bind_Ret _ _ _ _ _ (answered _ _ s2)). destruct P2 as [F2 P2].
       close_up (closing df s2 (api_answer 500 "open target executable failed") (ok_wf _ _ H2)). rewrite E.
       exists s0, (api_answer 500 "open target executable failed"). split_and!; [done..| |].
       - apply frame_nil. eauto using frame_trans.
       - right. split_and!.
         + intros Hf. destruct P2 as [P2|(x & Hx & _)]; [by apply P2, (ok_faults _ _ H1)|congruence].
         + left. by rewrite (proj1 (F binPath ltac:(set_solver))), (proj1 (F2 binPath ltac:(set_solver))).
         + exists (Some "open target executable failed"). split; [discriminate|done]. }
  destruct P2 as (_ & Htf & F2 & A2 & _). rewrite Hnone1 in A2.
  assert (Ht2 : at_path temp s2 = Some (mkFile body mode false)) by (by rewrite (proj1 (F2 temp ltac:(set_solver)))).
  pose proof (holds_contents df temp s2 _ (holds_step df temp [binPath] s1 s2 Hdf H2 F2 ltac:(set_solver)) Ht2) as Hsrc.
  destruct (fill_run binPath tf df body _ s2 (ok_wf _ _ H2) Htf A2 Hsrc) as (s' & wr & E & W' & F & P).
  exists s', wr. split; [exact E|]. split; [done|]. split; [eauto using frame_trans, frame_nil|].
  destruct P as [P|(Hf & P)]; [by left|right]. split; [|done]. intros Hf0. by apply Hf, (ok_faults _ _ H2), (ok_faults _ _ H1).
Qed.

Fixpoint last_char (s : string) : option ascii :=
  match s with "" => None | String c "" => Some c | String _ s' => last_char s' end.
Lemma last_char_app a b : b <> "" -> last_char (a +:+ b) = last_char b.
Proof.
  intros Hb. induction a as [|c a IH]; [done|]. rewrite string_app_cons. simpl. rewrite IH.
  destruct (a +:+ b) eqn:E; [|done]. by destruct a, b.
Qed.
Lemma temp_not_bak binPath : temp_name <> binPath +:+ ".bak".
Proof.
  intros E. apply (f_equal last_char) in E. unfold temp_name in E.
  rewrite <- !string_app_assoc in E. by rewrite (last_char_app _ ".tmp"), (last_char_app _ ".bak") in E.
Qed.

(** A branch that stops before the executable is moved. *)
Lemma left_untouched binPath old msg ps s s' : frame ps s s' -> at_path binPath s = Some old ->
  binPath ∉ ps -> binPath +:+ ".bak" ∉ ps -> ps ⊆ [binPath; binPath +:+ ".bak"; temp_name] -> msg <> "upgrade gateway success, please restart" ->
  verdict_holds binPath old (Untouched 500 msg) s s' (api_answer 500 msg) /\ frame [binPath; binPath +:+ ".bak"; temp_name] s s'.
Proof.
  intros F Ho H1 H2 Hs Hm. split; [|by apply (frame_weaken ps)]. cbn [verdict_holds].
  by rewrite (proj1 (F binPath H1)), (proj1 (F _ H2)).
Qed.

(** Once the new executable is downloaded. *)
Lemma swap_run resp binPath old s m : wf s -> at_path binPath s = Some old -> f_dir old = false -> binPath <> binPath +:+ ".bak" ->
  temp_name <> binPath -> at_path temp_name s = Some (mkFile (rs_Body resp) m false) -> StatusCode resp = 200 -> rs_err resp = None ->
  exists v s' wr, swap binPath temp_name (mkHttp s (new_writer None)) = (Ret tt, mkHttp s' wr) /\
    verdict_holds binPath old v s s' wr /\ frame [binPath; binPath +:+ ".bak"; temp_name] s s' /\
    (forall r, v = Upgraded r -> r = resp) /\
    (faults s = [] -> (forall y, at_path (binPath +:+ ".bak") s = Some y -> f_dir y = false) -> v = Upgraded resp).
Proof.
  intros W Hold Hdir Hbak Hne A Hst Hrs. unfold swap, fail500. set (bak := binPath +:+ ".bak") in *.
  pose proof (temp_not_bak binPath) as Htb. fold bak in Htb.
  destruct (Rename_spec binPath bak s old W Hbak Hold Hdir) as ([e|] & s4 & E4 & H4 & P4); fold bak;
    rewrite (bind_Ret _ _ _ _ _ (upgrade_server_Ret _ s (new_writer None) _ _ E4)).
  { rewrite answered. destruct P4 as [F4 P4]. eexists (Untouched 500 "rename executable failed"), _, _. split; [done|].
    destruct (left_untouched binPath old "rename executable failed" [] s s4) as [V F']; [by apply frame_nil|done|set_solver|set_solver|set_solver|discriminate|].
    split_and!; [exact V|exact F'|done|]. intros Hf Hb. destruct P4 as [P4|(y & Hy & Hd)]; [by destruct P4|].
    specialize (Hb y Hy). congruence. }
  destruct P4 as (F4 & Ab & _ & Hno).
  assert (A4 : at_path temp_name s4 = Some (mkFile (rs_Body resp) m false)) by (by rewrite (proj1 (F4 temp_name ltac:(set_solver)))).
  destruct (replace_run binPath temp_name (rs_Body resp) m s4 (ok_wf _ _ H4) Hno Hne A4) as (s5 & wr & E5 & W5 & F5 & P5).
  rewrite E5. assert (Ab5 : at_path bak s5 = Some old) by (by rewrite (proj1 (F5 bak ltac:(set_solver)))).
  assert (F05 : frame [binPath; bak; temp_name] s s5).
  { eapply frame_trans; [eapply frame_weaken; [exact F4|set_solver]|]. eapply frame_weaken; [exact F5|set_solver]. }
  destruct P5 as [[-> A5]|(Hf5 & Hpart & mm & Hm & ->)].
  - exists (Upgraded resp), s5, (api_answer 0 "upgrade gateway success, please restart"). split; [done|].
    split_and!; [|done|congruence|done]. split_and!; done.
  - eexists (Broken mm), s5, _. split; [done|]. split_and!; [|done|done|].
    + split_and!; [done..| |done]. destruct Hpart as [?|(k & mo & ?)]; [by left|right; by eexists _, k, mo].
    + intros Hf. destruct Hf5. by apply (ok_faults _ _ H4).
Qed.

Lemma install_run resp binPath old s : wf s -> Executable = inl binPath -> StatusCode resp = 200 ->
  at_path binPath s = Some old -> f_dir old = false -> binPath <> binPath +:+ ".bak" ->
  exists v s' wr, install resp (mkHttp s (new_writer None)) = (Ret tt, mkHttp s' wr) /\
    verdict_holds binPath old v s s' wr /\ frame [binPath; binPath +:+ ".bak"; temp_name] s s' /\
    (forall r, v = Upgraded r -> r = resp) /\
    (faults s = [] -> names s !! temp_name = None -> rs_err resp = None ->
       (forall y, at_path (binPath +:+ ".bak") s = Some y -> f_dir y = false) -> v = Upgraded resp).
Proof.
  intros W Hex Hst Hold Hdir Hbak. unfold install, fail500. set (bak := binPath +:+ ".bak") in *.
  pose proof (temp_not_bak binPath) as Htb. fold bak in Htb.
  destruct (CreateTemp_spec temp_name s W) as ([df|e] & s1 & E1 & H1 & P1);
    rewrite (bind_Ret _ _ _ _ _ (upgrade_server_Ret _ s (new_writer None) _ _ E1)).
  2: { rewrite answered. destruct P1 as [F1 P1]. eexists (Untouched 500 "create team file failed"), _, _. split; [done|].
       destruct (left_untouched binPath old "create team file failed" [] s s1) as [V F']; [done..|set_solver|set_solver|set_solver|discriminate|].
       split_and!; [exact V|exact F'|done|]. intros Hf Hn _ _. by destruct P1. }
  destruct P1 as (Hp & Hfree & Hdf & F1 & m & A1). pose proof (ok_wf _ _ H1) as W1.
  assert (Hne : temp_name <> binPath).
  { intros E. unfold at_path in Hold. by rewrite <- E, Hfree in Hold. }
  destruct (Copy_spec df temp_name (rs_Body resp) (rs_err resp) s1 _ W1 Hdf A1) as (err & s2 & n & E2 & H2 & F2 & A2 & P2).
  rewrite (bind_Ret _ _ _ _ _ (upgrade_server_Ret _ s1 (new_writer None) _ _ E2)).
  pose proof (ok_wf _ _ H2) as W2.
  assert (F02 : frame [temp_name] s s2) by eauto using frame_trans.
  destruct err as [err|].
  { rewrite (bind_Ret _ _ _ _ _ (answered _ _ s2)). close_up (closing df s2 (api_answer 500 "download latest version failed") W2).
    rewrite E. eexists (Untouched 500 "download latest version failed"), _, _. split; [done|].
    assert (F03 : frame [temp_name] s s0) by (eapply frame_trans; [done|by apply frame_nil]).
    destruct (left_untouched binPath old "download latest version failed" [temp_name] s s0) as [V F']; [done..|set_solver|set_solver|set_solver|discriminate|].
    split_and!; [exact V|exact F'|done|]. intros Hf _ He _. destruct P2 as [P2|P2]; [|done]. by destruct P2; apply (ok_faults _ _ H1). }
  destruct P2 as [P2 Hrs].
  close_up (closing df s2 (new_writer None) W2). rewrite (bind_Ret _ _ _ _ _ E), Hex.
  assert (F03 : frame [temp_name] s s0) by (eapply frame_trans; [done|by apply frame_nil]).
  assert (Hold3 : at_path binPath s0 = Some old) by (by rewrite (proj1 (F03 binPath ltac:(set_solver)))).
  assert (A3 : at_path temp_name s0 = Some (mkFile (rs_Body resp) m false)).
  { rewrite (proj1 (F temp_name ltac:(set_solver))), A2. unfold append_data. simpl. by rewrite P2. }
  assert (Hf3 : faults s = [] -> faults s0 = []).
  { intros Hf. rewrite L. by apply (ok_faults _ _ H2), (ok_faults _ _ H1). }
  rewrite Hp. destruct (swap_run resp binPath old s0 m W0 Hold3 Hdir Hbak Hne A3 Hst Hrs) as (v & s' & wr & E4 & V & F4 & Hr & Hgood).
  rewrite E4. exists v, s', wr. split; [done|]. split; [|split; [|split; [exact Hr|]]].
  - destruct v; [|exact V..]. destruct V as (? & ? & Hb & ?). split_and!; [done|done| |done].
    rewrite Hb. exact (proj1 (F03 bak ltac:(set_solver))).
  - eapply frame_trans; [eapply frame_weaken; [exact F03|set_solver]|exact F4].
  - intros Hf _ _ Hb. apply Hgood; [by apply Hf3|]. intros y Hy. apply (Hb y).
    rewrite <- (proj1 (F03 bak ltac:(set_solver)) : at_path bak s0 = at_path bak s). exact Hy.
Qed.

(** C17. An upgrade never loses the executable.  Whatever calls fail, however far
    they got, the file at the executable's path before the upgrade is at that
    path, or beside it with the suffix .bak, afterwards; no other file but the
    temporary one changes.  It ends untouched, or with the answer of success
    and then exactly the body the server sent stands at the path with mode
    0775; or, when something failed after the executable was moved, without an
    executable or with a part of one, answered 500, or not at all when only its
    mode could not be set.  When the server offers a newer version and sends it
    whole, and no call fails, it succeeds. *)
Theorem upgrade_safe r binPath old s : wf s -> Executable = inl binPath ->
  at_path binPath s = Some old -> f_dir old = false -> binPath <> binPath +:+ ".bak" ->
  exists v s' wr, upgradeMyself r (mkHttp s (new_writer None)) = (Ret tt, mkHttp s' wr) /\
    verdict_holds binPath old v s s' wr /\
    (at_path binPath s' = Some old \/ at_path (binPath +:+ ".bak") s' = Some old) /\
    frame [binPath; binPath +:+ ".bak"; temp_name] s s' /\
    (forall info resp, QueryLatestVersion "gateway" = (info, None) ->
       CompareVersion GatewayVersion (li_Version info) = LESS ->
       DownloadLatestGateway (li_DownloadServer info) (li_DownloadPath info) = inl resp ->
       StatusCode resp = 200 -> rs_err resp = None -> faults s = [] -> names s !! temp_name = None ->
       (forall y, at_path (binPath +:+ ".bak") s = Some y -> f_dir y = false) -> v = Upgraded resp) /\
    (forall resp, v = Upgraded resp -> exists info, QueryLatestVersion "gateway" = (info, None) /\
       CompareVersion GatewayVersion (li_Version info) = LESS /\
       DownloadLatestGateway (li_DownloadServer info) (li_DownloadPath info) = inl resp).
Proof.
  intros W Hex Hold Hdir Hbak. set (h := mkHttp s (new_writer None)).
  assert (Hun : forall c m, m <> "upgrade gateway success, please restart" ->
    verdict_holds binPath old (Untouched c m) s s (api_answer c m) /\
    (at_path binPath s = Some old \/ at_path (binPath +:+ ".bak") s = Some old) /\
    frame [binPath; binPath +:+ ".bak"; temp_name] s s).
  { intros c m Hm. split_and!; [done..|by left|by apply frame_same]. }
  unfold upgradeMyself. destruct (QueryLatestVersion "gateway") as [info [e|]].
  { eexists (Untouched 500 "query latest version failed"), s, _. split; [done|].
    destruct (Hun 500 "query latest version failed" ltac:(discriminate)) as (A & B & C).
       split_and!; [done..|intros; exfalso; unfold StatusOK in *; congruence|by intros ? [=]]. }
  destruct (Z.eqb_spec (CompareVersion GatewayVersion (li_Version info)) LESS) as [Hl|Hl]; cbn [negb].
  2: { eexists (Untouched 0 "is latest version"), s, _. split; [done|].
       destruct (Hun 0 "is latest version" ltac:(discriminate)) as (A & B & C).
       split_and!; [done..|intros; exfalso; unfold StatusOK in *; congruence|by intros ? [=]]. }
  destruct (DownloadLatestGateway (li_DownloadServer info) (li_DownloadPath info)) as [resp|e] eqn:Ed.
  2: { eexists (Untouched 500 "download latest version failed"), s, _. split; [done|].
       destruct (Hun 500 "download latest version failed" ltac:(discriminate)) as (A & B & C).
       split_and!; [done..|intros; exfalso; unfold StatusOK in *; congruence|by intros ? [=]]. }
  destruct (Z.eqb_spec (StatusCode resp) StatusOK) as [Hst|Hst]; cbn [negb].
  2: { eexists (Untouched 500 "download latest version failed"), s, _. split; [done|].
       destruct (Hun 500 "download latest version failed" ltac:(discriminate)) as (A & B & C).
       split_and!; [done..|intros; exfalso; unfold StatusOK in *; congruence|by intros ? [=]]. }
  destruct (install_run resp binPath old s W Hex Hst Hold Hdir Hbak) as (v & s' & wr & E & V & F & Hr & Hgood).
  exists v, s', wr. split_and!; [done..| |done| |].
  - destruct v; [left|right|right]; apply V.
  - intros info' resp' [= <-] _ Ed' _. rewrite Ed in Ed'. injection Ed' as <-. auto.
  - intros resp' Hv. exists info. rewrite <- (Hr resp' Hv) in Ed. done.
Qed.

(** An error of the update server is taken for being up to date: the reader of
    the answer does not look at its code, and the version it leaves empty is
    older than any. *)
Theorem upgrade_error_hidden r m c s :
  is_s64 c -> valid_utf8 m = true ->
  HttpGet ("libp2p://" +:+ UpgradeServer +:+ "/version/gateway?sys_type=" +:+ GOOS +:+ "-" +:+ GOARCH) =
    inl (mkResponse 200 "200 OK" [] (print (api_json (api_body (mkApi c m None)))) None) ->
  upgradeMyself r (mkHttp s (new_writer None)) = (Ret tt, mkHttp s (api_answer 0 "is latest version")).
Proof.
  intros Hc Hm Hg. unfold upgradeMyself.
  assert (E : QueryLatestVersion "gateway" = (zero, None)).
  { unfold QueryLatestVersion. rewrite !string_app_cons, !string_app_nil_l in *. rewrite Hg. unfold ParseResponse. simpl rs_err. cbv iota.
    exact (parse_sent (mkApi c m None) (zero : LatestInfo) Hc Hm ltac:(discriminate)). }
  rewrite E. change (CompareVersion GatewayVersion (li_Version zero) =? LESS) with false. reflexivity.
Qed.

(** * Passing on a response *)

(** The values of a header's name, in order. *)
Definition values (k : string) (hs : list (string * list string)) : list string :=
  concat (map (fun '(k', v) => if String.eqb k' k then v else []) hs).

Lemma add_values {S} k' vs (s : S) wr : status wr = None ->
  exists h, for_range vs (fun x => respond (Header_Add k' x)) (mkHttp s wr) =
      (Ret tt, mkHttp s (mkWriter None h (cookies wr) (body wr) (write_err wr))) /\
    forall k, default [] (h !! k) = default [] (header wr !! k) ++ (if String.eqb k' k then vs else []).
Proof.
  revert wr. induction vs as [|x vs IH]; intros wr Hs.
  - exists (header wr). destruct wr; simpl in *; subst. split; [done|]. intros k. destruct (String.eqb k' k); by rewrite app_nil_r.
  - cbn [for_range]. unfold respond at 1, modify at 1, bind. cbn [srv w]. unfold Header_Add. rewrite Hs.
    set (wr1 := mkWriter None _ _ _ _). destruct (IH wr1 eq_refl) as (h & E & H). exists h. split; [exact E|].
    intros k. rewrite H. unfold wr1. cbn [header]. destruct (String.eqb_spec k' k) as [->|Hk].
    + rewrite lookup_insert_eq. simpl. by rewrite <- app_assoc.
    + by rewrite lookup_insert_ne.
Qed.

Lemma add_headers {S} hs (s : S) wr : status wr = None ->
  exists h, for_range hs (fun '(k, v) => for_range v (fun x => respond (Header_Add k x))) (mkHttp s wr) =
      (Ret tt, mkHttp s (mkWriter None h (cookies wr) (body wr) (write_err wr))) /\
    forall k, default [] (h !! k) = default [] (header wr !! k) ++ values k hs.
Proof.
  revert wr. induction hs as [|[k' vs] hs IH]; intros wr Hs.
  - exists (header wr). destruct wr; simpl in *; subst. split; [done|]. intros k. by rewrite app_nil_r.
  - cbn [for_range]. destruct (add_values k' vs s wr Hs) as (h & E & H). rewrite (bind_Ret _ _ _ _ _ E).
    set (wr1 := mkWriter None h _ _ _). destruct (IH wr1 eq_refl) as (h' & E' & H'). exists h'. split; [exact E'|].
    intros k. rewrite H'. unfold wr1. cbn [header]. rewrite H, <- app_assoc. done.
Qed.

(** The app's package is passed on as the server sent it: its status, every
    header with its values in order, and its body, cut off where it broke off. *)
Theorem download_relays {S} r (s : S) resp : DownloadGatewayAgentApk = inl resp ->
  200 <= StatusCode resp <= 999 -> StatusCode resp <> 204 -> StatusCode resp <> 304 ->
  exists h, downloadAPK r (mkHttp s (new_writer None)) =
      (Ret tt, mkHttp s (mkWriter (Some (StatusCode resp)) h [] (rs_Body resp) None)) /\
    forall k, default [] (h !! k) = values k (rs_Header resp).
Proof.
  intros Hd Hc H2 H3. unfold downloadAPK. rewrite Hd. unfold transferHTTP.
  destruct (add_headers (rs_Header resp) s (new_writer None) eq_refl) as (h & E & H).
  rewrite (bind_Ret _ _ _ _ _ E). exists h. split; [|exact H]. unfold WriteHeader_any.
  rewrite (proj2 (Z.ltb_ge _ _)), (proj2 (Z.ltb_ge 999 _)), (proj2 (Z.leb_gt _ 199)) by lia. cbn [orb andb].
  unfold bind, respond, modify. cbn [srv w WriteHeader status bodyAllowed header cookies body write_err].
  rewrite (proj2 (Z.eqb_neq _ 101)), (proj2 (Z.eqb_neq _ 204)), (proj2 (Z.eqb_neq _ 304)) by lia. done.
Qed.

End Upgrade.

(** * An upgrade from version 0.3.10 to 0.4.0 *)

Definition ex_get (url : string) : HttpResponse + error :=
  if String.eqb url "libp2p://srv/gw" then inl (mkResponse 200 "200 OK" [] "NEW" None)
  else inl (mkResponse 200 "200 OK" [] (print (api_json (mkApi 0 "ok" (Some (json_of (mkLatest "gateway" "0.4.0" "srv" "gw" "")))))) None).
Definition ex_old : file := mkFile "OLD" 493 false.
Definition ex_fs : FS := mkFS {[ "/opt/uptp/gateway" := 0%nat ]} {[ 0%nat := ex_old ]} ∅ 1 18 [].
Definition ex_request : Request := mkRequest "/api/upgrade" "" "" None "" "" None.

Lemma ex_upgrade_fs_wf : wf ex_fs.
Proof.
  unfold ex_fs. split; simpl.
  - intros p i Hp. apply lookup_singleton_Some in Hp as [_ <-]. split; [lia|]. rewrite lookup_singleton_eq. by eexists.
  - intros i x Hi. apply lookup_singleton_Some in Hi as [<- _]. lia.
  - intros h i Hh. by rewrite lookup_empty in Hh.
  - intros p q i Hp Hq. apply lookup_singleton_Some in Hp as [<- _], Hq as [<- _]. done.
Qed.

Lemma upgrade_safe_witness : exists s', upgradeMyself ex_get "linux" "amd64" (inl "/opt/uptp/gateway") "/tmp" "7" ex_request
    (mkHttp ex_fs (new_writer None)) = (Ret tt, mkHttp s' (api_answer 0 "upgrade gateway success, please restart")) /\
  at_path "/opt/uptp/gateway" s' = Some (mkFile "NEW" 509 false) /\ at_path "/opt/uptp/gateway.bak" s' = Some ex_old.
Proof.
  destruct (upgrade_safe ex_get "linux" "amd64" (inl "/opt/uptp/gateway") "/tmp" "7" ex_request "/opt/uptp/gateway" ex_old ex_fs
      ex_upgrade_fs_wf eq_refl ltac:(vm_compute; reflexivity) eq_refl ltac:(discriminate)) as (v & s' & wr & E & V & _ & _ & H & _).
  pose proof (H (mkLatest "gateway" "0.4.0" "srv" "gw" "") (mkResponse 200 "200 OK" [] "NEW" None)
    ltac:(vm_compute; reflexivity) ltac:(vm_compute; reflexivity) ltac:(vm_compute; reflexivity) eq_refl eq_refl eq_refl
    ltac:(vm_compute; reflexivity) ltac:(intros y Hy; vm_compute in Hy; discriminate)) as ->.
  destruct V as (-> & A & _ & _ & B). exists s'. split; [exact E|]. split; [exact A|exact B].
Defined.

(** Every call after the rename may be the one that fails: here the new file
    cannot be created, and the path is left without executable. *)
Example ex_broken :
  let s := mkFS (names ex_fs) (files ex_fs) ∅ 1 18 [None; None; None; None; Some (mkFault 0 EMFILE)] in
  let h := (upgradeMyself ex_get "linux" "amd64" (inl "/opt/uptp/gateway") "/tmp" "7" ex_request (mkHttp s (new_writer None))).2 in
  at_path "/opt/uptp/gateway" (srv h) = None /\ w h = api_answer 500 "open target executable failed".
Proof. vm_compute. done. Qed.
