(* ===== verification/Console.v ===== *)
(** The web console as a whole (src/gateway/gateway.go, [router], [Run]'s server
    and the exit signal; src/apiutil.go/api.go, [NewApiServer], [AddRoute],
    [Serve]; src/gateway/embed.go): every request passes the session check, is
    matched with the routes, and runs one of the handlers of Session, GatewayApi
    and Upgrade on the state they share, or gets a static file.  chi is a class
    with what it documents of matching as laws.  The theorems, on the whole server
    and every sequence of requests with any bytes: a handler other than the login
    group's runs only for a token that a login with the right password issued; no
    request but a change of the password that gives the current one changes the
    stored password; and requests that carry neither a session nor the password
    change nothing, whatever they are and however many. *)
From S2P Require Import Prelude GoText GoIo GoNet Json Codec TypesId Store PortmapRes PortmapApp ProxyService Portmap Http Session.
From S2P Require Import GwCore Authorize GoOs Avl ProxyRouter Socks5Util Socks5Client Socks5Rfc TunStack ProxyClient GatewayApi Upgrade.

(** * Matching

    A route's mount point with the pattern [/] below it also matches the mount
    point itself. *)
Definition method_name (m : method) : string := match m with GET => "GET" | POST => "POST" end.
Definition matches (mount : string) (p : pattern) (id path : string) : Prop :=
  path = route_path mount p id \/ p = Lit "/" /\ path = mount.

(** [chi_match rs m path]: the handler the router runs for the method and the
    path, and what it binds to [id]; [None] when the request is left to the
    static files or is answered 404 or 405. *)
Class Chi := {
  chi_match : list (string * method * pattern * handler) -> string -> string -> option (handler * string)
}.
Class ChiLaws `{Chi} := {
  chi_sound rs m path h id : chi_match rs m path = Some (h, id) ->
    exists mount meth p, (mount, meth, p, h) ∈ rs /\ m = method_name meth /\ matches mount p id path
}.

(** A router that takes the first route that matches. *)
Definition match_one (m path : string) (x : string * method * pattern * handler) : option (handler * string) :=
  let '(mount, meth, p, h) := x in
  if String.eqb m (method_name meth) then
    match p with
    | Lit q => if String.eqb path (mount +:+ q) || (String.eqb q "/" && String.eqb path mount) then Some (h, "") else None
    | Param pre =>
        if HasPrefix path (mount +:+ pre) then
          let id := String.substring (String.length (mount +:+ pre)) (String.length path) path in
          if String.eqb path (mount +:+ pre +:+ id) && negb (Contains id "/") && negb (String.eqb id "") then Some (h, id) else None
        else None
    end
  else None.
Fixpoint first_match (m path : string) (rs : list (string * method * pattern * handler)) : option (handler * string) :=
  match rs with
  | [] => None
  | x :: rs => match match_one m path x with Some r => Some r | None => first_match m path rs end
  end.

#[export] Instance chi_first : Chi := { chi_match rs m path := first_match m path rs }.
#[export] Instance chi_first_laws : ChiLaws.
Proof.
  constructor. cbn. intros rs m path h id. induction rs as [|x rs IH]; [done|]. cbn [first_match].
  destruct (match_one m path x) as [[h' id']|] eqn:E.
  - intros [= -> ->]. destruct x as [[[mount meth] p] h1]. unfold match_one in E.
    destruct (String.eqb_spec m (method_name meth)) as [->|]; [|done].
    exists mount, meth, p. destruct p as [q|pre].
    + destruct (String.eqb_spec path (mount +:+ q)) as [->|]; cbn [orb] in E.
      * injection E as <- _. split; [left|]. split; [done|]. by left.
      * destruct (String.eqb_spec q "/") as [->|]; [|done]. destruct (String.eqb_spec path mount) as [->|]; [|done].
        injection E as <- _. split; [left|]. split; [done|]. by right.
    + destruct (HasPrefix _ _); [|done].
      destruct (String.eqb_spec path (mount +:+ pre +:+ String.substring (String.length (mount +:+ pre)) (String.length path) path)) as [Ep|]; [|done].
      destruct (_ && _ && _); [|done]. injection E as <- <-. split; [left|]. split; [done|]. by left.
  - intros Hm. destruct (IH Hm) as (mount & meth & p & Hin & ?). exists mount, meth, p. split; [by right|done].
Qed.

(** * The server *)

Section Console.
Context {DB : Type} {Db : LevelDB DB} {Dbl : LevelDBLaws DB}.
Context {T : Type} {Tree : AvlTree (routeItem PeerWithAuth) T} {TreeLaws : AvlLaws (routeItem PeerWithAuth) T}.
Context {Lib : Socks5Lib} {Sys : System} {ChiR : Chi} {ChiL : ChiLaws}.
Context (rand_Uint64 : nat -> Z) (Hostname : string + error) (uuid_New : nat -> string).
Context (Listen : bool -> string -> Z -> sockets -> (nat * string) + error).
Context (range_res : gmap Z PortmapResource -> list (Z * PortmapResource))
        (range_apps : gmap Z PortmapApp -> list (Z * PortmapApp)).
Context (host_ID : string) (listen_port : Z).
Context (HttpGet : string -> HttpResponse + error) (GOOS GOARCH : string)
        (Executable : string + errno) (TempDir random : string).
(** The answer to a request no route matches: a file of the console, which the
    program embeds, or an error page. *)
Context (unrouted : string -> string -> ResponseWriter -> ResponseWriter).

(** The gateway with its sessions and files; [c_main] is whether [main] still
    waits for a signal. *)
Record Console := mkConsole {
  c_gw : @Gateway DB T Sys;
  c_sessions : option (gmap string bool);
  c_timers : list (Z * string);
  c_now : Z;
  c_uuids : nat;
  c_fs : FS;
  c_main : bool
}.

Definition sess_view (c : Console) : @Sessions DB :=
  mkSessions (g_db (gw_core (c_gw c))) (c_sessions c) (c_timers c) (c_now c) (c_uuids c).
Definition set_sess (s : @Sessions DB) (c : Console) : Console :=
  mkConsole (set_core (set_g_db (s_db s) (gw_core (c_gw c))) (c_gw c)) (sessions s) (timers s) (now s) (uuids s) (c_fs c) (c_main c).
Definition set_gw (g : @Gateway DB T Sys) (c : Console) : Console :=
  mkConsole g (c_sessions c) (c_timers c) (c_now c) (c_uuids c) (c_fs c) (c_main c).
Definition set_fs (f : FS) (c : Console) : Console :=
  mkConsole (c_gw c) (c_sessions c) (c_timers c) (c_now c) (c_uuids c) f (c_main c).

(** A handler of a part of the state. *)
Definition part {S A} (proj : Console -> S) (upd : S -> Console -> Console) (m : GoM (Http S) A) : GoM (Http Console) A :=
  zoom (fun h => mkHttp (proj (srv h)) (w h)) (fun h' h => mkHttp (upd (srv h') (srv h)) (w h')) m.
Definition on_sess {A} : GoM (Http (@Sessions DB)) A -> GoM (Http Console) A := part sess_view set_sess.
Definition on_gw {A} : GoM (Http (@Gateway DB T Sys)) A -> GoM (Http Console) A := part c_gw set_gw.
Definition on_fs {A} : GoM (Http FS) A -> GoM (Http Console) A := part c_fs set_fs.

(** [sendExitSignal]: the channel has no buffer, so the value is dropped unless
    [main] is at its select. *)
Definition sendExitSignal : GoM Console unit :=
  modify (fun c => mkConsole (c_gw c) (c_sessions c) (c_timers c) (c_now c) (c_uuids c) (c_fs c) false).

Definition restart : Handler Console := fun r =>
  respond (fun w => (Http.Write "ok" w).2) ;;;
  server sendExitSignal.

(** The handler of each route. *)
Definition dispatch (h : handler) : Handler Console := fun r =>
  match h with
  | HLogin => on_sess (handleLogin uuid_New r)
  | HChangePassword => on_sess (handleChangePassword r)
  | HLogout => on_sess (handleLogout r)
  | HListResources => on_gw (listResources range_res r)
  | HGetResource => on_gw (getResource r)
  | HAddResource => on_gw (addResource rand_Uint64 r)
  | HUpdateResource => on_gw (updateResource r)
  | HDeleteResource => on_gw (deleteResource r)
  | HGatewayInfo => on_gw (getGatewayInfo rand_Uint64 Hostname host_ID listen_port r)
  | HGatewayName => on_gw (updateGatewayName r)
  | HRestart => restart r
  | HGetProxyConfig => on_gw (getProxyConfig r)
  | HUpdateProxyConfig => on_gw (updateProxyConfig r)
  | HListOutbounds => on_gw (listOutbounds r)
  | HGetOutbound => on_gw (getOutbound r)
  | HAddOutbound => on_gw (addOutbound rand_Uint64 r)
  | HUpdateOutbound => on_gw (updateOutbound r)
  | HDeleteOutbound => on_gw (deleteOutbound r)
  | HUpgradeMyself => on_fs (upgradeMyself HttpGet GOOS GOARCH Executable TempDir random r)
  | HDownloadAPK => downloadAPK HttpGet r
  | HAddApp => on_gw (addApp rand_Uint64 Listen r)
  | HUpdateApp => on_gw (updateApp Listen r)
  | HDeleteApp => on_gw (deleteApp r)
  | HListApps => on_gw (listApps range_apps r)
  | HGetApp => on_gw (getApp r)
  end.

Definition bind_id (id : string) (r : Http.Request) : Http.Request :=
  Http.mkRequest (URL_Path r) (Authorization r) (Accept r) (Cookie_auth_token r) id (Body r) (Body_err r).

(** What the routes make of a request. *)
Definition route (m : string) : Handler Console := fun r =>
  match chi_match Session.routes m (URL_Path r) with
  | Some (h, id) => dispatch h (bind_id id r)
  | None => respond (unrouted m (URL_Path r))
  end.

(** [router]: the session check is in front of all of them. *)
Definition serve (m : string) : Handler Console := authMiddleware sess_view (route m).

(** net/http recovers a handler's panic: its connection is lost, the rest goes
    on with the state it left. *)
Definition request (m : string) (r : Http.Request) (c : Console) : Console :=
  srv (serve m r (mkHttp c (new_writer None))).2.

(** Requests, time, and the timers of the sessions. *)
Inductive cevent := CReq (m : string) (r : Http.Request) | CTime (d : Z) | CFire (k : nat).

Definition cstep (c : Console) (e : cevent) : Console :=
  match e with
  | CReq m r => request m r c
  | CTime d => set_sess (Session.step uuid_New (sess_view c) (EvTime d)) c
  | CFire k => set_sess (fire k (sess_view c)) c
  end.
Definition crun (es : list cevent) (c : Console) : Console := foldl cstep c es.

(** * Lemmas: what the handlers leave alone

    The stored password, as the store's answer [x]; [has] is the same of a
    manager's store. *)
Section Password.
Context (x : string + error).

Definition has (d : DB) : Prop := db_Get adminPassword d = x.
Definition pw (g : @Gateway DB T Sys) : Prop := has (g_db (gw_core g)).
Definition srv_pw (h : Http (@Gateway DB T Sys)) : Prop := pw (srv h).

Lemma has_put k v d : k <> adminPassword -> has d -> has (db_Put k v d).2.
Proof. unfold has. intros Hk <-. by apply put_other. Qed.
Lemma has_delete k d : k <> adminPassword -> has d -> has (db_Delete k d).2.
Proof. unfold has. intros Hk <-. by apply delete_other. Qed.
Lemma put_keeps k v : k <> adminPassword -> safe has (dbPut k v) any.
Proof. intros Hk d Hd. split; [|done]. unfold dbPut. pose proof (has_put k v d Hk Hd). by destruct (db_Put k v d). Qed.
Lemma delete_keeps k : k <> adminPassword -> safe has (dbDelete k) any.
Proof. intros Hk d Hd. split; [|done]. unfold dbDelete. pose proof (has_delete k d Hk Hd). by destruct (db_Delete k d). Qed.

(** Part of a manager that is its store. *)
Lemma store_keeps {M A} (P : M -> Prop) (proj : M -> DB) upd (m : GoM DB A) :
  (forall s, P s <-> has (proj s)) -> (forall s t, proj (upd t s) = t) -> safe has m any -> safe P (zoom proj upd m) any.
Proof.
  intros Hp Hu Hm. apply (safe_zoom _ has); [by intros s Hs; apply Hp| |done]. intros s t _ Ht. apply Hp. by rewrite Hu.
Qed.

Definition res_pw (m : @PortmapResMgr DB) : Prop := has (PortmapRes.db m).
Lemma savePortmap_pw : safe res_pw savePortmap any.
Proof. unfold savePortmap. safe_with ltac:(apply store_keeps; [done|done|by apply put_keeps]). Qed.
Lemma set_resources_pw rs : safe res_pw (set_resources rs) any.
Proof. by apply safe_modify. Qed.
Lemma put_res_pw r : safe res_pw (AddPortmapRes r) any.
Proof. unfold AddPortmapRes. safe_with ltac:(first [apply set_resources_pw | apply savePortmap_pw]). Qed.
Lemma del_res_pw id : safe res_pw (PortmapRes.DelPortmapApp id) any.
Proof. unfold PortmapRes.DelPortmapApp. safe_with ltac:(first [apply set_resources_pw | apply savePortmap_pw]). Qed.
Lemma get_res_pw id : safe res_pw (GetAppByID id) any.
Proof. unfold GetAppByID. safe_with ltac:(apply set_resources_pw). Qed.

Definition app_pw (m : @PortmapAppMgr DB) : Prop := has (app_db m).
Lemma savePortmapApps_pw : safe app_pw savePortmapApps any.
Proof. unfold savePortmapApps. safe_with ltac:(apply store_keeps; [done|done|first [by apply put_keeps | by apply delete_keeps]]). Qed.
Lemma put_app_pw a : safe app_pw (UpdatePortmapApp a) any.
Proof.
  apply safe_get. intros m Hm. destruct (apps m); [|apply safe_panic]. apply (safe_bind _ _ _ any); [|intros; apply savePortmapApps_pw].
  by intros s _.
Qed.
Lemma del_app_pw id : safe app_pw (PortmapApp.DelPortmapApp id) any.
Proof.
  apply safe_get. intros m Hm. apply (safe_bind _ _ _ any); [|intros; apply savePortmapApps_pw]. by intros s _.
Qed.

Definition ob_pw (m : @socks5ProxyManager DB) : Prop := has (ob_db m).
Definition cli_pw (c : @proxyClient DB T Sys) : Prop := ob_pw (pc_mgr c).
Lemma saveOutbounds_pw : safe ob_pw saveOutbounds any.
Proof. unfold saveOutbounds. safe_with ltac:(apply store_keeps; [done|done|by apply put_keeps]). Qed.
Lemma mgr_put_pw ob : safe ob_pw (mgr_put Decode_peer ob) any.
Proof.
  unfold mgr_put. destruct (socks5OutboundFillRunningInfo Decode_peer ob) as [[e|] ob']; [by apply safe_ret|].
  apply safe_get. intros m Hm. destruct (outbounds m); safe_with ltac:(first [apply saveOutbounds_pw | by intros ? _]).
Qed.
Lemma mgr_del_pw id : safe ob_pw (mgr_DeleteOutbound id) any.
Proof. unfold mgr_DeleteOutbound. safe_with ltac:(first [apply saveOutbounds_pw | by intros ? _]). Qed.
Lemma get_ob_pw id : safe ob_pw (GetOutbound id) any.
Proof. unfold GetOutbound. safe_with ltac:(by intros ? _). Qed.
Lemma mgr_pw {A} (m : GoM socks5ProxyManager A) : safe ob_pw m any -> safe cli_pw (mgr m) any.
Proof. by apply safe_zoom. Qed.

Ltac client_pw := safe_with ltac:(idtac; lazymatch goal with
  | |- safe _ (ProxyClient.engine _) _ => by apply (safe_zoom _ any)
  | |- safe _ (ProxyClient.router _) _ => by apply (safe_zoom _ any)
  | |- safe _ (on_os ?f) _ => let c := fresh in let H := fresh in
      intros c H; unfold on_os; destruct (f (ProxyClient.os c)); done
  | |- safe _ (set_tunStackRunning _) _ => done
  | |- safe _ (mgr _) _ => first [apply mgr_pw, mgr_del_pw | apply mgr_pw, mgr_put_pw]
  | |- safe _ (addOutboundRoute _ _) _ => unfold addOutboundRoute
  | |- safe _ (DeleteOutboundRoute _) _ => unfold DeleteOutboundRoute
  | |- safe _ (open_route _) _ => unfold open_route
  | |- safe _ startTunStack _ => unfold startTunStack
  end).
Lemma AddOutbound_pw ob : safe cli_pw (AddOutbound ob) any.
Proof. unfold AddOutbound. client_pw. Qed.
Lemma UpdateOutbound_pw ob : safe cli_pw (UpdateOutbound ob) any.
Proof. unfold UpdateOutbound. client_pw. Qed.
Lemma DeleteOutbound_pw id : safe cli_pw (DeleteOutbound id) any.
Proof. unfold DeleteOutbound. client_pw. Qed.
Lemma DeleteRoute_pw ob : safe cli_pw (DeleteOutboundRoute ob) any.
Proof. client_pw. Qed.

Lemma core_pw {A} (m : GoM (@Core DB) A) : safe (fun c => has (g_db c)) m any -> safe pw (core m) any.
Proof. by apply safe_zoom. Qed.
Lemma prm_pw {A} (m : GoM (@PortmapResMgr DB) A) : safe res_pw m any -> safe pw (core (prm m)) any.
Proof. intros H. apply core_pw. by eapply safe_zoom; [..|exact H]. Qed.
Lemma pam_pw {A} (m : GoM (@PortmapAppMgr DB) A) : safe app_pw m any -> safe pw (core (pam m)) any.
Proof. intros H. apply core_pw. by eapply safe_zoom; [..|exact H]. Qed.
Lemma cli_keeps {A} (m : GoM (@proxyClient DB T Sys) A) : safe cli_pw m any -> safe pw (proxyCli m) any.
Proof. by apply safe_zoom. Qed.
Lemma dbPut_pw k v : k <> adminPassword -> safe (fun c => has (g_db c)) (dbPut_g k v) any.
Proof. intros Hk. apply store_keeps; [done|done|by apply put_keeps]. Qed.
Lemma getToken_pw : safe (fun c => has (g_db c)) (getToken rand_Uint64) any.
Proof.
  unfold getToken. safe_with ltac:(idtac; lazymatch goal with
    | |- safe _ (next_rand _) _ => by intros c Hc
    | |- safe _ (setToken _) _ => by apply dbPut_pw
    end).
Qed.
Lemma proxySvc_pw {A} (m : GoM (@proxyService DB) A) : safe (fun s => has (ps_db s)) m any -> safe pw (core (proxySvc m)) any.
Proof.
  intros Hm. apply core_pw. intros c Hc. unfold proxySvc. destruct (g_proxySvc c) as [cf|]; [|done].
  by refine (safe_zoom (fun c => has (g_db c)) (fun s => has (ps_db s)) _ _ m any _ _ Hm c Hc).
Qed.
Lemma set_config_pw cf : safe (fun s => has (ps_db s)) (ProxyService.set cf) any.
Proof.
  unfold ProxyService.set, saveConfig. safe_with ltac:(first [by apply safe_modify | apply store_keeps; [done|done|by apply put_keeps]]).
Qed.

Lemma srv_keeps {A} (m : GoM (@Gateway DB T Sys) A) : safe pw m any -> safe srv_pw (server m) any.
Proof. by apply safe_zoom. Qed.
Lemma body_pw {A} `{JsonCodec A} r (k : A -> GoM (Http (@Gateway DB T Sys)) unit) :
  (forall a, safe srv_pw (k a) any) -> safe srv_pw (with_body r k) any.
Proof. intros Hk. unfold with_body. by safe_with ltac:(first [apply Hk | done]). Qed.
Lemma authorize_pw a (k : string -> GoM (Http (@Gateway DB T Sys)) unit) :
  (forall n, safe srv_pw (k n) any) -> safe srv_pw (authorize_app a k) any.
Proof. intros Hk. unfold authorize_app. by safe_with ltac:(first [apply Hk | done]). Qed.

(** Every handler of the gateway's data. *)
Ltac pw_leaf := idtac; lazymatch goal with
  | |- safe _ (respond _) _ => done
  | |- safe _ (SendAPIRespWithOk _) _ => done
  | |- safe _ (fail _ _) _ => done
  | |- safe _ ok_msg _ => done
  | |- safe _ (ok_data _) _ => done
  | |- safe _ (finish _) _ => unfold finish
  | |- safe _ (with_proxySvc _) _ => unfold with_proxySvc
  | |- safe _ (with_id _ _) _ => unfold with_id
  | |- safe _ (deref _ _) _ => unfold deref
  | |- safe _ (with_body _ _) _ => apply body_pw; intros ?
  | |- safe _ (authorize_app _ _) _ => apply authorize_pw; intros ?
  | |- safe _ (server get) _ => by apply srv_keeps
  | |- safe _ (server (pm _)) _ => by apply srv_keeps, (safe_zoom _ any)
  | |- safe _ (server (SetOutboundProxy _ _ _)) _ => by apply srv_keeps, safe_modify
  | |- safe _ (server (core (proxySvc getConfig))) _ => by apply srv_keeps, proxySvc_pw
  | |- safe _ (server (core (proxySvc (ProxyService.set _)))) _ => apply srv_keeps, proxySvc_pw, set_config_pw
  | |- safe _ (server (core (setGatewayName _))) _ => by apply srv_keeps, core_pw, dbPut_pw
  | |- safe _ (server (core (setToken _))) _ => by apply srv_keeps, core_pw, dbPut_pw
  | |- safe _ (server (core (getToken _))) _ => apply srv_keeps, core_pw, getToken_pw
  | |- safe _ (server (core (getGatewayName _))) _ => apply srv_keeps, core_pw; unfold getGatewayName
  | |- safe _ (server (core (next_rand _))) _ => apply srv_keeps, core_pw; by intros ? ?
  | |- safe _ (server (core (prm (PortmapRes.DelPortmapApp _)))) _ => apply srv_keeps, prm_pw, del_res_pw
  | |- safe _ (server (core (prm (GetAppByID _)))) _ => apply srv_keeps, prm_pw, get_res_pw
  | |- safe _ (server (core (prm (GetResources _)))) _ => by apply srv_keeps, prm_pw
  | |- safe _ (server (core (prm _))) _ => apply srv_keeps, prm_pw, put_res_pw
  | |- safe _ (server (core (pam (PortmapApp.DelPortmapApp _)))) _ => apply srv_keeps, pam_pw, del_app_pw
  | |- safe _ (server (core (pam (gets _)))) _ => by apply srv_keeps, pam_pw
  | |- safe _ (server (core (pam (UpdatePortmapApp _)))) _ => apply srv_keeps, pam_pw, put_app_pw
  | |- safe _ (server (listen_app _ _)) _ => apply srv_keeps; unfold listen_app
  | |- safe _ (pm _) _ => by apply (safe_zoom _ any)
  | |- safe _ (server (proxyCli (DeleteOutboundRoute _))) _ => apply srv_keeps, cli_keeps, DeleteRoute_pw
  | |- safe _ (server (proxyCli (DeleteOutbound _))) _ => apply srv_keeps, cli_keeps, DeleteOutbound_pw
  | |- safe _ (server (proxyCli (AddOutbound _))) _ => apply srv_keeps, cli_keeps, AddOutbound_pw
  | |- safe _ (server (proxyCli (UpdateOutbound _))) _ => apply srv_keeps, cli_keeps, UpdateOutbound_pw
  | |- safe _ (server (proxyCli (mgr (GetOutbound _)))) _ => apply srv_keeps, cli_keeps, mgr_pw, get_ob_pw
  | |- safe _ (server (proxyCli (mgr (ListOutbounds _)))) _ => by apply srv_keeps, cli_keeps, mgr_pw
  end.

(** Relaying a download only writes the response. *)
Lemma download_srv {S} r (s : S) wr : srv (downloadAPK HttpGet r (mkHttp s wr)).2 = s.
Proof.
  assert (Hresp : forall f, safe (fun h : Http S => srv h = s) (respond f) any) by (by intros f h Hh).
  assert (H : safe (fun h : Http S => srv h = s) (downloadAPK HttpGet r) any); [|by apply (H (mkHttp s wr) eq_refl)].
  unfold downloadAPK. destruct (DownloadGatewayAgentApk HttpGet) as [resp|e]; [|apply Hresp]. unfold transferHTTP, WriteHeader_any.
  safe_with ltac:(first [apply Hresp | idtac]). intros h Hh. split; [|done].
  apply (for_range_inv (fun h => srv h = s)); [|done]. intros [k v] h1 _ Hh1.
  apply (for_range_inv (fun h => srv h = s)); [|done]. intros y h2 _ Hh2. by apply Hresp.
Qed.

(** The login group works on the sessions. *)
Definition login_handler (h : handler) : Prop := h = HLogin \/ h = HChangePassword \/ h = HLogout.
#[global] Instance login_handler_dec h : Decision (login_handler h).
Proof. destruct h; first [left; unfold login_handler; by auto | right; by intros [|[|]]]. Defined.

Lemma on_gw_keeps (m : GoM (Http (@Gateway DB T Sys)) unit) c wr : safe srv_pw m any -> pw (c_gw c) ->
  exists g, srv (on_gw m (mkHttp c wr)).2 = set_gw g c /\ pw g.
Proof.
  intros Hm Hc. unfold on_gw, part, zoom. cbn [srv w]. destruct (Hm (mkHttp (c_gw c) wr) Hc) as [H _].
  destruct (m _) as [o h']. by exists (srv h').
Qed.

Lemma dispatch_keeps h r c wr : ~ login_handler h -> pw (c_gw c) ->
  exists g f mn, srv (dispatch h r (mkHttp c wr)).2 = mkConsole g (c_sessions c) (c_timers c) (c_now c) (c_uuids c) f mn /\ pw g.
Proof.
  intros Hh Hc.
  assert (Hgw : forall m : GoM (Http (@Gateway DB T Sys)) unit, safe srv_pw m any -> exists g f mn,
     srv (on_gw m (mkHttp c wr)).2 = mkConsole g (c_sessions c) (c_timers c) (c_now c) (c_uuids c) f mn /\ pw g).
  { intros m Hm. destruct (on_gw_keeps m c wr Hm Hc) as (g & -> & Hg). by exists g, (c_fs c), (c_main c). }
  destruct h; cbn [dispatch]; try (by destruct Hh; unfold login_handler; auto).
  - apply Hgw. unfold listResources. safe_with pw_leaf.
  - apply Hgw. unfold getResource. safe_with pw_leaf.
  - apply Hgw. unfold addResource. safe_with pw_leaf.
  - apply Hgw. unfold updateResource. safe_with pw_leaf.
  - apply Hgw. unfold deleteResource. safe_with pw_leaf.
  - apply Hgw. unfold getGatewayInfo. safe_with pw_leaf.
  - apply Hgw. unfold updateGatewayName. safe_with pw_leaf.
  - by exists (c_gw c), (c_fs c), false.
  - apply Hgw. unfold getProxyConfig. safe_with pw_leaf.
  - apply Hgw. unfold updateProxyConfig. safe_with pw_leaf.
  - apply Hgw. unfold listOutbounds. safe_with pw_leaf.
  - apply Hgw. unfold getOutbound. safe_with pw_leaf.
  - apply Hgw. unfold addOutbound. safe_with pw_leaf.
  - apply Hgw. unfold updateOutbound. safe_with pw_leaf.
  - apply Hgw. unfold deleteOutbound. safe_with pw_leaf.
  - unfold on_fs, part, zoom. destruct (upgradeMyself _ _ _ _ _ _ _ _) as [o h']. by exists (c_gw c), (srv h'), (c_main c).
  - exists (c_gw c), (c_fs c), (c_main c). split; [|done]. rewrite download_srv. by destruct c.
  - apply Hgw. unfold addApp. safe_with pw_leaf.
  - apply Hgw. unfold updateApp. safe_with pw_leaf.
  - apply Hgw. unfold deleteApp. safe_with pw_leaf.
  - apply Hgw. unfold listApps. safe_with pw_leaf.
  - apply Hgw. unfold getApp. safe_with pw_leaf.
Qed.
End Password.

(** * Lemmas: requests and sessions *)

(** The handler a request comes to. *)
Definition reached (c : Console) (m : string) (r : Http.Request) : option (handler * string) :=
  if exempt (URL_Path r) || validSession (request_token r) (sess_view c)
  then chi_match Session.routes m (URL_Path r) else None.

Lemma request_reached m r c :
  request m r c = match reached c m r with
                  | Some (h, id) => srv (dispatch h (bind_id id r) (mkHttp c (new_writer None))).2
                  | None => c
                  end.
Proof.
  unfold request, serve, authMiddleware, reached. destruct (exempt (URL_Path r)) eqn:Ee; cbn [orb].
  - unfold route. by destruct (chi_match _ _ _) as [[h id]|].
  - unfold bind at 1. rewrite server_run. cbn [fst snd srv w get]. destruct (validSession _ _) eqn:Ev; cbn [negb].
    + unfold route. by destruct (chi_match _ _ _) as [[h id]|].
    + by destruct (Contains _ _).
Qed.

(** Without a session only the login group is reached. *)
Lemma reached_exempt m r h id : chi_match Session.routes m (URL_Path r) = Some (h, id) -> exempt (URL_Path r) = true -> login_handler h.
Proof.
  intros Hm He. destruct (chi_sound _ _ _ _ _ Hm) as (mount & meth & p & Hin & _ & [Hp|[Hp Hp']]).
  - rewrite Hp in He. by apply (routes_guarded mount meth p h id Hin).
  - rewrite Hp' in He. clear -Hin He Hp. unfold Session.routes in Hin. cbn in Hin.
    repeat (apply elem_of_cons in Hin as [[= -> -> -> ->]|Hin]; [first [done | by left]|]). by apply elem_of_nil in Hin.
Qed.

Lemma on_sess_handled (H : Handler (@Sessions DB)) r c :
  srv (on_sess (H r) (mkHttp c (new_writer None))).2 = set_sess (handled H r (sess_view c)) c.
Proof. unfold on_sess, part, zoom, handled. cbn [srv w]. by destruct (H r _) as [o h']. Qed.

(** What a request to the login group is to the sessions. *)
Definition login_event (h : handler) (r : Http.Request) : event :=
  match h with HLogin => EvLogin r | HLogout => EvLogout r | _ => EvChange r end.

Lemma dispatch_login h r c : login_handler h ->
  srv (dispatch h r (mkHttp c (new_writer None))).2 = set_sess (Session.step uuid_New (sess_view c) (login_event h r)) c.
Proof. intros [->|[->| ->]]; cbn [dispatch]; by rewrite on_sess_handled. Qed.

(** The live tokens, as the specification of the sessions has them. *)
Definition clive (c : Console) (live : gmap string Z) (e : cevent) : gmap string Z :=
  match e with
  | CReq m r => match reached c m r with
                | Some (HLogin, _) => Session.spec_step uuid_New (sess_view c) live (EvLogin r)
                | Some (HLogout, _) => Session.spec_step uuid_New (sess_view c) live (EvLogout r)
                | _ => live
                end
  | CTime d => live
  | CFire k => Session.spec_step uuid_New (sess_view c) live (EvFire k)
  end.

Lemma sess_inv_same (s s' : @Sessions DB) live : sessions s' = sessions s -> timers s' = timers s -> uuids s' = uuids s ->
  sess_inv uuid_New s live -> sess_inv uuid_New s' live.
Proof. unfold sess_inv, session_get. by intros -> -> ->. Qed.

Lemma sess_view_set s c : sess_view (set_sess s c) = s.
Proof. by destruct s. Qed.

Lemma login_ok_id id r s : login_ok (bind_id id r) s = login_ok r s.
Proof. done. Qed.

Lemma cstep_live e c live : uuid_ok uuid_New -> sess_inv uuid_New (sess_view c) live ->
  sess_inv uuid_New (sess_view (cstep c e)) (clive c live e).
Proof.
  intros Hu Hi. destruct e as [m r|d|k]; cbn [cstep clive].
  - rewrite request_reached. destruct (reached c m r) as [[h id]|]; [|done].
    destruct (decide (login_handler h)) as [Hh|Hh].
    + rewrite (dispatch_login _ _ _ Hh), sess_view_set.
      pose proof (Session.step_inv uuid_New (login_event h (bind_id id r)) _ _ Hu Hi) as H. by destruct Hh as [->|[->| ->]].
    + destruct (dispatch_keeps (db_Get adminPassword (g_db (gw_core (c_gw c)))) h (bind_id id r) c (new_writer None) Hh eq_refl) as (g & f & mn & -> & _).
      assert (Hl : match h with HLogin => Session.spec_step uuid_New (sess_view c) live (EvLogin r) | HLogout => Session.spec_step uuid_New (sess_view c) live (EvLogout r) | _ => live end = live)
        by (destruct h; try done; destruct Hh; unfold login_handler; auto).
      rewrite Hl. by apply (sess_inv_same (sess_view c)).
  - rewrite sess_view_set. exact (Session.step_inv uuid_New (EvTime d) _ _ Hu Hi).
  - rewrite sess_view_set. exact (Session.step_inv uuid_New (EvFire k) _ _ Hu Hi).
Qed.

(** A console without sessions, as [Run] starts it. *)
Definition fresh_console (c : Console) : Prop := c_sessions c = None /\ c_timers c = [].

Definition clives (es : list cevent) (c : Console) : gmap string Z :=
  (foldl (fun cl e => (cstep cl.1 e, clive cl.1 cl.2 e)) (c, ∅) es).2.

Lemma clives_fst es c live : (foldl (fun cl e => (cstep cl.1 e, clive cl.1 cl.2 e)) (c, live) es).1 = crun es c.
Proof. revert c live. induction es as [|e es IH]; intros c live; [done|]. cbn. by rewrite IH. Qed.
Lemma clives_snoc es e c : clives (es ++ [e]) c = clive (crun es c) (clives es c) e.
Proof. unfold clives. rewrite foldl_app. cbn. by rewrite clives_fst. Qed.
Lemma crun_snoc es e c : crun (es ++ [e]) c = cstep (crun es c) e.
Proof. unfold crun. by rewrite foldl_app. Qed.

Lemma crun_live es c : uuid_ok uuid_New -> fresh_console c -> sess_inv uuid_New (sess_view (crun es c)) (clives es c).
Proof.
  intros Hu [Hs Ht]. induction es as [|e es IH] using rev_ind.
  - apply (sess_inv_same (mkSessions (g_db (gw_core (c_gw c))) None [] (c_now c) (c_uuids c))); [done..|].
    split_and!; try done; [| |constructor].
    + intros t. unfold session_get. cbn. rewrite !lookup_empty. cbn. split; [done|by intros []].
    + intros d t H. by apply elem_of_nil in H.
  - rewrite clives_snoc, crun_snoc. by apply cstep_live.
Qed.

(** A live token of the console: the login that issued it, its deadline, and that
    nobody has logged it out. *)
Definition logged_out (c0 : Console) (es1 es2 : list cevent) (t : string) : Prop :=
  exists es21 m r es22 id, es2 = es21 ++ CReq m r :: es22 /\ Authorization r = t /\ reached (crun (es1 ++ es21) c0) m r = Some (HLogout, id).

Lemma live_from c0 es t d : clives es c0 !! t = Some d ->
  exists es1 m r es2 id, es = es1 ++ CReq m r :: es2 /\ reached (crun es1 c0) m r = Some (HLogin, id) /\
    login_ok r (sess_view (crun es1 c0)) = true /\ t = uuid_New (c_uuids (crun es1 c0)) /\
    d = c_now (crun es1 c0) + Minute * 15 /\ ~ logged_out c0 (es1 ++ [CReq m r]) es2 t.
Proof.
  revert d. induction es as [|e es IH] using rev_ind; intros d; [done|]. rewrite clives_snoc.
  assert (Hold : clives es c0 !! t = Some d ->
    (forall m r id, e = CReq m r -> reached (crun es c0) m r = Some (HLogout, id) -> Authorization r <> t) ->
    exists es1 m r es2 id, es ++ [e] = es1 ++ CReq m r :: es2 /\ reached (crun es1 c0) m r = Some (HLogin, id) /\
    login_ok r (sess_view (crun es1 c0)) = true /\ t = uuid_New (c_uuids (crun es1 c0)) /\
    d = c_now (crun es1 c0) + Minute * 15 /\ ~ logged_out c0 (es1 ++ [CReq m r]) es2 t).
  { intros Hl He. destruct (IH d Hl) as (es1 & m & r & es2 & id & -> & H1 & H2 & H3 & H4 & H5).
    exists es1, m, r, (es2 ++ [e]), id. split_and!; [by rewrite <- app_assoc|done..|].
    intros (es21 & m2 & r2 & es22 & id2 & E & Ha & Hr). destruct es22 as [|y es22 _] using rev_ind.
    - apply app_inj_tail in E as [-> ->]. apply (He m2 r2 id2); [done| |done]. by rewrite <- app_assoc in Hr.
    - rewrite app_comm_cons, app_assoc in E. apply app_inj_tail in E as [-> _]. apply H5. by exists es21, m2, r2, es22, id2. }
  destruct e as [m r|x|k]; cbn [clive].
  - destruct (reached (crun es c0) m r) as [[h id]|] eqn:Er; [|intros Hl; apply Hold; [done|intros ? ? ? [= <- <-]; congruence]].
    assert (Hother : h <> HLogout -> clives es c0 !! t = Some d ->
      forall m' r' id', CReq m r = CReq m' r' -> reached (crun es c0) m' r' = Some (HLogout, id') -> Authorization r' <> t)
      by (intros Hh _ m' r' id' [= <- <-] E; congruence).
    destruct h; try (by intros Hl; apply Hold; [done|apply Hother]); cbn [Session.spec_step].
    + destruct (login_ok r (sess_view (crun es c0))) eqn:El; [|by intros Hl; apply Hold; [done|apply Hother]].
      destruct (decide (t = uuid_New (c_uuids (crun es c0)))) as [->|Ht].
      * cbn [uuids sess_view]. rewrite lookup_insert_eq. intros [= <-]. exists es, m, r, [], id. split_and!; try done.
        intros (es21 & ? & ? & es22 & ? & E & _). by destruct es21.
      * cbn [uuids sess_view]. rewrite lookup_insert_ne by done. intros Hl. apply Hold; [done|by apply Hother].
    + intros [Ha Hl]%lookup_delete_Some. apply Hold; [done|]. by intros ? ? ? [= <- <-] _.
  - intros Hl. by apply Hold.
  - cbn [Session.spec_step]. destruct (timers _ !! k) as [[due v]|]; [|intros Hl; by apply Hold].
    destruct (due <=? _); [|intros Hl; by apply Hold]. intros [_ Hl]%lookup_delete_Some. by apply Hold.
Qed.

(** C33. Nothing of the console runs without a login.  In every history of
    requests with any bytes, time and timers, on whatever the routes lead to: a
    request that comes to a handler outside the login group carries a token that
    an earlier request to log in was given, that request had the user name and
    the password stored at that time, no request to log out has carried the
    token since, and once the timers that are due have run the login is less
    than 15 minutes ago.  Any other request to such a route changes nothing. *)
Theorem console_authenticated c0 es m r : uuid_ok uuid_New -> fresh_console c0 ->
  let c := crun es c0 in
  match reached c m r with
  | None => request m r c = c
  | Some (h, _) =>
      login_handler h \/
      exists es1 m1 r1 es2 id1, es = es1 ++ CReq m1 r1 :: es2 /\
        reached (crun es1 c0) m1 r1 = Some (HLogin, id1) /\ login_ok r1 (sess_view (crun es1 c0)) = true /\
        request_token r = uuid_New (c_uuids (crun es1 c0)) /\
        ~ logged_out c0 (es1 ++ [CReq m1 r1]) es2 (request_token r) /\
        ((forall d t, (d, t) ∈ c_timers c -> c_now c < d) -> c_now c < c_now (crun es1 c0) + Minute * 15)
  end.
Proof.
  intros Hu Hf c. destruct (reached c m r) as [[h id]|] eqn:Er; [|by rewrite request_reached, Er].
  unfold reached in Er. destruct (exempt (URL_Path r)) eqn:Ee; [left; by apply (reached_exempt m r h id)|]. cbn [orb] in Er.
  destruct (validSession (request_token r) (sess_view c)) eqn:Ev; [|done]. right.
  pose proof (crun_live es c0 Hu Hf) as Hi. apply (valid_live uuid_New _ _ _ Hu Hi) in Ev as [d Hd].
  destruct (live_from c0 es (request_token r) d Hd) as (es1 & m1 & r1 & es2 & id1 & -> & H1 & H2 & H3 & H4 & H5).
  exists es1, m1, r1, es2, id1. split_and!; [done..|]. intros Hdue. rewrite <- H4. apply (Hdue d (request_token r)).
  destruct Hi as (_ & Ht & _). by apply Ht.
Qed.

(** ** The password *)

Lemma login_step_db e s : (forall r, e <> EvChange r) -> s_db (Session.step uuid_New s e) = s_db s.
Proof.
  intros He. destruct e as [r|r|r|d|k]; [| |by destruct (He r)|done|]; cbn [Session.step].
  - unfold handled. rewrite handleLogin_run. by destruct (login_ok r s).
  - unfold handled. rewrite handleLogout_run. by destruct (String.eqb (Authorization r) "").
  - unfold fire. destruct (timers s !! k) as [[due v]|]; [|done]. by destruct (due <=? now s).
Qed.

(** A request that changes the password gives the current one. *)
Lemma changes_inv r s p : changes r s = Some p ->
  exists q, DecodeBody r (zero (A := changeReq)) = inl q /\ db_Get adminPassword (s_db s) = inl (cr_CurrentPassword q) /\ p = cr_NewPassword q.
Proof.
  unfold changes. destruct (DecodeBody r zero) as [q|]; [|done]. destruct (db_Get adminPassword (s_db s)) as [x|]; [|done].
  destruct (String.eqb_spec (cr_CurrentPassword q) x) as [<-|]; [|done]. intros [= <-]. by exists q.
Qed.

Lemma change_step_db r s : let s' := Session.step uuid_New s (EvChange r) in
  db_Get adminPassword (s_db s') = db_Get adminPassword (s_db s) \/
  exists p, changes r s = Some p /\ db_Get adminPassword (s_db s') = inl p.
Proof.
  cbn [Session.step]. unfold handled. destruct (handleChange_run r s (new_writer None)) as [w' ->]. cbn [snd srv].
  destruct (changes r s) as [p|]; [|by left]. cbn [s_db set_s_db].
  destruct (db_Put adminPassword p (s_db s)) as [[e|] d'] eqn:Ed; cbn [snd].
  - left. by apply (put_failed _ _ _ _ _ Ed).
  - right. exists p. split; [done|]. by apply (put_get _ _ _ _ Ed).
Qed.

(** C35. The password changes only by its owner's request.  Whatever happens to
    the console, its stored password stays as it is (a store that cannot be read
    included), except in a request that the routes lead to the change of the
    password, that gives the stored one as the current one, and then it is the
    new one given. *)
Theorem console_password c e :
  let stored c := db_Get adminPassword (g_db (gw_core (c_gw c))) in
  stored (cstep c e) = stored c \/
  exists m r id p, e = CReq m r /\ reached c m r = Some (HChangePassword, id) /\
    (exists q, DecodeBody r (zero (A := changeReq)) = inl q /\ stored c = inl (cr_CurrentPassword q) /\ p = cr_NewPassword q) /\
    stored (cstep c e) = inl p.
Proof.
  cbn zeta. destruct e as [m r|d|k]; cbn [cstep]; [|by left|].
  - rewrite request_reached. destruct (reached c m r) as [[h id]|] eqn:Er; [|by left].
    destruct (decide (login_handler h)) as [Hh|Hh].
    + rewrite (dispatch_login _ _ _ Hh). destruct Hh as [->|[->| ->]]; cbn [login_event set_sess c_gw gw_core set_core g_db set_g_db].
      * left. by rewrite login_step_db.
      * destruct (change_step_db (bind_id id r) (sess_view c)) as [H|(p & H1 & H2)]; [by left|right].
        exists m, r, id, p. split_and!; [done|done|by apply (changes_inv (bind_id id r) (sess_view c))|done].
      * left. by rewrite login_step_db.
    + left. destruct (dispatch_keeps (db_Get adminPassword (g_db (gw_core (c_gw c)))) h (bind_id id r) c (new_writer None) Hh eq_refl) as (g & f & mn & -> & Hg).
      exact Hg.
  - left. pose proof (login_step_db (EvFire k) (sess_view c) ltac:(done)) as H. cbn [Session.step] in H.
    cbn [set_sess c_gw gw_core set_core g_db set_g_db]. by rewrite H.
Qed.

(** ** Strangers *)

(** Neither a session nor the password. *)
Definition stranger (c : Console) (r : Http.Request) : Prop :=
  validSession (request_token r) (sess_view c) = false /\ login_ok r (sess_view c) = false /\
  changes r (sess_view c) = None.

(** All but the sessions, and these up to entries that are none. *)
Definition same (c c' : Console) : Prop :=
  c_gw c' = c_gw c /\ c_fs c' = c_fs c /\ c_main c' = c_main c /\ c_timers c' = c_timers c /\ c_now c' = c_now c /\
  c_uuids c' = c_uuids c /\ forall t, session_get t (sess_view c') = session_get t (sess_view c).

Lemma same_refl c : same c c.
Proof. done. Qed.
Lemma same_trans c1 c2 c3 : same c1 c2 -> same c2 c3 -> same c1 c3.
Proof.
  intros (A1 & A2 & A3 & A4 & A5 & A6 & A7) (B1 & B2 & B3 & B4 & B5 & B6 & B7). split_and!; [congruence..|].
  intros t. by rewrite B7.
Qed.

Lemma stranger_same c c' r : same c c' -> stranger c r -> stranger c' r.
Proof.
  intros (E1 & _ & _ & _ & _ & _ & E2) (H1 & H2 & H3). split_and!.
  - unfold validSession in *. by rewrite E2.
  - unfold login_ok in *. cbn [s_db sess_view] in *. by rewrite E1.
  - unfold changes in *. cbn [s_db sess_view] in *. by rewrite E1.
Qed.

Lemma set_sess_self s c : s_db s = g_db (gw_core (c_gw c)) -> timers s = c_timers c -> now s = c_now c -> uuids s = c_uuids c ->
  (forall t, session_get t s = session_get t (sess_view c)) -> same c (set_sess s c).
Proof.
  intros E1 E2 E3 E4 E5. split_and!; cbn; [|done..|].
  - rewrite E1. destruct (c_gw c) as [[] ? ? ? ? ? ? ?]. done.
  - intros t. rewrite <- E5. done.
Qed.

Lemma stranger_step c m r : stranger c r -> same c (request m r c).
Proof.
  intros (Hv & Hl & Hc). rewrite request_reached. destruct (reached c m r) as [[h id]|] eqn:Er; [|done].
  unfold reached in Er. rewrite Hv, orb_false_r in Er. destruct (exempt (URL_Path r)) eqn:Ee; [|done].
  pose proof (reached_exempt m r h id Er Ee) as Hh. rewrite (dispatch_login _ _ _ Hh). destruct Hh as [->|[->| ->]]; cbn [login_event Session.step].
  - unfold handled. rewrite handleLogin_run, login_ok_id, Hl. by apply set_sess_self.
  - unfold handled. destruct (handleChange_run (bind_id id r) (sess_view c) (new_writer None)) as [w' ->].
    change (changes (bind_id id r) (sess_view c)) with (changes r (sess_view c)). rewrite Hc. by apply set_sess_self.
  - unfold handled. rewrite handleLogout_run. cbn [Authorization bind_id]. destruct (String.eqb_spec (Authorization r) "") as [|Ha]; [by apply set_sess_self|].
    apply set_sess_self; try done. intros t. cbn [snd srv]. rewrite session_get_delete. destruct (decide (t = Authorization r)) as [->|]; [|done].
    unfold request_token in Hv. destruct (String.eqb_spec (Authorization r) ""); [done|]. unfold validSession in Hv.
    destruct (String.eqb_spec (Authorization r) ""); [done|]. cbn [negb andb] in Hv. by rewrite Hv.
Qed.

(** C34. Strangers change nothing.  Requests that carry no live session and not
    the password, any number of them, with any method, path and body, leave the
    gateway's data, its listeners, routes and files, the process, and every
    session as they are. *)
Theorem strangers_change_nothing c rs : Forall (fun mr => stranger c mr.2) rs ->
  same c (crun (map (fun mr => CReq mr.1 mr.2) rs) c).
Proof.
  intros H. assert (Hs : forall c', same c c' -> same c (crun (map (fun mr => CReq mr.1 mr.2) rs) c')).
  { induction H as [|[m r] rs Hr _ IH]; intros c' Hc'; [done|]. cbn [map crun foldl]. apply IH. apply (same_trans _ c'); [done|].
    apply stranger_step. by apply (stranger_same c). }
  by apply Hs, same_refl.
Qed.
End Console.

(** * Concrete requests *)

#[local] Existing Instance ex_system.

Definition ex_unrouted (m path : string) (w : ResponseWriter) : ResponseWriter := http_Error "404 page not found" 404 w.
Abbreviation ex_console_t := (@Console memdb (node (routeItem PeerWithAuth)) ex_system).
Definition ex_console : ex_console_t :=
  mkConsole (set_core (set_g_db ex_db (gw_core ex_gw)) ex_gw) None [] 0 0 ex_fs true.
Abbreviation ex_events := (crun ex_rand (inl "host") ex_uuid ex_listen map_to_list map_to_list "peer" 2025 ex_get "linux" "amd64"
  (inl "/opt/uptp/gateway") "/tmp" "7" ex_unrouted).
Definition ex_post (path auth body : string) : Http.Request := Http.mkRequest path auth "" None "" body None.

(** A login, then the gateway is renamed and restarted; what a stranger asks for
    in between is refused. *)
Definition ex_history : list cevent :=
  [CReq "POST" (ex_post "/gateway/name" "" (Marshal (mkNameReq "mine")));
   CReq "POST" (ex_post "/login" "" (Marshal (mkLogin "admin" "admin123")));
   CReq "POST" (ex_post "/gateway/name" "u" (Marshal (mkNameReq "home")))].

Example ex_console_run :
  let c := ex_events ex_history ex_console in
  db_Get dbKeyGatewayName (g_db (gw_core (c_gw c))) = inl "home" /\ c_main c = true /\
  c_main (ex_events [CReq "GET" (ex_post "/gateway/restart" "u" "")] c) = false /\
  c_main (ex_events [CReq "POST" (ex_post "/gateway/restart" "u" "")] c) = true.
Proof. vm_compute. done. Qed.

Lemma console_authenticated_witness :
  reached (ex_events ex_history ex_console) "GET" (ex_post "/app/list" "u" "") = Some (HListApps, "") /\
  exists es1 m1 r1 es2, ex_history = es1 ++ CReq m1 r1 :: es2 /\ login_ok r1 (sess_view (ex_events es1 ex_console)) = true.
Proof.
  assert (Hr : reached (ex_events ex_history ex_console) "GET" (ex_post "/app/list" "u" "") = Some (HListApps, "")) by (vm_compute; reflexivity).
  split; [exact Hr|].
  pose proof (console_authenticated ex_rand (inl "host") ex_uuid ex_listen map_to_list map_to_list "peer" 2025 ex_get "linux" "amd64"
    (inl "/opt/uptp/gateway") "/tmp" "7" ex_unrouted ex_console ex_history "GET" (ex_post "/app/list" "u" "") ex_uuid_ok (conj eq_refl eq_refl)) as H.
  cbv zeta in H. rewrite Hr in H. destruct H as [[H|[H|H]]|(es1 & m1 & r1 & es2 & id1 & H1 & _ & H2 & _)]; [discriminate H..|].
  exists es1, m1, r1, es2. split; [exact H1|exact H2].
Defined.

(** Three strangers: a wrong password, an old token, a change without the
    password. *)
Definition ex_strangers : list (string * Http.Request) :=
  [("POST", ex_post "/login" "" (Marshal (mkLogin "admin" "letmein")));
   ("POST", ex_post "/app/delete" "uu" "{}");
   ("POST", ex_post "/login/change_password" "" (Marshal (mkChange "" "mine")))].

Lemma strangers_change_nothing_witness :
  same ex_console (ex_events (map (fun mr => CReq mr.1 mr.2) ex_strangers) ex_console).
Proof.
  apply (strangers_change_nothing ex_rand (inl "host") ex_uuid ex_listen map_to_list map_to_list "peer" 2025 ex_get "linux" "amd64"
    (inl "/opt/uptp/gateway") "/tmp" "7" ex_unrouted ex_console ex_strangers).
  repeat constructor; vm_compute; reflexivity.
Defined.

Lemma console_password_witness :
  let c := ex_events ex_history ex_console in
  let e := CReq "POST" (ex_post "/gateway/name" "u" (Marshal (mkNameReq "x"))) in
  let c' := cstep ex_rand (inl "host") ex_uuid ex_listen map_to_list map_to_list "peer" 2025 ex_get "linux" "amd64"
              (inl "/opt/uptp/gateway") "/tmp" "7" ex_unrouted c e in
  db_Get adminPassword (g_db (gw_core (c_gw c'))) = inl "admin123".
Proof.
  intros c e c'. assert (Hs : db_Get adminPassword (g_db (gw_core (c_gw c))) = inl "admin123") by (vm_compute; reflexivity).
  destruct (console_password ex_rand (inl "host") ex_uuid ex_listen map_to_list map_to_list "peer" 2025 ex_get "linux" "amd64"
    (inl "/opt/uptp/gateway") "/tmp" "7" ex_unrouted c e) as [H|(m & r & id & p & He & Hr & _)].
  - unfold c'. rewrite H. exact Hs.
  - exfalso. unfold e in He. injection He as <- <-. vm_compute in Hr. discriminate Hr.
Defined.
