(* ===== verification/Logger.v ===== *)
(** src/logger/log.go and src/logging/log.go: the logger that writes files and
    the console with a level, and its rotation by size; the package variable
    every component logs through.  The theorems: which messages are written
    and where, that rotation keeps the most recent lines and bounds the file,
    and the level for which the logger has no file to write to. *)
From S2P Require Import Prelude GoText GoOs.

Definition LevelAll : Z := 0.
Definition LevelDebug : Z := 1.
Definition LevelInfo : Z := 2.
Definition LevelWarn : Z := 3.
Definition LevelError : Z := 4.
Definition LevelNone : Z := 5.

Definition LogFileAndConsole : Z := 0.
Definition LogFile : Z := 1.
Definition LogConsole : Z := 2.

(** [lg] is the file log.Logger writes to, nil when there is none. *)
Record logger := mkLogger {
  lg : option File;
  logFile : option File;
  lineEnding : string;
  level : Z;
  maxLogSize : Z;
  pid : Z;
  logDir : string;
  mode : Z
}.

(** The process: its files and what its standard error received. *)
Record Proc := mkProc { fs : FS; console : string }.

Definition disk {A} (m : GoM FS A) : GoM Proc A := zoom fs (fun f p => mkProc f (console p)) m.
Definition print_console (s : string) : GoM Proc unit := modify (fun p => mkProc (fs p) (console p +:+ s)).

Section Logger.
(** Whether the system is Windows, the process's number, and the time as
    package log prints it. *)
Context (windows : bool) (Getpid : Z) (stamp : string).

(** [log.Fatal] ends the process, which is written as a panic.  Directories are
    not tracked: that [os.MkdirAll] failed shows when the file is opened. *)
Definition NewLogger (path filePrefix : string) (level maxLogSize mode : Z) : GoM Proc logger :=
  let le := if windows then String "013" (String "010" "") else String "010" "" in
  if negb (level =? LogConsole) then
    let logdir := if String.eqb path "" then "log/" else path +:+ "/log/" in
    let logFilePath := logdir +:+ filePrefix +:+ ".log" in
    f <- disk (OpenFile false logFilePath 420) ;;
    match f with
    | inr _ => panic
    | inl f =>
        disk (Chmod logFilePath 420) ;;;
        ret (mkLogger (Some f) (Some f) le level maxLogSize Getpid logdir mode)
    end
  else ret (mkLogger None None le level maxLogSize Getpid "" mode).

Definition SetLevel (lvl : Z) (l : logger) : logger :=
  mkLogger (lg l) (logFile l) (lineEnding l) lvl (maxLogSize l) (pid l) (logDir l) (mode l).

(** What package log writes for one call: its line ends in a line feed already. *)
Definition line (tag msg : string) (l : logger) : string :=
  stamp +:+ Itoa (pid l) +:+ " [" +:+ tag +:+ "] " +:+ msg +:+ lineEnding l.

(** The body the four methods share; [msg] is the formatted message.  Printing
    to a nil log.Logger panics; the errors of writes are dropped. *)
Definition log_at (lvl : Z) (tag msg : string) (l : logger) : GoM Proc unit :=
  if level l <=? lvl then
    (if (mode l =? LogFile) || (mode l =? LogFileAndConsole) then
       match lg l with
       | None => panic
       | Some f => disk (Write f (line tag msg l)) ;;; ret tt
       end
     else ret tt) ;;;
    (if (mode l =? LogConsole) || (mode l =? LogFileAndConsole) then print_console (line tag msg l) else ret tt)
  else ret tt.

Definition Debug := log_at LevelDebug "DBG".
Definition Info := log_at LevelInfo "INF".
Definition Warn := log_at LevelWarn "WRN".
Definition Error_ := log_at LevelError "ERR".

Definition set_output (f : File) (l : logger) : logger :=
  mkLogger (match lg l with Some _ => Some f | None => None end) (Some f) (lineEnding l) (level l) (maxLogSize l) (pid l) (logDir l) (mode l).

(** The errors of [Remove] and [Rename] are dropped. *)
Definition checkFile (l : logger) : GoM Proc logger :=
  match logFile l with
  | None => ret l
  | Some lf =>
      f <- disk (File_Stat lf) ;;
      match f with
      | inr _ => ret l
      | inl f =>
          if fi_Size f <=? maxLogSize l then ret l
          else
            let fname := fi_Name f in
            let backupPath := logDir l +:+ fname +:+ ".0" in
            disk (Close lf) ;;;
            disk (Remove backupPath) ;;;
            disk (Rename (logDir l +:+ fname) backupPath) ;;;
            newFile <- disk (OpenFile false (logDir l +:+ fname) 420) ;;
            match newFile with
            | inl newFile => ret (set_output newFile l)
            | inr _ => ret l
            end
      end
  end.

(** One minute of [checkFileLoop], which [NewLogger] starts unless the console
    is all the logger writes to, and which ends at once without a size. *)
Definition tick (l : logger) : GoM Proc logger :=
  if (mode l =? LogConsole) || (maxLogSize l <=? 0) then ret l else checkFile l.

(** A run of the program: messages and minutes. *)
Inductive event := Msg (lvl : Z) (tag msg : string) | Minute.

Fixpoint run (es : list event) (l : logger) : GoM Proc logger :=
  match es with
  | [] => ret l
  | Msg lvl tag msg :: es => log_at lvl tag msg l ;;; run es l
  | Minute :: es => l <- tick l ;; run es l
  end.

(** * The default logger of package logging

    The package's own logger writes to the standard output; every other one is
    a [logger]. *)
Inductive Logger := Builtin (lvl : Z) | Custom (l : logger).
Record Logging := mkLogging { DefaultLogger : option Logger; Output : string; proc : Proc }.

Definition valid_level (lvl : Z) : bool := (LevelAll <=? lvl) && (lvl <=? LevelNone).

Definition builtin_level (lvl : Z) (old : Z) : Z * string :=
  if valid_level lvl then (lvl, "") else (old, "invalid log level: " +:+ Itoa lvl).

(** [SetLevel] refuses what is no level before it asks the logger. *)
Definition logging_SetLevel (lvl : Z) : GoM Logging unit := fun g =>
  if valid_level lvl then
    match DefaultLogger g with
    | None => (Panic, g)
    | Some (Builtin old) => let '(n, out) := builtin_level lvl old in (Ret tt, mkLogging (Some (Builtin n)) (Output g +:+ out) (proc g))
    | Some (Custom l) => (Ret tt, mkLogging (Some (Custom (SetLevel lvl l))) (Output g) (proc g))
    end
  else (Ret tt, mkLogging (DefaultLogger g) (Output g +:+ "invalid log level: " +:+ Itoa lvl) (proc g)).

Definition SetLogger (l : logger) : GoM Logging unit :=
  modify (fun g => mkLogging (Some (Custom l)) (Output g) (proc g)).

(** The methods of the package's own logger: what goes to [Output]; [now] is
    the time in their format. *)
Definition builtin_at (now : string) (lvl : Z) (tag msg : string) (level : Z) : string :=
  if level <=? lvl then now +:+ " [" +:+ tag +:+ "] " +:+ msg +:+ String "010" "" else "".

(** [logging.Debug] and its like. *)
Definition logging_at (now : string) (lvl : Z) (tag msg : string) : GoM Logging unit := fun g =>
  match DefaultLogger g with
  | None => (Ret tt, g)
  | Some (Builtin old) => (Ret tt, mkLogging (DefaultLogger g) (Output g +:+ builtin_at now lvl tag msg old) (proc g))
  | Some (Custom l) => let '(o, p) := log_at lvl tag msg l (proc g) in (o, mkLogging (DefaultLogger g) (Output g) p)
  end.

(** * Lemmas *)

Definition to_file (l : logger) : bool := (mode l =? LogFile) || (mode l =? LogFileAndConsole).

Lemma disk_Ret {A} (m : GoM FS A) s c a s' : m s = (Ret a, s') -> disk m (mkProc s c) = (Ret a, mkProc s' c).
Proof. intros H. unfold disk, zoom. simpl. by rewrite H. Qed.

(** A log in order: its file, the one before it, and what was written since
    the start, of which [lost] is in neither. *)
Record in_order (path : string) (max : Z) (hist : string) (l : logger) (s : FS) : Prop := mkOrder {
  io_wf : wf s;
  io_faults : faults s = [];
  io_file : exists f x lost bak, logFile l = Some f /\ lg l = Some f /\ f_path f = path /\ holds f path s /\
    at_path path s = Some x /\ f_dir x = false /\
    match at_path (path +:+ ".0") s with Some y => f_dir y = false /\ f_data y = bak | None => bak = "" end /\
    hist = lost +:+ bak +:+ f_data x /\ (lost <> "" -> max < Z.of_nat (String.length bak));
  io_path : logDir l +:+ Base path = path;
  io_max : maxLogSize l = max;
  io_mode : to_file l = true
}.

Lemma bak_ne p : p <> p +:+ ".0".
Proof. intros E. apply (f_equal String.length) in E. rewrite string_length_app in E. simpl in E. lia. Qed.

(** Writing a line that passes the level. *)
Lemma log_in_order path max hist l s c lvl tag msg : in_order path max hist l s ->
  exists s' c', log_at lvl tag msg l (mkProc s c) = (Ret tt, mkProc s' c') /\
    in_order path max (if level l <=? lvl then hist +:+ line tag msg l else hist) l s'.
Proof.
  intros [W Hf (f & x & lost & bak & Hlf & Hlg & Hp & Hh & Hx & Hd & Hb & Hhist & Hlost) Hpath Hmax Hmode].
  unfold log_at. destruct (level l <=? lvl) eqn:El.
  2: { exists s, c. split; [done|]. split; [done..| |done|done|done]. by exists f, x, lost, bak. }
  unfold to_file in Hmode. rewrite Hmode, Hlg.
  destruct (Write_spec f path (line tag msg l) s x W Hh Hx) as (r & s' & n & E & H & F & A & R).
  destruct r as [r|]; [done|]. rewrite R in A.
  rewrite (bind_Ret _ _ _ _ _ (eq_trans (bind_Ret _ _ _ _ _ (disk_Ret _ s c _ _ E)) eq_refl)).
  assert (Hin : in_order path max (hist +:+ line tag msg l) l s').
  { split; [apply H|by apply (ok_faults _ _ H)| |done|done|done].
    exists f, (append_data (line tag msg l) x), lost, bak. split_and!; try done.
    - by apply (Write_holds _ _ _ _ _ _ E).
    - by rewrite (proj1 (F (path +:+ ".0") ltac:(pose proof (bak_ne path); set_solver))).
    - rewrite Hhist. unfold append_data. simpl. by rewrite !string_app_assoc. }
  destruct ((mode l =? LogConsole) || (mode l =? LogFileAndConsole)); by eexists _, _.
Qed.

(** A check of the size: the file is at most [max] long afterwards. *)
Lemma check_in_order path max hist l s c : in_order path max hist l s -> 0 <= max ->
  exists l' s', checkFile l (mkProc s c) = (Ret l', mkProc s' c) /\ in_order path max hist l' s' /\ level l' = level l /\
    mode l' = mode l /\ pid l' = pid l /\ lineEnding l' = lineEnding l /\
    exists x, at_path path s' = Some x /\ Z.of_nat (String.length (f_data x)) <= max.
Proof.
  intros [W Hf (f & x & lost & bak & Hlf & Hlg & Hp & Hh & Hx & Hd & Hb & Hhist & Hlost) Hpath Hmax Hmode] H0.
  unfold checkFile. rewrite Hlf.
  destruct (File_Stat_spec f path s x W Hh Hx) as (r & s1 & E1 & H1 & S1 & R1).
  rewrite (bind_Ret _ _ _ _ _ (disk_Ret _ s c _ _ E1)). destruct r as [i|e]; [|done]. subst i. rewrite Hp. cbn [info_of fi_Size fi_Name].
  pose proof (ok_wf _ _ H1) as W1. pose proof (ok_faults _ _ H1 Hf) as Hf1.
  assert (Hx1 : at_path path s1 = Some x) by (by rewrite (at_path_same path _ _ S1)).
  destruct (Z.leb_spec (Z.of_nat (String.length (f_data x))) (maxLogSize l)) as [Hle|Hgt].
  - exists l, s1. split; [done|]. split; [|split_and!; try done; exists x; split; [done|lia]].
    split; try done. exists f, x, lost, bak. split_and!; try done; [by apply (holds_same _ _ s)|by rewrite (at_path_same _ _ _ S1)].
  - rewrite Hpath. assert (Hbak : logDir l +:+ (Base path +:+ ".0") = path +:+ ".0") by (rewrite <- string_app_assoc; by rewrite Hpath).
    rewrite Hbak. pose proof (bak_ne path) as Hne.
    destruct (Close_spec f s1 W1) as (s2 & E2 & W2 & F2 & Hf2 & _).
    rewrite (bind_Ret _ _ _ _ _ (disk_Ret _ s1 c _ _ E2)). rewrite Hf1 in Hf2.
    destruct (Remove_spec (path +:+ ".0") s2 W2) as (r3 & s3 & E3 & H3 & P3).
    rewrite (bind_Ret _ _ _ _ _ (disk_Ret _ s2 c _ _ E3)).
    assert (H3' : frame [path +:+ ".0"] s2 s3 /\ at_path (path +:+ ".0") s3 = None).
    { destruct r3; [|done]. destruct P3 as [F3 P3]. split; [by apply frame_nil|].
      destruct P3 as [P3|P3]; [done|]. rewrite (proj1 (F3 (path +:+ ".0") ltac:(set_solver))). unfold at_path. by rewrite P3. }
    destruct H3' as [F3 A3]. pose proof (ok_faults _ _ H3 Hf2) as Hf3.
    assert (Hx3 : at_path path s3 = Some x).
    { rewrite (proj1 (F3 path ltac:(set_solver))). by rewrite (proj1 (F2 path ltac:(set_solver))). }
    destruct (Rename_spec path (path +:+ ".0") s3 x (ok_wf _ _ H3) Hne Hx3 Hd) as (r4 & s4 & E4 & H4 & P4).
    rewrite (bind_Ret _ _ _ _ _ (disk_Ret _ s3 c _ _ E4)).
    destruct r4 as [r4|]; [destruct P4 as [_ [P4|(y & Hy & _)]]; [done|congruence]|].
    destruct P4 as (F4 & Ab & Ao & _). pose proof (ok_faults _ _ H4 Hf3) as Hf4.
    destruct (OpenFile_spec false path 420 s4 (ok_wf _ _ H4)) as (r5 & s5 & E5 & H5 & P5).
    rewrite (bind_Ret _ _ _ _ _ (disk_Ret _ s4 c _ _ E5)).
    destruct r5 as [f5|e5]; [|destruct P5 as [_ [P5|(y & Hy & _)]]; [done|congruence]].
    destruct P5 as (Hp5 & Hh5 & F5 & A5 & _). rewrite Ao in A5.
    eexists _, s5. split; [done|]. split; [|split_and!; try done; eexists; split; [exact A5|simpl; lia]].
    split; [apply H5|by apply (ok_faults _ _ H5)| |done|done|done].
    exists f5, (mkFile "" (Z.land 420 (Z.lnot (umask s4))) false), (lost +:+ bak), (f_data x). cbn [set_output logFile lg].
    rewrite Hlg. split_and!; try done.
    + by rewrite (proj1 (F5 (path +:+ ".0") ltac:(set_solver))), Ab.
    + rewrite Hhist. simpl. by rewrite string_app_nil_r, string_app_assoc.
    + intros _. lia.
Qed.

(** The lines of a run that pass the level. *)
Fixpoint written (es : list event) (l : logger) : string :=
  match es with
  | [] => ""
  | Msg lvl tag msg :: es => (if level l <=? lvl then line tag msg l else "") +:+ written es l
  | Minute :: es => written es l
  end.

Lemma line_eq tag msg l l' : pid l' = pid l -> lineEnding l' = lineEnding l -> line tag msg l' = line tag msg l.
Proof. unfold line. by intros -> ->. Qed.

Lemma written_eq es l l' : pid l' = pid l -> lineEnding l' = lineEnding l -> level l' = level l -> written es l' = written es l.
Proof.
  intros Hp He Hl. induction es as [|[lvl tag msg|] es IH]; simpl; [done| |done].
  by rewrite IH, Hl, (line_eq _ _ _ _ Hp He).
Qed.

Lemma run_in_order es path max hist l s c : in_order path max hist l s -> 0 <= max ->
  exists l' s' c', run es l (mkProc s c) = (Ret l', mkProc s' c') /\ in_order path max (hist +:+ written es l) l' s' /\
    (forall es', es = es' ++ [Minute] -> 0 < max ->
       exists x, at_path path s' = Some x /\ Z.of_nat (String.length (f_data x)) <= max).
Proof.
  intros Hin H0. revert hist l s c Hin. induction es as [|[lvl tag msg|] es IH]; intros hist l s c Hin.
  - exists l, s, c. split; [done|]. split; [by rewrite string_app_nil_r|]. intros es' E. by apply app_cons_not_nil in E.
  - destruct (log_in_order path max hist l s c lvl tag msg Hin) as (s1 & c1 & E1 & H1).
    destruct (IH _ l s1 c1 H1) as (l' & s' & c' & E & H & Hm). exists l', s', c'.
    cbn [run written]. rewrite (bind_Ret _ _ _ _ _ E1). split; [done|]. split.
    + destruct (level l <=? lvl); [by rewrite string_app_assoc in H|done].
    + intros [|e es'] Ees; [done|]. injection Ees as _ Ees. by apply (Hm es').
  - cbn [run written]. assert (Hmode : (mode l =? LogConsole) = false).
    { pose proof (io_mode _ _ _ _ _ Hin) as Hm. unfold to_file in Hm.
      destruct (Z.eqb_spec (mode l) LogConsole) as [Em|]; [|done]. rewrite Em in Hm. done. }
    unfold tick at 1. rewrite Hmode. pose proof (io_max _ _ _ _ _ Hin) as Hmax. rewrite Hmax. cbn [orb].
    destruct (Z.leb_spec max 0) as [Hle|Hgt].
    + rewrite bind_ret. destruct (IH hist l s c Hin) as (l' & s' & c' & E & H & Hm). exists l', s', c'.
      split; [done|]. split; [done|]. intros; lia.
    + destruct (check_in_order path max hist l s c Hin H0) as (l1 & s1 & E1 & H1 & El & _ & Ep & Ee & Hsz).
      rewrite (bind_Ret _ _ _ _ _ E1). destruct (IH hist l1 s1 c H1) as (l' & s' & c' & E & H & Hm).
      exists l', s', c'. split; [done|]. split; [by rewrite <- (written_eq es l l1 Ep Ee El)|].
      intros [|e es'] Ees Hpos; [|injection Ees as _ Ees; by apply (Hm es')].
      injection Ees as ->. simpl in E. injection E as <- <- <-. done.
Qed.

Lemma log_path path prefix : no_char "/" prefix = true ->
  let logdir := if String.eqb path "" then "log/" else path +:+ "/log/" in
  logdir +:+ Base (logdir +:+ prefix +:+ ".log") = logdir +:+ prefix +:+ ".log".
Proof.
  intros Hp logdir. f_equal.
  assert (Hd : exists d, logdir = d +:+ "/").
  { unfold logdir. destruct (String.eqb path ""); [by exists "log"|]. exists (path +:+ "/log"). by rewrite string_app_assoc. }
  destruct Hd as [d ->]. rewrite string_app_assoc. apply Base_app. by rewrite no_char_app, Hp.
Qed.

(** C18. The log keeps its most recent lines.  A logger made over a fresh file, in
    any run of messages and minutes without faults of the system: every line
    that passes the level is written once and in order; the file before the
    current one and the current one hold an end of them all, and when something
    older was dropped the file before alone is longer than the limit; after each
    minute the current file is within the limit. *)
Theorem log_retention path prefix lvl max m es s c :
  wf s -> faults s = [] -> no_char "/" prefix = true -> 0 <= max -> lvl <> LogConsole -> m = LogFile \/ m = LogFileAndConsole ->
  let logdir := if String.eqb path "" then "log/" else path +:+ "/log/" in
  let file := logdir +:+ prefix +:+ ".log" in
  at_path file s = None -> at_path (file +:+ ".0") s = None ->
  exists l l' s' c', (l <- NewLogger path prefix lvl max m ;; l' <- run es l ;; ret (l, l')) (mkProc s c) = (Ret (l, l'), mkProc s' c') /\
  level l = lvl /\
  exists lost bak cur, written es l = lost +:+ bak +:+ cur /\
    bak = default "" (f_data <$> at_path (file +:+ ".0") s') /\ (f_data <$> at_path file s') = Some cur /\
    (lost <> "" -> max < Z.of_nat (String.length bak)) /\
    (forall es', es = es' ++ [Minute] -> 0 < max -> Z.of_nat (String.length cur) <= max).
Proof.
  intros W Hf Hpre H0 Hl Hm logdir file Hno Hno0. unfold NewLogger.
  destruct (Z.eqb_spec lvl LogConsole) as [?|_]; [done|]. cbn [negb]. cbv zeta. fold logdir. fold file.
  destruct (OpenFile_spec false file 420 s W) as (r & s1 & E1 & H1 & P1).
  rewrite bind_assoc, (bind_Ret _ _ _ _ _ (disk_Ret _ s c _ _ E1)). pose proof (ok_faults _ _ H1 Hf) as Hf1.
  destruct r as [f|e]; [|destruct P1 as [_ [P1|(y & Hy & _)]]; [done|congruence]].
  destruct P1 as (Hp & Hh & F1 & A1 & _). rewrite Hno in A1.
  destruct (Chmod_spec file 420 s1 _ (ok_wf _ _ H1) A1) as (r2 & s2 & E2 & H2 & F2 & P2).
  destruct r2 as [r2|]; [by destruct P2|].
  rewrite bind_assoc, (bind_Ret _ _ _ _ _ (disk_Ret _ s1 c _ _ E2)), bind_ret.
  set (l := mkLogger _ _ _ _ _ _ _ _).
  assert (Hin : in_order file max "" l s2).
  { split; [apply H2|by apply (ok_faults _ _ H2)| | |done|].
    - eexists f, _, "", "". split_and!; try done; [|].
      + by apply (Chmod_holds _ _ _ _ _ _ _ E2).
      + rewrite (proj1 (F2 (file +:+ ".0") ltac:(pose proof (bak_ne file); set_solver))).
        rewrite (proj1 (F1 (file +:+ ".0") ltac:(pose proof (bak_ne file); set_solver))). by rewrite Hno0.
    - unfold l. cbn [logDir]. by apply log_path.
    - unfold to_file, l. cbn [mode]. destruct Hm as [->| ->]; done. }
  destruct (run_in_order es file max "" l s2 c Hin H0) as (l' & s' & c' & E & H & Hmin).
  exists l, l', s', c'. split; [by rewrite (bind_Ret _ _ _ _ _ E)|]. split; [done|].
  destruct (io_file _ _ _ _ _ H) as (f' & x & lost & bak & _ & _ & _ & _ & Hx & _ & Hb & Hhist & Hlost).
  exists lost, bak, (f_data x). split_and!; [done| |by rewrite Hx|done|].
  - destruct (at_path (file +:+ ".0") s'); simpl; naive_solver.
  - intros es' Ees Hpos. destruct (Hmin es' Ees Hpos) as (y & Hy & Hsz). congruence.
Qed.

(** A logger made with the level [LevelInfo] has no file, because its level
    is taken for its mode: unless it writes to the console only, its first
    message that passes the level panics. *)
Theorem info_level_crashes path prefix max m tag msg lvl p : m = LogFile \/ m = LogFileAndConsole -> LevelInfo <= lvl ->
  ((l <- NewLogger path prefix LevelInfo max m ;; log_at lvl tag msg l) p).1 = Panic.
Proof.
  intros Hm Hl. unfold NewLogger. change (negb (LevelInfo =? LogConsole)) with false. cbv iota zeta. rewrite bind_ret.
  unfold log_at. cbn [level mode lg]. rewrite (proj2 (Z.leb_le _ _) Hl). by destruct Hm as [->| ->].
Qed.

End Logger.

(** Three messages and two minutes, with a limit of 20 bytes. *)
Definition ex_fs : FS := mkFS ∅ ∅ ∅ 0 18 [].
Definition ex_run : list event :=
  [Msg LevelError "ERR" "first"; Minute; Msg LevelDebug "DBG" "dropped"; Msg LevelWarn "WRN" "second"; Minute].

Lemma ex_fs_wf : wf ex_fs.
Proof. by split. Qed.

Lemma log_retention_witness : exists l l' s' c',
  (l <- NewLogger false 7 "." "uptp" LevelWarn 20 LogFile ;; l' <- run "T " ex_run l ;; ret (l, l')) (mkProc ex_fs "") =
    (Ret (l, l'), mkProc s' c') /\
  (f_data <$> at_path "./log/uptp.log.0" s') = Some (line "T " "ERR" "first" l +:+ line "T " "WRN" "second" l) /\
  exists cur, (f_data <$> at_path "./log/uptp.log" s') = Some cur /\ Z.of_nat (String.length cur) <= 20.
Proof.
  destruct (log_retention false 7 "T " "." "uptp" LevelWarn 20 LogFile ex_run ex_fs "" ex_fs_wf eq_refl eq_refl ltac:(lia)
     ltac:(discriminate) (or_introl eq_refl) eq_refl eq_refl) as (l & l' & s' & c' & E & _ & lost & bak & cur & _ & _ & Hc & _ & Hm).
  exists l, l', s', c'. split; [exact E|]. split.
  - vm_compute in E. injection E as <- <- <- <-. vm_compute. reflexivity.
  - exists cur. split; [exact Hc|]. apply (Hm [Msg LevelError "ERR" "first"; Minute; Msg LevelDebug "DBG" "dropped"; Msg LevelWarn "WRN" "second"]); [reflexivity|lia].
Defined.
