(* ===== verification/Identity.v ===== *)
(** The identity of a node: the file [uuid] whose first 32 bytes are the seed of
    its key, as [Gateway.Run] (src/gateway/gateway.go, lines 122-145), the
    agent's [start] (src/agent/agent.go, lines 66-86) and the bootstrap node
    (src/bootstrap/main.go, lines 29-47) load or make it.  The theorem: a node
    keeps its identity over every restart, unless reading the file fails. *)
From S2P Require Import Prelude GoText GoOs.

Definition SeedSize : nat := 32.

(** [strings.Replace(s, "-", "", -1)] *)
Fixpoint remove_dashes (s : string) : string :=
  match s with
  | "" => ""
  | String c s' => if Ascii.eqb c "-" then remove_dashes s' else String c (remove_dashes s')
  end.

(** What is returned instead of a seed: an error, or nil. *)
Definition wrap (op path : string) (e : errno) : error := ErrText (op +:+ " " +:+ path +:+ ": " +:+ strerror e).

(** [NewRandom] is the text of [uuid.NewRandom].  A text too short would end
    the start with the nil error of its own call. *)
Definition load_seed (path : string) (NewRandom : string + error) : GoM FS (string + option error) :=
  us <- ReadFile path ;;
  let missing := match us with inr e => Some e | inl _ => None end in
  if IsExist missing then ret (inr (wrap "open" path <$> missing))
  else
    let us := match us with inl us => us | inr _ => "" end in
    if (String.length us <? SeedSize)%nat then
      match NewRandom with
      | inr e => ret (inr (Some e))
      | inl u =>
          let str := remove_dashes u in
          if (String.length str <? SeedSize)%nat then ret (inr None)
          else
            err <- WriteFile path str 420 ;;
            match err with
            | Some e => ret (inr (Some (wrap "open" path e)))
            | None => ret (inl str)
            end
      end
    else ret (inl us).

(** * Lemmas *)

(** Texts of the form of a uuid. *)
Definition is_uuid (u : string) : Prop := String.length (remove_dashes u) = SeedSize.

Lemma ReadFile_spec path s : wf s -> exists r s', ReadFile path s = (Ret r, s') /\ step_ok s s' /\ same_files s s' /\
  match r with
  | inl d => exists x, at_path path s = Some x /\ f_dir x = false /\ d = f_data x
  | inr _ => faults s <> [] \/ forall x, at_path path s = Some x -> f_dir x = true
  end.
Proof.
  intros W. unfold ReadFile.
  match goal with |- context [syscall ?k s] =>
    destruct (syscall_step k s W) as (s1 & E & H1 & W1 & [(e & -> & Hf)| ->]) end.
  { exists (inr e), s1. split_and!; [done..|by left]. }
  rewrite (node_same path _ _ E), (node_at path s). destruct (node path s) as [[i x]|] eqn:En; cbn [snd fmap option_fmap option_map].
  - destruct (f_dir x) eqn:Ed.
    + exists (inr EISDIR), s1. split_and!; [done..|]. right. by intros y [= <-].
    + exists (inl (f_data x)), s1. split_and!; [done..|]. by exists x.
  - exists (inr ENOENT), s1. split_and!; [done..|]. by right.
Qed.

Lemma WriteFile_spec path d perm s : wf s -> faults s = [] -> (forall x, at_path path s = Some x -> f_dir x = false) ->
  exists s', WriteFile path d perm s = (Ret None, s') /\ wf s' /\ faults s' = [] /\ frame [path] s s' /\
    exists m, at_path path s' = Some (mkFile d m false).
Proof.
  intros W Hf Hd. unfold WriteFile.
  destruct (OpenFile_spec true path perm s W) as (r & s1 & E1 & H1 & P1). rewrite (bind_Ret _ _ _ _ _ E1).
  destruct r as [f|e]; [|destruct P1 as [_ [P1|(x & Hx & Hdx)]]; [done|rewrite (Hd x Hx) in Hdx; done]].
  destruct P1 as (_ & Hh & F1 & A1 & _). pose proof (ok_faults _ _ H1 Hf) as Hf1.
  assert (Hx1 : exists m, at_path path s1 = Some (mkFile "" m false)).
  { rewrite A1. destruct (at_path path s) as [x|] eqn:Ex; [|by eexists]. rewrite (Hd x eq_refl). by eexists. }
  destruct Hx1 as (m & Hx1).
  destruct (Write_spec f path d s1 _ (ok_wf _ _ H1) Hh Hx1) as (r2 & s2 & n & E2 & H2 & F2 & A2 & P2).
  rewrite (bind_Ret _ _ _ _ _ E2). destruct r2; [done|].
  destruct (Close_spec f s2 (ok_wf _ _ H2)) as (s3 & E3 & W3 & F3 & Hf3 & _). rewrite (bind_Ret _ _ _ _ _ E3).
  exists s3. split; [done|]. split_and!; [done|by rewrite Hf3, (ok_faults _ _ H2)| |].
  - eapply frame_trans; [done|]. eapply frame_trans; [done|by apply frame_nil].
  - exists m. rewrite (proj1 (F3 path ltac:(set_solver))), A2. unfold append_data. simpl. by rewrite P2.
Qed.

(** The starts of a node, each with the text its random source would give and
    with a system of its own; the files persist. *)
Fixpoint seeds (path : string) (us : list string) : GoM FS (list (string + option error)) :=
  match us with
  | [] => ret []
  | u :: us => r <- load_seed path (inl u) ;; rs <- seeds path us ;; ret (r :: rs)
  end.

(** A seed that is there stays. *)
Lemma seed_stays path us s x : wf s -> faults s = [] -> at_path path s = Some x -> f_dir x = false ->
  (SeedSize <= String.length (f_data x))%nat ->
  exists s', seeds path us s = (Ret (map (fun _ => inl (f_data x)) us), s') /\ frame [path] s s'.
Proof.
  revert s x. induction us as [|u us IH]; intros s x W Hf Hx Hd Hl; [exists s; split; [done|by apply frame_same]|].
  destruct (ReadFile_spec path s W) as (r & s1 & E1 & H1 & S1 & P1). cbn [seeds]. unfold load_seed at 1.
  rewrite bind_assoc, (bind_Ret _ _ _ _ _ E1). destruct r as [d|e].
  2: { destruct P1 as [P1|P1]; [done|]. rewrite (P1 x Hx) in Hd. done. }
  destruct P1 as (y & Hy & _ & ->). assert (y = x) as -> by congruence. cbn [IsExist].
  rewrite (proj2 (Nat.ltb_ge _ _) Hl), bind_ret.
  destruct (IH s1 x (ok_wf _ _ H1) (ok_faults _ _ H1 Hf) ltac:(by rewrite (at_path_same _ _ _ S1)) Hd Hl) as (s2 & E2 & F2).
  rewrite (bind_Ret _ _ _ _ _ E2). exists s2. split; [done|]. eapply frame_trans; [by apply frame_same|done].
Qed.

(** C22. A node keeps its identity.  Over a machine without faults, whatever the
    random source gives at each start: the first start makes a seed of 32 bytes
    when the file holds no seed, and otherwise uses the file's; every later start
    uses the same seed, and no other file changes. *)
Theorem identity_kept path us s :
  wf s -> faults s = [] -> (forall x, at_path path s = Some x -> f_dir x = false) -> Forall is_uuid us -> us <> [] ->
  exists seed s', seeds path us s = (Ret (map (fun _ => inl seed) us), s') /\ frame [path] s s' /\
    (SeedSize <= String.length seed)%nat /\
    (forall x, at_path path s = Some x -> (SeedSize <= String.length (f_data x))%nat -> seed = f_data x).
Proof.
  intros W Hf Hd Hus Hne.
  destruct us as [|u us]; [done|]. apply Forall_cons in Hus as [Hu Hus].
  destruct (at_path path s) as [x|] eqn:Ex; [destruct (decide (SeedSize <= String.length (f_data x))%nat) as [Hl|Hl]|].
  { destruct (seed_stays path (u :: us) s x W Hf Ex (Hd x eq_refl) Hl) as (s' & E & F). exists (f_data x), s'.
    split_and!; [done..|]. by intros ? [= <-]. }
  all: destruct (ReadFile_spec path s W) as (r & s1 & E1 & H1 & S1 & P1); cbn [seeds]; unfold load_seed at 1;
    rewrite bind_assoc, (bind_Ret _ _ _ _ _ E1);
    assert (Hd1 : forall x, at_path path s1 = Some x -> f_dir x = false)
      by (intros y Hy; rewrite (at_path_same _ _ _ S1), Ex in Hy; by apply Hd);
    destruct (WriteFile_spec path (remove_dashes u) 420 s1 (ok_wf _ _ H1) (ok_faults _ _ H1 Hf) Hd1)
      as (s2 & E2 & W2 & Hf2 & F2 & m & A2);
    assert (Hu2 : (SeedSize <= String.length (remove_dashes u))%nat) by (unfold is_uuid in Hu; lia);
    destruct (seed_stays path us s2 _ W2 Hf2 A2 eq_refl Hu2) as (s3 & E3 & F3);
    exists (remove_dashes u), s3.
  - destruct r as [d|e]; [|destruct P1 as [P1|P1]; [done|]; specialize (Hd x eq_refl); by rewrite (P1 x Ex) in Hd].
    destruct P1 as (y & Hy & _ & ->). assert (y = x) as -> by congruence. cbn [IsExist].
    rewrite (proj2 (Nat.ltb_lt _ _)) by lia. rewrite (proj2 (Nat.ltb_ge _ _) Hu2), bind_assoc, (bind_Ret _ _ _ _ _ E2), bind_ret.
    rewrite (bind_Ret _ _ _ _ _ E3). split_and!; [done| |done|by intros y [= <-]].
    eapply frame_trans; [by apply frame_same|]. by eapply frame_trans.
  - destruct r as [d|e]; [by destruct P1 as (y & Hy & _); congruence|].
    assert (He : IsExist (Some e) = false).
    { clear -E1 Hf Ex W. unfold ReadFile, syscall, fate, bind in E1. rewrite Hf in E1.
      destruct (node path s) as [[i y]|] eqn:En.
      - rewrite (node_at path s), En in Ex. done.
      - by injection E1 as <- _. }
    rewrite He. change (String.length "" <? SeedSize)%nat with true. cbv iota.
    rewrite (proj2 (Nat.ltb_ge _ _) Hu2), bind_assoc, (bind_Ret _ _ _ _ _ E2), bind_ret.
    rewrite (bind_Ret _ _ _ _ _ E3). split_and!; [done| |done|done].
    eapply frame_trans; [by apply frame_same|]. by eapply frame_trans.
Qed.

(** A read that fails, for whatever reason but the ones [os.IsExist] names,
    which no read has, replaces the identity: a node with a seed gets a new one
    and its file is overwritten. *)
Theorem identity_lost path u s x n e :
  wf s -> at_path path s = Some x -> f_dir x = false -> faults s = [Some (mkFault n e)] -> IsExist (Some e) = false -> is_uuid u ->
  exists s' m, load_seed path (inl u) s = (Ret (inl (remove_dashes u)), s') /\ at_path path s' = Some (mkFile (remove_dashes u) m false).
Proof.
  intros W Hx Hd Hf He Hu. set (s1 := set_faults [] s).
  assert (E1 : ReadFile path s = (Ret (inr e), s1)) by (unfold ReadFile, syscall, fate, bind; by rewrite Hf).
  unfold load_seed. rewrite (bind_Ret _ _ _ _ _ E1), He. change (String.length "" <? SeedSize)%nat with true. cbv iota.
  assert (Hu2 : (SeedSize <= String.length (remove_dashes u))%nat) by (unfold is_uuid in Hu; lia).
  rewrite (proj2 (Nat.ltb_ge _ _) Hu2).
  pose proof (same_files_set_faults [] s) as S1.
  destruct (WriteFile_spec path (remove_dashes u) 420 s1 (wf_same _ _ S1 W) eq_refl) as (s2 & E2 & W2 & Hf2 & F2 & m & A2).
  { intros y Hy. rewrite (at_path_same _ _ _ S1) in Hy. congruence. }
  rewrite (bind_Ret _ _ _ _ _ E2). by exists s2, m.
Qed.

Definition ex_uuid : string := "f47ac10b-58cc-4372-a567-0e02b2c3d479".
Definition ex_uuid2 : string := "00000000-0000-4000-8000-000000000000".
Definition ex_empty : FS := mkFS ∅ ∅ ∅ 0 18 [].

Lemma identity_kept_witness : exists s',
  seeds "uuid" [ex_uuid; ex_uuid2; ex_uuid2] ex_empty =
    (Ret [inl "f47ac10b58cc4372a5670e02b2c3d479"; inl "f47ac10b58cc4372a5670e02b2c3d479"; inl "f47ac10b58cc4372a5670e02b2c3d479"], s').
Proof.
  destruct (identity_kept "uuid" [ex_uuid; ex_uuid2; ex_uuid2] ex_empty ltac:(by split) eq_refl ltac:(by intros x Hx)
    ltac:(repeat constructor) ltac:(discriminate)) as (seed & s' & E & _). exists s'. rewrite E. f_equal. f_equal.
  vm_compute in E. injection E as <- _. reflexivity.
Defined.
