(* ===== verification/P2p.v ===== *)
(** src/p2pengine: the libp2p host and its table of peers that every node runs
    on.  libp2p's and leveldb's constructors are parameters that may fail; what
    is modelled is what the engine asks of them, in which order, and what it
    leaves open when one fails; the noise transport's constructor
    (p2pengine/noise.go) and the goroutine that forgets peers.  The theorems: a
    failed start closes its host, and the port it reports; all nodes agree on
    what they must share; which peers are forgotten. *)
From S2P Require Import Prelude GoText GoIo GoOs Identity.

(** A multiaddress: its components with their values, in order. *)
Abbreviation Multiaddr := (list (string * string)).

Definition ValueForProtocol (p : string) (a : Multiaddr) : option string :=
  snd <$> find (fun c => String.eqb c.1 p) a.

(** The loop over the host's addresses, [realPort] being the variable so far. *)
Fixpoint real_port (addrs : list Multiaddr) (realPort : Z) : Z :=
  match addrs with
  | [] => realPort
  | addr :: addrs =>
      match ValueForProtocol "ip6" addr with
      | None => real_port addrs realPort
      | Some _ =>
          match ValueForProtocol "tcp" addr with
          | None => real_port addrs realPort
          | Some tcp =>
              match Atoi tcp with
              | (realPort, Some _) => real_port addrs realPort
              | (realPort, None) => realPort
              end
          end
      end
  end.

(** * The noise transport

    Its constructor over the library's: [noise_New] and [WithSessionOptions]. *)
Definition NoisePrologue : string := "uptp-noise".
Inductive SessionOption := Prologue (p : bytes).

Section Noise.
Context {Transport SessionTransport : Type}.
Context (noise_New : string -> string -> list string -> Transport + error)
        (WithSessionOptions : Transport -> list SessionOption -> SessionTransport + error).

Definition NewSessionTransport (id privkey : string) (muxers : list string) : SessionTransport + error :=
  match noise_New id privkey muxers with
  | inr e => inr e
  | inl transport => WithSessionOptions transport [Prologue (bytes_of_string NoisePrologue)]
  end.
End Noise.

(** * The engine

    What the host is configured with; [o_prologue] is what its connections are
    secured with. *)
Record Options := mkOptions {
  o_key : string;
  o_client : bool;
  o_unlimited : bool;
  o_listen : list string;
  o_prologue : string
}.
(** What the table of peers is configured with. *)
Record DhtOptions := mkDhtOptions {
  do_prefix : string;
  do_server : bool;
  do_bootstrap : bool;
  do_store : option string
}.

(** The machine: its files, the hosts and the stores of peers this process has
    open, and the log file libp2p writes. *)
Record Net := mkNet { n_fs : FS; hosts : gmap nat Options; stores : gset string; next_host : nat }.

Record P2PEngine := mkP2P { p_host : nat; p_mode_client : bool; p_store : option string; realPort : Z }.

Section Engine.
(** The constructors: of the store of peers, of the key from its seed, of the
    resource manager, of a host (its addresses) and of the table of peers. *)
Context (NewDatastore : string -> gset string -> option error)
        (GenerateEd25519Key : string -> string + error)
        (NewResourceManager : option error)
        (libp2p_New : Options -> gmap nat Options -> list Multiaddr + error)
        (dht_New : Options -> DhtOptions -> option error).

Definition os {A} (m : GoM FS A) : GoM Net A := zoom n_fs (fun f n => mkNet f (hosts n) (stores n) (next_host n)) m.

Definition open_store (path : string) : GoM Net (option error) := fun n =>
  match NewDatastore path (stores n) with
  | Some e => (Ret (Some e), n)
  | None => (Ret None, mkNet (n_fs n) (hosts n) ({[ path ]} ∪ stores n) (next_host n))
  end.

Definition open_host (o : Options) : GoM Net ((nat * list Multiaddr) + error) := fun n =>
  match libp2p_New o (hosts n) with
  | inr e => (Ret (inr e), n)
  | inl addrs => (Ret (inl (next_host n, addrs)), mkNet (n_fs n) (<[next_host n := o]> (hosts n)) (stores n) (S (next_host n)))
  end.
Definition close_host (h : nat) : GoM Net unit := modify (fun n => mkNet (n_fs n) (delete h (hosts n)) (stores n) (next_host n)).

Definition listen_addrs (clientMode : bool) (listenPort : Z) : list string :=
  if clientMode then [] else ["/ip6/::/tcp/" +:+ Itoa listenPort].

(** [opts] *)
Definition engine_options (priv : string) (clientMode unlimited : bool) (listenPort : Z) : Options :=
  mkOptions priv clientMode unlimited (listen_addrs clientMode listenPort) NoisePrologue.

(** [dhtOpt]; its filters let everything pass. *)
Definition dht_options (clientMode : bool) (ds : option string) : DhtOptions :=
  mkDhtOptions "/uptp" (negb clientMode) true ds.

(** The deferred call closes the host when the function ends with an error. *)
Definition NewP2PEngine (listenPort : Z) (seed logFile dhtDBPath : string) (clientMode : bool) : GoM Net (P2PEngine + error) :=
  os (Remove logFile) ;;;
  if (String.length seed <? SeedSize)%nat then ret (inr (ErrText "wrong seed"))
  else
    err <- (if String.eqb dhtDBPath "" then ret None else open_store dhtDBPath) ;;
    match err with
    | Some e => ret (inr e)
    | None =>
        match GenerateEd25519Key (String.substring 0 SeedSize seed) with
        | inr e => ret (inr e)
        | inl priv =>
            let unlimited := negb clientMode && bool_decide (NewResourceManager = None) in
            let opts := engine_options priv clientMode unlimited listenPort in
            h <- open_host opts ;;
            match h with
            | inr e => ret (inr e)
            | inl (h, addrs) =>
                let port := real_port addrs 0 in
                let ds := if String.eqb dhtDBPath "" then None else Some dhtDBPath in
                match dht_New opts (dht_options clientMode ds) with
                | Some e => close_host h ;;; ret (inr e)
                | None => ret (inl (mkP2P h clientMode ds port))
                end
            end
        end
    end.

(** [Libp2pHost], [GetListenPort] and [Close]: the table of peers keeps its store
    open. *)
Definition Libp2pHost (pe : P2PEngine) : nat := p_host pe.
Definition GetListenPort (pe : P2PEngine) : Z := realPort pe.
Definition Close (pe : P2PEngine) : GoM Net unit := close_host (p_host pe).

(** The bootstrap peers: every address that can be parsed. *)
Definition bootstrapFunc {A} (AddrInfoFromString : string -> A + error) (addrs : list string) : list A :=
  omap (fun b => match AddrInfoFromString b with inl a => Some a | inr _ => None end) addrs.

(** One event of [listenAndHandleConnectEvent]: a peer that is not connected
    any more is forgotten. *)
Definition handle_event (connected : bool) (peer : string) (peerstore : gset string) : gset string :=
  if connected then peerstore else peerstore ∖ {[ peer ]}.

(** The goroutine: [sub] is the subscription, [None] when subscribing failed; the
    error is logged and the nil subscription used. *)
Definition listenAndHandleConnectEvent (sub : option (list (bool * string))) : GoM (gset string) unit :=
  match sub with
  | None => panic
  | Some evs => for_range evs (fun '(connected, peer) => modify (handle_event connected peer))
  end.

(** C23. Starting the engine leaks no host and loses no port.  Whatever fails, a
    start that returns an error leaves the open hosts as they were; a start that
    succeeds has opened exactly one, with the key of the first 32 bytes of the
    seed, listening on the port asked for unless it is a client; the port it
    reports is the one of the host's IPv6 addresses with a TCP port, when they
    agree on one.  The store of peers stays open even when the start failed. *)
Theorem engine_start listenPort seed logFile dhtDBPath clientMode n : hosts n !! next_host n = None ->
  exists r n', NewP2PEngine listenPort seed logFile dhtDBPath clientMode n = (Ret r, n') /\
  match r with
  | inr e => hosts n' = hosts n /\ stores n ⊆ stores n'
  | inl pe => (SeedSize <= String.length seed)%nat /\
      exists priv addrs o, GenerateEd25519Key (String.substring 0 SeedSize seed) = inl priv /\
        o_key o = priv /\ o_listen o = listen_addrs clientMode listenPort /\ libp2p_New o (hosts n) = inl addrs /\
        hosts n' = <[p_host pe := o]> (hosts n) /\ hosts n !! p_host pe = None /\
        (forall p, (exists a ip, a ∈ addrs /\ ValueForProtocol "ip6" a = Some ip /\ ValueForProtocol "tcp" a = Some (Itoa p)) ->
           is_s64 p -> (forall a t, a ∈ addrs -> ValueForProtocol "ip6" a <> None -> ValueForProtocol "tcp" a = Some t -> t = Itoa p) ->
           GetListenPort pe = p) /\
        (hosts (Close pe n').2 = hosts n)
  end.
Proof.
  intros Hfree. unfold NewP2PEngine.
  destruct (os (Remove logFile) n) as [o n1] eqn:E1.
  assert (Hn1 : (exists e, o = Ret e) /\ hosts n1 = hosts n /\ stores n1 = stores n /\ next_host n1 = next_host n).
  { unfold os, zoom in E1. destruct (Remove logFile (n_fs n)) as [o' f] eqn:E. injection E1 as <- <-. cbn. split; [|done].
    unfold Remove, err_only, syscall, fate, bind in E.
    destruct (faults (n_fs n)) as [|[x|] l]; [|by injection E as <- _; eexists|];
      (destruct (names _ !! logFile); injection E as <- _; by eexists). }
  destruct Hn1 as ((e1 & ->) & Hh1 & Hs1 & Hx1). rewrite (bind_Ret _ _ _ _ _ E1).
  destruct (Nat.ltb_spec (String.length seed) SeedSize) as [Hl|Hl].
  { exists (inr (ErrText "wrong seed")), n1. split; [done|]. by rewrite Hh1, Hs1. }
  assert (H2 : exists err n2, (if String.eqb dhtDBPath "" then ret None else open_store dhtDBPath) n1 = (Ret err, n2) /\
    hosts n2 = hosts n /\ stores n ⊆ stores n2 /\ next_host n2 = next_host n).
  { destruct (String.eqb dhtDBPath ""); [exists None, n1; split; [done|]; by rewrite Hh1, Hs1, Hx1|].
    unfold open_store. destruct (NewDatastore dhtDBPath (stores n1)); (eexists _, _; split; [reflexivity|]); cbn;
      rewrite ?Hh1, ?Hs1, ?Hx1; split_and!; try done; set_solver. }
  destruct H2 as (err & n2 & E2 & Hh2 & Hs2 & Hx2). rewrite (bind_Ret _ _ _ _ _ E2).
  destruct err as [e|]; [by exists (inr e), n2|].
  destruct (GenerateEd25519Key (String.substring 0 SeedSize seed)) as [priv|e] eqn:Ek; [|by exists (inr e), n2].
  set (o := engine_options _ _ _ _). unfold open_host at 1, bind at 1. rewrite Hh2.
  destruct (libp2p_New o (hosts n)) as [addrs|e] eqn:En; [|by exists (inr e), n2].
  rewrite Hx2. destruct (dht_New o _) as [e|].
  { eexists (inr e), _. split; [reflexivity|]. cbn. by rewrite delete_insert_id. }
  eexists (inl _), _. split; [reflexivity|]. split; [done|]. exists priv, addrs, o. split_and!; [done..| | |].
  - cbn. done.
  - intros p (a & ip & Ha & Hip & Htcp) Hp Hall. cbn. clear -Ha Hip Htcp Hp Hall. generalize 0.
    induction addrs as [|b addrs IH]; intros acc; [by apply not_elem_of_nil in Ha|]. cbn [real_port].
    destruct (ValueForProtocol "ip6" b) as [ipb|] eqn:Eb.
    + destruct (ValueForProtocol "tcp" b) as [t|] eqn:Et.
      * rewrite (Hall b t ltac:(by left) ltac:(by rewrite Eb) Et). by rewrite Atoi_Itoa.
      * apply IH; [|by intros; apply (Hall a0 t); [right|..]]. apply elem_of_cons in Ha as [->|Ha]; [congruence|done].
    + apply IH; [|by intros; apply (Hall a0 t); [right|..]]. apply elem_of_cons in Ha as [->|Ha]; [congruence|done].
  - cbn. by rewrite delete_insert_id.
Qed.
End Engine.

(** ** Peers

    The addresses known after the goroutine has seen [evs]: those before, but for
    the peers that lost their connection. *)
Lemma peers_forgotten evs s : listenAndHandleConnectEvent (Some evs) s = (Ret tt, (listenAndHandleConnectEvent (Some evs) s).2) /\
  forall p, p ∈ (listenAndHandleConnectEvent (Some evs) s).2 <-> p ∈ s /\ (false, p) ∉ evs.
Proof.
  cbn [listenAndHandleConnectEvent]. revert s. induction evs as [|[b q] evs IH]; intros s.
  - split; [done|]. intros p. cbn. split; [intros H; split; [done|apply not_elem_of_nil]|by intros [? _]].
  - cbn [for_range]. unfold bind, modify. destruct (IH (handle_event b q s)) as [H1 H2]. split; [exact H1|].
    intros p. rewrite H2, not_elem_of_cons. unfold handle_event. destruct b.
    + split; [intros [? ?]; by split_and!|by intros (? & _ & ?)].
    + rewrite elem_of_difference, elem_of_singleton. split.
      * intros [[? Hn] ?]. split_and!; [done| |done]. congruence.
      * intros (? & Hn & ?). split_and!; [done| |done]. congruence.
Qed.

(** Without a subscription the goroutine ends the process. *)
Lemma no_subscription s : listenAndHandleConnectEvent None s = (Panic, s).
Proof. done. Qed.

(** A gateway that listens on port 2025. *)
Definition ex_addrs : list Multiaddr := [[("ip4", "10.0.0.7"); ("tcp", "2025")]; [("ip6", "fe80::1"); ("tcp", "2025")]].
Definition ex_net : Net := mkNet ex_empty ∅ ∅ 0.

Lemma engine_start_witness : exists pe n',
  NewP2PEngine (fun _ _ => None) inl None (fun _ _ => inl ex_addrs) (fun _ _ => None) 2025
    "f47ac10b58cc4372a5670e02b2c3d479" "libp2p.log" "dht.db" false ex_net = (Ret (inl pe), n') /\ GetListenPort pe = 2025.
Proof.
  destruct (engine_start (fun _ _ => None) inl None (fun _ _ => inl ex_addrs) (fun _ _ => None) 2025
    "f47ac10b58cc4372a5670e02b2c3d479" "libp2p.log" "dht.db" false ex_net eq_refl) as (r & n' & E & H).
  destruct r as [pe|e]; [|by vm_compute in E]. exists pe, n'. split; [exact E|].
  destruct H as (_ & priv & addrs & o & _ & _ & _ & Ha & _ & _ & Hp & _). injection Ha as <-.
  apply (Hp 2025); [|vm_compute; split; congruence|].
  - exists [("ip6", "fe80::1"); ("tcp", "2025")], "fe80::1". split; [right; left|]. split; reflexivity.
  - intros a t Ha _ Ht. unfold ex_addrs in Ha. rewrite !elem_of_cons in Ha.
    destruct Ha as [->|[->|Ha]]; [vm_compute in Ht; injection Ht as <-; reflexivity..|by apply not_elem_of_nil in Ha].
Defined.
