(* ===== verification/Bootstrap.v ===== *)
(** src/bootstrap/main.go: the bootstrap node, a host with the server side of
    the table of peers and nothing else.  Every failure is a panic, whose
    deferred call closes the host when there is one.  The theorems: what a node
    that runs has open, that one that does not leaves nothing open, and that its
    address survives a restart. *)
From S2P Require Import Prelude GoText GoOs Identity P2p.

Section Bootstrap.
Context (GenerateEd25519Key : string -> string + error)
        (libp2p_New : Options -> gmap nat Options -> list Multiaddr + error)
        (dht_New : Options -> DhtOptions -> option error)
        (NewRandom : string + error).

Definition bootstrap_options (priv : string) : Options := mkOptions priv false false ["/ip6/::/tcp/2025"] NoisePrologue.
Definition bootstrap_dht : DhtOptions := mkDhtOptions "/uptp" true false None.

(** The table of peers keeps its data in memory. *)
Definition main : GoM Net nat :=
  us <- P2p.os (load_seed "uuid" NewRandom) ;;
  match us with
  | inr _ => panic
  | inl us =>
      match GenerateEd25519Key (String.substring 0 SeedSize us) with
      | inr _ => panic
      | inl priv =>
          h <- open_host libp2p_New (bootstrap_options priv) ;;
          match h with
          | inr _ => panic
          | inl (h, _) =>
              match dht_New (bootstrap_options priv) bootstrap_dht with
              | Some _ => close_host h ;;; panic
              | None => ret h
              end
          end
      end
  end.

Theorem bootstrap_start n : hosts n !! next_host n = None ->
  let '(o, n') := main n in
  stores n' = stores n /\
  match o with
  | Panic => hosts n' = hosts n
  | Ret h => exists seed priv, load_seed "uuid" NewRandom (n_fs n) = (Ret (inl seed), n_fs n') /\
      GenerateEd25519Key (String.substring 0 SeedSize seed) = inl priv /\ hosts n' = <[h := bootstrap_options priv]> (hosts n)
  end.
Proof.
  intros Hf. unfold main, bind at 1, P2p.os, zoom. destruct (load_seed "uuid" NewRandom (n_fs n)) as [[[us|e]|] f]; [|done..].
  destruct (GenerateEd25519Key _) as [priv|e] eqn:Ek; [|done]. unfold open_host, bind at 1. cbn [hosts next_host n_fs stores].
  destruct (libp2p_New _ _) as [addrs|e]; [|done]. destruct (dht_New _ _).
  - cbn. split; [done|]. by rewrite delete_insert_id.
  - cbn. split; [done|]. by exists us, priv.
Qed.
End Bootstrap.

(** The nodes of the network agree: gateways, agents (clients) and the bootstrap
    node secure their connections alike and speak the same table of peers, which
    all but the clients serve. *)
Theorem nodes_agree priv clientMode unlimited listenPort ds :
  let o := engine_options priv clientMode unlimited listenPort in
  o_prologue o = o_prologue (bootstrap_options priv) /\ do_prefix (dht_options clientMode ds) = do_prefix bootstrap_dht /\
  do_server bootstrap_dht = true /\ (do_server (dht_options clientMode ds) = true <-> o_listen o <> []).
Proof. split_and!; [done..|]. by destruct clientMode. Qed.

(** A node whose file holds a seed runs under the same key every time, whatever
    its random source gives. *)
Theorem bootstrap_restart gen lib dht r r' n x : wf (n_fs n) -> faults (n_fs n) = [] -> at_path "uuid" (n_fs n) = Some x ->
  f_dir x = false -> (SeedSize <= String.length (f_data x))%nat -> main gen lib dht (inl r) n = main gen lib dht (inl r') n /\
  forall h n', main gen lib dht (inl r) n = (Ret h, n') -> exists o, hosts n' !! h = Some o /\
    gen (String.substring 0 SeedSize (f_data x)) = inl (o_key o).
Proof.
  intros W Hf Hx Hd Hl. destruct (ReadFile_spec "uuid" (n_fs n) W) as (res & s1 & E1 & _ & _ & P1).
  assert (Hr : res = inl (f_data x)).
  { destruct res as [d|e]; [destruct P1 as (y & Hy & _ & ->); congruence|].
    destruct P1 as [P1|P1]; [done|]. rewrite (P1 x Hx) in Hd. done. }
  subst res. assert (E : forall u, load_seed "uuid" (inl u) (n_fs n) = (Ret (inl (f_data x)), s1)).
  { intros u. unfold load_seed. rewrite (bind_Ret _ _ _ _ _ E1). cbn [IsExist]. by rewrite (proj2 (Nat.ltb_ge _ _) Hl). }
  assert (E2 : forall u, P2p.os (load_seed "uuid" (inl u)) n = (Ret (inl (f_data x)), mkNet s1 (hosts n) (stores n) (next_host n))).
  { intros u. unfold P2p.os, zoom. by rewrite E. }
  unfold main. rewrite !(bind_Ret _ _ _ _ _ (E2 _)). split; [done|]. intros h n'.
  destruct (gen _) as [priv|e] eqn:Ek; [|done]. unfold open_host, bind at 1. cbn [hosts next_host n_fs stores].
  destruct (lib _ _) as [addrs|e]; [|done]. destruct (dht _ _); [done|]. intros [= <- <-]. cbn.
  exists (bootstrap_options priv). by rewrite lookup_insert_eq.
Qed.
