(* ===== verification/AgentProxy.v ===== *)
(** src/agent/proxy.go: the gateways an agent may use as its proxy, a list kept
    in memory and in the store, and the dialer the TUN engine is given.  The
    theorems: the list is durable and its operations are those of a list at
    every index that exists, negative ones crash, and what the dialer asks of
    the gateway. *)
From S2P Require Import Prelude GoText GoIo GoNet Json Codec Version Store Avl ProxyRouter Portmap Socks5Util Socks5Client Socks5Rfc TunStack ProxyClient.

Record proxyGateway := mkPg {
  pg_Name : string;
  pg_PeerID : string;
  pg_Token : uint64;
  pg_Route : string;
  pg_Dns : string;
  pg_peer : PeerWithAuth
}.

Definition pg_zero : proxyGateway := mkPg "" "" (U64 0) "" "" (mkPeer "" [] []).

Definition pg_fields : list (field proxyGateway) :=
  [ jfield "name" pg_Name
      (fun v r => mkPg v (pg_PeerID r) (pg_Token r) (pg_Route r) (pg_Dns r) (pg_peer r));
    jfield "peer_id" pg_PeerID
      (fun v r => mkPg (pg_Name r) v (pg_Token r) (pg_Route r) (pg_Dns r) (pg_peer r));
    jfield "token" pg_Token
      (fun v r => mkPg (pg_Name r) (pg_PeerID r) v (pg_Route r) (pg_Dns r) (pg_peer r));
    jfield "route" pg_Route
      (fun v r => mkPg (pg_Name r) (pg_PeerID r) (pg_Token r) v (pg_Dns r) (pg_peer r));
    jfield "dns" pg_Dns
      (fun v r => mkPg (pg_Name r) (pg_PeerID r) (pg_Token r) (pg_Route r) v (pg_peer r)) ].

Definition pg_fits (r : proxyGateway) : Prop :=
  json_fits (pg_Name r) /\
  json_fits (pg_PeerID r) /\
  json_fits (pg_Token r) /\
  json_fits (pg_Route r) /\
  json_fits (pg_Dns r).

(** What JSON carries of a gateway: its [peer] has the tag "-". *)
Definition pg_norm (p : proxyGateway) : proxyGateway :=
  mkPg (pg_Name p) (pg_PeerID p) (pg_Token p) (pg_Route p) (pg_Dns p) (mkPeer "" [] []).

#[export] Instance pg_codec : JsonCodec proxyGateway := {
  json_of := struct_json pg_fields;
  json_into := struct_into pg_fields;
  zero := pg_zero;
  json_fits := pg_fits;
  json_norm := pg_norm;
  json_depth := 1
}.
#[export] Instance pg_laws : CodecLaws proxyGateway.
Proof. struct_laws. Qed.

Definition keyProxys : string := "proxys".
Definition set_peer (v : PeerWithAuth) (p : proxyGateway) : proxyGateway :=
  mkPg (pg_Name p) (pg_PeerID p) (pg_Token p) (pg_Route p) (pg_Dns p) v.

(** What [addProxyGateway] and [loadProxys] make of an identifier and a token. *)
Definition peer_of (pid : string) (token : Z) : PeerWithAuth := mkPeer pid (LE_PutUint64 token) (LE_PutUint64 token).

Section Mgr.
Context {DB : Type} {Db : LevelDB DB} {Dbl : LevelDBLaws DB}.
Context (Decode_peer : string -> string + error).

(** [None] is the nil slice.  Its pointers are never shared: every element is
    stored by one [addProxy] or load, and [getProxys] copies.  A [null] element
    in the store, which no save writes, would be a nil pointer; it decodes to
    the zero gateway here, and [null] itself to an empty slice. *)
Record proxyMgr := mkPxMgr { px_db : DB; proxys : option (list proxyGateway) }.
Definition set_px_db (d : DB) (m : proxyMgr) : proxyMgr := mkPxMgr d (proxys m).

Definition fill (p : proxyGateway) : proxyGateway :=
  match Decode_peer (pg_PeerID p) with
  | inr _ => set_peer (mkPeer "" (UserName (pg_peer p)) (Password (pg_peer p))) p
  | inl pid => set_peer (peer_of pid (uint64_val (pg_Token p))) p
  end.

Definition loadProxys : GoM proxyMgr (option error) :=
  m <- get ;;
  match db_Get keyProxys (px_db m) with
  | inr ErrNotFound => ret None
  | inr e => ret (Some e)
  | inl v =>
      match Unmarshal v (default [] (proxys m)) with
      | inr e => ret (Some e)
      | inl l => put (mkPxMgr (px_db m) (Some (map fill l))) ;;; ret None
      end
  end.

Definition saveProxys : GoM proxyMgr (option error) :=
  m <- get ;;
  match proxys m with
  | None => zoom px_db set_px_db (dbDelete keyProxys)
  | Some l => zoom px_db set_px_db (dbPut keyProxys (Marshal l))
  end.

Definition addProxy (p : proxyGateway) : GoM proxyMgr (option error) :=
  m <- get ;;
  put (mkPxMgr (px_db m) (Some (default [] (proxys m) ++ [p]))) ;;; saveProxys.

Definition len (m : proxyMgr) : Z := Z.of_nat (length (default [] (proxys m))).

(** A negative index passes the check and panics. *)
Definition getProxyByIndex (idx : Z) : GoM proxyMgr (option proxyGateway) :=
  m <- get ;;
  if len m <=? idx then ret None
  else if idx <? 0 then panic
  else ret (default [] (proxys m) !! Z.to_nat idx).

Definition getProxys : GoM proxyMgr (list proxyGateway) := gets (fun m => default [] (proxys m)).

Definition delProxyByIndex (index : Z) : GoM proxyMgr (option error) :=
  m <- get ;;
  if len m <=? index then ret None
  else if index <? 0 then panic
  else
    let l := default [] (proxys m) in
    put (mkPxMgr (px_db m) (Some (take (Z.to_nat index) l ++ drop (S (Z.to_nat index)) l))) ;;;
    saveProxys.

(** ** The list *)

Inductive px_op := PxAdd (p : proxyGateway) | PxDel (i : Z) | PxGet (i : Z).
Definition run_px (o : px_op) : GoM proxyMgr (option error) :=
  match o with
  | PxAdd p => addProxy p
  | PxDel i => delProxyByIndex i
  | PxGet i => getProxyByIndex i ;;; ret None
  end.
Fixpoint run_pxs (os : list px_op) : GoM proxyMgr (list (option error)) :=
  match os with
  | [] => ret []
  | o :: os => e <- run_px o ;; es <- run_pxs os ;; ret (e :: es)
  end.
Definition spec_px (l : list proxyGateway) (o : px_op) : list proxyGateway :=
  match o with
  | PxAdd p => l ++ [p]
  | PxDel i => delete (Z.to_nat i) l
  | PxGet _ => l
  end.

(** A gateway as [addProxyGateway] makes it; an index as callers must give it. *)
Definition px_ok (p : proxyGateway) : Prop := pg_fits p /\ fill (pg_norm p) = p.
Definition px_op_ok (o : px_op) : Prop :=
  match o with PxAdd p => px_ok p | PxDel i | PxGet i => 0 <= i end.

(** The store agrees with the memory. *)
Definition stored_px (d : DB) (l : option (list proxyGateway)) : Prop :=
  match l with
  | None => db_Get keyProxys d = inr ErrNotFound
  | Some l => saved keyProxys l d
  end.

Lemma px_restart d l : Forall px_ok (default [] l) -> stored_px d l ->
  exists m, loadProxys (mkPxMgr d None) = (Ret None, m) /\ default [] (proxys m) = default [] l /\ px_db m = d.
Proof.
  intros Hok Hs. unfold loadProxys, bind, get, put, ret. cbn [px_db proxys default].
  destruct l as [l|]; cbn [stored_px] in Hs; [|rewrite Hs; by eexists].
  unfold saved in Hs. rewrite Hs.
  assert (Hf : json_fits l) by (eapply Forall_impl; [exact Hok|]; by intros p [? _]).
  pose proof (Unmarshal_Marshal l Hf ltac:(cbn; lia)) as HU.
  change (zero (A := list proxyGateway)) with (@nil proxyGateway) in HU. rewrite HU.
  eexists. split; [reflexivity|]. split; [|done]. cbn [proxys from_option]. cbn [json_norm list_codec].
  clear -Hok. cbn in Hok. induction Hok as [|p l [_ Hp] Hl IH]; [done|].
  exact (f_equal2 cons Hp IH).
Qed.

Lemma saveProxys_run d l : exists e d', saveProxys (mkPxMgr d (Some l)) = (Ret e, mkPxMgr d' (Some l)) /\
  (e = None -> saved keyProxys l d').
Proof.
  unfold saveProxys, bind, get, zoom, dbPut. cbn [proxys px_db].
  destruct (db_Put keyProxys (Marshal l) d) as [e d'] eqn:E. exists e, d'. split; [done|]. intros ->. by eapply put_get.
Qed.

Lemma delete_take_drop {A} (l : list A) i : delete i l = take i l ++ drop (S i) l.
Proof. revert i. induction l as [|x l IH]; intros [|i]; [done..|]. cbn. f_equal. apply IH. Qed.

Lemma run_px_spec o m : px_op_ok o -> Forall px_ok (default [] (proxys m)) ->
  exists e m', run_px o m = (Ret e, m') /\ default [] (proxys m') = spec_px (default [] (proxys m)) o /\
    Forall px_ok (default [] (proxys m')) /\
    (e = None -> stored_px (px_db m) (proxys m) -> stored_px (px_db m') (proxys m')).
Proof.
  intros Ho Hok. destruct m as [d l]. cbn [px_db proxys] in *. destruct o as [p|i|i]; cbn [run_px spec_px px_op_ok] in *.
  - unfold addProxy, bind at 1, get. cbn [px_db proxys]. unfold bind, put.
    destruct (saveProxys_run d (default [] l ++ [p])) as (e & d' & -> & Hs). exists e, (mkPxMgr d' (Some (default [] l ++ [p]))).
    split_and!; [done|done|apply Forall_app; split; [done|by constructor]|]. intros He _. by apply Hs.
  - unfold delProxyByIndex, bind at 1, get, len. cbn [px_db proxys].
    destruct (Z.leb_spec (Z.of_nat (length (default [] l))) i) as [Hle|Hlt].
    { exists None, (mkPxMgr d l). cbn [proxys px_db]. assert (delete (Z.to_nat i) (default [] l) = default [] l) as ->.
      { rewrite delete_take_drop, take_ge, drop_ge by lia. apply app_nil_r. }
      by split_and!. }
    rewrite (proj2 (Z.ltb_ge i 0)) by lia. rewrite <- delete_take_drop. unfold bind, put.
    destruct (saveProxys_run d (delete (Z.to_nat i) (default [] l))) as (e & d' & -> & Hs).
    exists e, (mkPxMgr d' (Some (delete (Z.to_nat i) (default [] l)))). split_and!; [done|done| |].
    + cbn [proxys from_option]. rewrite delete_take_drop. apply Forall_app. split; [by apply Forall_take|by apply Forall_drop].
    + intros He _. by apply Hs.
  - unfold getProxyByIndex, bind, get, len, ret, panic. cbn [px_db proxys].
    exists None, (mkPxMgr d l). destruct (Z.leb_spec (Z.of_nat (length (default [] l))) i); [by split_and!|].
    rewrite (proj2 (Z.ltb_ge i 0)) by lia. by split_and!.
Qed.

(** C24. The gateways of an agent are a durable list.  From a manager that agrees
    with its store, any sequence of additions, deletions and lookups at
    indices that are not negative runs without panic, whatever the store
    answers; the list held is the one the changes define, deleting at an index
    beyond it changes nothing, and when no change reported an error the
    manager of a restart holds the same list, every gateway with its dialing
    credentials.  A lookup or deletion at a negative index panics. *)
Theorem proxys_refine_list os m :
  Forall px_op_ok os -> Forall px_ok (default [] (proxys m)) -> stored_px (px_db m) (proxys m) ->
  let l := foldl spec_px (default [] (proxys m)) os in
  exists es m', run_pxs os m = (Ret es, m') /\ getProxys m' = (Ret l, m') /\
    (forall i, 0 <= i -> getProxyByIndex i m' = (Ret (l !! Z.to_nat i), m')) /\
    (Forall (eq None) es -> exists m2, loadProxys (mkPxMgr (px_db m') None) = (Ret None, m2) /\ getProxys m2 = (Ret l, m2)) /\
    (forall i, i < 0 -> (getProxyByIndex i m').1 = Panic /\ (delProxyByIndex i m').1 = Panic).
Proof.
  intros Hos Hok Hst l.
  assert (H : exists es m', run_pxs os m = (Ret es, m') /\ default [] (proxys m') = l /\ Forall px_ok (default [] (proxys m')) /\
    (Forall (eq None) es -> stored_px (px_db m') (proxys m'))).
  { unfold l. clear l. revert m Hok Hst.
    assert (G : forall os m, Forall px_op_ok os -> Forall px_ok (default [] (proxys m)) ->
      exists es m', run_pxs os m = (Ret es, m') /\ default [] (proxys m') = foldl spec_px (default [] (proxys m)) os /\
        Forall px_ok (default [] (proxys m')) /\
        (Forall (eq None) es -> stored_px (px_db m) (proxys m) -> stored_px (px_db m') (proxys m'))).
    { clear -Dbl. intros os m Hos. revert m. induction Hos as [|o os Ho Hos IH]; intros m Hok; [by exists [], m|].
      destruct (run_px_spec o m Ho Hok) as (e & m1 & E1 & L1 & K1 & S1).
      destruct (IH m1 K1) as (es & m2 & E2 & L2 & K2 & S2). exists (e :: es), m2. cbn [run_pxs foldl].
      rewrite (bind_Ret _ _ _ _ _ E1), (bind_Ret _ _ _ _ _ E2). split_and!; [done|by rewrite L2, L1|done|].
      intros [He Hes]%Forall_cons Hst. apply S2; [done|]. by apply S1. }
    intros m Hok Hst. destruct (G os m Hos Hok) as (es & m' & E & L & K & S). exists es, m'. split_and!; auto. }
  destruct H as (es & m' & E & L & K & S). exists es, m'.
  assert (Hg : forall m, getProxys m = (Ret (default [] (proxys m)), m)) by done.
  split_and!; [done|by rewrite Hg, L| | |].
  - intros i Hi. unfold getProxyByIndex, bind, get, len, ret. rewrite L. destruct (Z.leb_spec (Z.of_nat (length l)) i).
    + rewrite lookup_ge_None_2 by lia. done.
    + by rewrite (proj2 (Z.ltb_ge i 0)) by lia.
  - intros Hes. destruct (px_restart (px_db m') (proxys m') K (S Hes)) as (m2 & E2 & L2 & _).
    exists m2. split; [done|]. by rewrite Hg, L2, L.
  - intros i Hi. unfold getProxyByIndex, delProxyByIndex, bind, get, len. rewrite (proj2 (Z.leb_gt _ i)) by lia.
    by rewrite (proj2 (Z.ltb_lt i 0)) by lia.
Qed.
End Mgr.

(** * The dialer of the TUN engine

    [ip_String] is the text of an address (netip). *)
Section Dialer.
Context {Lib : Socks5Lib} {Sys : System}.
Context (ip_String : bytes -> string).

Definition proxyDialer_DialContext (d : PeerWithAuth) (metadata : option Metadata)
  : outcome (streamConn + error) * option Conn :=
  match metadata with
  | None => (Ret (inr (ErrText "metadata is nil")), None)
  | Some md =>
      Socks5Client.DialContext LookupPort d (NewStream5 (peer_ID d)) (md_network md)
        (JoinHostPort (ip_String (DstIP md)) (Itoa (DstPort md)))
  end.

(** The host and the port are put together without the brackets an IPv6
    address needs. *)
Definition proxyDialer_DialUDP (d : PeerWithAuth) (metadata : option Metadata)
  : outcome (streamConn + error) * option Conn :=
  match metadata with
  | None => (Ret (inr (ErrText "metadata is nil")), None)
  | Some md =>
      Socks5Client.DialUDPConn LookupPort d (NewStream5 (peer_ID d)) (md_network md)
        (ip_String (DstIP md) +:+ ":" +:+ Itoa (DstPort md))
  end.

Lemma Itoa_no_char c z : is_digit c = false -> c <> "-"%char -> no_char c (Itoa z) = true.
Proof.
  intros Hc Hd. assert (H : forall z, no_char c (FormatUint z) = true)
    by (intros x; apply no_char_digits; [done|by apply all_digits_fmt]).
  unfold Itoa. destruct (z <? 0); [|done]. cbn [no_char]. rewrite H, andb_true_r. apply negb_true_iff, Ascii.eqb_neq. congruence.
Qed.

Lemma split_first_app c a b : no_char c a = true -> split_first c (a +:+ String c b) = Some (a, b).
Proof.
  induction a as [|x a IH]; intros H; [rewrite string_app_nil_l; cbn; by rewrite Ascii.eqb_refl|].
  simpl in H. apply andb_prop in H as [Hx Ha]. apply negb_true_iff in Hx. rewrite string_app_cons. cbn. by rewrite Hx, IH.
Qed.

Lemma split_bracketed host port : no_char "[" host = true -> no_char "]" host = true ->
  no_char ":" port = true -> no_char "[" port = true -> no_char "]" port = true ->
  SplitHostPort ("[" +:+ host +:+ "]:" +:+ port) = inl (host, port).
Proof.
  intros H1 H2 H3 H4 H5. unfold SplitHostPort.
  assert (E : "[" +:+ host +:+ "]:" +:+ port = ("[" +:+ host +:+ "]") +:+ String ":" port).
  { rewrite !string_app_assoc. done. }
  rewrite E, (split_last_app ":" _ port H3), <- E. rewrite string_app_cons, string_app_nil_l.
  rewrite string_app_cons. rewrite (split_first_app "]" host _ H2).
  rewrite (string_app_cons ":" "" port), string_app_nil_l. change (Ascii.eqb ":" ":") with true. cbv iota.
  unfold has_char. rewrite !no_char_app, H3, H1. cbn [no_char]. by rewrite H4, H5.
Qed.

Lemma split_colons_fail a b : has_char ":" a = true -> no_char "[" a = true -> no_char ":" b = true ->
  exists e, SplitHostPort (a +:+ ":" +:+ b) = inr e.
Proof.
  intros Ha Hb Hc. unfold SplitHostPort. rewrite string_app_cons, string_app_nil_l.
  rewrite (split_last_app ":" a b Hc), Ha.
  destruct a as [|c a]; [done|]. simpl in Hb. apply andb_prop in Hb as [Hb _]. rewrite string_app_cons.
  destruct c as [[] [] [] [] [] [] [] []]; try discriminate Hb; by eexists.
Qed.

Lemma fail_reset_inr (A : Type) e c : exists e' c', @fail_reset A e c = (Ret (inr e'), c').
Proof. by eexists _, _. Qed.

(** A dial whose request cannot be made returns an error, whatever the peer
    answers. *)
Lemma negotiate_fails d none_ok e c : forall r, (negotiate d none_ok (fail_reset e) c).1 = Ret r -> exists e', r = inr e'.
Proof.
  intros r. unfold negotiate, bind.
  destruct (send (enc_negotiation [MethodUsernamePassword]) c) as [[[e1|]|] c1]; [|destruct (read_method c1) as [[[m|e2]|] c2]|];
    cbn [fst]; try (intros [= <-]; by eexists); try done.
  destruct (m =? MethodUsernamePassword); [|destruct ((m =? MethodNone) && none_ok); intros [= <-]; by eexists].
  destruct (send (enc_userpass (UserName d) (Password d)) c2) as [[[e3|]|] c3]; [intros [= <-]; by eexists| |done].
  destruct (read_status c3) as [[[st|e4]|] c4]; [|intros [= <-]; by eexists|done].
  destruct (negb (st =? UserPassStatusSuccess)); intros [= <-]; by eexists.
Qed.

(** The agent's proxy carries no datagrams to IPv6 addresses: whatever the
    gateway and the stream do, dialing UDP to an address whose text has a colon
    never returns a connection, because the text it asks for cannot be split
    into host and port; the text of a TCP dial to the same address can. *)
Theorem agent_udp_v6_fails d md : has_char ":" (ip_String (DstIP md)) = true -> no_char "[" (ip_String (DstIP md)) = true ->
  no_char "]" (ip_String (DstIP md)) = true ->
  (forall c, (proxyDialer_DialUDP d (Some md)).1 <> Ret (inl c)) /\
  SplitHostPort (JoinHostPort (ip_String (DstIP md)) (Itoa (DstPort md))) = inl (ip_String (DstIP md), Itoa (DstPort md)).
Proof.
  intros Hc Hb Hb2. split.
  - intros c E. unfold proxyDialer_DialUDP, DialUDPConn, dialContext in E.
    destruct (String.length (md_network md) <? 3)%nat; [done|]. destruct (NewStream5 (peer_ID d)) as [s|e]; [|done].
    destruct (split_colons_fail (ip_String (DstIP md)) (Itoa (DstPort md)) Hc Hb (Itoa_no_colon _)) as (e & He).
    unfold dial_stream, make_request in E. rewrite He in E. unfold bind at 1 in E.
    pose proof (negotiate_fails d true e s) as HN.
    destruct (negotiate d true (fail_reset e) s) as [[r|] s']; [|done]. destruct (HN r eq_refl) as (e' & ->). done.
  - unfold JoinHostPort. rewrite Hc. apply split_bracketed; [done..| | |]; apply Itoa_no_char; done.
Qed.
End Dialer.

(** * Concrete inputs *)

Definition ex_pg (name : string) (token : Z) : proxyGateway :=
  mkPg name "peer" (U64 token) "0.0.0.0/0" "8.8.8.8" (peer_of "peer" token).

Lemma proxys_refine_list_witness : exists es m',
  run_pxs [PxAdd (ex_pg "a" 1); PxAdd (ex_pg "b" 2); PxDel 0; PxDel 5] (mkPxMgr mem_empty None) = (Ret es, m') /\
  getProxys m' = (Ret [ex_pg "b" 2], m') /\
  exists m2, loadProxys inl (mkPxMgr (px_db m') None) = (Ret None, m2) /\ getProxys m2 = (Ret [ex_pg "b" 2], m2).
Proof.
  assert (Hos : Forall (px_op_ok inl) [PxAdd (ex_pg "a" 1); PxAdd (ex_pg "b" 2); PxDel 0; PxDel 5]).
  { repeat constructor; vm_compute; congruence. }
  destruct (proxys_refine_list inl [PxAdd (ex_pg "a" 1); PxAdd (ex_pg "b" 2); PxDel 0; PxDel 5] (mkPxMgr mem_empty None)
    Hos ltac:(constructor) ltac:(reflexivity)) as (es & m' & E & G & _ & R & _).
  exists es, m'. split; [exact E|]. split; [exact G|]. apply R. vm_compute in E. injection E as <- <-. repeat constructor.
Defined.

Lemma agent_udp_v6_fails_witness :
  forall c, (@proxyDialer_DialUDP _ ex_system (fun _ => "fe80::1") (mkPeer "peer" [1; 2; 3; 4; 5; 6; 7; 8] [1; 2; 3; 4; 5; 6; 7; 8])
    (Some (mkMetadata "udp" (IPv4zero ++ [0]) 53))).1 <> Ret (inl c).
Proof.
  exact (proj1 (@agent_udp_v6_fails _ ex_system (fun _ => "fe80::1") (mkPeer "peer" [1; 2; 3; 4; 5; 6; 7; 8] [1; 2; 3; 4; 5; 6; 7; 8])
    (mkMetadata "udp" (IPv4zero ++ [0]) 53) eq_refl eq_refl eq_refl)).
Defined.
