(* ===== verification/Agent.v ===== *)
(** src/agent/agent.go, the rest of proxy.go and the commands of
    src/agent/cmd/main.go: the agent that maps remote resources to local ports
    and proxies a device through a gateway.  Its managers share one store; the
    parts it has before [Start] are nil, and using them crashes.  The theorems:
    what adding an application requires and does, that changing the address of
    a running one leaves its old listener open, what the commands of the command
    line can do, that a restarted agent has its applications, and that a closed
    one does not start again. *)
From S2P Require Import Prelude GoText GoIo GoOs GoNet Json Codec TypesId Store PortmapApp Portmap AppStart GwCore Authorize.
From S2P Require Import Logger Identity P2p Avl ProxyRouter Socks5Util Socks5Client Socks5Rfc TunStack ProxyClient AgentProxy.

Section Agent.
Context {DB : Type} {Db : LevelDB DB} {Dbl : LevelDBLaws DB}.
Context {Lib : Socks5Lib} {Sys : System}.
Context (rand_Uint64 : nat -> Z).
Context (Listen : bool -> string -> Z -> sockets -> (nat * string) + error).
Context (range_apps : gmap Z PortmapApp -> list (Z * PortmapApp)).
(** leveldb: opening (an error says whether the files are corrupted),
    recovering and closing. *)
Context (OpenDB : string -> DB + (error * bool)) (RecoverDB : string -> DB + error) (CloseDB : DB -> DB).
(** The constructors of the engine, the random source of the identity, and the
    logger's surroundings. *)
Context (NewDatastore : string -> gset string -> option error)
        (GenerateEd25519Key : string -> string + error)
        (NewResourceManager : option error)
        (libp2p_New : Options -> gmap nat Options -> list Multiaddr + error)
        (dht_New : Options -> DhtOptions -> option error)
        (NewRandom : string + error) (windows : bool) (Getpid : Z)
        (Ping : string -> option error).

(** [None] is nil for [p2p], [pm], [am] and [pxm].  [store] is the database the
    managers hold, which closing the agent does not take from them, [db_set]
    whether the agent's own pointer to it is set. *)
Record Agent := mkAgent {
  net : Net;
  p2p : option P2PEngine;
  pm : option Portmap;
  store : DB;
  db_set : bool;
  am : option (option (gmap Z PortmapApp));
  pxm : option (option (list proxyGateway));
  running : bool;
  engine : Engine;
  dialer : option PeerWithAuth;
  rnd : nat
}.

Definition set_net n a := mkAgent n (p2p a) (pm a) (store a) (db_set a) (am a) (pxm a) (running a) (engine a) (dialer a) (rnd a).
Definition set_p2p p a := mkAgent (net a) p (pm a) (store a) (db_set a) (am a) (pxm a) (running a) (engine a) (dialer a) (rnd a).
Definition set_pm p a := mkAgent (net a) (p2p a) p (store a) (db_set a) (am a) (pxm a) (running a) (engine a) (dialer a) (rnd a).
Definition set_store d a := mkAgent (net a) (p2p a) (pm a) d (db_set a) (am a) (pxm a) (running a) (engine a) (dialer a) (rnd a).
Definition set_am m a := mkAgent (net a) (p2p a) (pm a) (store a) (db_set a) m (pxm a) (running a) (engine a) (dialer a) (rnd a).
Definition set_pxm m a := mkAgent (net a) (p2p a) (pm a) (store a) (db_set a) (am a) m (running a) (engine a) (dialer a) (rnd a).
Definition set_db b a := mkAgent (net a) (p2p a) (pm a) (store a) b (am a) (pxm a) (running a) (engine a) (dialer a) (rnd a).
Definition set_running b a := mkAgent (net a) (p2p a) (pm a) (store a) (db_set a) (am a) (pxm a) b (engine a) (dialer a) (rnd a).
Definition set_engine e a := mkAgent (net a) (p2p a) (pm a) (store a) (db_set a) (am a) (pxm a) (running a) e (dialer a) (rnd a).
Definition set_dialer d a := mkAgent (net a) (p2p a) (pm a) (store a) (db_set a) (am a) (pxm a) (running a) (engine a) d (rnd a).

(** Methods of the parts; a nil part panics. *)
Definition on_am {A} (m : GoM PortmapAppMgr A) : GoM Agent A := fun a =>
  match am a with
  | None => (Panic, a)
  | Some apps => let '(o, m') := m (mkAppMgr (store a) apps) in (o, set_am (Some (PortmapApp.apps m')) (set_store (app_db m') a))
  end.
Definition on_px {A} (m : GoM proxyMgr A) : GoM Agent A := fun a =>
  match pxm a with
  | None => (Panic, a)
  | Some l => let '(o, m') := m (mkPxMgr (store a) l) in (o, set_pxm (Some (proxys m')) (set_store (px_db m') a))
  end.
Definition on_pm {A} (m : GoM Portmap A) : GoM Agent A := fun a =>
  match pm a with
  | None => (Panic, a)
  | Some p => let '(o, p') := m p in (o, set_pm (Some p') a)
  end.
Definition on_engine {A} (m : GoM Engine A) : GoM Agent A := zoom engine set_engine m.
Definition on_net {A} (m : GoM Net A) : GoM Agent A := zoom net set_net m.
(** [ag.p2p.Libp2pHost()]. *)
Definition Libp2pHost : GoM Agent unit := fun a => match p2p a with None => (Panic, a) | Some _ => (Ret tt, a) end.

(** * Starting

    Paths are joined without being cleaned. *)

Definition Join (dir name : string) : string := if String.eqb dir "" then name else dir +:+ "/" +:+ name.

(** The logger's files are the machine's; what it prints goes elsewhere. *)
Definition setLog (workDir : string) : GoM Agent unit :=
  on_net (zoom (fun n => mkProc (n_fs n) "") (fun p n => mkNet (fs p) (hosts n) (stores n) (next_host n))
    (NewLogger windows Getpid workDir "uptp-agent" 0 (1024 * 1024) LogFileAndConsole)) ;;; ret tt.

Definition bootstraps : list string :=
  ["/ip6/2402:4e00:101a:d400:0:9a33:9051:1549/tcp/2025/p2p/12D3KooWPqvupWVWbcjwKkvfBwPi19KerGwEfmWxdyrqRd7AtCaa"].

Definition initAppMgr : GoM Agent (list PortmapApp * option error) :=
  modify (set_am (Some (Some ∅))) ;;;
  let* (apps, err) := on_am (LoadPortmapApps range_apps) in
  match err with Some e => ret ([], Some e) | None => ret (apps, None) end.

(** The handshake of a connection to a local listener. *)
Definition getHandshake (a : Agent) (network ip : string) (port : Z) : string * option bytes :=
  match am a with
  | None => ("", None)
  | Some apps =>
      let app := FindAppWithPort range_apps network port (mkAppMgr (store a) apps) in
      if Uint64 (app_ResID app) =? 0 then ("", None)
      else (app_PeerID app, Some (bytes_of_string (Marshal
             (mkPmhs (app_ResID app) (app_Network app) (app_TargetAddr app) (app_TargetPort app)))))
  end.

Definition start_one (a : PortmapApp) : GoM Agent unit :=
  if negb (app_Running a) then ret tt
  else
    let* (_, err) := on_pm (AddListener Listen (app_Network a) (app_LocalIP a) (app_LocalPort a)) in
    match err with
    | Some _ => on_am (UpdatePortmapApp (set_stopped "" a)) ;;; ret tt
    | None => ret tt
    end.

Definition startPortmap : GoM Agent (option error) :=
  let* (apps, err) := initAppMgr in
  match err with
  | Some e => ret (Some e)
  | None =>
      modify (set_pm (Some (NewPortMap ∅))) ;;;
      for_range apps start_one ;;;
      ret None
  end.

(** Log, store, identity, engine; the result is an error to return, which may
    be none. *)
Definition start_host (workDir : string) : GoM Agent (unit + option error) :=
  setLog workDir ;;;
  match open_db OpenDB RecoverDB (Join workDir "data.db") with
  | inr e => ret (inr (Some e))
  | inl d =>
      modify (fun a => set_db true (set_store d a)) ;;;
      us <- on_net (P2p.os (load_seed (Join workDir "uuid") NewRandom)) ;;
      match us with
      | inr err => ret (inr err)
      | inl us =>
          pe <- on_net (NewP2PEngine NewDatastore GenerateEd25519Key NewResourceManager libp2p_New dht_New 0 us
                          (Join (Join workDir "log") "libp2p.log") (Join workDir "dht.db") true) ;;
          match pe with
          | inr e => modify (set_p2p None) ;;; ret (inr (Some e))
          | inl pe => modify (set_p2p (Some pe)) ;;; ret (inl tt)
          end
      end
  end.

(** The error of [startPortmap] is dropped. *)
Definition start (workDir : string) (withPortmap : bool) : GoM Agent (option error) :=
  a <- get ;;
  if running a then ret None
  else
    host <- start_host workDir ;;
    match host with
    | inr err => ret err
    | inl _ =>
        (if withPortmap then startPortmap ;;; ret tt else ret tt) ;;;
        modify (set_pxm (Some None)) ;;;
        err <- on_px (loadProxys Decode_peer) ;;
        match err with
        | Some e => ret (Some e)
        | None => modify (set_running true) ;;; ret None
        end
    end.

Definition close : GoM Agent unit :=
  a <- get ;;
  (match pm a with Some _ => on_pm Portmap.Close ;;; modify (set_pm None) | None => ret tt end) ;;;
  (match p2p a with Some pe => on_net (P2p.Close pe) ;;; modify (set_p2p None) | None => ret tt end) ;;;
  modify (fun a => if db_set a then set_db false (set_store (CloseDB (store a)) a) else a).

(** * Applications *)

Definition next_id : GoM Agent Z := fun a =>
  (Ret (rand_Uint64 (rnd a)),
   mkAgent (net a) (p2p a) (pm a) (store a) (db_set a) (am a) (pxm a) (running a) (engine a) (dialer a) (S (rnd a))).

(** What the authorization makes of an application. *)
Definition authorized (id : Z) (rsp : AuthorizeResp) (trial : bool) (a : PortmapApp) : PortmapApp :=
  mkApp (mkID id) (app_Name a) (app_PeerID a) (app_ResID a) (app_Network a) (app_LocalIP a) (app_LocalPort a)
    (if trial then app_TargetAddr a else "") (if trial then app_TargetPort a else 0)
    (app_Running a) (aresp_NodeName rsp) (app_Err a).

Definition listen_app (a : PortmapApp) : GoM Agent PortmapApp :=
  if app_Running a then
    let* (_, err) := on_pm (AddListener Listen (app_Network a) (app_LocalIP a) (app_LocalPort a)) in
    ret (match err with Some e => set_stopped (Error e) a | None => a end)
  else ret a.

Definition addApp (a : PortmapApp) : GoM Agent (option error) :=
  id <- next_id ;;
  Libp2pHost ;;;
  match ResourceAuthorize Decode_peer NewStream (app_PeerID a)
          (mkAreq AuthorizeTypePortmap (Some (Authorize.mkApi (app_ResID a))) None) with
  | ((_, Some e), _) => ret (Some e)
  | ((rsp, None), _) =>
      if negb (String.eqb (aresp_Err rsp) "") then ret (Some (ErrText (aresp_Err rsp)))
      else
        match aresp_Portmap rsp with
        | None => ret (Some (ErrText "portmap resource auth failed"))
        | Some p =>
            a <- listen_app (authorized id rsp (apr_IsTrial p) a) ;;
            on_am (UpdatePortmapApp a)
        end
  end.

(** What an update takes over from [a]. *)
Definition updated (existing a : PortmapApp) : PortmapApp :=
  let target := negb (String.eqb (app_TargetAddr existing) "") in
  mkApp (app_ID existing) (app_Name a) (app_PeerID existing) (app_ResID existing) (app_Network a) (app_LocalIP a) (app_LocalPort a)
    (if target then app_TargetAddr a else app_TargetAddr existing) (if target then app_TargetPort a else app_TargetPort existing)
    (app_Running a) (app_PeerName existing) (app_Err existing).

(** The comparison of the listeners comes after the assignments. *)
Definition updateAPP (a : PortmapApp) : GoM Agent (option error) :=
  if Uint64 (app_ID a) =? 0 then ret (Some (ErrText "app id is empty"))
  else
    existing <- on_am (gets (GetPortmapApp (Uint64 (app_ID a)))) ;;
    match existing with
    | None => ret (Some (ErrText "app not exists"))
    | Some existing =>
        let existing := updated existing a in
        existing <-
          (if app_Running a then
             (if (app_Running existing && negb (String.eqb (app_Network existing) (app_Network a))) ||
                 negb (String.eqb (app_LocalIP existing) (app_LocalIP a)) || negb (app_LocalPort existing =? app_LocalPort a)
              then on_pm (DeleteListener (app_Network existing) (app_LocalIP existing) (app_LocalPort existing)) else ret tt) ;;;
             let* (_, err) := on_pm (AddListener Listen (app_Network a) (app_LocalIP a) (app_LocalPort a)) in
             ret (match err with Some e => set_stopped (Error e) existing | None => existing end)
           else
             on_pm (DeleteListener (app_Network a) (app_LocalIP a) (app_LocalPort a)) ;;; ret existing) ;;
        on_am (UpdatePortmapApp existing)
    end.

Definition delApp (a : PortmapApp) : GoM Agent (option error) :=
  g <- get ;;
  if negb (running g) then ret (Some (ErrText "agent not running"))
  else
    on_pm (DeleteListener (app_Network a) (app_LocalIP a) (app_LocalPort a)) ;;;
    on_am (DelPortmapApp (Uint64 (app_ID a))).

Definition getApps : GoM Agent (list PortmapApp) :=
  g <- get ;;
  if negb (running g) then ret [] else on_am (gets (GetPortmapApps range_apps)).

(** * Proxy gateways *)

Definition addProxyGateway (peerID token : string) : GoM Agent (option error) :=
  match Decode_peer peerID with
  | inr e => ret (Some e)
  | inl pid =>
      match ParseUint token with
      | (_, Some e) => ret (Some e)
      | (uToken, None) =>
          Libp2pHost ;;;
          match ResourceAuthorize Decode_peer NewStream peerID
                  (mkAreq AuthorizeTypeProxy None (Some (mkAxi (mkID uToken) "" ""))) with
          | ((_, Some e), _) => ret (Some e)
          | ((rsp, None), _) =>
              if negb (String.eqb (aresp_Err rsp) "") then ret (Some (ErrText (aresp_Err rsp)))
              else
                match aresp_Proxy rsp with
                | None => ret (Some (ErrText "proxy auth failed"))
                | Some p =>
                    on_px (addProxy (mkPg (aresp_NodeName rsp) peerID (U64 uToken) (axr_Route p) (axr_Dns p) (peer_of pid uToken)))
                end
          end
      end
  end.

Definition startTun2socks (tunDevice : string) : GoM Agent (option error) :=
  on_engine (Insert (mkKey 0 0 tunDevice "debug" ProxyClient.Minute)) ;;;
  on_engine (TunStack.Start url_Parse open_fd open_tun CreateStack ParseLevel).

Definition startTunProxy (tunDevice : string) (gatewayIdx : Z) : GoM Agent (option error) :=
  pg <- on_px (getProxyByIndex gatewayIdx) ;;
  match pg with
  | None => ret (Some (ErrText "gateway not found"))
  | Some pg =>
      err <- startTun2socks tunDevice ;;
      match err with
      | Some e => ret (Some e)
      | None =>
          Libp2pHost ;;;
          on_engine SetProxyDialer ;;;
          modify (set_dialer (Some (NewDialer (peer_ID (pg_peer pg)) (UserName (pg_peer pg)) (Password (pg_peer pg))))) ;;;
          ret None
      end
  end.

Definition stopTunProxy : GoM Agent (option error) :=
  modify (set_dialer None) ;;; on_engine TunStack.Stop.

Definition pingProxyGateway (idx : Z) : GoM Agent (option error) :=
  pg <- on_px (getProxyByIndex idx) ;;
  match pg with
  | None => ret (Some (ErrText "gateway not found"))
  | Some pg => Libp2pHost ;;; ret (Ping (peer_ID (pg_peer pg)))
  end.

Definition GetProxyGatewaysJson : GoM Agent string :=
  l <- on_px getProxys ;;
  ret (match l with [] => "" | _ => Marshal l end).

(** * The command line

    The agent of a fresh process, and the two commands of [main]; [argv] is
    [os.Args], whose elements beyond the end panic. *)
Definition agent_zero (n : Net) (d : DB) : Agent := mkAgent n None None d false None None false engine_zero None 0.

Definition parseInt (s : string) : Z := (Atoi s).1.

Definition cmd_add (argv : list string) : GoM Agent (option error) :=
  if (length argv <? 8)%nat then ret None
  else
    match argv with
    | _ :: _ :: name :: peer :: network :: ip :: port :: taddr :: tport :: _ =>
        addApp (mkApp (mkID 0) name peer (mkID 0) network ip (parseInt port) taddr (parseInt tport) true "" "")
    | _ => panic
    end.

Definition cmd_del (argv : list string) : GoM Agent (option error) :=
  match argv with
  | _ :: _ :: name :: _ => delApp (mkApp (mkID 0) name "" (mkID 0) "" "" 0 "" 0 false "" "")
  | _ => ret None
  end.

(** * Lemmas *)

Lemma on_am_Ret {A} (m : GoM PortmapAppMgr A) g apps x d apps' : am g = Some apps ->
  m (mkAppMgr (store g) apps) = (Ret x, mkAppMgr d apps') -> on_am m g = (Ret x, set_am (Some apps') (set_store d g)).
Proof. intros Ha Hm. unfold on_am. by rewrite Ha, Hm. Qed.
Lemma on_pm_Ret {A} (m : GoM Portmap A) g p x p' : pm g = Some p -> m p = (Ret x, p') ->
  on_pm m g = (Ret x, set_pm (Some p') g).
Proof. intros Ha Hm. unfold on_pm. by rewrite Ha, Hm. Qed.

Lemma update_run a g rs : am g = Some (Some rs) ->
  exists e g', on_am (UpdatePortmapApp a) g = (Ret e, g') /\ am g' = Some (Some (<[Uint64 (app_ID a) := a]> rs)) /\
    pm g' = pm g /\ p2p g' = p2p g /\ running g' = running g /\ rnd g' = rnd g /\
    e = (db_Put keyPortmapApps (Marshal (<[Uint64 (app_ID a) := a]> rs)) (store g)).1.
Proof.
  intros Ha. destruct (db_Put keyPortmapApps (Marshal (<[Uint64 (app_ID a) := a]> rs)) (store g)) as [e d] eqn:E.
  exists e, (set_am (Some (Some (<[Uint64 (app_ID a) := a]> rs))) (set_store d g)). split; [|done].
  apply (on_am_Ret _ _ _ _ _ _ Ha). unfold UpdatePortmapApp, bind, get, put. cbn [PortmapApp.apps app_db].
  unfold savePortmapApps, bind, get, zoom, dbPut. cbn [PortmapApp.apps app_db]. by rewrite E.
Qed.

Lemma delete_run id g rs : am g = Some (Some rs) ->
  exists e g', on_am (DelPortmapApp id) g = (Ret e, g') /\ am g' = Some (Some (delete id rs)) /\
    pm g' = pm g /\ running g' = running g.
Proof.
  intros Ha. destruct (db_Put keyPortmapApps (Marshal (delete id rs)) (store g)) as [e d] eqn:E.
  exists e, (set_am (Some (Some (delete id rs))) (set_store d g)). split; [|done].
  apply (on_am_Ret _ _ _ _ _ _ Ha). unfold DelPortmapApp, bind, get, put. cbn [PortmapApp.apps app_db fmap option_fmap option_map].
  unfold savePortmapApps, bind, get, zoom, dbPut. cbn [PortmapApp.apps app_db]. by rewrite E.
Qed.

Lemma lookup_run id g rs : am g = Some (Some rs) ->
  exists g', on_am (gets (GetPortmapApp id)) g = (Ret (rs !! id), g') /\ am g' = am g /\ pm g' = pm g /\ running g' = running g.
Proof. intros Ha. unfold on_am, gets. rewrite Ha. eexists. split; [reflexivity|]. by rewrite ?Ha. Qed.

(** ** Starting *)

#[local] Instance agent_host : AppHost DB Agent := {
  host_db := store;
  host_pm := pm;
  host_apps a := match am a with Some (Some rs) => Some rs | _ => None end;
  host_with d rs m a := set_pm (Some m) (set_am (Some (Some rs)) (set_store d a))
}.
#[local] Instance agent_host_laws : AppHostLaws DB Agent.
Proof.
  split; [done..|]. intros [n p q s b a x r e dl k] m rs. cbn. intros -> Ha. destruct a as [[a|]|]; [|done..]. by injection Ha as ->.
Qed.

Lemma start_host_running workDir b : safe (fun a => running a = b) (start_host workDir) any.
Proof.
  unfold start_host, setLog. safe_with ltac:(first [done | by apply (safe_zoom _ any) | intros ? ?]).
Qed.

Lemma agent_starts_app : starts_app Listen start_one.
Proof.
  intros a g m rs Hm Hrs. cbn in Hm, Hrs. destruct (am g) as [[rs'|]|] eqn:Ha; [|done..]. injection Hrs as ->.
  unfold start_one. destruct (app_Running a); cbn [negb]; [|done].
  destruct (AddListener _ _ _ _ _) as [[[q [e|]]|] m'] eqn:E; [..|done]; rewrite (bind_Ret _ _ _ _ _ (on_pm_Ret _ g m _ _ Hm E)).
  - cbn zeta. unfold on_am, bind at 1. change (am (set_pm (Some m') g)) with (am g). rewrite Ha.
    unfold UpdatePortmapApp, bind, get, put. cbn [PortmapApp.apps app_db]. unfold savePortmapApps, bind, get, zoom, dbPut.
    cbn [PortmapApp.apps app_db]. change (store (set_pm (Some m') g)) with (store g). cbn [host_db agent_host].
    change (app_ID (set_stopped "" a)) with (app_ID a). by destruct (db_Put _ _ _).
  - unfold ret. do 2 f_equal. destruct g. cbn in *. by subst.
Qed.

(** Who may be added: what the gateway's answer says. *)
Definition granted (a : PortmapApp) : option (AuthorizeResp * bool) :=
  match ResourceAuthorize Decode_peer NewStream (app_PeerID a)
          (mkAreq AuthorizeTypePortmap (Some (Authorize.mkApi (app_ResID a))) None) with
  | ((rsp, None), _) => if String.eqb (aresp_Err rsp) "" then (fun p => (rsp, apr_IsTrial p)) <$> aresp_Portmap rsp else None
  | _ => None
  end.

(** What asking for a listener leaves. *)
Lemma AddListener_outcome n ip q p : connEngine p = true -> exists x err p', AddListener Listen n ip q p = (Ret (x, err), p') /\
  match err with
  | None => exists q', listeners p' !! convertIndex n ip q' <> None
  | Some _ => p' = p
  end.
Proof.
  intros Hce. destruct (listeners p !! convertIndex n ip q) as [l|] eqn:El.
  - unfold AddListener, bind at 1, get. rewrite El, bind_ret. unfold bind, modify, ret.
    eexists _, None, _. split; [reflexivity|]. exists (getPort l). cbn [listeners]. by rewrite lookup_insert_eq.
  - destruct (Listen (Contains n "tcp") ip q (socks p)) as [[h addr]|e] eqn:Es.
    + eexists _, None, _. split; [exact (AddListener_free Listen n ip q h addr p El Hce Es)|].
      exists (addr_port addr). cbn [opened listeners]. by rewrite lookup_insert_eq.
    + exists 0, (Some e), p. split; [|done]. unfold AddListener, bind at 1, get. rewrite El.
      assert (E : (if Contains n "tcp" then addTCPListener Listen ip q else addUDPListener Listen ip q) =
                  addListener_os Listen (Contains n "tcp") ip q) by (by destruct (Contains n "tcp")).
      rewrite E. unfold addListener_os, bind, get. by rewrite Es.
Qed.

(** What [addApp] leaves of an application the gateway granted. *)
Definition app_added (g : Agent) (a a1 : PortmapApp) (p : Portmap) (rs : gmap Z PortmapApp) (r : option error) (g' : Agent) : Prop :=
  exists a' p', am g' = Some (Some (<[rand_Uint64 (rnd g) := a']> rs)) /\ pm g' = Some p' /\
    r = (db_Put keyPortmapApps (Marshal (<[rand_Uint64 (rnd g) := a']> rs)) (store g)).1 /\
    (a' = a1 /\ (app_Running a = false /\ p' = p \/
                 app_Running a = true /\ (AddListener Listen (app_Network a) (app_LocalIP a) (app_LocalPort a) p).2 = p' /\
                 exists q, listeners p' !! convertIndex (app_Network a) (app_LocalIP a) q <> None) \/
     exists e, app_Running a = true /\ a' = set_stopped (Error e) a1 /\ listeners p' = listeners p /\ socks p' = socks p).

Lemma addApp_listens a g p rs rsp trial : pm g = Some p -> am g = Some (Some rs) -> connEngine p = true ->
  let a1 := authorized (rand_Uint64 (rnd g)) rsp trial a in
  exists r g', (a <- listen_app a1 ;; on_am (UpdatePortmapApp a)) (next_id g).2 = (Ret r, g') /\ app_added g a a1 p rs r g'.
Proof.
  intros Hpm Ham Hce a1. set (g1 := (next_id g).2). unfold listen_app. change (app_Running a1) with (app_Running a).
  destruct (app_Running a) eqn:Er.
  - change (app_Network a1) with (app_Network a). change (app_LocalIP a1) with (app_LocalIP a). change (app_LocalPort a1) with (app_LocalPort a).
    destruct (AddListener_outcome (app_Network a) (app_LocalIP a) (app_LocalPort a) p Hce) as (x & err & p' & EL & HL).
    rewrite bind_assoc, (bind_Ret _ _ _ _ _ (on_pm_Ret _ g1 p _ _ Hpm EL)), bind_ret.
    set (a' := match err with Some e => _ | None => _ end). set (g2 := set_pm (Some p') g1).
    destruct (update_run a' g2 rs Ham) as (r & g' & E & Ha' & Hp' & _ & _ & _ & Hr).
    assert (Hid : Uint64 (app_ID a') = rand_Uint64 (rnd g)) by (unfold a'; by destruct err). rewrite Hid in *.
    rewrite E. exists r, g'. split; [done|]. exists a', p'. split_and!; [done|done|done|].
    destruct err as [e|]; [right; exists e; subst p'; by split_and!|]. left. split; [done|]. right. split_and!; [done|by rewrite EL|done].
  - rewrite bind_ret. destruct (update_run a1 g1 rs Ham) as (r & g' & E & Ha' & Hp' & _ & _ & _ & Hr).
    rewrite E. exists r, g'. split; [done|]. exists a1, p. split_and!; [done|by rewrite Hp'|done|]. left. split; [done|by left].
Qed.

(** [addApp] on a host that is up, by the gateway's answer. *)
Lemma addApp_run a g : p2p g <> None ->
  match granted a with
  | None => exists e, addApp a g = (Ret (Some e), (next_id g).2)
  | Some (rsp, trial) => addApp a g = (a <- listen_app (authorized (rand_Uint64 (rnd g)) rsp trial a) ;; on_am (UpdatePortmapApp a)) (next_id g).2
  end.
Proof.
  intros Hp2p. assert (E1 : next_id g = (Ret (rand_Uint64 (rnd g)), (next_id g).2)) by done.
  assert (E2 : Libp2pHost (next_id g).2 = (Ret tt, (next_id g).2)).
  { unfold Libp2pHost. change (p2p (next_id g).2) with (p2p g). by destruct (p2p g). }
  unfold granted, addApp. rewrite (bind_Ret _ _ _ _ _ E1), (bind_Ret _ _ _ _ _ E2).
  destruct (ResourceAuthorize _ _ _ _) as [[rsp [e|]] cn]; [by exists e|].
  destruct (String.eqb_spec (aresp_Err rsp) "") as [He|He]; cbn [negb]; [|by eexists].
  destruct (aresp_Portmap rsp) as [tr|]; cbn [fmap option_fmap option_map]; [done|by eexists].
Qed.

(** C25. Adding an application to a running agent.  It is refused with an error,
    and no application and no listener changes, unless the gateway answers the
    authorization without an error and with its part for mappings.  Granted, the
    application is kept under a fresh identifier with the gateway's name,
    without its target unless the gateway is one to try; when it is to run it
    has a listener, or is kept stopped with the reason it has none; the result
    is the store's. *)
Theorem agent_add_app a g p rs : p2p g <> None -> pm g = Some p -> am g = Some (Some rs) ->
  connEngine p = true ->
  exists r g', addApp a g = (Ret r, g') /\ let id := rand_Uint64 (rnd g) in
  match granted a with
  | None => r <> None /\ am g' = am g /\ pm g' = pm g
  | Some (rsp, trial) =>
      let a1 := authorized id rsp trial a in
      exists a' p', am g' = Some (Some (<[id := a']> rs)) /\ pm g' = Some p' /\
        r = (db_Put keyPortmapApps (Marshal (<[id := a']> rs)) (store g)).1 /\
        (a' = a1 /\ (app_Running a = false /\ p' = p \/
                     app_Running a = true /\ (AddListener Listen (app_Network a) (app_LocalIP a) (app_LocalPort a) p).2 = p' /\
                     exists q, listeners p' !! convertIndex (app_Network a) (app_LocalIP a) q <> None) \/
         exists e, app_Running a = true /\ a' = set_stopped (Error e) a1 /\ listeners p' = listeners p /\ socks p' = socks p)
  end.
Proof.
  intros Hp2p Hpm Ham Hce. pose proof (addApp_run a g Hp2p) as E. destruct (granted a) as [[rsp trial]|].
  - rewrite E. exact (addApp_listens a g p rs rsp trial Hpm Ham Hce).
  - destruct E as (e & E). rewrite E. by eexists (Some e), _.
Qed.

(** Loading the gateways reads only them. *)
Lemma loadProxys_stored (d d' : DB) : db_Get keyProxys d = db_Get keyProxys d' ->
  exists r x, loadProxys Decode_peer (mkPxMgr d None) = (Ret r, mkPxMgr d x) /\ loadProxys Decode_peer (mkPxMgr d' None) = (Ret r, mkPxMgr d' x).
Proof.
  intros E. unfold loadProxys, bind, get, put, ret. cbn [px_db proxys]. rewrite E.
  destruct (db_Get keyProxys d') as [v|[]]; try by eexists _, _. destruct (Unmarshal v _); by eexists _, _.
Qed.

Lemma LoadPortmapApps_db (d : DB) range l d' rs : LoadPortmapApps range (NewPortmapAppMgr d) = (Ret (l, None), mkAppMgr d' rs) -> d' = d.
Proof.
  unfold LoadPortmapApps, bind, get, put, ret. cbn. destruct (db_Get keyPortmapApps d) as [v|[]]; try (unfold NewPortmapAppMgr; congruence).
  destruct (Unmarshal v _); congruence.
Qed.

(** An agent that starts holds what its store says.  Once its log, store,
    identity and engine are up and the stored applications can be read, every one
    of them that was to run listens on its network and address or is held
    stopped, and no other changes; its gateways are those of the store.  Then the
    agent runs, unless its gateways cannot be read, whose error is returned. *)
Theorem agent_start workDir g g1 l rs : running g = false -> start_host workDir g = (Ret (inl tt), g1) ->
  LoadPortmapApps range_apps (NewPortmapAppMgr (store g1)) = (Ret (l, None), mkAppMgr (store g1) (Some rs)) ->
  os_ok Listen -> Forall app_ok l -> NoDup (map (fun a => Uint64 (app_ID a)) l) ->
  exists r g' m rs', start workDir true g = (Ret r, g') /\ pm g' = Some m /\ am g' = Some (Some rs') /\ p2p g' = p2p g1 /\
    pm_inv ∅ m /\ stopped_some l rs rs' /\
    (forall a, a ∈ l -> app_Running a = true -> listened a m \/ rs' !! Uint64 (app_ID a) = Some (set_stopped "" a)) /\
    (forall k, k <> keyPortmapApps -> db_Get k (store g') = db_Get k (store g1)) /\
    exists x, pxm g' = Some x /\ running g' = bool_decide (r = None) /\
      loadProxys Decode_peer (mkPxMgr (store g1) None) = (Ret r, mkPxMgr (store g1) x).
Proof.
  intros Hrun Hhost Hload Hos Hok Hnd. unfold start, bind at 1, get. rewrite Hrun, (bind_Ret _ _ _ _ _ Hhost).
  assert (Hr1 : running g1 = false) by (pose proof (start_host_running workDir false g Hrun) as [H _]; by rewrite Hhost in H).
  assert (E1 : initAppMgr g1 = (Ret (l, None), set_am (Some (Some rs)) g1)).
  { unfold initAppMgr, bind at 1, modify. unfold on_am, bind. cbn [am set_am store]. change (mkAppMgr (store g1) (Some ∅)) with (NewPortmapAppMgr (store g1)).
    by rewrite Hload. }
  set (g2 := set_pm (Some (NewPortMap ∅)) (set_am (Some (Some rs)) g1)).
  destruct (start_all_run Listen Hos _ agent_starts_app ∅ l g2 (NewPortMap ∅) rs eq_refl eq_refl Hok Hnd (pm_inv_new _) eq_refl)
    as (d & rs' & m & E2 & Hd & HI & _ & Hst & Hl & _). change (host_db g2) with (store g1) in Hd. set (g3 := host_with d rs' m g2) in E2.
  assert (E3 : startPortmap g1 = (Ret None, g3)).
  { unfold startPortmap. rewrite (bind_Ret _ _ _ _ _ E1). unfold bind at 1, modify. fold g2. by rewrite (bind_Ret _ _ _ _ _ E2). }
  rewrite bind_assoc, (bind_Ret _ _ _ _ _ E3), bind_ret. unfold bind at 1, modify at 1. set (g4 := set_pxm (Some None) g3).
  destruct (loadProxys_stored d (store g1)) as (r & x & E4 & E5); [by apply Hd|].
  assert (E6 : on_px (loadProxys Decode_peer) g4 = (Ret r, set_pxm (Some x) (set_store d g4))).
  { unfold on_px, g4. cbn [pxm set_pxm store]. change (store g3) with d. by rewrite E4. }
  rewrite (bind_Ret _ _ _ _ _ E6). destruct r as [e|].
  - eexists (Some e), _, m, rs'. split; [reflexivity|]. split_and!; try done. by exists x.
  - eexists None, _, m, rs'. split; [reflexivity|]. split_and!; try done. by exists x.
Qed.

(** C37. A restarted agent has its applications again.  When the store holds the
    applications [rs], as it does after every change that reported success, and
    the host of a new agent is up, the agent has exactly them, without the texts of
    their errors; those that were to run listen on their networks and addresses,
    or are held stopped when the system refused it; the gateways are those of the
    store, and the agent runs unless they cannot be read, whose error the start
    returns. *)
Theorem agent_restart workDir g g1 rs : running g = false -> start_host workDir g = (Ret (inl tt), g1) ->
  restarts_with (store g1) rs -> (forall m, range_apps m ≡ₚ map_to_list m) -> os_ok Listen ->
  (forall k a, rs !! k = Some a -> Uint64 (app_ID a) = k /\ app_ok a) ->
  exists r g' m rs', start workDir true g = (Ret r, g') /\ pm g' = Some m /\ am g' = Some (Some rs') /\ p2p g' = p2p g1 /\
    pm_inv ∅ m /\
    (forall k, rs' !! k = app_norm <$> rs !! k \/
       exists a, rs !! k = Some a /\ app_Running a = true /\ rs' !! k = Some (set_stopped "" a)) /\
    (forall k a, rs !! k = Some a -> app_Running a = true -> listened a m \/ rs' !! k = Some (set_stopped "" a)) /\
    exists x, pxm g' = Some x /\ running g' = bool_decide (r = None) /\
      loadProxys Decode_peer (mkPxMgr (store g1) None) = (Ret r, mkPxMgr (store g1) x).
Proof.
  intros Hrun Hhost Hst Hperm Hos Hok. destruct (Hst range_apps) as (l & [d o] & Hload & Ho & Hl). cbn in Ho. subst o.
  assert (Hd : d = store g1) by (by apply (LoadPortmapApps_db _ _ _ _ _ Hload)). subst d.
  assert (Hin : forall b, b ∈ l <-> exists k a, rs !! k = Some a /\ b = app_norm a).
  { intros b. rewrite Hl, list_elem_of_fmap. split.
    - intros ([k x] & -> & Hk). rewrite Hperm in Hk. apply elem_of_map_to_list in Hk. rewrite lookup_fmap in Hk. apply fmap_Some in Hk as (a & Ha & ->). by exists k, a.
    - intros (k & a & Ha & ->). exists (k, app_norm a). split; [done|]. rewrite Hperm. apply elem_of_map_to_list. by rewrite lookup_fmap, Ha. }
  destruct (agent_start workDir g g1 l (app_norm <$> rs) Hrun Hhost Hload Hos) as (r & g' & m & rs' & E & Hpm & Ham & Hp & HI & Hstop & Hlis & _ & Hx).
  { apply Forall_forall. intros b Hb. apply Hin in Hb as (k & a & Ha & ->). exact (proj2 (Hok k a Ha)). }
  { rewrite Hl. apply (NoDup_keyed (fun a => Uint64 (app_ID a)) (app_norm <$> rs)); [|apply Hperm].
    intros k b. rewrite lookup_fmap. intros (a & Ha & ->)%fmap_Some. exact (proj1 (Hok k a Ha)). }
  exists r, g', m, rs'. split; [exact E|]. split; [exact Hpm|]. split; [exact Ham|]. split; [exact Hp|]. split; [exact HI|].
  split; [|split; [|exact Hx]].
  - intros k. destruct (Hstop k) as [Hk|(b & Hb & Hr & Hkb & Hk)]; [left; by rewrite Hk, lookup_fmap|right].
    apply Hin in Hb as (k2 & a & Ha & ->). exists a. destruct (Hok k2 a Ha) as [Hid _]. change (app_ID (app_norm a)) with (app_ID a) in Hkb.
    rewrite Hid in Hkb. by subst k2.
  - intros k a Ha Hr. destruct (Hok k a Ha) as [Hid _].
    destruct (Hlis (app_norm a)) as [H|H]; [apply Hin; by exists k, a|done|by left|right]. change (app_ID (app_norm a)) with (app_ID a) in H.
    by rewrite Hid in H.
Qed.

(** Changing the address of a running application leaves its old listener
    open.  The comparison that should close it comes after the new address was
    copied over the old one, so it never differs: after the update both
    addresses listen, and deleting the application closes the new one only; the
    old one keeps its socket and its connections find no application. *)
Theorem moved_app_leaks b g p rs old l sk hd addr :
  am g = Some (Some rs) -> pm g = Some p -> running g = true -> Uint64 (app_ID b) <> 0 ->
  rs !! Uint64 (app_ID b) = Some old -> app_ID old = app_ID b -> app_Running b = true ->
  let i := convertIndex (app_Network old) (app_LocalIP old) (app_LocalPort old) in
  let j := convertIndex (app_Network b) (app_LocalIP b) (app_LocalPort b) in
  i <> j -> listeners p !! i = Some l -> socks p !! l_sock l = Some sk ->
  listeners p !! j = None -> connEngine p = true ->
  Listen (Contains (app_Network b) "tcp") (app_LocalIP b) (app_LocalPort b) (socks p) = inl (hd, addr) ->
  socks p !! hd = None -> addr_port addr = app_LocalPort b ->
  exists e g1 p1 e2 g2 p2, updateAPP b g = (Ret e, g1) /\ pm g1 = Some p1 /\
    am g1 = Some (Some (<[Uint64 (app_ID b) := updated old b]> rs)) /\
    listeners p1 !! i = Some l /\ listeners p1 !! j <> None /\
    delApp (updated old b) g1 = (Ret e2, g2) /\ pm g2 = Some p2 /\ am g2 = Some (Some (delete (Uint64 (app_ID b)) rs)) /\
    listeners p2 !! i = Some l /\ socks p2 !! l_sock l = Some sk /\ listeners p2 !! j = None.
Proof.
  intros Ham Hpm Hrun Hid Hold Hoid Hb i j Hij Hi Hsk Hj Hce HL Hfree Hport. unfold updateAPP.
  destruct (Z.eqb_spec (Uint64 (app_ID b)) 0); [done|].
  destruct (lookup_run (Uint64 (app_ID b)) g rs Ham) as (g0 & E0 & Ham0 & Hpm0 & Hrun0).
  rewrite (bind_Ret _ _ _ _ _ E0), Hold, Hb.
  change (app_Network (updated old b)) with (app_Network b). change (app_LocalIP (updated old b)) with (app_LocalIP b).
  change (app_LocalPort (updated old b)) with (app_LocalPort b).
  rewrite !String.eqb_refl, Z.eqb_refl, andb_false_r. cbn [negb orb]. rewrite bind_assoc, bind_ret.
  set (p1 := opened (app_Network b) (app_LocalIP b) hd addr p).
  assert (EL : on_pm (AddListener Listen (app_Network b) (app_LocalIP b) (app_LocalPort b)) g0 =
    (Ret (addr_port addr, None), set_pm (Some p1) g0)).
  { apply on_pm_Ret with p; [congruence|]. by apply AddListener_free. }
  rewrite bind_assoc, (bind_Ret _ _ _ _ _ EL), bind_ret. set (g0' := set_pm (Some p1) g0).
  assert (Ham0' : am g0' = Some (Some rs)) by (change (am g0') with (am g0); congruence).
  destruct (update_run (updated old b) g0' rs Ham0') as (e & g1 & E1 & Ham1 & Hpm1 & _ & Hrun1 & _).
  change (app_ID (updated old b)) with (app_ID old) in Ham1. rewrite Hoid in Ham1.
  assert (Hlh : l_sock l <> hd) by congruence.
  assert (Hj1 : listeners p1 !! j = Some (mkListener (Contains (app_Network b) "tcp") hd addr)).
  { unfold p1, opened. cbn [listeners]. rewrite Hport. apply lookup_insert_eq. }
  set (p2 := mkPortmap (delete j (listeners p1)) (delete hd (socks p1)) (connEngine p1)).
  assert (ED : on_pm (DeleteListener (app_Network b) (app_LocalIP b) (app_LocalPort b)) g1 = (Ret tt, set_pm (Some p2) g1)).
  { apply on_pm_Ret with p1; [by rewrite Hpm1|]. unfold DeleteListener, bind, get, modify, Portmap.close. fold j. by rewrite Hj1. }
  set (g1' := set_pm (Some p2) g1).
  destruct (delete_run (Uint64 (app_ID b)) g1' _ Ham1) as (e2 & g2 & E2 & Ham2 & Hpm2 & _).
  exists e, g1, p1, e2, g2, p2. split; [exact E1|]. split; [by rewrite Hpm1|]. split; [done|].
  assert (Hi1 : listeners p1 !! i = Some l).
  { unfold p1, opened. cbn [listeners]. rewrite Hport. fold j. by rewrite lookup_insert_ne. }
  split; [done|]. split; [by rewrite Hj1|]. split.
  { unfold delApp, bind at 1, get. rewrite Hrun1. change (running g0') with (running g0). rewrite Hrun0, Hrun. cbn [negb].
    change (app_Network (updated old b)) with (app_Network b). change (app_LocalIP (updated old b)) with (app_LocalIP b).
    change (app_LocalPort (updated old b)) with (app_LocalPort b). change (app_ID (updated old b)) with (app_ID old).
    rewrite (bind_Ret _ _ _ _ _ ED), Hoid. exact E2. }
  split; [done|]. split; [by rewrite Ham2, delete_insert_eq|]. split_and!.
  - unfold p2. cbn [listeners]. by rewrite lookup_delete_ne.
  - unfold p2, p1, opened. cbn [socks]. by rewrite lookup_delete_ne, lookup_insert_ne.
  - unfold p2. cbn [listeners]. by rewrite lookup_delete_eq.
Qed.

(** The commands of the command line run in a process whose agent was never
    started: adding an application panics, or prints how it is used, and
    deleting one reports that the agent does not run; nothing changes. *)
Theorem commands_never_work argv n d :
  (if (length argv <? 8)%nat then cmd_add argv (agent_zero n d) = (Ret None, agent_zero n d)
   else (cmd_add argv (agent_zero n d)).1 = Panic) /\
  exists e, cmd_del argv (agent_zero n d) = (Ret e, agent_zero n d) /\ (e = None \/ e = Some (ErrText "agent not running")).
Proof.
  split.
  - unfold cmd_add. destruct (length argv <? 8)%nat; [done|].
    destruct argv as [|? [|? [|? [|? [|? [|? [|? [|? [|? ?]]]]]]]]]; done.
  - unfold cmd_del. destruct argv as [|? [|? [|name argv]]]; (eexists; split; [reflexivity|auto]).
Qed.

Lemma Close_total p : exists p', Portmap.Close p = (Ret tt, p').
Proof.
  unfold Portmap.Close, bind at 1, get. generalize (map_to_list (listeners p)).*2. intros l. revert p.
  induction l as [|x l IH]; intros p; [by eexists|]. cbn [for_range]. unfold Portmap.close at 1. rewrite bind_assoc.
  unfold bind at 1, modify at 1. apply IH.
Qed.

(** A closed agent does not come back: starting it again reports success and
    does nothing, and adding an application then panics. *)
Theorem closed_agent_stays_closed g workDir withPortmap a : running g = true ->
  exists g1, close g = (Ret tt, g1) /\ start workDir withPortmap g1 = (Ret None, g1) /\
    p2p g1 = None /\ pm g1 = None /\ (addApp a g1).1 = Panic.
Proof.
  intros Hrun. unfold close, bind at 1, get.
  assert (H1 : exists g1, (match pm g with Some _ => on_pm Portmap.Close ;;; modify (set_pm None) | None => ret tt end) g = (Ret tt, g1) /\
    pm g1 = None /\ running g1 = true /\ p2p g1 = p2p g).
  { destruct (pm g) as [p|] eqn:Ep; [|by exists g]. destruct (Close_total p) as (p' & E).
    rewrite (bind_Ret _ _ _ _ _ (on_pm_Ret _ g p _ _ Ep E)). by eexists. }
  destruct H1 as (g1 & E1 & Hpm1 & Hrun1 & Hp1). rewrite (bind_Ret _ _ _ _ _ E1).
  assert (H2 : exists g2, (match p2p g with Some pe => on_net (P2p.Close pe) ;;; modify (set_p2p None) | None => ret tt end) g1 = (Ret tt, g2) /\
    pm g2 = None /\ running g2 = true /\ p2p g2 = None).
  { destruct (p2p g) as [pe|]; [|by exists g1]. unfold on_net, zoom, P2p.Close, close_host, modify, bind. by eexists. }
  destruct H2 as (g2 & E2 & Hpm2 & Hrun2 & Hp2). rewrite (bind_Ret _ _ _ _ _ E2). unfold modify.
  eexists. split; [reflexivity|]. set (g3 := if db_set g2 then _ else _).
  assert (H3 : running g3 = true /\ p2p g3 = None /\ pm g3 = None) by (unfold g3; by destruct (db_set g2)).
  destruct H3 as (Hr3 & Hp3 & Hm3). split_and!; [|done..|].
  - unfold start, bind at 1, get. by rewrite Hr3.
  - unfold addApp, next_id, bind, Libp2pHost. cbn [p2p]. by rewrite Hp3.
Qed.
End Agent.

(** * Concrete inputs *)

Definition ex_agent_reply : bytes := bytes_of_string (Marshal (mkAresp "office" "" (Some (mkApr false)) None)).
#[local] Instance ex_agent_system : System := {
  Decode_peer := inl; NewStream _ := inl (conn_of ex_agent_reply); NewStream5 _ := inr EOF;
  url_Parse s := inl ("tun", "uptptun0"); open_fd _ _ _ := None; open_tun _ _ _ := None; CreateStack _ := None; ParseLevel _ := None;
  OS := unit; sys_setTunAddr _ _ _ o := (None, o); sys_addRoute _ _ o := (None, o); sys_delRoute _ _ o := (None, o);
  LookupPort _ _ := inl 80; range_obs := map_to_list }.

Definition ex_new : PortmapApp := mkApp (mkID 0) "web" "peer" (mkID 7) "tcp" "127.0.0.1" 9000 "10.0.0.9" 80 true "" "".
Definition ex_agent (apps : gmap Z PortmapApp) (p : Portmap) : @Agent memdb :=
  mkAgent P2p.ex_net (Some (mkP2P 0 true None 0)) (Some p) mem_empty true (Some (Some apps)) (Some None) true engine_zero None 0.

Lemma agent_add_app_witness : exists r g', addApp ex_rand ex_listen ex_new (ex_agent ∅ (NewPortMap ∅)) = (Ret r, g') /\
  am g' = Some (Some {[ 4000 := mkApp (mkID 4000) "web" "peer" (mkID 7) "tcp" "127.0.0.1" 9000 "" 0 true "office" "" ]}).
Proof.
  destruct (agent_add_app ex_rand ex_listen ex_new (ex_agent ∅ (NewPortMap ∅)) (NewPortMap ∅) ∅ ltac:(discriminate) eq_refl eq_refl
    eq_refl) as (r & g' & E & H).
  exists r, g'. split; [exact E|].
  assert (HG : granted ex_new = Some (mkAresp "office" "" (Some (mkApr false)) None, false)) by (vm_compute; reflexivity).
  rewrite HG in H. destruct H as (a' & p' & Ha & _ & _ & [[-> _]|(e & _ & _ & Hl & _)]).
  - rewrite Ha. reflexivity.
  - vm_compute in E. injection E as _ <-. vm_compute. reflexivity.
Defined.

Definition ex_moved : PortmapApp := mkApp (mkID 9) "web" "peer" (mkID 7) "tcp" "127.0.0.1" 9000 "" 80 true "" "".
Definition ex_agent_p : Portmap := opened "tcp" "127.0.0.1" 0 "127.0.0.1:8080" (NewPortMap ∅).

Lemma moved_app_leaks_witness : exists e g1 e2 g2 p2,
  updateAPP ex_listen ex_moved (ex_agent {[ 9 := ex_app ]} ex_agent_p) = (Ret e, g1) /\
  delApp (updated ex_app ex_moved) g1 = (Ret e2, g2) /\ pm g2 = Some p2 /\ am g2 = Some (Some ∅) /\
  listeners p2 !! "tcp://127.0.0.1:8080" <> None /\ listeners p2 !! "tcp://127.0.0.1:9000" = None.
Proof.
  destruct (moved_app_leaks ex_listen ex_moved (ex_agent {[ 9 := ex_app ]} ex_agent_p) ex_agent_p {[ 9 := ex_app ]} ex_app
    (mkListener true 0 "127.0.0.1:8080") (true, "127.0.0.1", "127.0.0.1:8080") 1 "127.0.0.1:9000"
    eq_refl eq_refl eq_refl ltac:(discriminate) eq_refl eq_refl eq_refl ltac:(vm_compute; congruence) ltac:(vm_compute; reflexivity)
    ltac:(vm_compute; reflexivity) ltac:(vm_compute; reflexivity) eq_refl ltac:(vm_compute; reflexivity)
    ltac:(vm_compute; reflexivity) ltac:(vm_compute; reflexivity))
    as (e & g1 & p1 & e2 & g2 & p2 & H1 & _ & _ & _ & _ & H2 & H3 & H4 & H5 & _ & H6).
  exists e, g1, e2, g2, p2. split; [exact H1|]. split; [exact H2|]. split; [exact H3|].
  split; [rewrite H4; vm_compute; reflexivity|]. split; [|exact H6]. intros Hn.
  assert (Hi : convertIndex (app_Network ex_app) (app_LocalIP ex_app) (app_LocalPort ex_app) = "tcp://127.0.0.1:8080") by (vm_compute; reflexivity).
  rewrite Hi, Hn in H5. discriminate H5.
Defined.

(** An agent that is started over a store with one application. *)
Definition ex_app_db : memdb := mkMem {[ keyPortmapApps := Marshal ({[ 9 := ex_app ]} : gmap Z PortmapApp) ]} None.
Abbreviation ex_agent_start := (start ex_listen map_to_list (fun _ => inl ex_app_db) (fun _ => inr EOF) (fun _ _ => None) inl None
  (fun _ _ => inl ex_addrs) (fun _ _ => None) (inl ex_uuid) false 42 "" true (agent_zero P2p.ex_net mem_empty)).
Abbreviation ex_agent_host := (start_host (DB := memdb) (fun _ => inl ex_app_db) (fun _ => inr EOF) (fun _ _ => None) inl None
  (fun _ _ => inl ex_addrs) (fun _ _ => None) (inl ex_uuid) false 42 "" (agent_zero P2p.ex_net mem_empty)).

Lemma ex_app_stored : restarts_with ex_app_db {[ 9 := ex_app ]}.
Proof. intros range. eexists _, _. split; [vm_compute; reflexivity|]. split; vm_compute; reflexivity. Qed.

Lemma ex_agent_host_up : ex_agent_host = (Ret (inl tt), ex_agent_host.2).
Proof. vm_compute. reflexivity. Qed.

Lemma agent_restart_witness : exists r g' m, ex_agent_start = (Ret r, g') /\ pm g' = Some m /\ listened ex_app m.
Proof.
  destruct (agent_restart ex_listen map_to_list (fun _ => inl ex_app_db) (fun _ => inr EOF) (fun _ _ => None) inl None
    (fun _ _ => inl ex_addrs) (fun _ _ => None) (inl ex_uuid) false 42 "" (agent_zero P2p.ex_net mem_empty) ex_agent_host.2
    {[ 9 := ex_app ]} eq_refl ex_agent_host_up ex_app_stored (fun m => Permutation_refl _) ex_os_ok)
    as (r & g' & m & rs' & E & Hpm & Ham & _ & _ & _ & Hl & _).
  - intros k a [<- <-]%lookup_singleton_Some. split; [reflexivity|]. split; [reflexivity|vm_compute; split; congruence].
  - exists r, g', m. split; [exact E|]. split; [exact Hpm|]. destruct (Hl 9 ex_app (lookup_singleton_eq _ _) eq_refl) as [H|H]; [exact H|].
    assert (E2 : (match am ex_agent_start.2 with Some (Some x) => app_Running <$> x !! 9 | _ => None end) = Some true) by (vm_compute; reflexivity).
    rewrite E in E2. cbn [snd] in E2. rewrite Ham, H in E2. discriminate E2.
Defined.
