(* ===== verification/EndToEnd.v ===== *)
(** An agent and a gateway together (src/agent/agent.go, src/gateway/authorize.go,
    src/gateway/gateway.go, src/portmap/portmap.go): what an agent may add, and
    where the connections to what it added lead.  The theorem joins the
    operations of Agent, the exchange of Authorize and the handshakes of GwCore
    and Portmap. *)
From S2P Require Import Prelude GoText GoIo Json Codec TypesId Store PortmapRes PortmapApp Portmap GwCore Authorize.
From S2P Require Import ProxyService AppStart ProxyClient Agent.

Section EndToEnd.
Context {DB DBg : Type} {Db : LevelDB DB} {Dbg : LevelDB DBg} {Dbgl : LevelDBLaws DBg}.
Context {Sys : System}.
Context (rand_agent rand_gateway : nat -> Z) (Hostname : string + error).
Context (Listen : bool -> string -> Z -> sockets -> (nat * string) + error).
Context (range_apps : gmap Z PortmapApp -> list (Z * PortmapApp)).

Definition auth_request (a : PortmapApp) : AuthorizeReq :=
  mkAreq AuthorizeTypePortmap (Some (Authorize.mkApi (app_ResID a))) None.

(** One exchange between the two ends: the asking end's stream brings what the
    gateway [gb] writes, the gateway's what the asking end writes, each in one
    piece; it leaves [gb']. *)
Definition exchange (peer : string) (req : AuthorizeReq) (gb gb' : @Core DBg) : Prop :=
  exists pid ca cg cg' cs e e2 answer,
    Decode_peer peer = inl pid /\ NewStream pid = inl ca /\ werr ca = None /\ werr cg = None /\
    rx cg = mkSource (bytes_of_string (Marshal req) :: cs) e2 /\
    authorizeHandler rand_gateway Hostname (mkServing gb cg) = (Ret tt, mkServing gb' cg') /\
    tx cg' = tx cg ++ answer /\ (length answer <= 1024)%nat /\ rx ca = mkSource (match answer with [] => [] | _ => [answer] end) e.

(** What the gateway decides, and where the connections of [a] then go. *)
Definition allowed (a : PortmapApp) (g : @Core DBg) : bool :=
  grants_portmap (app_ResID a) g && String.eqb (name_reply Hostname g).2 "".
Definition target_of (a : PortmapApp) (g : @Core DBg) : string * string * Z :=
  if bool_decide (app_ResID a = trialID) && trial g then (app_Network a, app_TargetAddr a, app_TargetPort a)
  else
    let res := default res_zero (held_res g !! Uint64 (app_ResID a)) in
    (res_Network res, res_TargetAddr res, res_TargetPort res).

(** ** The request is short, whatever the identifier *)

Lemma escaped_digits s : all_digits s = true -> escaped s = s.
Proof.
  induction s as [|c s IH]; [done|]. cbn [all_digits]. intros [Hc Hs]%andb_prop.
  change (String c s) with (String c "" +:+ s).
  assert (H : (is_digit c = true -> rune_ok (String c "") = true /\ esc_rune (Some (String c "")) = String c "")).
  { clear. destruct c as [[] [] [] [] [] [] [] []]; try (vm_compute; done); intros H; vm_compute in H; done. }
  destruct (H Hc) as [Hr He]. by rewrite escaped_app, He, IH.
Qed.

Lemma fmt_digits_length fuel z acc : (String.length (fmt_digits fuel z acc) <= fuel + String.length acc)%nat.
Proof.
  revert z acc. induction fuel as [|f IH]; intros z acc; [done|]. cbn [fmt_digits]. case_match; [cbn; lia|].
  pose proof (IH (z / 10) (String (digit_char (z mod 10)) acc)) as H1. cbn [String.length] in H1. lia.
Qed.

Lemma quote_id_short z : (String.length (quote (String_ (mkID z))) <= 22)%nat.
Proof.
  unfold quote, String_. fold (escaped (FormatUint (Uint64 (mkID z)))). cbn [String.length]. rewrite string_length_app. cbn [String.length].
  rewrite escaped_digits by (by apply all_digits_fmt). pose proof (fmt_digits_length 20 z "") as H. cbn [String.length] in H.
  unfold FormatUint. cbn [Uint64]. lia.
Qed.

Lemma auth_request_short a : (length (bytes_of_string (Marshal (auth_request a))) <= 1024)%nat.
Proof.
  rewrite length_bytes_of_string. unfold Marshal. destruct (app_ResID a) as [z] eqn:E. unfold auth_request. rewrite E.
  pose proof (quote_id_short z) as Hq.
  cbn -[FormatUint quote String_]. repeat (rewrite string_length_app; cbn -[FormatUint quote String_]).
  assert (Hf : (String.length (FormatUint AuthorizeTypePortmap) = 1)%nat) by reflexivity. rewrite Hf.
  assert (Hk : String.length (quote "type") = 6%nat /\ String.length (quote "portmap") = 9%nat /\ String.length (quote "resource_id") = 13%nat) by (by vm_compute).
  destruct Hk as (-> & -> & ->). lia.
Qed.

(** ** The exchange *)

(** What the gateway's end does in an exchange. *)
Lemma exchange_serves peer req gb gb' pc : exchange peer req gb gb' -> g_proxySvc gb = Some pc -> json_fits req ->
  (length (bytes_of_string (Marshal req)) <= 1024)%nat ->
  gb' = auth_core rand_gateway req gb /\
  exists pid ca e answer, Decode_peer peer = inl pid /\ NewStream pid = inl ca /\ werr ca = None /\
    answer = match auth_reply rand_gateway Hostname req gb with Some r => bytes_of_string (Marshal r) | None => [] end /\
    (length answer <= 1024)%nat /\ rx ca = mkSource (match answer with [] => [] | _ => [answer] end) e.
Proof.
  intros (pid & ca & cg & cg' & cs & e & e2 & answer & Hd & Hns & Hw & Hwg & Hrx & Hrun & Htx & Hl & Hrxa) Hpc Hreq Hshort.
  pose proof (serve_run rand_gateway Hostname gb cg _ cs e2 pc Hrx Hshort Hwg Hpc) as HS. cbv zeta in HS.
  rewrite string_of_bytes_of_string in HS.
  rewrite (Unmarshal_Marshal req Hreq ltac:(cbn; lia) : Unmarshal (Marshal req) (zero (A := AuthorizeReq)) = inl req) in HS.
  rewrite Hrun in HS. destruct (auth_panics rand_gateway req gb); [done|]. cbn [fst snd sv_core sv_stream] in HS.
  destruct HS as (_ & _ & Hc & Ht). rewrite Htx in Ht. apply app_inv_head in Ht.
  split; [exact Hc|]. by exists pid, ca, e, answer.
Qed.

(** The asking end has the answer the gateway defines, or an error when there is
    none. *)
Lemma exchange_answer peer req gb gb' pc : exchange peer req gb gb' -> g_proxySvc gb = Some pc -> json_fits req ->
  (length (bytes_of_string (Marshal req)) <= 1024)%nat ->
  (forall r, auth_reply rand_gateway Hostname req gb = Some r -> json_fits r) ->
  exists e s', ResourceAuthorize Decode_peer NewStream peer req =
      (match auth_reply rand_gateway Hostname req gb with Some r => (r, None) | None => (zero, Some e) end, s').
Proof.
  intros HX Hpc Hreq Hshort Hfit.
  destruct (exchange_serves peer req gb gb' pc HX Hpc Hreq Hshort) as (_ & pid & ca & e & answer & Hd & Hns & Hw & Ht & Hl & Hrxa).
  set (wired := (fun r => bytes_of_string (Marshal r)) <$> auth_reply rand_gateway Hostname req gb).
  assert (Ha : match answer with [] => [] | _ => [answer] end = match wired with Some m => [m] | None => [] end).
  { rewrite Ht. unfold wired. destruct (auth_reply _ _ _ _) as [r|]; [|done]. cbn [fmap option_fmap option_map].
    pose proof (Marshal_resp_nonempty r). by destruct (bytes_of_string (Marshal r)). }
  rewrite Ha in Hrxa. destruct (ask_run Decode_peer NewStream peer pid req ca wired e Hd Hns Hw Hrxa) as (c' & E & _).
  { intros m. unfold wired. intros (r & Hr & ->)%fmap_Some. rewrite Hr in Ht. by rewrite <- Ht. }
  exists e, (Some c'). rewrite E. unfold wired.
  destruct (auth_reply _ _ _ _) as [r|]; [|done]. cbn [fmap option_fmap option_map]. rewrite string_of_bytes_of_string.
  by rewrite (Unmarshal_Marshal r (Hfit r eq_refl) ltac:(cbn; lia) : Unmarshal (Marshal r) (zero (A := AuthorizeResp)) = inl r).
Qed.

Lemma auth_request_fits a : json_fits (app_ResID a) -> json_fits (auth_request a).
Proof. intros H. split_and!; [vm_compute; done|split; [exact (conj H I)|done]|exact I]. Qed.

(** What the agent makes of the exchange, which leaves the gateway's resources. *)
Lemma exchange_granted a gb gb' pc : exchange (app_PeerID a) (auth_request a) gb gb' -> g_proxySvc gb = Some pc -> json_fits (app_ResID a) ->
  json_fits (name_reply Hostname gb).1 -> json_fits (name_reply Hostname gb).2 ->
  held_res gb' = held_res gb /\ trial gb' = trial gb /\
  granted a = if allowed a gb then Some (mkAresp (name_reply Hostname gb).1 ""
                (Some (mkApr (bool_decide (app_ResID a = trialID)))) None, bool_decide (app_ResID a = trialID)) else None.
Proof.
  intros HX Hpc Hfit Hn He.
  destruct (exchange_serves _ _ gb gb' pc HX Hpc (auth_request_fits a Hfit) (auth_request_short a)) as (-> & _).
  destruct (exchange_answer _ _ gb _ pc HX Hpc (auth_request_fits a Hfit) (auth_request_short a)) as (e & s' & E).
  { unfold auth_reply. cbn [auth_request areq_Type areq_Portmap AuthorizeTypePortmap Z.eqb Pos.eqb api_ResourceID].
    intros r [= <-]. destruct (grants_portmap _ _); repeat split; try done. }
  split; [|split]; [unfold auth_core; cbn [auth_request areq_Type areq_Portmap AuthorizeTypePortmap Z.eqb Pos.eqb]; by destruct (bool_decide _ && trial gb)..|].
  unfold granted. fold (auth_request a). rewrite E. unfold auth_reply, allowed.
  cbn [auth_request areq_Type areq_Portmap AuthorizeTypePortmap Z.eqb Pos.eqb api_ResourceID].
  destruct (grants_portmap (app_ResID a) gb); cbn [andb aresp_Err]; [|done].
  by destruct (String.eqb_spec (name_reply Hostname gb).2 "") as [->|].
Qed.

(** ** The handshake of what was added *)

(** No application of [rs] but the one under [id] has the network and port of [a]. *)
Definition only_app (id : Z) (a : PortmapApp) (rs : gmap Z PortmapApp) : Prop :=
  forall k b, k <> id -> rs !! k = Some b -> app_Network b = app_Network a -> app_LocalPort b <> app_LocalPort a.

Lemma added_handshake (g : @Agent DB) id a rs ip : (forall m, range_apps m ≡ₚ map_to_list m) ->
  am g = Some (Some (<[id := a]> rs)) -> only_app id a rs ->
  Agent.getHandshake range_apps g (app_Network a) ip (app_LocalPort a) =
    if Uint64 (app_ResID a) =? 0 then ("", None) else (app_PeerID a, Some (app_handshake a)).
Proof.
  intros Hperm Ham Honly. unfold Agent.getHandshake. rewrite Ham.
  rewrite (find_app_one range_apps _ _ (mkAppMgr (store g) (Some (<[id := a]> rs))) id a Hperm); [done|apply lookup_insert_eq|done|done|].
  cbn. intros k b Hb Hn Hp. destruct (decide (k = id)) as [->|Hk]; [by rewrite lookup_insert_eq in Hb; injection Hb|].
  rewrite lookup_insert_ne in Hb by done. by destruct (Honly k b Hk Hb Hn).
Qed.

(** Where it leads: the resource does not change by an application being stopped. *)
Lemma added_leads id n t a (gb gb2 : @Core DBg) st : json_fits (app_pmhs a) -> Uint64 (app_ResID a) <> 0 -> grants_portmap (app_ResID a) gb = true ->
  t = bool_decide (app_ResID a = trialID) -> held_res gb2 = held_res gb -> trial gb2 = trial gb ->
  let a1 := authorized id (mkAresp n "" (Some (mkApr t)) None) t a in
  let a' := match st with Some e => set_stopped e a1 | None => a1 end in
  far_handshake gb2 (app_handshake a') = inl (target_of a gb).
Proof.
  intros Hf Hne Hg -> Hres Htr a1 a'.
  assert (Ha : app_pmhs a' = mkPmhs (app_ResID a) (app_Network a) (if bool_decide (app_ResID a = trialID) then app_TargetAddr a else "")
            (if bool_decide (app_ResID a = trialID) then app_TargetPort a else 0)) by (unfold a'; by destruct st).
  assert (Hf' : json_fits (app_pmhs a')).
  { rewrite Ha. destruct Hf as (F1 & F2 & F3 & F4). split_and!; [exact F1|exact F2|..]; cbn; case_match; done. }
  rewrite (far_of_app gb2 a' Hf'), Htr, Hres. unfold target_of, grants_portmap in *.
  assert (H1 : app_ResID a' = app_ResID a /\ app_Network a' = app_Network a) by (unfold a'; by destruct st). destruct H1 as [-> ->].
  assert (H2 : app_TargetAddr a' = pmhs_TargetAddr (app_pmhs a') /\ app_TargetPort a' = pmhs_TargetPort (app_pmhs a')) by done.
  destruct H2 as [-> ->]. rewrite Ha. cbn [pmhs_TargetAddr pmhs_TargetPort].
  rewrite (andb_comm (trial gb)). destruct (bool_decide (app_ResID a = trialID)), (trial gb); cbn [andb orb] in *; try done;
    apply bool_decide_eq_true in Hg; rewrite Hg; by destruct (Z.eqb_spec (Uint64 (app_ResID a)) 0).
Qed.

(** C13. From an agent to a resource.  An agent that is up adds an application,
    and the gateway it names answers the authorization, each message in one
    piece.  If the gateway grants the identifier, and its name can be read, the
    application is held under its fresh identifier with the gateway's name, and
    listens if it is to run and was not stopped.  Unless another application has
    its network and port, connections to that port carry a handshake which
    every state of the gateway with the same resources leads to the resource's
    target (on a trial gateway, for the trial identifier, to the application's
    own), where the relay opens that target and nothing else; identifier 0,
    which is granted too, has no handshake.  Otherwise the agent returns an error
    and neither its applications nor its listeners change.  Either way the
    exchange leaves the gateway's resources as they were. *)
Theorem agent_reaches_resource a (ga : @Agent DB) p rs gb gb' pc :
  p2p ga <> None -> pm ga = Some p -> am ga = Some (Some rs) -> connEngine p = true ->
  (forall m, range_apps m ≡ₚ map_to_list m) -> app_fits a ->
  g_proxySvc gb = Some pc -> json_fits (name_reply Hostname gb).1 -> json_fits (name_reply Hostname gb).2 ->
  exchange (app_PeerID a) (auth_request a) gb gb' ->
  let id := rand_agent (rnd ga) in
  exists r ga', Agent.addApp rand_agent Listen a ga = (Ret r, ga') /\
  (held_res gb' = held_res gb /\ trial gb' = trial gb) /\
  if allowed a gb then
    exists a' p', am ga' = Some (Some (<[id := a']> rs)) /\ pm ga' = Some p' /\ app_PeerName a' = (name_reply Hostname gb).1 /\
      (app_Running a' = true -> exists q, listeners p' !! convertIndex (app_Network a) (app_LocalIP a) q <> None) /\
      (only_app id a rs ->
       if Uint64 (app_ResID a) =? 0
       then forall ip, Agent.getHandshake range_apps ga' (app_Network a) ip (app_LocalPort a) = ("", None)
       else exists hs, (forall ip, Agent.getHandshake range_apps ga' (app_Network a) ip (app_LocalPort a) = (app_PeerID a, Some hs)) /\
         forall gb2 : @Core DBg, held_res gb2 = held_res gb -> trial gb2 = trial gb ->
           far_handshake gb2 hs = inl (target_of a gb) /\
           forall addr port f cs e DialTCP ResolveUDP DialUDP NBConn, target_of a gb = ("tcp", addr, port) ->
             rx (far_stream f) = mkSource (hs :: cs) e -> (length hs <= 1024)%nat ->
             exists tr, far_trace (handleUptpStream (far_handshake gb2) DialTCP ResolveUDP DialUDP NBConn f).2 =
                 far_trace f ++ FarDialTCP (addr +:+ ":" +:+ Itoa port) :: tr /\ no_dial tr)
  else r <> None /\ am ga' = am ga /\ pm ga' = pm ga.
Proof.
  intros Hp2p Hpm Ham Hce Hperm Hfits Hpc Hn He HX id.
  assert (Hrid : json_fits (app_ResID a)) by (by destruct Hfits as (_ & _ & _ & F & _)).
  destruct (exchange_granted a gb gb' pc HX Hpc Hrid Hn He) as (Hsame1 & Hsame2 & HG). pose proof (conj Hsame1 Hsame2) as Hsame. pose proof (addApp_run rand_agent Listen a ga Hp2p) as HA. rewrite HG in HA.
  destruct (allowed a gb) eqn:Eal; [|destruct HA as (e & E); rewrite E; by eexists (Some e), _].
  set (t := bool_decide (app_ResID a = trialID)) in *. set (n := (name_reply Hostname gb).1) in *.
  destruct (addApp_listens rand_agent Listen a ga p rs (mkAresp n "" (Some (mkApr t)) None) t Hpm Ham Hce) as (r & ga' & E & a' & p' & Ham' & Hpm' & _ & Hcase).
  rewrite HA, E. exists r, ga'. split; [done|]. split; [exact Hsame|]. exists a', p'. fold id in Ham', Hcase |- *.
  set (a1 := authorized id _ t a) in *.
  assert (Hst : exists st, a' = match st with Some e => set_stopped e a1 | None => a1 end).
  { destruct Hcase as [[-> _]|(e & _ & -> & _)]; [by exists None|by exists (Some (Error e))]. }
  destruct Hst as (st & Hst). assert (Hsf : app_Network a' = app_Network a /\ app_LocalPort a' = app_LocalPort a /\ app_PeerID a' = app_PeerID a /\
    app_ResID a' = app_ResID a /\ app_PeerName a' = n) by (rewrite Hst; by destruct st).
  destruct Hsf as (Hnet & Hport & Hpid & Hres & Hname).
  split; [done|]. split; [done|]. split; [done|]. split.
  { intros Hrun. destruct Hcase as [[-> [[Hr _]|(_ & _ & Hl)]]|(e & _ & -> & _)]; [|done|done]. by change (app_Running a1) with (app_Running a) in Hrun; rewrite Hr in Hrun. }
  intros Honly. assert (Honly' : only_app id a' rs) by (intros k b; rewrite Hnet, Hport; apply Honly).
  assert (HH : forall ip, Agent.getHandshake range_apps ga' (app_Network a) ip (app_LocalPort a) =
    if Uint64 (app_ResID a) =? 0 then ("", None) else (app_PeerID a, Some (app_handshake a'))).
  { intros ip. rewrite <- Hnet, <- Hport, <- Hpid, <- Hres. exact (added_handshake ga' id a' rs ip Hperm Ham' Honly'). }
  destruct (Z.eqb_spec (Uint64 (app_ResID a)) 0) as [Hz|Hz]; [exact HH|].
  exists (app_handshake a'). split; [exact HH|]. intros gb2 Hres2 Htr2.
  assert (Hfar : far_handshake gb2 (app_handshake a') = inl (target_of a gb)).
  { rewrite Hst. unfold allowed in Eal. apply andb_prop in Eal as [Hg _].
    exact (added_leads id n t a gb gb2 st (app_pmhs_fits a Hfits) Hz Hg eq_refl Hres2 Htr2). }
  split; [exact Hfar|]. intros addr port f cs e DialTCP ResolveUDP DialUDP NBConn Ht Hrx Hl. rewrite Ht in Hfar.
  exact (far_dials gb2 _ _ _ _ _ _ _ f cs e Hfar Hrx Hl).
Qed.
End EndToEnd.

(** * Concrete inputs *)

Definition ex_answer : bytes := bytes_of_string (Marshal (mkAresp "box" "" (Some (mkApr false)) None)).
#[local] Instance ex_e2e_system : System := {
  Decode_peer := inl; NewStream _ := inl (mkConn (mkSource [ex_answer] EOF) [] None false false); NewStream5 _ := inr EOF;
  url_Parse s := inl ("tun", "uptptun0"); open_fd _ _ _ := None; open_tun _ _ _ := None; CreateStack _ := None; ParseLevel _ := None;
  OS := unit; sys_setTunAddr _ _ _ o := (None, o); sys_addRoute _ _ o := (None, o); sys_delRoute _ _ o := (None, o);
  LookupPort _ _ := inl 80; range_obs := map_to_list }.

Definition ex_request : bytes := bytes_of_string (Marshal (auth_request ex_new)).

Lemma ex_exchange : exchange ex_rand ex_host (app_PeerID ex_new) (auth_request ex_new) ex_core ex_core.
Proof.
  exists "peer", (mkConn (mkSource [ex_answer] EOF) [] None false false), (conn_of ex_request),
    (authorizeHandler ex_rand ex_host (mkServing ex_core (conn_of ex_request))).2.(sv_stream), [], EOF, EOF, ex_answer.
  split_and!; try done; try (vm_compute; lia); vm_compute; reflexivity.
Qed.

(** The connections of the new application lead to the gateway's resource 7. *)
Lemma agent_reaches_resource_witness : exists r ga' hs,
  Agent.addApp ex_rand ex_listen ex_new (ex_agent ∅ (NewPortMap ∅)) = (Ret r, ga') /\
  (forall ip, Agent.getHandshake map_to_list ga' "tcp" ip 9000 = ("peer", Some hs)) /\
  far_handshake ex_core hs = inl ("tcp", "10.0.0.1", 22).
Proof.
  assert (Hf : app_fits ex_new) by (repeat split; vm_compute; congruence).
  assert (H1 : json_fits (name_reply ex_host ex_core).1) by (vm_compute; reflexivity).
  assert (H2 : json_fits (name_reply ex_host ex_core).2) by (vm_compute; reflexivity).
  destruct (agent_reaches_resource ex_rand ex_rand ex_host ex_listen map_to_list ex_new (ex_agent ∅ (NewPortMap ∅)) (NewPortMap ∅) ∅
    ex_core ex_core psc_zero ltac:(discriminate) eq_refl eq_refl eq_refl (fun m => Permutation_refl _) Hf eq_refl H1 H2 ex_exchange)
    as (r & ga' & E & _ & H).
  assert (Ha : allowed ex_host ex_new ex_core = true) by (vm_compute; reflexivity). rewrite Ha in H.
  destruct H as (a' & p' & _ & _ & _ & _ & H).
  assert (Ho : only_app (ex_rand (rnd (ex_agent ∅ (NewPortMap ∅)))) ex_new ∅) by (intros k b _ Hb; discriminate Hb).
  specialize (H Ho). change (Uint64 (app_ResID ex_new) =? 0) with false in H. destruct H as (hs & Hh & Hfar).
  exists r, ga', hs. split; [exact E|]. split; [exact Hh|]. exact (proj1 (Hfar ex_core eq_refl eq_refl)).
Defined.
