(* ===== verification/ProxyEndToEnd.v ===== *)
(** A gateway that reaches a network through another one
    (src/gateway/proxy_client.go, src/gateway/authorize.go, src/gateway/gateway.go,
    src/socks5/client.go, src/socks5/server.go): the outbound that is added after
    an authorization, the packet the TUN engine hands over, the dial through the
    SOCKS5 client and the other gateway's server, which checks the token.  The
    theorem joins ProxyClient, Authorize, GwCore, Socks5Client and Socks5Server. *)
From S2P Require Import Prelude GoText GoIo GoNet Json Codec TypesId Store ProxyService GwCore Authorize EndToEnd.
From S2P Require Import Avl ProxyRouter Socks5Util Socks5Rfc Socks5Server Socks5Client TunStack ProxyClient.

Section ProxyEndToEnd.
Context {DB DBg : Type} {Db : LevelDB DB} {Dbl : LevelDBLaws DB} {Dbg : LevelDB DBg} {Dbgl : LevelDBLaws DBg}.
Context {T : Type} {Tree : AvlTree (routeItem PeerWithAuth) T} {TreeLaws : AvlLaws (routeItem PeerWithAuth) T}.
Context {Sys : System}.
Context (rand_gateway : nat -> Z) (Hostname : string + error).
Context (Dial DialUDP_ : string -> string -> string + error) (ResolveUDPAddr ListenUDP : string -> string + error)
        (tunneling : bool -> GoM Conn (option error)).

Definition proxy_request (token : ID) : AuthorizeReq := mkAreq AuthorizeTypeProxy None (Some (mkAxi token "" "")).

(** The check a gateway gives its SOCKS5 server. *)
Definition auth_func (g : @Core DBg) (id : Z) : bool :=
  match (proxyAuth rand_gateway id g).1 with Ret b => b | Panic => false end.
Definition has_token (g : @Core DBg) (t : Z) : Prop := (getToken rand_gateway g).1 = Ret (t, None).

Lemma auth_func_token g t id : has_token g t -> auth_func g id = (t =? id).
Proof.
  unfold has_token, auth_func, proxyAuth, bind. destruct (getToken rand_gateway g) as [o g'] eqn:E. cbn [fst]. by intros ->.
Qed.

(** ** The authorization *)

Lemma proxy_request_fits token : is_u64 (Uint64 token) -> json_fits (proxy_request token).
Proof. intros H. split_and!; [vm_compute; done|exact I|split; [exact (conj H (conj eq_refl eq_refl))|done]]. Qed.

Lemma proxy_request_short token : (length (bytes_of_string (Marshal (proxy_request token))) <= 1024)%nat.
Proof.
  rewrite length_bytes_of_string. unfold Marshal. destruct token as [z]. pose proof (quote_id_short z) as Hq.
  cbn -[FormatUint quote String_]. repeat (rewrite string_length_app; cbn -[FormatUint quote String_]).
  assert (Hf : (String.length (FormatUint AuthorizeTypeProxy) = 1)%nat) by reflexivity. rewrite Hf.
  assert (Hk : String.length (quote "type") = 6%nat /\ String.length (quote "proxy") = 7%nat /\ String.length (quote "token") = 7%nat /\
    String.length (quote "route") = 7%nat /\ String.length (quote "dns") = 5%nat /\ String.length (quote "") = 2%nat) by (by vm_compute).
  destruct Hk as (-> & -> & -> & -> & -> & ->). lia.
Qed.

(** A peer takes exactly its own token. *)
Lemma CheckPeer_exchange peer token gb gb' pc tb : EndToEnd.exchange rand_gateway Hostname peer (proxy_request token) gb gb' ->
  g_proxySvc gb = Some pc -> has_token gb tb -> is_u64 (Uint64 token) -> json_fits (psc_Route pc) -> json_fits (psc_DNS pc) ->
  json_fits (name_reply Hostname gb').1 -> (name_reply Hostname gb').2 = "" ->
  if tb =? Uint64 token then CheckPeer peer token = inl (name_reply Hostname gb').1 else exists e, CheckPeer peer token = inr e.
Proof.
  intros HX Hpc Ht Hu Hr Hdns Hn He.
  destruct (exchange_serves rand_gateway Hostname peer _ gb gb' pc HX Hpc (proxy_request_fits token Hu) (proxy_request_short token)) as (-> & _).
  change (auth_core rand_gateway (proxy_request token) gb) with (getToken rand_gateway gb).2 in *.
  assert (Hrep : auth_reply rand_gateway Hostname (proxy_request token) gb =
    if tb =? Uint64 token then Some (mkAresp (name_reply Hostname (getToken rand_gateway gb).2).1 (name_reply Hostname (getToken rand_gateway gb).2).2 None
      (Some (mkAxr (if String.eqb (psc_Route pc) "" then "0.0.0.0/0" else psc_Route pc) (if String.eqb (psc_DNS pc) "" then "8.8.8.8" else psc_DNS pc)))) else None).
  { unfold auth_reply. cbn [proxy_request areq_Type areq_Proxy AuthorizeTypePortmap AuthorizeTypeProxy Z.eqb Pos.eqb axi_Token].
    unfold has_token in Ht. destruct (getToken rand_gateway gb) as [o g']. cbn [fst snd] in *. by rewrite Ht, Hpc. }
  destruct (exchange_answer rand_gateway Hostname peer _ gb _ pc HX Hpc (proxy_request_fits token Hu) (proxy_request_short token)) as (e & s' & E).
  { rewrite Hrep. intros r. destruct (tb =? Uint64 token); [|done]. intros [= <-]. rewrite He.
    split_and!; [exact Hn|done|exact I|split; [|done]]. split; cbn [axr_Route axr_Dns].
    - destruct (String.eqb (psc_Route pc) ""); [vm_compute; reflexivity|exact Hr].
    - destruct (String.eqb (psc_DNS pc) ""); [vm_compute; reflexivity|exact Hdns]. }
  unfold CheckPeer. fold (proxy_request token). rewrite E, Hrep.
  destruct (tb =? Uint64 token); [|by exists e]. cbn [aresp_Err aresp_NodeName]. by rewrite He.
Qed.

(** ** The request of a packet *)

Lemma BE_bytes port : is_u16 port -> [u8 (Z.shiftr port 8); u8 port] = BE_PutUint16 port.
Proof. intros H. unfold BE_PutUint16, u8. rewrite Z.shiftr_div_pow2 by done. done. Qed.

Definition host_of (md : Metadata) : string := JoinHostPort (IP4_String (DstIP md)) (Itoa (DstPort md)).
Definition request_of (md : Metadata) : Request := NewRequest (dial_cmd (md_network md)) ATYPIPv4 (DstIP md) (BE_PutUint16 (DstPort md)).

(** A packet to an IPv4 address and a port. *)
Definition packet_ok (md : Metadata) : Prop :=
  length (DstIP md) = 4%nat /\ Forall is_byte (DstIP md) /\ is_u16 (DstPort md) /\ (3 <= String.length (md_network md))%nat /\
  LookupPort (md_network md) (Itoa (DstPort md)) = inl (DstPort md).

Lemma request_of_packet md : packet_ok md ->
  make_request LookupPort (dial_cmd (md_network md)) dial_target (md_network md) (host_of md) = inl (request_of md) /\
  Request_Address (request_of md) = host_of md /\ reads read_request (enc_request (request_of md)) (request_of md).
Proof.
  intros (Hlen & Hb & Hp & _ & Hlook). destruct (DstIP md) as [|a [|b [|c [|d []]]]] eqn:Eip; try done.
  apply Forall_cons in Hb as [Ha Hb]. apply Forall_cons in Hb as [Hb Hc]. apply Forall_cons in Hc as [Hc Hd]. apply Forall_cons in Hd as [Hd _].
  assert (Hpos : 0 <= DstPort md) by (unfold is_u16 in Hp; lia).
  assert (Hit : Itoa (DstPort md) = FormatUint (DstPort md)) by (unfold Itoa; by rewrite (proj2 (Z.ltb_ge _ _) Hpos)).
  unfold host_of, request_of. rewrite Eip. split; [|split].
  - unfold make_request. rewrite SplitHostPort_Join.
    + unfold dial_target. rewrite ParseIP_IP4_String by done. change (To4 (v4InV6Prefix ++ [a; b; c; d])) with (Some [a; b; c; d]). cbn iota.
      by rewrite Hlook, BE_bytes.
    + by apply no_char_IP4.
    + by apply no_char_IP4.
    + by apply no_char_IP4.
    + rewrite Hit. by apply no_char_FormatUint.
    + rewrite Hit. by apply no_char_FormatUint.
    + rewrite Hit. by apply no_char_FormatUint.
    + unfold IP4_String. apply FormatUint_nonempty.
  - change (Request_Address (NewRequest (dial_cmd (md_network md)) ATYPIPv4 [a; b; c; d] (BE_PutUint16 (DstPort md))))
      with (JoinHostPort (IP4_String [a; b; c; d]) (Itoa (BE_Uint16 (BE_PutUint16 (DstPort md))))). by rewrite BE_roundtrip.
  - apply request_v4_ok; [unfold dial_cmd; case_match; vm_compute; split; congruence| |done|done].
    apply Forall_app. split; [repeat constructor; apply Ha || apply Hb || apply Hc || apply Hd|].
    unfold BE_PutUint16. repeat constructor; apply Z.mod_pos_bound; lia.
Qed.

(** ** The dial, by the token the server has *)

Abbreviation served g := (handler (auth_func g) Dial DialUDP_ ResolveUDPAddr ListenUDP tunneling).
Definition dialer_with (pid : string) (t : Z) : PeerWithAuth := mkPeer pid (LE_PutUint64 t) (LE_PutUint64 t).

(** Both ends of a dial that is granted: the client has its connection, the
    server opened the packet's host, and nothing else, and runs the tunnel on
    what the client sends next. *)
Definition carried (d : PeerWithAuth) (g : @Core DBg) (md : Metadata) (cc : Conn) (sched : list pack_event) (s : Server) : Prop :=
  let udp := HasPrefix (md_network md) "udp" in
  forall local la addr port up down,
    (if udp then DialUDP_ "udp" (host_of md) else Dial "tcp" (host_of md)) = inl local ->
    ParseAddress local = inl (la, addr, port) -> ip_addr la addr port ->
    content (rx cc) = server_bytes la addr port ++ down -> content (rx (strm s)) = client_bytes d (request_of md) ++ up ->
    (exists conn cc', Socks5Client.DialContext LookupPort d (inl cc) (md_network md) (host_of md) = (Ret (inl conn), Some cc') /\
       tx cc' = client_bytes d (request_of md) /\ content (rx cc') = down) /\
    (exists k, content (rx k) = up /\ tx k = server_bytes la addr port /\
       forall e k', tunneling udp k = (Ret e, k') -> exists s', served g sched s = (Ret tt, s') /\ session s' = true /\
         trace s' = trace s ++ [if udp then EvDialUDP "udp" (host_of md) else EvDial "tcp" (host_of md); EvTunnel udp; EvCloseTarget] ++
                    (if shouldLogError e then [EvLog "socks5RequestConnect err"] else [])).

(** Both ends of one that is refused: the client's dial fails after its
    credentials, the server logs and opens nothing. *)
Definition turned_away (d : PeerWithAuth) (g : @Core DBg) (md : Metadata) (cc : Conn) (sched : list pack_event) (s : Server) : Prop :=
  forall up down,
    content (rx cc) = enc_method MethodUsernamePassword ++ enc_status UserPassStatusFailure ++ down ->
    content (rx (strm s)) = enc_negotiation [MethodUsernamePassword] ++ enc_userpass (UserName d) (Password d) ++ up ->
    (exists cc', Socks5Client.DialContext LookupPort d (inl cc) (md_network md) (host_of md) = (Ret (inr ErrUserPassAuth), Some cc') /\
       tx cc' = enc_negotiation [MethodUsernamePassword] ++ enc_userpass (UserName d) (Password d)) /\
    (exists s', served g sched s = (Ret tt, s') /\ session s' = false /\ trace s' = trace s ++ [EvLog "socks5Negotiate err"] /\
       tx (strm s') = enc_method MethodUsernamePassword ++ enc_status UserPassStatusFailure).

Lemma dialer_credentials pid t : credentials_ok (dialer_with pid t).
Proof. split_and!; try (cbn; lia); apply le_bytes_byte. Qed.

Lemma token_decides pid t g tb md cc sched s : is_u64 t -> has_token g tb -> packet_ok md ->
  werr cc = None -> tx cc = [] -> werr (strm s) = None -> tx (strm s) = [] -> session s = false ->
  if tb =? t then carried (dialer_with pid t) g md cc sched s else turned_away (dialer_with pid t) g md cc sched s.
Proof.
  intros Ht Htok Hmd Hwc Htc Hws Hts Hs. destruct (request_of_packet md Hmd) as (Hmk & Haddr & Hreads).
  assert (Hau : auth_func g (LE_Uint64 (take 8 (Password (dialer_with pid t)))) = (tb =? t)).
  { rewrite (auth_func_token g tb) by done. f_equal. exact (LE_roundtrip t Ht). }
  pose proof (dialer_credentials pid t) as Hcred. destruct (tb =? t).
  - unfold carried. intros local la addr port up down Hloc Hpa Hip Hcc Hcs. set (udp := HasPrefix (md_network md) "udp") in *.
    assert (Hloc' : server_local Dial DialUDP_ udp (request_of md) = inl local) by (unfold server_local; rewrite Haddr; exact Hloc).
    destruct (dial_agrees LookupPort (dialer_with pid t) (auth_func g) Dial DialUDP_ ResolveUDPAddr ListenUDP tunneling (md_network md) (host_of md) (request_of md)
      local la addr port cc s sched up down (proj1 (proj2 (proj2 (proj2 Hmd)))) Hcred Hmk Hreads Hau Hloc' Hpa Hip Hwc Htc Hws Hts Hs Hcc Hcs)
      as [(conn & cc' & E & E1 & E2 & _) (k & K1 & K2 & K3)].
    split; [by exists conn, cc'|]. exists k. split; [done|]. split; [done|]. intros e k' Hk.
    destruct (K3 e k' Hk) as (s' & S1 & S2 & _ & _ & S3). exists s'. split; [done|]. split; [done|].
    rewrite S3. unfold server_dial. by rewrite Haddr.
  - unfold turned_away. intros up down Hcc Hcs. split.
    + destruct (client_refused (dialer_with pid t) (request (request_of md)) cc down Hwc Hcc) as (cc' & E & Htx). exists cc'. split; [|by rewrite Htx, Htc].
      unfold Socks5Client.DialContext, dialContext. rewrite (proj2 (Nat.ltb_ge _ _)) by (apply Hmd). unfold dial_stream. rewrite Hmk.
      by rewrite (bind_Ret _ _ _ _ _ E).
    + destruct Hcred as (Hu & Hp & Hlu & Hlp).
      destruct (handler_negotiated (auth_func g) Dial DialUDP_ ResolveUDPAddr ListenUDP tunneling s sched [MethodUsernamePassword]
        (UserName (dialer_with pid t)) (Password (dialer_with pid t)) up Hws Hs)
        as (k & _ & _ & _ & _ & Htx & HH); try done; [by repeat constructor; vm_compute|cbn; lia|]. rewrite Hau in HH, Htx.
      rewrite HH. eexists. split; [reflexivity|]. split_and!; [done|done|]. cbn. by rewrite Htx, Hts.
Qed.

(** C40. Through another gateway to a host.  A client whose TUN stack runs adds an
    open outbound for a peer that answers the authorization in one piece.  With
    another token than the peer's this fails and changes nothing.  With the
    peer's, and a route that parses and a store that takes it, the outbound is
    added; and when its network does not overlap those routed, every packet to
    an address of it is dialled through the peer, whatever has happened to the
    peer's token since: while it is the outbound's, the peer's server opens
    exactly the packet's address and port and both ends go on with the traffic;
    once it is another, the dial fails, and the server opens nothing. *)
Theorem packet_reaches_host ob ob' (c : @proxyClient DB T Sys) gb gb' pc tb :
  let t := Uint64 (ob_Token ob) in let name := (name_reply Hostname gb').1 in
  Inv (pc_router c) -> tunStackRunning c = true -> ob_Open ob = true -> is_u64 t ->
  g_proxySvc gb = Some pc -> has_token gb tb -> json_fits (psc_Route pc) -> json_fits (psc_DNS pc) -> json_fits name ->
  (name_reply Hostname gb').2 = "" -> EndToEnd.exchange rand_gateway Hostname (ob_Peer ob) (proxy_request (ob_Token ob)) gb gb' ->
  socks5OutboundFillRunningInfo Decode_peer (set_PeerName name ob) = (None, ob') ->
  (db_Put keySocksOutbound (Marshal (<[Uint64 (ob_ID ob) := ob']> (held_obs (pc_mgr c)))) (ob_db (pc_mgr c))).1 = None ->
  if tb =? t then
    exists c' pid n x, AddOutbound ob c = (Ret None, c') /\ Decode_peer (ob_Peer ob) = inl pid /\ ParseCIDR_err (ob_Route ob) = inl (x, n) /\
      let '(a, b) := getCidrIntRange n in
      (abs (pc_router c) !! a = None -> a <= b -> free (abs (pc_router c)) a b ->
       forall md, packet_ok md -> a <= SetBytes (DstIP md) <= b ->
         DialContext md c' = Socks5Client.DialContext LookupPort (dialer_with pid t) (NewStream5 pid) (md_network md) (host_of md) /\
         forall g2 t2 cc sched s, has_token g2 t2 -> werr cc = None -> tx cc = [] -> werr (strm s) = None -> tx (strm s) = [] -> session s = false ->
           if t2 =? t then carried (dialer_with pid t) g2 md cc sched s else turned_away (dialer_with pid t) g2 md cc sched s)
  else exists e, AddOutbound ob c = (Ret (Some e), c).
Proof.
  intros t name HI Htun Hopen Hu Hpc Htok Hr Hdns Hn He HX Hfill Hput.
  pose proof (CheckPeer_exchange (ob_Peer ob) (ob_Token ob) gb gb' pc tb HX Hpc Htok Hu Hr Hdns Hn He) as HC. fold t in HC.
  destruct (tb =? t).
  - destruct (add_outbound_run ob ob' name c HI Htun HC Hfill Hopen Hput) as (c' & pid & n & x & E & Hpid & Hcidr & _ & _ & _ & H).
    exists c', pid, n, x. split; [exact E|]. split; [exact Hpid|]. split; [exact Hcidr|]. destruct (getCidrIntRange n) as [a b].
    intros Ha Hab Hfree md Hmd Hin. split.
    + destruct Hmd as (Hlen & Hb & _). destruct (DstIP md) as [|b0 [|b1 [|b2 [|b3 []]]]] eqn:Eip; try done.
      rewrite !Forall_cons in Hb. destruct Hb as (H0 & H1 & H2 & H3 & _).
      rewrite (proj1 H Ha Hab Hfree md b0 b1 b2 b3 Eip H0 H1 H2 H3), decide_True by (by rewrite Eip). unfold host_of. by rewrite Eip.
    + intros g2 t2 cc sched s Ht2 Hwc Htc Hws Hts Hs. by apply token_decides.
  - destruct HC as (e & HC). exists e. unfold AddOutbound. by rewrite HC.
Qed.
End ProxyEndToEnd.

(** * Concrete inputs *)

(** The token of the peer is made by the request. *)
Definition ex_peer_answer : bytes := bytes_of_string (Marshal (mkAresp "box" "" None (Some (mkAxr "0.0.0.0/0" "8.8.8.8")))).
#[local] Instance ex_proxy_system : System := {
  Decode_peer := inl; NewStream _ := inl (mkConn (mkSource [ex_peer_answer] EOF) [] None false false); NewStream5 _ := inr EOF;
  url_Parse s := inl ("tun", "uptptun0"); open_fd _ _ _ := None; open_tun _ _ _ := None; CreateStack _ := None; ParseLevel _ := None;
  OS := unit; sys_setTunAddr _ _ _ o := (None, o); sys_addRoute _ _ o := (None, o); sys_delRoute _ _ o := (None, o);
  LookupPort _ _ := inl 80; range_obs := map_to_list }.

Definition ex_ob2 : socksOutbound := mkOb (mkID 5) "" true "peer" "" (mkID 4000) "10.0.0.0/8" None (mkPeer "" [] []).
Definition ex_ob2_filled : socksOutbound :=
  mkOb (mkID 5) "" true "peer" "box" (mkID 4000) "10.0.0.0/8" (Some ex_ob_net) (dialer_with "peer" 4000).
Definition ex_client2 : @proxyClient memdb (node (routeItem PeerWithAuth)) ex_proxy_system :=
  mkPc (mkObMgr mem_empty None) true engine_zero newProxyRouter tt.
Definition ex_core2 : @Core memdb := (getToken ex_rand ex_core).2.
Definition ex_packet : Metadata := mkMetadata "tcp" [10; 1; 2; 3] 80.

Lemma ex_proxy_exchange : EndToEnd.exchange ex_rand ex_host "peer" (proxy_request (mkID 4000)) ex_core ex_core2.
Proof.
  exists "peer", (mkConn (mkSource [ex_peer_answer] EOF) [] None false false),
    (conn_of (bytes_of_string (Marshal (proxy_request (mkID 4000))))),
    (authorizeHandler ex_rand ex_host (mkServing ex_core (conn_of (bytes_of_string (Marshal (proxy_request (mkID 4000))))))).2.(sv_stream),
    [], EOF, EOF, ex_peer_answer.
  split_and!; try done; try (vm_compute; lia); vm_compute; reflexivity.
Qed.

(** The packet goes through the peer, whose server turns it away once the token
    is another. *)
Lemma packet_reaches_host_witness : exists c', AddOutbound ex_ob2 ex_client2 = (Ret None, c') /\
  DialContext ex_packet c' = Socks5Client.DialContext (fun _ _ => inl 80) (dialer_with "peer" 4000) (inr EOF) "tcp" "10.1.2.3:80" /\
  carried ex_rand ex_dial ex_dial ex_resolve ex_resolve ex_tunnel (dialer_with "peer" 4000) ex_core2 ex_packet (ex_conn []) [] (mkServer (ex_conn []) false []).
Proof.
  assert (H1 : socks5OutboundFillRunningInfo Decode_peer (set_PeerName "box" ex_ob2) = (None, ex_ob2_filled)) by (vm_compute; reflexivity).
  assert (H2 : (db_Put keySocksOutbound (Marshal (<[Uint64 (ob_ID ex_ob2) := ex_ob2_filled]> (held_obs (pc_mgr ex_client2)))) (ob_db (pc_mgr ex_client2))).1 = None) by (vm_compute; reflexivity).
  assert (H3 : (name_reply ex_host ex_core2) = ("box", "")) by (vm_compute; reflexivity).
  assert (H4 : has_token ex_rand ex_core 4000) by (vm_compute; reflexivity).
  assert (H5 : has_token ex_rand ex_core2 4000) by (vm_compute; reflexivity).
  assert (Hu : is_u64 4000) by (vm_compute; split; congruence).
  assert (Hn : json_fits (name_reply ex_host ex_core2).1) by (rewrite H3; vm_compute; reflexivity).
  assert (He : (name_reply ex_host ex_core2).2 = "") by by rewrite H3.
  pose proof (packet_reaches_host ex_rand ex_host ex_dial ex_dial ex_resolve ex_resolve ex_tunnel ex_ob2 ex_ob2_filled ex_client2 ex_core ex_core2 psc_zero 4000) as H.
  cbv zeta in H. rewrite H3 in H. change (Uint64 (ob_Token ex_ob2)) with 4000 in H. rewrite Z.eqb_refl in H.
  destruct (H Inv_new eq_refl eq_refl Hu eq_refl H4 eq_refl eq_refl eq_refl eq_refl ex_proxy_exchange H1 H2) as (c' & pid & n & x & Hadd & Hpid & Hcidr & Hspec).
  exists c'. split; [exact Hadd|].
  assert (En : ParseCIDR_err (ob_Route ex_ob2) = inl (v4InV6Prefix ++ [10; 0; 0; 0], ex_ob_net)) by (vm_compute; reflexivity).
  assert (n = ex_ob_net) as -> by congruence. assert (pid = "peer") as -> by (cbn in Hpid; congruence).
  assert (Er : getCidrIntRange ex_ob_net = (167772160, 184549375)) by (vm_compute; reflexivity). rewrite Er in Hspec.
  assert (Hf : free (abs (pc_router ex_client2)) 167772160 184549375).
  { intros k v Hk. assert (E : abs (pc_router ex_client2) !! k = None) by (vm_compute; reflexivity). congruence. }
  assert (Hp : packet_ok ex_packet) by (split; [reflexivity|split; [repeat constructor; vm_compute; congruence|split; [vm_compute; split; congruence|split; [vm_compute; lia|reflexivity]]]]).
  destruct (Hspec ltac:(vm_compute; reflexivity) ltac:(vm_compute; congruence) Hf ex_packet Hp ltac:(vm_compute; split; congruence)) as [Hd Hs].
  split; [rewrite Hd; vm_compute; reflexivity|].
  exact (Hs ex_core2 4000 (ex_conn []) [] (mkServer (ex_conn []) false []) H5 eq_refl eq_refl eq_refl eq_refl eq_refl).
Defined.
