(* ===== verification/AgentExport.v ===== *)
(** src/agent/export.go with [agentIns] of agent.go, and src/agent/util.go: the
    functions of the package, over the one agent a process has, and the test of
    the IPv6 address.  The test's HTTP request and the resolver are parameters.
    The theorems: the functions act on one agent, made by the first of them;
    which of them end the process before the agent was started; and what of the
    test server's answer becomes the address. *)
From S2P Require Import Prelude GoText GoIo GoOs GoNet Json Codec TypesId Store PortmapApp Portmap GwCore Authorize.
From S2P Require Import Logger Identity P2p Avl ProxyRouter Socks5Util Socks5Client Socks5Rfc TunStack ProxyClient AgentProxy Agent.

Section Exports.
Context {DB : Type} {Db : LevelDB DB} {Sys : System}.
Context (rand_Uint64 : nat -> Z).
Context (Listen : bool -> string -> Z -> sockets -> (nat * string) + error).
Context (range_apps : gmap Z PortmapApp -> list (Z * PortmapApp)).
Context (CloseDB : DB -> DB) (Ping : string -> option error).
(** [Agent.start] over the constructors of its parts, and the agent of a process
    that has just begun. *)
Context (start : string -> bool -> GoM (@Agent DB) (option error)) (zero : @Agent DB).

(** [gAgent] with [gOnce]: made by the first call. *)
Definition agentIns : GoM (option (@Agent DB)) unit := modify (fun g => Some (default zero g)).

Definition exported {A} (m : GoM (@Agent DB) A) : GoM (option (@Agent DB)) A :=
  agentIns ;;; (fun g => match g with Some a => let '(o, a') := m a in (o, Some a') | None => (Panic, g) end).

(** [delProxyGateway] and [getProxyGatewayList] of proxy.go. *)
Definition delProxyGateway (index : Z) : GoM (@Agent DB) (option error) := on_px (delProxyByIndex index).
Definition getProxyGatewayList : GoM (@Agent DB) (list proxyGateway) := on_px getProxys.

Definition Start (workDir : string) (withPortmap : bool) := exported (start workDir withPortmap).
Definition Close := exported (close CloseDB).
Definition AddApp (a : PortmapApp) := exported (addApp rand_Uint64 Listen a).
Definition UpdateApp (a : PortmapApp) := exported (updateAPP Listen a).
Definition DelApp (a : PortmapApp) := exported (delApp a).
Definition GetApps := exported (getApps range_apps).
Definition AddProxyGateway (peerID token : string) := exported (addProxyGateway peerID token).
Definition DelProxyGateway (index : Z) := exported (delProxyGateway index).
Definition GetProxyGateways := exported getProxyGatewayList.
Definition StartTunProxy (tunDevice : string) (gatewayIdx : Z) := exported (startTunProxy tunDevice gatewayIdx).
Definition StopTunProxy := exported stopTunProxy.
Definition PingProxyGateway (idx : Z) := exported (pingProxyGateway Ping idx).

(** The functions act on one agent: what is done through them one after the other
    is what is done to it, and the first of them makes it. *)
Theorem exported_bind {A B} (m : GoM (@Agent DB) A) (k : A -> GoM (@Agent DB) B) g :
  (x <- exported m ;; exported (k x)) g = exported (x <- m ;; k x) g /\
  exported m g = (let '(o, a) := m (default zero g) in (o, Some a)).
Proof.
  unfold exported, agentIns, bind, modify. cbn. destruct (m (default zero g)) as [[x|] a]; [|done]. by cbn.
Qed.

(** Before [Start] a process has an agent without parts.  Adding an application,
    changing one and everything about the gateways, but for a gateway whose
    address or token cannot be read, end the process; deleting an application is
    refused, and there are none. *)
Theorem before_start a peerID token index tunDevice g : p2p zero = None -> pm zero = None -> am zero = None -> pxm zero = None ->
  running zero = false -> db_set zero = false -> g = None \/ g = Some zero ->
  (AddApp a g).1 = Panic /\ (Uint64 (app_ID a) <> 0 -> (UpdateApp a g).1 = Panic) /\
  ((AddProxyGateway peerID token g).1 = Panic \/ exists e, (AddProxyGateway peerID token g).1 = Ret (Some e)) /\
  (DelProxyGateway index g).1 = Panic /\ (GetProxyGateways g).1 = Panic /\ (StartTunProxy tunDevice index g).1 = Panic /\
  (PingProxyGateway index g).1 = Panic /\
  DelApp a g = (Ret (Some (ErrText "agent not running")), Some zero) /\ GetApps g = (Ret [], Some zero) /\
  Close g = (Ret tt, Some zero).
Proof.
  intros H1 H2 H3 H4 H5 H6 Hg. assert (Hz : default zero g = zero) by (destruct Hg; by subst).
  unfold AddApp, UpdateApp, AddProxyGateway, DelProxyGateway, GetProxyGateways, StartTunProxy, PingProxyGateway, DelApp, GetApps, Close.
  assert (E : forall A (m : GoM (@Agent DB) A), exported m g = (let '(o, a) := m zero in (o, Some a))).
  { intros A m. by rewrite (proj2 (exported_bind m (fun _ => m) g)), Hz. }
  assert (Epx : forall A (m : GoM proxyMgr A), on_px m zero = (Panic, zero)) by (intros; unfold on_px; by rewrite H4).
  rewrite !E. split_and!.
  - unfold addApp, next_id, Agent.Libp2pHost, bind. cbn [p2p]. by rewrite H1.
  - intros Hid. unfold updateAPP. destruct (Z.eqb_spec (Uint64 (app_ID a)) 0); [done|]. unfold bind, on_am. by rewrite H3.
  - unfold addProxyGateway. destruct (Decode_peer peerID); [|right; by eexists].
    destruct (ParseUint token) as [u [e|]]; [right; by eexists|]. left. unfold bind, Agent.Libp2pHost. by rewrite H1.
  - unfold delProxyGateway. by rewrite Epx.
  - unfold getProxyGatewayList. by rewrite Epx.
  - unfold startTunProxy, bind. by rewrite Epx.
  - unfold pingProxyGateway, bind. by rewrite Epx.
  - unfold delApp, bind, get. by rewrite H5.
  - unfold getApps, bind, get. by rewrite H5.
  - unfold close, bind, get. rewrite H2, H1. cbn. unfold modify. by rewrite H6.
Qed.
End Exports.

(** * The test of the IPv6 address *)

Section Util.
Context (http_Get : string -> Source + error) (ResolveIPAddr : string -> string -> option error).

(** One [Read] into 1024 bytes. *)
Definition GetIPv6 (testUrl : string) : string + error :=
  match http_Get testUrl with
  | inr err => inr err
  | inl body =>
      let '((buf, err), _) := Read 1024 body in
      match err with
      | None | Some EOF => inl (string_of_bytes buf)
      | Some e => inr e
      end
  end.

Definition TestIPv6 (testUrl : string) : option error :=
  match GetIPv6 testUrl with
  | inr err => Some err
  | inl ipv6 => ResolveIPAddr "ip6" ipv6
  end.

(** The address is the server's answer only when that arrives in one piece of at
    most 1024 bytes; otherwise it is what arrived first.  An empty answer is an
    address without an error. *)
Theorem GetIPv6_first_piece url body : http_Get url = inl body ->
  match chunks body with
  | [] => GetIPv6 url = match end_err body with EOF => inl "" | e => inr e end
  | c :: cs => GetIPv6 url = inl (string_of_bytes (take 1024 c)) /\
      ((length c <= 1024)%nat -> cs = [] -> GetIPv6 url = inl (string_of_bytes (content body)))
  end.
Proof.
  intros Hg. unfold GetIPv6, Read, content. rewrite Hg. destruct (chunks body) as [|c cs]; [by destruct (end_err body)|].
  destruct (Nat.leb_spec (length c) 1024) as [Hc|Hc].
  - rewrite take_ge by done. split; [done|]. intros _ ->. cbn. by rewrite app_nil_r.
  - split; [done|lia].
Qed.

(** The test fails exactly when the address cannot be had or resolved. *)
Lemma TestIPv6_spec url : TestIPv6 url = None <-> exists ip, GetIPv6 url = inl ip /\ ResolveIPAddr "ip6" ip = None.
Proof.
  unfold TestIPv6. destruct (GetIPv6 url) as [ip|e].
  - split; [by exists ip|]. by intros (ip' & [= ->] & H).
  - split; [done|]. by intros (ip' & H & _).
Qed.
End Util.

(** An address that arrives in two pieces is cut to another one. *)
Example cut_address :
  GetIPv6 (fun _ => inl (mkSource [bytes_of_string "2001:db8::1"; bytes_of_string "234"] EOF)) "" = inl "2001:db8::1".
Proof. vm_compute. reflexivity. Qed.
