(* ===== verification/AgentDialogs.v ===== *)
(** src/agent/windows/main.go: the dialogs by which the window's user edits an
    application, as the declarations the toolkit (walk) is given, and the form
    they are bound to.  The theorem: every binding names a field of the form of
    the kind its widget edits, the dialog for adding reaches every field once,
    those for editing every field but the gateway and the resource, which they
    show and do not change. *)
From S2P Require Import Prelude GoText Codec TypesId PortmapApp.

(** * The form *)

Record AppForm := mkForm {
  f_Name : string; f_PeerID : string; f_ResID : string; f_Network : string; f_TargetAddr : string; f_TargetPort : Z;
  f_LocalIP : string; f_LocalPort : Z; f_Running : bool
}.
#[export] Instance AppForm_eq_dec : EqDecision AppForm.
Proof. solve_decision. Defined.

Definition form_of (a : PortmapApp) : AppForm :=
  mkForm (app_Name a) (app_PeerID a) (FormatUint (Uint64 (app_ResID a))) (app_Network a) (app_TargetAddr a) (app_TargetPort a)
    (app_LocalIP a) (app_LocalPort a) (app_Running a).

(** The form of a new application. *)
Definition add_form : AppForm := mkForm "" "" "" "" "" 0 "127.0.0.1" 0 true.

(** How a dialog ends; accepted, it has written the form. *)
Inductive dialog := DlgError (e : error) | DlgCancel | DlgOK (f : AppForm).

(** The fields a binding can name, with their values. *)
Inductive value := VString (s : string) | VInt (z : Z) | VBool (b : bool).
#[export] Instance value_eq_dec : EqDecision value.
Proof. solve_decision. Defined.

Definition fields (f : AppForm) : list (string * value) :=
  [("Name", VString (f_Name f)); ("PeerID", VString (f_PeerID f)); ("ResID", VString (f_ResID f)); ("Network", VString (f_Network f));
   ("TargetAddr", VString (f_TargetAddr f)); ("TargetPort", VInt (f_TargetPort f)); ("LocalIP", VString (f_LocalIP f));
   ("LocalPort", VInt (f_LocalPort f)); ("Running", VBool (f_Running f))].

(** * Widgets *)

(** A property is bound to a field, [Bind("Name")], or has a value. *)
Inductive property := Bind (path : string) | Is (s : string).

(** What a button of a dialog does: [dlg.Accept()], the same once [db.Submit()]
    succeeded, [dlg.Cancel()]. *)
Inductive click := Accept | SubmitAccept | Cancel.
#[export] Instance click_eq_dec : EqDecision click.
Proof. solve_decision. Defined.

#[warnings="-register-all"]
Inductive Widget :=
  | Label (text : string)
  | LineEdit (text : property) (readOnly : bool)
  | NumberEdit (val : property)
  | CheckBox (text : string) (checked : property)
  | PushButton (text : string) (onClicked : click)
  | HBox (children : list Widget).

Record Dialog := mkDialog { Title : string; MinSize : Z * Z; AutoSubmit : bool; Children : list Widget }.

Definition dialog_buttons (ok : click) : Widget := HBox [PushButton "确定" ok; PushButton "取消" Cancel].

(** The double click's. *)
Definition activated_dialog (app : PortmapApp) : Dialog := mkDialog "编辑应用" (400, 300) true
  [Label "应用名称:"; LineEdit (Bind "Name") false;
   Label "网关ID:"; LineEdit (Is (app_PeerID app)) true;
   Label "资源ID:"; LineEdit (Is (FormatUint (Uint64 (app_ResID app)))) true;
   Label "协议(tcp/udp):"; LineEdit (Bind "Network") false;
   Label "本地IP:"; LineEdit (Bind "LocalIP") false;
   Label "本地端口:"; NumberEdit (Bind "LocalPort");
   Label "目标地址:"; LineEdit (Bind "TargetAddr") false;
   Label "目标端口:"; NumberEdit (Bind "TargetPort");
   CheckBox "启动应用" (Bind "Running");
   dialog_buttons SubmitAccept].

Definition add_dialog : Dialog := mkDialog "添加应用" (400, 300) true
  [Label "应用名称:"; LineEdit (Bind "Name") false;
   Label "网关ID:"; LineEdit (Bind "PeerID") false;
   Label "资源ID:"; LineEdit (Bind "ResID") false;
   Label "协议(tcp/udp):"; LineEdit (Bind "Network") false;
   Label "本地IP:"; LineEdit (Bind "LocalIP") false;
   Label "本地端口:"; NumberEdit (Bind "LocalPort");
   Label "目标地址:"; LineEdit (Bind "TargetAddr") false;
   Label "目标端口:"; NumberEdit (Bind "TargetPort");
   CheckBox "启动应用" (Bind "Running");
   dialog_buttons Accept].

(** The button's for editing: every field is bound. *)
Definition edit_dialog : Dialog := mkDialog "编辑应用" (400, 300) true
  [Label "应用名称:"; LineEdit (Bind "Name") false;
   Label "网关ID:"; LineEdit (Bind "PeerID") false;
   Label "资源ID:"; LineEdit (Bind "ResID") false;
   Label "协议(tcp/udp):"; LineEdit (Bind "Network") false;
   Label "目标地址:"; LineEdit (Bind "TargetAddr") false;
   Label "目标端口:"; NumberEdit (Bind "TargetPort");
   Label "本地IP:"; LineEdit (Bind "LocalIP") false;
   Label "本地端口:"; NumberEdit (Bind "LocalPort");
   CheckBox "启动应用" (Bind "Running");
   dialog_buttons SubmitAccept].

(** * What is bound *)

Inductive kind := KString | KInt | KBool.
#[export] Instance kind_eq_dec : EqDecision kind.
Proof. solve_decision. Defined.
Definition kind_of (v : value) : kind := match v with VString _ => KString | VInt _ => KInt | VBool _ => KBool end.

Definition bound (k : kind) (p : property) : list (string * kind) := match p with Bind path => [(path, k)] | Is _ => [] end.

(** The bindings of a widget, with the kind of what it edits. *)
Fixpoint bindings (w : Widget) : list (string * kind) :=
  match w with
  | Label _ | PushButton _ _ => []
  | LineEdit p _ => bound KString p
  | NumberEdit p => bound KInt p
  | CheckBox _ p => bound KBool p
  | HBox l => flat_map bindings l
  end.
Definition dialog_bindings (d : Dialog) : list (string * kind) := flat_map bindings (Children d).

Fixpoint clicks (w : Widget) : list click :=
  match w with
  | PushButton _ c => [c]
  | HBox l => flat_map clicks l
  | _ => []
  end.
Definition dialog_clicks (d : Dialog) : list click := flat_map clicks (Children d).

(** The texts shown and not bound. *)
Fixpoint constants (w : Widget) : list (string * bool) :=
  match w with
  | LineEdit (Is s) ro => [(s, ro)]
  | HBox l => flat_map constants l
  | _ => []
  end.

Definition kinds (f : AppForm) : list (string * kind) := prod_map id kind_of <$> fields f.

(** The three dialogs fit the form.  Every binding names a field of the form of
    the kind its widget edits, no two the same; one button accepts and one
    cancels.  The dialogs of the two buttons reach every field, that of the
    double click every field but the gateway and the resource, which it shows as
    they are and lets nobody change. *)
Theorem dialogs_fit app f d : d ∈ [activated_dialog app; add_dialog; edit_dialog] ->
  Forall (.∈ kinds f) (dialog_bindings d) /\ NoDup (dialog_bindings d) /\
  (exists ok, dialog_clicks d = [ok; Cancel] /\ ok <> Cancel) /\
  (dialog_bindings d ≡ₚ kinds f \/
   d = activated_dialog app /\ dialog_bindings d ≡ₚ filter (fun b => b.1 <> "PeerID" /\ b.1 <> "ResID") (kinds f) /\
   flat_map constants (Children d) = [(f_PeerID (form_of app), true); (f_ResID (form_of app), true)]).
Proof.
  rewrite !elem_of_cons, elem_of_nil. intros [->|[->|[->|[]]]];
    (split; [apply (bool_decide_unpack _); vm_compute; exact I
            |split; [apply (bool_decide_unpack _); vm_compute; exact I|split; [eexists; split; [reflexivity|done]|]]]).
  - right. split; [done|]. split; [|reflexivity]. apply (bool_decide_unpack _). vm_compute. exact I.
  - left. apply (bool_decide_unpack _). vm_compute. exact I.
  - left. apply (bool_decide_unpack _). vm_compute. exact I.
Qed.
