(* ===== verification/AgentGui.v ===== *)
(** src/agent/windows/main.go: the events of the agent's window.  Its table
    shows a copy of the agent's applications; the handlers of the menu, the
    buttons and the dialogs change the agent and refresh the copy.  The toolkit
    (walk) is what calls them: the row that is selected is an argument, and what
    the user does in a dialog of AgentDialogs is its outcome.  The file passes an
    identifier where a uint64 is expected and does not compile; it is modelled as
    if it converted.  The theorems: no handler reads outside the table, after each
    of them the table shows what the agent holds, unless the deletion or the
    button for editing failed, a double click edits the application and the
    button for editing adds another one. *)
From S2P Require Import Prelude GoText GoIo GoOs GoNet Json Codec TypesId Store PortmapApp Portmap GwCore Authorize.
From S2P Require Import Logger Identity P2p Avl ProxyRouter Socks5Util Socks5Client Socks5Rfc TunStack ProxyClient AgentProxy Agent AgentDialogs.

(** * What the window asks of the agent (export.go) *)

Class AppAgent (A : Type) := {
  gui_Start : string -> bool -> GoM A (option error);
  gui_AddApp : PortmapApp -> GoM A (option error);
  gui_UpdateApp : PortmapApp -> GoM A (option error);
  gui_DelApp : PortmapApp -> GoM A (option error);
  gui_GetApps : GoM A (list PortmapApp)
}.

(** What it promises: [up] while its applications can be read, [held] what they
    are, by identifier; [fresh] the identifier the next one gets. *)
Class AppAgentLaws (A : Type) {Ag : AppAgent A} := {
  up : A -> Prop;
  held : A -> gmap Z PortmapApp;
  fresh : A -> Z;
  shown_apps : gmap Z PortmapApp -> list PortmapApp;
  shown_perm m : shown_apps m ≡ₚ (map_to_list m).*2;
  get_law a : up a -> gui_GetApps a = (Ret (shown_apps (held a)), a);
  add_law x a r a' : up a -> gui_AddApp x a = (Ret r, a') -> up a' /\
    (held a' = held a /\ r <> None \/
     exists x', held a' = <[fresh a := x']> (held a) /\ app_ID x' = mkID (fresh a) /\ app_Name x' = app_Name x /\
       app_PeerID x' = app_PeerID x /\ app_ResID x' = app_ResID x);
  update_law x a r a' : up a -> gui_UpdateApp x a = (Ret r, a') -> up a' /\
    (held a' = held a /\ r <> None \/
     exists x', is_Some (held a !! Uint64 (app_ID x)) /\ held a' = <[Uint64 (app_ID x) := x']> (held a) /\
       app_ID x' = app_ID x /\ app_Name x' = app_Name x /\ (app_Running x = false -> app_Running x' = false));
  del_law x a r a' : up a -> gui_DelApp x a = (Ret r, a') -> up a' /\
    (held a' = held a /\ r <> None \/ held a' = delete (Uint64 (app_ID x)) (held a))
}.

Definition parseUint64 (s : string) : Z := (ParseUint s).1.

(** What the toolkit makes of a dialog the user has before him: how it ends, and
    the errors of the submissions its button tried. *)
Definition Runner : Type := Dialog -> AppForm -> list error * dialog.

Section Gui.
Context {A : Type} {Ag : AppAgent A}.

Record Ui := mkUi { ui_agent : A; rows : list PortmapApp; IsRunning : bool; logView : list string }.
Definition set_rows (l : list PortmapApp) (u : Ui) : Ui := mkUi (ui_agent u) l (IsRunning u) (logView u).
Definition on_agent {B} (m : GoM A B) : GoM Ui B := zoom ui_agent (fun a u => mkUi a (rows u) (IsRunning u) (logView u)) m.

(** A line of the window's log, the last one first. *)
Definition AppendText (s : string) : GoM Ui unit :=
  modify (fun u => mkUi (ui_agent u) (rows u) (IsRunning u) (s :: logView u)).
Definition crlf : string := String "013" (String "010" "").

(** * The table *)

(** [m.apps[i]] of an index the handlers have checked. *)
Definition row (index : Z) (l : list PortmapApp) : option PortmapApp :=
  if (0 <=? index) && (index <? Z.of_nat (length l)) then l !! Z.to_nat index else None.

Definition SetCurrentIndex (index : Z) : GoM Ui unit :=
  modify (fun u => mkUi (ui_agent u) (rows u) (match row index (rows u) with Some a => app_Running a | None => false end) (logView u)).

Definition refreshApps : GoM Ui (option error) :=
  apps <- on_agent gui_GetApps ;;
  modify (set_rows apps) ;;;
  ret None.

Definition RowCount (u : Ui) : Z := Z.of_nat (length (rows u)).

(** A cell: text, or the number of the column for the local port. *)
Inductive cell := Text (s : string) | Number (z : Z).

(** [None] is the panic of a row outside the table. *)
Definition Value (r col : Z) (u : Ui) : option cell :=
  match row r (rows u) with None => None | Some app =>
  Some match col with
       | 0 => Text (app_Name app)
       | 1 => Text (app_PeerName app)
       | 2 => Text (app_Network app)
       | 3 => Text (app_LocalIP app)
       | 4 => Number (app_LocalPort app)
       | 5 => if String.eqb (app_TargetAddr app) "" || (app_TargetPort app =? 0) then Text ""
              else Text (app_TargetAddr app +:+ ":" +:+ Itoa (app_TargetPort app))
       | 6 => Text (if app_Running app then "运行中" else "已停止")
       | 7 => Text (app_Err app)
       | _ => Text ""
       end end.

(** * The handlers *)

Definition failed (what : string) (e : error) : GoM Ui unit := AppendText (what +:+ ": " +:+ Error e +:+ crlf).

(** [if err := model.refreshApps(logView); err != nil { ... }]; it returns no
    error. *)
Definition refresh : GoM Ui unit :=
  err <- refreshApps ;;
  match err with Some e => failed "刷新应用列表失败" e | None => ret tt end.

Definition with_row (idx : Z) (none : GoM Ui unit) (k : PortmapApp -> GoM Ui unit) : GoM Ui unit :=
  u <- get ;;
  match row idx (rows u) with None => none | Some app => k app end.

(** The application an edited form makes, [id] its identifier. *)
Definition updatedApp (id : ID) (app : PortmapApp) (form : AppForm) : PortmapApp :=
  mkApp id (f_Name form) (app_PeerID app) (app_ResID app) (f_Network form) (f_LocalIP form) (f_LocalPort form)
    (f_TargetAddr form) (f_TargetPort form) (f_Running form) "" "".

(** [Dialog{...}.Run]; the accepting button logs a submission that failed
    and leaves the dialog open. *)
Definition run_dialog (Run : Runner) (d : Dialog) (form : AppForm) (k : dialog -> GoM Ui unit) : GoM Ui unit :=
  (if bool_decide (SubmitAccept ∈ dialog_clicks d) then for_range (Run d form).1 (failed "表单验证失败") else ret tt) ;;;
  k (Run d form).2.

Definition OnItemActivated (idx : Z) (Run : Runner) : GoM Ui unit :=
  with_row idx (ret tt) (fun app =>
    run_dialog Run (activated_dialog app) (form_of app) (fun res =>
    match res with
    | DlgError e => failed "对话框错误" e
    | DlgCancel => ret tt
    | DlgOK form =>
        let a := updatedApp (app_ID app) app form in
        err <- on_agent (gui_UpdateApp a) ;;
        (match err with Some e => failed "更新应用失败" e | None => ret tt end) ;;;
        refresh ;;;
        AppendText ("成功更新应用: " +:+ app_Name a +:+ crlf)
    end)).

Definition with_Running (b : bool) (a : PortmapApp) : PortmapApp :=
  mkApp (app_ID a) (app_Name a) (app_PeerID a) (app_ResID a) (app_Network a) (app_LocalIP a) (app_LocalPort a)
    (app_TargetAddr a) (app_TargetPort a) b (app_PeerName a) (app_Err a).

(** The menu's start and stop; the field is set in the row itself. *)
Definition OnSwitch (b : bool) (idx : Z) : GoM Ui unit :=
  with_row idx (ret tt) (fun app =>
    let app := with_Running b app in
    modify (fun u => set_rows (<[Z.to_nat idx := app]> (rows u)) u) ;;;
    err <- on_agent (gui_UpdateApp app) ;;
    (match err with Some e => failed (if b then "启动应用失败" else "停止应用失败") e | None => ret tt end) ;;;
    refresh).

(** The menu's and the button's. *)
Definition OnDelete (idx : Z) : GoM Ui unit :=
  with_row idx (AppendText ("请先选择要删除的应用" +:+ crlf)) (fun app =>
    err <- on_agent (gui_DelApp app) ;;
    match err with Some e => failed "删除应用失败" e | None => refresh end).

(** [fmt.Sprintf] of the pointer to the form with [%+v]. *)
Definition show_form (f : AppForm) : string :=
  "&{Name:" +:+ f_Name f +:+ " PeerID:" +:+ f_PeerID f +:+ " ResID:" +:+ f_ResID f +:+ " Network:" +:+ f_Network f +:+
  " TargetAddr:" +:+ f_TargetAddr f +:+ " TargetPort:" +:+ Itoa (f_TargetPort f) +:+ " LocalIP:" +:+ f_LocalIP f +:+
  " LocalPort:" +:+ Itoa (f_LocalPort f) +:+ " Running:" +:+ (if f_Running f then "true" else "false") +:+ "}".

Definition newApp (form : AppForm) : PortmapApp :=
  mkApp (mkID 0) (f_Name form) (f_PeerID form) (mkID (parseUint64 (f_ResID form))) (f_Network form) (f_LocalIP form)
    (f_LocalPort form) (f_TargetAddr form) (f_TargetPort form) (f_Running form) "" "".

(** [Submit] is what submitting the closed dialog makes of the form. *)
Definition OnAdd (Run : Runner) (Submit : AppForm -> AppForm + error) : GoM Ui unit :=
  run_dialog Run add_dialog add_form (fun res =>
  match res with
  | DlgError e => failed "对话框错误" e
  | DlgCancel => AppendText ("用户取消了添加应用操作" +:+ crlf)
  | DlgOK form =>
      AppendText ("提交前表单数据: " +:+ show_form form +:+ crlf) ;;;
      match Submit form with
      | inr e => failed "表单验证失败" e
      | inl form =>
          AppendText ("提交后表单数据: " +:+ show_form form +:+ crlf) ;;;
          let a := newApp form in
          err <- on_agent (gui_AddApp a) ;;
          (match err with Some e => failed "添加应用失败" e | None => ret tt end) ;;;
          refresh ;;;
          AppendText ("成功添加应用: " +:+ app_Name a +:+ " (PeerID: " +:+ app_PeerID a +:+ ", ResID: " +:+
                      FormatUint (Uint64 (app_ResID a)) +:+ ")" +:+ crlf)
      end
  end).

(** The button for editing; the application it makes has no identifier. *)
Definition OnEdit (idx : Z) (Run : Runner) : GoM Ui unit :=
  with_row idx (AppendText ("请先选择要编辑的应用" +:+ crlf)) (fun app =>
    run_dialog Run edit_dialog (form_of app) (fun res =>
    match res with
    | DlgError e => failed "对话框错误" e
    | DlgCancel => ret tt
    | DlgOK form =>
        let a := updatedApp (mkID 0) app form in
        err <- on_agent (gui_AddApp a) ;;
        match err with
        | Some e => failed "更新应用失败" e
        | None => refresh ;;; AppendText ("成功更新应用: " +:+ app_Name a +:+ crlf)
        end
    end)).

(** [main] before the window: the message it ends with, if it does. *)
Definition start_window (workDir : string) : GoM Ui (option string) :=
  err <- on_agent (gui_Start workDir true) ;;
  match err with
  | Some e => ret (Some ("启动Agent失败: " +:+ Error e))
  | None =>
      err <- refreshApps ;;
      ret ((fun e => "获取应用列表失败: " +:+ Error e) <$> err)
  end.

(** ** What the user does *)

Inductive event :=
  | Select (idx : Z)
  | DoubleClick (idx : Z) (Run : Runner)
  | MenuStart (idx : Z)
  | MenuStop (idx : Z)
  | Delete (idx : Z)
  | ClickAdd (Run : Runner) (Submit : AppForm -> AppForm + error)
  | ClickEdit (idx : Z) (Run : Runner).

Definition handle (ev : event) : GoM Ui unit :=
  match ev with
  | Select idx => SetCurrentIndex idx
  | DoubleClick idx Run => OnItemActivated idx Run
  | MenuStart idx => OnSwitch true idx
  | MenuStop idx => OnSwitch false idx
  | Delete idx => OnDelete idx
  | ClickAdd Run Submit => OnAdd Run Submit
  | ClickEdit idx Run => OnEdit idx Run
  end.

(** * Lemmas *)

Context {AgL : AppAgentLaws A}.

Definition in_sync (u : Ui) : Prop := rows u = shown_apps (held (ui_agent u)).

Lemma on_agent_inv {B} (m : GoM A B) u o u' : on_agent m u = (o, u') ->
  m (ui_agent u) = (o, ui_agent u') /\ rows u' = rows u /\ logView u' = logView u /\ IsRunning u' = IsRunning u.
Proof. unfold on_agent, zoom. destruct (m (ui_agent u)) as [o' a]. by intros [= <- <-]. Qed.

Lemma refresh_run u : up (ui_agent u) -> refresh u = (Ret tt, set_rows (shown_apps (held (ui_agent u))) u).
Proof.
  intros Hu. unfold refresh, refreshApps, on_agent, zoom, bind, modify, ret. rewrite get_law by done. by destruct u.
Qed.

(** A row is one of the table's. *)
Lemma row_Some idx (l : list PortmapApp) a : row idx l = Some a -> 0 <= idx < Z.of_nat (length l) /\ a ∈ l.
Proof.
  unfold row. case_match eqn:E; [|done]. intros H.
  split; [lia|]. by eapply list_elem_of_lookup_2.
Qed.

Lemma row_held idx u a : in_sync u -> row idx (rows u) = Some a -> exists k, held (ui_agent u) !! k = Some a.
Proof.
  intros -> [_ Hin]%row_Some. rewrite shown_perm in Hin. apply list_elem_of_fmap in Hin as ([k x] & -> & Hk).
  exists k. by apply elem_of_map_to_list.
Qed.

Lemma with_row_run idx none k u :
  with_row idx none k u = match row idx (rows u) with None => none u | Some app => k app u end.
Proof. unfold with_row, bind, get. by destruct (row idx (rows u)). Qed.

(** A statement that only logs leaves agent and table. *)
Definition logs (m : GoM Ui unit) : Prop := forall u, exists l,
  m u = (Ret tt, mkUi (ui_agent u) (rows u) (IsRunning u) (l ++ logView u)).
Lemma logs_append t : logs (AppendText t).
Proof. intros u. by exists [t]. Qed.
Lemma logs_ret : logs (ret tt).
Proof. intros u. exists []. by destruct u. Qed.
Lemma logs_failed what (err : option error) : logs (match err with Some e => failed what e | None => ret tt end).
Proof. destruct err; [apply logs_append|apply logs_ret]. Qed.

(** An operation of the agent that returned, the line of its failure, the
    refresh and a last line. *)
Lemma op_refresh what (m : GoM A (option error)) k u : logs k ->
  match m (ui_agent u) with
  | (Panic, _) => True
  | (Ret err, a) => up a -> exists u', (err <- on_agent m ;;
      (match err with Some e => failed what e | None => ret tt end) ;;; refresh ;;; k) u = (Ret tt, u') /\ ui_agent u' = a /\ in_sync u'
  end.
Proof.
  intros Hk. destruct (m (ui_agent u)) as [[err|] a] eqn:E; [|done]. intros Hu.
  assert (E1 : on_agent m u = (Ret err, mkUi a (rows u) (IsRunning u) (logView u))) by (unfold on_agent, zoom; by rewrite E).
  rewrite (bind_Ret _ _ _ _ _ E1). destruct (logs_failed what err (mkUi a (rows u) (IsRunning u) (logView u))) as [l E2].
  rewrite (bind_Ret _ _ _ _ _ E2), (bind_Ret _ _ _ _ _ (refresh_run (mkUi _ _ _ _) Hu)).
  match goal with |- context [k ?x] => destruct (Hk x) as [l' ->] end.
  by eexists.
Qed.

(** The same without the last line. *)
Lemma op_refresh_end what (m : GoM A (option error)) u :
  match m (ui_agent u) with
  | (Panic, _) => True
  | (Ret err, a) => up a -> exists u', (err <- on_agent m ;;
      (match err with Some e => failed what e | None => ret tt end) ;;; refresh) u = (Ret tt, u') /\ ui_agent u' = a /\ in_sync u'
  end.
Proof.
  destruct (m (ui_agent u)) as [[err|] a] eqn:E; [|done]. intros Hu.
  assert (E1 : on_agent m u = (Ret err, mkUi a (rows u) (IsRunning u) (logView u))) by (unfold on_agent, zoom; by rewrite E).
  rewrite (bind_Ret _ _ _ _ _ E1). destruct (logs_failed what err (mkUi a (rows u) (IsRunning u) (logView u))) as [l E2].
  rewrite (bind_Ret _ _ _ _ _ E2), (refresh_run (mkUi _ _ _ _) Hu). by eexists.
Qed.

Lemma op_panics {B} (m : GoM A (option error)) (k : option error -> GoM Ui B) u a : m (ui_agent u) = (Panic, a) -> (bind (on_agent m) k u).1 = Panic.
Proof. intros E. unfold bind, on_agent, zoom. by rewrite E. Qed.

Lemma logs_bind m k : logs m -> logs k -> logs (m ;;; k).
Proof.
  intros Hm Hk u. destruct (Hm u) as [l E]. rewrite (bind_Ret _ _ _ _ _ E). destruct (Hk (mkUi (ui_agent u) (rows u) (IsRunning u) (l ++ logView u))) as [l' E'].
  exists (l' ++ l). by rewrite E', <- app_assoc.
Qed.
Lemma logs_range {B} (l : list B) f : (forall b, logs (f b)) -> logs (for_range l f).
Proof. intros Hf. induction l as [|b l IH]; [apply logs_ret|]. apply logs_bind; [apply Hf|exact IH]. Qed.

(** ** What an event asks of the agent *)

Definition op_of (ev : event) (u : Ui) : option (GoM A (option error)) :=
  match ev with
  | Select _ => None
  | DoubleClick idx Run =>
      match row idx (rows u) with
      | Some app => match (Run (activated_dialog app) (form_of app)).2 with DlgOK f => Some (gui_UpdateApp (updatedApp (app_ID app) app f)) | _ => None end
      | None => None
      end
  | MenuStart idx => (fun app => gui_UpdateApp (with_Running true app)) <$> row idx (rows u)
  | MenuStop idx => (fun app => gui_UpdateApp (with_Running false app)) <$> row idx (rows u)
  | Delete idx => gui_DelApp <$> row idx (rows u)
  | ClickAdd Run Submit =>
      match (Run add_dialog add_form).2 with
      | DlgOK f => match Submit f with inl f => Some (gui_AddApp (newApp f)) | inr _ => None end
      | _ => None
      end
  | ClickEdit idx Run =>
      match row idx (rows u) with
      | Some app => match (Run edit_dialog (form_of app)).2 with DlgOK f => Some (gui_AddApp (updatedApp (mkID 0) app f)) | _ => None end
      | None => None
      end
  end.

(** What an event that asks nothing leaves. *)
Definition only_logged (u u' : Ui) : Prop := ui_agent u' = ui_agent u /\ rows u' = rows u.

Lemma logs_only m u : logs m -> exists u', m u = (Ret tt, u') /\ only_logged u u'.
Proof. intros H. destruct (H u) as [l ->]. by eexists. Qed.

Lemma run_dialog_run Run d form k u : exists u0, only_logged u u0 /\ run_dialog Run d form k u = k (Run d form).2 u0.
Proof.
  unfold run_dialog. assert (Hm : logs (if bool_decide (SubmitAccept ∈ dialog_clicks d) then for_range (Run d form).1 (failed "表单验证失败") else ret tt)).
  { destruct (bool_decide _); [apply logs_range; intros e; apply logs_append|apply logs_ret]. }
  destruct (Hm u) as [l E]. rewrite (bind_Ret _ _ _ _ _ E). eexists. split; [|reflexivity]. done.
Qed.
(** Go on after a dialog, whose errors were logged, with the window [u] it left. *)
Ltac after_dialog u Hu :=
  unfold only_logged; match goal with |- context [run_dialog ?Run ?d ?form ?k u] =>
    let u0 := fresh "u0" in let E := fresh "E" in let Ha := fresh "Ha" in let Hr := fresh "Hr" in
    destruct (run_dialog_run Run d form k u) as (u0 & [Ha Hr] & E); rewrite ?E, <- ?Ha, <- ?Hr; rewrite <- Ha in Hu;
    clear dependent u; rename u0 into u
  end.

(** The handlers that do not refresh the table when their call failed. *)
Definition keeps_table (ev : event) (err : option error) : bool :=
  match ev, err with
  | Delete _, Some _ | ClickEdit _ _, Some _ => true
  | _, _ => false
  end.

(** The menu's two entries for a running or a stopped application. *)
Lemma switch_event b idx u : up (ui_agent u) ->
  match (fun app => gui_UpdateApp (with_Running b app)) <$> row idx (rows u) with
  | None => exists u', OnSwitch b idx u = (Ret tt, u') /\ only_logged u u'
  | Some m =>
      match m (ui_agent u) with
      | (Panic, _) => (OnSwitch b idx u).1 = Panic
      | (Ret err, a) => up a -> exists u', OnSwitch b idx u = (Ret tt, u') /\ ui_agent u' = a /\ in_sync u'
      end
  end.
Proof.
  intros Hu. unfold OnSwitch. rewrite with_row_run. destruct (row idx (rows u)) as [app|]; [|apply logs_only, logs_ret].
  cbn [fmap option_fmap option_map]. set (u1 := set_rows (<[Z.to_nat idx := with_Running b app]> (rows u)) u).
  set (m := gui_UpdateApp (with_Running b app)). cbn zeta. fold m.
  assert (E1 : modify (fun u => set_rows (<[Z.to_nat idx := with_Running b app]> (rows u)) u) u = (Ret tt, u1)) by done.
  rewrite (bind_Ret _ _ _ _ _ E1). pose proof (op_refresh_end (if b then "启动应用失败" else "停止应用失败") m u1) as H.
  change (ui_agent u1) with (ui_agent u) in H. destruct (m (ui_agent u)) as [[err|] a] eqn:E; [|by apply (op_panics m _ u1 a)].
  intros Ha. destruct (H Ha) as (u' & Hr & Hq & Hs). exists u'. auto.
Qed.

Lemma window_event_spec ev u : up (ui_agent u) ->
  match op_of ev u with
  | None => exists u', handle ev u = (Ret tt, u') /\ only_logged u u'
  | Some m =>
      match m (ui_agent u) with
      | (Panic, _) => (handle ev u).1 = Panic
      | (Ret err, a) => up a -> exists u', handle ev u = (Ret tt, u') /\ ui_agent u' = a /\ (if keeps_table ev err then rows u' = rows u else in_sync u')
      end
  end.
Proof.
  intros Hu. assert (Hnone : exists u', ret tt u = (Ret tt, u') /\ only_logged u u') by (apply logs_only, logs_ret).
  destruct ev as [idx|idx Run|idx|idx|idx|Run Submit|idx Run]; cbn [handle op_of].
  - by eexists.
  - unfold OnItemActivated. rewrite with_row_run. destruct (row idx (rows u)) as [app|]; [|exact Hnone].
    after_dialog u Hu. destruct (Run _ _).2 as [e| |f]; [apply logs_only, logs_append|apply logs_only, logs_ret|].
    set (m := gui_UpdateApp _). pose proof (op_refresh "更新应用失败" m (AppendText ("成功更新应用: " +:+ app_Name (updatedApp (app_ID app) app f) +:+ crlf)) u
      (logs_append _)) as H. destruct (m (ui_agent u)) as [[err|] a] eqn:E; [|by eapply op_panics].
    intros Ha. destruct (H Ha) as (u' & Hr & Hq & Hs). exists u'. auto.
  - exact (switch_event true idx u Hu).
  - exact (switch_event false idx u Hu).
  - unfold OnDelete. rewrite with_row_run. destruct (row idx (rows u)) as [app|]; [|apply logs_only, logs_append].
    cbn [fmap option_fmap option_map]. set (m := gui_DelApp app).
    destruct (m (ui_agent u)) as [[err|] a] eqn:E; [|by eapply op_panics]. intros Ha.
    unfold bind, on_agent, zoom. rewrite E. destruct err as [e|]; [by eexists; split; [reflexivity|]|].
    rewrite (refresh_run (mkUi _ _ _ _) Ha). eexists. split; [reflexivity|]. split; [done|done].
  - unfold OnAdd. after_dialog u Hu. destruct (Run _ _).2 as [e| |f]; [apply logs_only, logs_append|apply logs_only, logs_append|].
    set (u1 := (AppendText ("提交前表单数据: " +:+ show_form f +:+ crlf) u).2).
    assert (E1 : AppendText ("提交前表单数据: " +:+ show_form f +:+ crlf) u = (Ret tt, u1)) by done. rewrite (bind_Ret _ _ _ _ _ E1).
    destruct (Submit f) as [f'|e]; [|by eexists].
    set (u2 := (AppendText ("提交后表单数据: " +:+ show_form f' +:+ crlf) u1).2).
    assert (E2 : AppendText ("提交后表单数据: " +:+ show_form f' +:+ crlf) u1 = (Ret tt, u2)) by done. rewrite (bind_Ret _ _ _ _ _ E2).
    set (m := gui_AddApp _). cbn zeta. match goal with |- context [refresh ;;; ?k] => pose proof (op_refresh "添加应用失败" m k u2 (logs_append _)) as H end.
    change (ui_agent u2) with (ui_agent u) in H. destruct (m (ui_agent u)) as [[err|] a] eqn:E; [|by apply (op_panics m _ u2 a)].
    intros Ha. destruct (H Ha) as (u' & Hr & Hq & Hs). exists u'. auto.
  - unfold OnEdit. rewrite with_row_run. destruct (row idx (rows u)) as [app|]; [|apply logs_only, logs_append].
    after_dialog u Hu. destruct (Run _ _).2 as [e| |f]; [apply logs_only, logs_append|apply logs_only, logs_ret|]. set (m := gui_AddApp _). cbn zeta.
    destruct (m (ui_agent u)) as [[err|] a] eqn:E; [|by apply (op_panics m _ u a)]. intros Ha.
    unfold bind, on_agent, zoom. rewrite E. destruct err as [e|]; [by eexists; split; [reflexivity|]|].
    rewrite (refresh_run (mkUi _ _ _ _) Ha). eexists. split; [reflexivity|]. split; [done|done].
Qed.

(** An event that returned ran its operation. *)
Lemma event_op ev u u' m : up (ui_agent u) -> op_of ev u = Some m -> handle ev u = (Ret tt, u') ->
  (forall err a, m (ui_agent u) = (Ret err, a) -> up a) -> exists err, m (ui_agent u) = (Ret err, ui_agent u').
Proof.
  intros Hu Hm Hh Hup. pose proof (window_event_spec ev u Hu) as H. rewrite Hm in H.
  destruct (m (ui_agent u)) as [[err|] a] eqn:E; [|by rewrite Hh in H].
  destruct (H (Hup _ _ eq_refl)) as (u2 & Hr & <- & _). exists err. congruence.
Qed.

(** C28. Every event makes at most one call of the agent, the one [op_of] says; the
    window panics only where that call does; and when it returned, with or
    without an error, the table shows what the agent then holds.  Only the
    deletion and the button for editing do not refresh when their call failed,
    and leave the table as it was. *)
Theorem window_event ev u : up (ui_agent u) ->
  match op_of ev u with
  | None => exists u', handle ev u = (Ret tt, u') /\ only_logged u u'
  | Some m =>
      match m (ui_agent u) with
      | (Panic, _) => (handle ev u).1 = Panic
      | (Ret err, a) => up a -> exists u', handle ev u = (Ret tt, u') /\ ui_agent u' = a /\ (if keeps_table ev err then rows u' = rows u else in_sync u')
      end
  end.
Proof. apply window_event_spec. Qed.

(** A double click edits: the applications keep their identifiers, and what
    changes is the one that was clicked, which has the form's name; it is not
    started when the form does not say so. *)
Theorem double_click_edits idx Run f app u u' : up (ui_agent u) -> row idx (rows u) = Some app ->
  (Run (activated_dialog app) (form_of app)).2 = DlgOK f -> handle (DoubleClick idx Run) u = (Ret tt, u') ->
  dom (held (ui_agent u')) = dom (held (ui_agent u)) /\
  (forall k, k <> Uint64 (app_ID app) -> held (ui_agent u') !! k = held (ui_agent u) !! k) /\
  (held (ui_agent u') = held (ui_agent u) \/
   exists x, held (ui_agent u') !! Uint64 (app_ID app) = Some x /\ app_Name x = f_Name f /\ (f_Running f = false -> app_Running x = false)).
Proof.
  intros Hu Hr Hd Hh. destruct (event_op (DoubleClick idx Run) u u' (gui_UpdateApp (updatedApp (app_ID app) app f)) Hu) as [err E].
  { cbn [op_of]. by rewrite Hr, Hd. }
  { exact Hh. }
  { intros err a E. by destruct (update_law _ _ _ _ Hu E). }
  destruct (update_law _ _ _ _ Hu E) as [_ [[-> _]|(x & [old Ho] & Hx & _ & Hn & Hrun)]]; [by auto|].
  cbn [updatedApp app_ID app_Name app_Running] in *. rewrite Hx. split; [|split].
  - rewrite dom_insert_L. apply elem_of_dom_2 in Ho. set_solver.
  - intros k Hk. by rewrite lookup_insert_ne.
  - right. exists x. rewrite lookup_insert_eq. auto.
Qed.

(** The button for editing does not: every application stays as it was, the
    selected one included, and if anything is changed there is another one,
    with the form's name. *)
Theorem edit_button_adds idx Run f app u u' : up (ui_agent u) -> row idx (rows u) = Some app ->
  (Run edit_dialog (form_of app)).2 = DlgOK f -> held (ui_agent u) !! fresh (ui_agent u) = None -> handle (ClickEdit idx Run) u = (Ret tt, u') ->
  held (ui_agent u) ⊆ held (ui_agent u') /\
  (held (ui_agent u') = held (ui_agent u) \/
   exists x, held (ui_agent u') = <[fresh (ui_agent u) := x]> (held (ui_agent u)) /\ app_Name x = f_Name f /\
     app_PeerID x = app_PeerID app /\ app_ResID x = app_ResID app).
Proof.
  intros Hu Hr Hd Hf Hh. destruct (event_op (ClickEdit idx Run) u u' (gui_AddApp (updatedApp (mkID 0) app f)) Hu) as [err E].
  { cbn [op_of]. by rewrite Hr, Hd. }
  { exact Hh. }
  { intros err a E. by destruct (add_law _ _ _ _ Hu E). }
  destruct (add_law _ _ _ _ Hu E) as [_ [[-> _]|(x & Hx & _ & Hn & Hp & Hres)]]; [by auto|].
  rewrite Hx. split; [by apply insert_subseteq|]. right. by exists x.
Qed.
End Gui.
Arguments Ui : clear implicits.

(** * The agent keeps the promise *)

Section AgentImpl.
Context {DB : Type} {Db : LevelDB DB} {Sys : System}.
Context (rand_Uint64 : nat -> Z).
Context (Listen : bool -> string -> Z -> sockets -> (nat * string) + error).
Context (range_apps : gmap Z PortmapApp -> list (Z * PortmapApp)).
Context (range_perm : forall m, range_apps m ≡ₚ map_to_list m).
Context (Start : string -> bool -> GoM (@Agent DB) (option error)).

#[local] Instance agent_gui : AppAgent (@Agent DB) := {
  gui_Start := Start;
  gui_AddApp := addApp rand_Uint64 Listen;
  gui_UpdateApp := updateAPP Listen;
  gui_DelApp := delApp;
  gui_GetApps := getApps range_apps
}.

Definition agent_held (a : @Agent DB) : gmap Z PortmapApp := match am a with Some (Some rs) => rs | _ => ∅ end.
(** The agent runs, its applications were loaded, each under its identifier. *)
Definition agent_up (a : @Agent DB) : Prop :=
  running a = true /\ (exists rs, am a = Some (Some rs)) /\ forall k x, agent_held a !! k = Some x -> Uint64 (app_ID x) = k.

Lemma on_pm_inv {B} (m : GoM Portmap B) (a : @Agent DB) r a' : on_pm m a = (r, a') ->
  am a' = am a /\ running a' = running a /\ rnd a' = rnd a.
Proof. unfold on_pm. destruct (pm a); [|by intros [= <- <-]]. destruct (m p) as [o p']. by intros [= <- <-]. Qed.

(** Writing an application back under its own identifier. *)
Lemma update_up x a rs r a' : am a = Some (Some rs) -> running a = true -> (forall k y, rs !! k = Some y -> Uint64 (app_ID y) = k) ->
  on_am (UpdatePortmapApp x) a = (Ret r, a') -> agent_up a' /\ agent_held a' = <[Uint64 (app_ID x) := x]> rs.
Proof.
  intros Ha Hr Hk E. destruct (update_run x a rs Ha) as (e & a2 & E2 & Ham & _ & _ & Hr2 & _). rewrite E2 in E. injection E as <- <-.
  assert (Hh : agent_held a2 = <[Uint64 (app_ID x) := x]> rs) by (unfold agent_held; by rewrite Ham).
  split; [|done]. split; [congruence|]. split; [by eexists|]. rewrite Hh.
  intros k y [[<- <-]|[_ Hy]]%lookup_insert_Some; [done|by apply Hk].
Qed.

Lemma agent_add x a r a' : agent_up a -> addApp rand_Uint64 Listen x a = (Ret r, a') -> agent_up a' /\
  (agent_held a' = agent_held a /\ r <> None \/
   exists x', agent_held a' = <[rand_Uint64 (rnd a) := x']> (agent_held a) /\ app_ID x' = mkID (rand_Uint64 (rnd a)) /\
     app_Name x' = app_Name x /\ app_PeerID x' = app_PeerID x /\ app_ResID x' = app_ResID x).
Proof.
  intros (Hr & [rs Ha] & Hk) E. unfold addApp in E. apply bind_inv in E as (id & a1 & [= <- <-] & E).
  apply bind_inv in E as ([] & a2 & E2 & E). unfold Libp2pHost in E2. cbn [p2p] in E2. destruct (p2p a); [|done]. injection E2 as <-.
  set (a1 := mkAgent _ _ _ _ _ _ _ _ _ _ _) in E. unfold agent_held in *. rewrite Ha in *.
  assert (Hsame : forall e, Ret (Some e) = Ret r /\ a1 = a' -> agent_up a' /\
    ((match am a' with Some (Some rs) => rs | _ => ∅ end) = rs /\ r <> None)).
  { intros e [[= <-] <-]. unfold agent_up, agent_held. cbn [am running a1]. rewrite Ha. by split_and!; [|eexists|..]. }
  destruct (ResourceAuthorize _ _ _ _) as [[rsp [e|]] cn].
  { destruct (Hsame e) as [H1 H2]; [by injection E as <- <-|]. auto. }
  destruct (negb _). { destruct (Hsame (ErrText (aresp_Err rsp))) as [H1 H2]; [by injection E as <- <-|]. auto. }
  destruct (aresp_Portmap rsp) as [pr|].
  2:{ destruct (Hsame (ErrText "portmap resource auth failed")) as [H1 H2]; [by injection E as <- <-|]. auto. }
  apply bind_inv in E as (y & a3 & E3 & E). set (x1 := authorized _ _ _ _) in E3.
  assert (H3 : am a3 = Some (Some rs) /\ running a3 = true /\ app_ID y = app_ID x1 /\ app_Name y = app_Name x1 /\
    app_PeerID y = app_PeerID x1 /\ app_ResID y = app_ResID x1).
  { unfold listen_app in E3. destruct (app_Running x1); [|by injection E3 as <- <-].
    apply bind_inv in E3 as ([p' err] & a4 & E4 & E3). apply on_pm_inv in E4 as (Ha4 & Hr4 & _).
    injection E3 as <- <-. rewrite Ha4, Hr4. by destruct err. }
  destruct H3 as (Ha3 & Hr3 & Hid & Hn & Hp & Hre). destruct (update_up y a3 rs r a' Ha3 Hr3 Hk E) as [Hu Hh].
  split; [done|]. right. exists y. unfold agent_held in Hh. rewrite Hh, Hid. by rewrite Hn, Hp, Hre.
Qed.

Lemma agent_update x a r a' : agent_up a -> updateAPP Listen x a = (Ret r, a') -> agent_up a' /\
  (agent_held a' = agent_held a /\ r <> None \/
   exists x', is_Some (agent_held a !! Uint64 (app_ID x)) /\ agent_held a' = <[Uint64 (app_ID x) := x']> (agent_held a) /\
     app_ID x' = app_ID x /\ app_Name x' = app_Name x /\ (app_Running x = false -> app_Running x' = false)).
Proof.
  intros (Hr & [rs Ha] & Hk) E. unfold updateAPP in E. unfold agent_held in *. rewrite Ha in *.
  assert (Hup : forall a1 : @Agent DB, am a1 = Some (Some rs) -> running a1 = true -> agent_up a1).
  { intros a1 H1 H2. unfold agent_up, agent_held. rewrite H1. by split_and!; [|eexists|..]. }
  destruct (Uint64 (app_ID x) =? 0). { injection E as <- <-. split; [by apply Hup|]. left. by rewrite Ha. }
  apply bind_inv in E as (old & a1 & E1 & E). destruct (lookup_run (Uint64 (app_ID x)) a rs Ha) as (a2 & E2 & Ha2 & _ & Hr2).
  rewrite E2 in E1. injection E1 as <- <-. rewrite Ha in Ha2. rewrite Hr in Hr2.
  destruct (rs !! Uint64 (app_ID x)) as [old|] eqn:Eo.
  2:{ injection E as <- <-. split; [by apply Hup|]. left. by rewrite Ha2. }
  cbn zeta in E. apply bind_inv in E as (y & a3 & E3 & E).
  assert (H3 : am a3 = Some (Some rs) /\ running a3 = true /\ app_ID y = app_ID old /\ app_Name y = app_Name x /\
    (app_Running x = false -> app_Running y = false)).
  { destruct (app_Running x) eqn:Er.
    - apply bind_inv in E3 as ([] & a4 & E4 & E3). apply bind_inv in E3 as ([p err] & a5 & E5 & E3).
      assert (H4 : am a4 = am a2 /\ running a4 = running a2).
      { destruct (_ || _) in E4; [by apply on_pm_inv in E4 as (? & ? & _)|by injection E4 as <-]. }
      apply on_pm_inv in E5 as (Ha5 & Hr5 & _). injection E3 as <- <-. destruct H4 as [Ha4 Hr4].
      rewrite Ha5, Hr5, Ha4, Hr4. by destruct err.
    - apply bind_inv in E3 as ([] & a4 & E4 & E3). apply on_pm_inv in E4 as (Ha4 & Hr4 & _). injection E3 as <- <-.
      by rewrite Ha4, Hr4. }
  destruct H3 as (Ha3 & Hr3 & Hid & Hn & Hrun). destruct (update_up y a3 rs r a' Ha3 Hr3 Hk E) as [Hu Hh].
  assert (Hy : app_ID y = app_ID x).
  { apply Hk in Eo. rewrite Hid. destruct (app_ID old), (app_ID x). cbn in *. by subst. }
  split; [done|]. right. exists y. unfold agent_held in Hh. rewrite Hh, Hy. split_and!; try done.
Qed.

Lemma agent_del x a r a' : agent_up a -> delApp x a = (Ret r, a') -> agent_up a' /\
  (agent_held a' = agent_held a /\ r <> None \/ agent_held a' = delete (Uint64 (app_ID x)) (agent_held a)).
Proof.
  intros (Hr & [rs Ha] & Hk) E. unfold delApp, bind at 1, get in E. rewrite Hr in E. cbn [negb] in E.
  apply bind_inv in E as ([] & a1 & E1 & E). apply on_pm_inv in E1 as (Ha1 & Hr1 & _). rewrite Ha in Ha1.
  destruct (delete_run (Uint64 (app_ID x)) a1 rs Ha1) as (e & a2 & E2 & Ham & _ & Hr2). rewrite E2 in E. injection E as <- <-.
  unfold agent_up, agent_held in *. rewrite Ham, Ha in *. split; [|by right]. split; [congruence|]. split; [by eexists|].
  intros k y [_ Hy]%lookup_delete_Some. by apply Hk.
Qed.

#[local] Program Instance agent_gui_laws : AppAgentLaws (@Agent DB) := {
  up := agent_up;
  held := agent_held;
  fresh a := rand_Uint64 (rnd a);
  shown_apps m := (range_apps m).*2
}.
Next Obligation. intros m. apply Permutation_map, range_perm. Qed.
Next Obligation.
  intros a (Hr & [rs Ha] & _). cbn. unfold getApps, bind, get. rewrite Hr. cbn [negb]. unfold on_am, gets, agent_held. rewrite Ha.
  destruct a. cbn in *. by subst.
Qed.
Next Obligation. intros x a r a' Hu E. by apply agent_add. Qed.
Next Obligation. intros x a r a' Hu E. by apply agent_update. Qed.
Next Obligation. intros x a r a' Hu E. by apply agent_del. Qed.

End AgentImpl.

(** * Concrete inputs *)

#[local] Existing Instance ex_agent_system.
#[local] Instance ex_gui : AppAgent (@Agent memdb) := agent_gui ex_rand ex_listen map_to_list (fun _ _ => ret None).
Definition ex_ui : Ui (@Agent memdb) := mkUi (ex_agent {[ 9 := ex_app ]} (NewPortMap ∅)) [ex_app] false [].

(** Editing by the button adds, and says that it updated. *)
Lemma ex_edit_button : exists u', handle (ClickEdit 0 (fun _ f => ([], DlgOK (mkForm "renamed" "" "" "tcp" "10.0.0.1" 80 "127.0.0.1" 8081 false)))) ex_ui = (Ret tt, u') /\
  length (rows u') = 2%nat /\ logView u' = ["成功更新应用: renamed" +:+ crlf] /\ agent_held (ui_agent u') !! 9 = Some ex_app.
Proof. eexists. split; [vm_compute; reflexivity|]. split_and!; vm_compute; reflexivity. Qed.

(** An application that is refused is logged as refused and then as added. *)
Definition ex_no_peer : System := {|
  Decode_peer := inl; NewStream _ := inr EOF; NewStream5 _ := inr EOF; url_Parse s := inr EOF;
  open_fd _ _ _ := None; open_tun _ _ _ := None; CreateStack _ := None; ParseLevel _ := None;
  OS := unit; sys_setTunAddr _ _ _ o := (None, o); sys_addRoute _ _ o := (None, o); sys_delRoute _ _ o := (None, o);
  LookupPort _ _ := inl 80; range_obs := map_to_list |}.
Lemma ex_refused_add : exists u' pre, handle (Ag := agent_gui (Sys := ex_no_peer) ex_rand ex_listen map_to_list (fun _ _ => ret None))
    (ClickAdd (fun _ f => ([], DlgOK f)) inl) (mkUi (ex_agent ∅ (NewPortMap ∅)) [] false []) = (Ret tt, u') /\ rows u' = [] /\
  logView u' = ("成功添加应用:  (PeerID: , ResID: 0)" +:+ crlf) :: ("添加应用失败: EOF" +:+ crlf) :: pre.
Proof. eexists _, _. split; [vm_compute; reflexivity|]. split; vm_compute; reflexivity. Qed.

#[local] Instance ex_gui_laws : AppAgentLaws (@Agent memdb) :=
  agent_gui_laws ex_rand ex_listen map_to_list (fun m => Permutation_refl _) (fun _ _ => ret None).

Lemma window_event_witness : exists u', handle (MenuStop 0) ex_ui = (Ret tt, u') /\ in_sync u' /\
  agent_held (ui_agent u') = {[ 9 := with_Running false ex_app ]}.
Proof.
  assert (Hup : forall x, Uint64 (app_ID x) = 9 -> up (ex_agent {[ 9 := x ]} (NewPortMap ∅))).
  { intros x Hx. split; [done|]. split; [by eexists|]. unfold agent_held. cbn.
    intros k y [<- <-]%lookup_singleton_Some. exact Hx. }
  pose proof (window_event (MenuStop 0) ex_ui (Hup ex_app eq_refl)) as H. cbn [op_of] in H.
  set (r := updateAPP ex_listen (with_Running false ex_app) (ui_agent ex_ui)) in *.
  assert (E : r = (Ret None, r.2)) by (vm_compute; reflexivity).
  assert (Ea : agent_held r.2 = {[ 9 := with_Running false ex_app ]}) by (vm_compute; reflexivity).
  change (row 0 (rows ex_ui)) with (Some ex_app) in H. cbn [fmap option_fmap option_map gui_UpdateApp] in H.
  change (gui_UpdateApp (with_Running false ex_app) (ui_agent ex_ui)) with r in H.
  rewrite E in H. cbn [keeps_table] in H. destruct H as (u' & Hr & Hu & Hs); [|exists u'; by rewrite Hu].
  split; [vm_compute; reflexivity|]. split; [eexists; vm_compute; reflexivity|].
  rewrite Ea. intros k y [<- <-]%lookup_singleton_Some. done.
Defined.
