(* ===== verification/AgentWindow.v ===== *)
(** src/agent/windows/main.go: the main window with its menus and buttons, the
    icon in the tray, and [main], which makes them and runs the loop that
    AgentGui's handlers are called from.  The toolkit (walk) is a parameter:
    which of its calls fail, and what the user does.  The theorems: when [main]
    reaches the loop and what the user sees when it does not, that only the
    tray's entry for leaving ends the loop, that the window comes back, that the
    agent is the handlers' business only, and that the menu's entry which shows
    switches the selected application. *)
From S2P Require Import Prelude GoText Codec TypesId PortmapApp AgentDialogs AgentGui.

(** * The main window *)

Definition Columns : list (string * Z) :=
  [("应用名称", 120); ("网关名称", 120); ("协议", 60); ("本地IP", 100); ("本地端口", 80); ("目标地址", 150); ("状态", 80); ("错误信息", 200)].

(** What an entry of the table's menu or a button does with the selected row. *)
Inductive action := DoAdd | DoEdit | DoDelete | DoStart | DoStop.
Definition event_of (a : action) (idx : Z) (Run : Runner) (Submit : AppForm -> AppForm + error) : event :=
  match a with
  | DoAdd => ClickAdd Run Submit
  | DoEdit => ClickEdit idx Run
  | DoDelete => Delete idx
  | DoStart => MenuStart idx
  | DoStop => MenuStop idx
  end.

(** The buttons below the table. *)
Definition buttons : list (string * action) := [("添加应用", DoAdd); ("编辑应用", DoEdit); ("删除应用", DoDelete)].

Section Window.
Context {A : Type} {Ag : AppAgent A}.

(** The table's menu: text, whether it shows, action; a separator has none. *)
Definition ContextMenuItems (u : Ui A) : list (string * bool * option action) :=
  [("启动应用", negb (IsRunning u), Some DoStart); ("停止应用", IsRunning u, Some DoStop); ("", true, None); ("删除应用", true, Some DoDelete)].

(** * The desktop

    What [main] has made so far: the message boxes shown, whether the window
    shows and hides when it is closed, the tray's icon with its handler and
    menu (text, and whether it leaves), and whether the loop runs. *)
Record Desktop := mkDesktop {
  d_ui : Ui A;
  boxes : list string;
  shown : bool;
  closing : bool;
  mouse : bool;
  menu : list (string * bool);
  tray : bool;
  looping : bool
}.

Definition desktop_zero (a : A) : Desktop := mkDesktop (mkUi a [] false []) [] false false false [] false false.

Definition on_ui {B} (m : GoM (Ui A) B) : GoM Desktop B :=
  zoom d_ui (fun u d => mkDesktop u (boxes d) (shown d) (closing d) (mouse d) (menu d) (tray d) (looping d)) m.
Definition MsgBox (s : string) : GoM Desktop unit :=
  modify (fun d => mkDesktop (d_ui d) (boxes d ++ [s]) (shown d) (closing d) (mouse d) (menu d) (tray d) (looping d)).
Definition set_shown (b : bool) (d : Desktop) : Desktop :=
  mkDesktop (d_ui d) (boxes d) b (closing d) (mouse d) (menu d) (tray d) (looping d).
Definition set_looping (b : bool) (d : Desktop) : Desktop :=
  mkDesktop (d_ui d) (boxes d) (shown d) (closing d) (mouse d) (menu d) (tray d) b.

(** The calls of the toolkit that can fail. *)
Context (Create NewIcon NewNotifyIcon SetIcon SetToolTip SetVisible : option error) (SetText : string -> option error).

(** [if err != nil { walk.MsgBox(...); return }]. *)
Definition or_box (what : string) (err : option error) (k : GoM Desktop unit) : GoM Desktop unit :=
  match err with Some e => MsgBox (what +:+ ": " +:+ Error e) | None => k end.

(** [ni.MouseUp().Attach]. *)
Definition attach_mouse : GoM Desktop unit :=
  modify (fun d => mkDesktop (d_ui d) (boxes d) (shown d) (closing d) true (menu d) (tray d) (looping d)).

(** An entry of the tray's menu, if its text can be set. *)
Definition add_action (text : string) (leaves : bool) : GoM Desktop unit :=
  match SetText text with
  | None => modify (fun d => mkDesktop (d_ui d) (boxes d) (shown d) (closing d) (mouse d) (menu d ++ [(text, leaves)]) (tray d) (looping d))
  | Some _ => ret tt
  end.

(** [workDir] is the directory of the executable.  A window that cannot be made
    ends [main] without a message; [Run] shows the window. *)
Definition main (workDir : string) : GoM Desktop unit :=
  box <- on_ui (start_window workDir) ;;
  match box with
  | Some s => MsgBox s
  | None =>
      match Create with
      | Some _ => ret tt
      | None =>
          or_box "加载托盘图标失败" NewIcon (
          or_box "创建托盘图标失败" NewNotifyIcon (
          or_box "设置托盘图标失败" SetIcon (
          or_box "设置托盘提示失败" SetToolTip (
          attach_mouse ;;;
          add_action "显示主窗口" false ;;;
          add_action "退出" true ;;;
          or_box "显示托盘图标失败" SetVisible (
          modify (fun d => mkDesktop (d_ui d) (boxes d) (shown d) (closing d) (mouse d) (menu d) true (looping d)) ;;;
          modify (fun d => mkDesktop (d_ui d) (boxes d) (shown d) true (mouse d) (menu d) (tray d) (looping d)) ;;;
          modify (fun d => set_looping true (set_shown true d)))))))
      end
  end.

(** ** The loop *)

Inductive wevent :=
  | WGui (ev : event)
  | WMouseUp (leftButton : bool)
  | WMenu (i : nat)
  | WClose.

(** A window that hides when it is closed tells the toolkit not to close it;
    another one would end the loop. *)
Definition wstep (e : wevent) : GoM Desktop unit :=
  d <- get ;;
  if negb (looping d) then ret tt
  else
    match e with
    | WGui ev => on_ui (handle ev)
    | WMouseUp leftButton => if mouse d && leftButton && tray d then modify (set_shown true) else ret tt
    | WMenu i =>
        match menu d !! i with
        | Some (_, true) => modify (set_looping false)
        | Some (_, false) => modify (set_shown true)
        | None => ret tt
        end
    | WClose => if closing d then modify (set_shown false) else modify (set_looping false)
    end.

(** * Lemmas *)

(** The entries of the tray's menu that could be made. *)
Definition made_menu : list (string * bool) :=
  filter (fun m => SetText m.1 = None) [("显示主窗口", false); ("退出", true)].

Context {AgL : AppAgentLaws A}.

(** A desktop whose loop runs. *)
Definition live (d : Desktop) : Prop :=
  looping d = true /\ boxes d = [] /\ closing d = true /\ mouse d = true /\ tray d = true /\ menu d = made_menu.

(** All that [main] needs. *)
Definition all_made : bool := forallb (fun o => bool_decide (o = None)) [Create; NewIcon; NewNotifyIcon; SetIcon; SetToolTip; SetVisible].

Lemma start_window_run workDir (a : A) r a' : gui_Start workDir true a = (Ret r, a') -> (r = None -> up a') ->
  exists u, on_ui (start_window workDir) (desktop_zero a) =
      (Ret ((fun e => "启动Agent失败: " +:+ Error e) <$> r), mkDesktop u [] false false false [] false false) /\
    ui_agent u = a' /\ (r = None -> in_sync u).
Proof.
  intros E Hup. unfold on_ui, zoom, start_window, bind at 1, on_agent, zoom. cbn [desktop_zero d_ui ui_agent]. rewrite E.
  destruct r as [e|]; [by eexists|]. unfold refreshApps, bind, on_agent, zoom. cbn [ui_agent]. rewrite get_law by auto. by eexists.
Qed.

(** A call of the toolkit failed with [e], and a box said so. *)
Ltac ends_with_box e := eexists; split; [reflexivity|]; split; [assumption|]; split; [reflexivity|]; eexists _, e; reflexivity.

(** [main] reaches the loop exactly when the agent starts and everything can be
    made; then the window shows, with the agent's applications, and no box did.
    Otherwise one box says what failed, except that a window that cannot be made
    says nothing; the process then ends with the agent it started. *)
Theorem main_outcome workDir a r a' : gui_Start workDir true a = (Ret r, a') -> (r = None -> up a') ->
  exists d, main workDir (desktop_zero a) = (Ret tt, d) /\ ui_agent (d_ui d) = a' /\
    match r with
    | Some e => looping d = false /\ boxes d = ["启动Agent失败: " +:+ Error e]
    | None =>
        if all_made then live d /\ shown d = true /\ in_sync (d_ui d)
        else looping d = false /\ match Create with
                                  | Some _ => boxes d = []
                                  | None => exists what e, boxes d = [what +:+ ": " +:+ Error e]
                                  end
    end.
Proof.
  intros E Hup. destruct (start_window_run workDir a r a' E Hup) as (u & Eu & Ha & Hs). unfold main. rewrite (bind_Ret _ _ _ _ _ Eu).
  destruct r as [e|]; [by eexists|]. cbn [fmap option_fmap option_map]. unfold all_made, or_box, attach_mouse, add_action, live, made_menu.
  destruct Create; [by eexists|].
  destruct NewIcon as [e|]; [ends_with_box e|]. destruct NewNotifyIcon as [e|]; [ends_with_box e|].
  destruct SetIcon as [e|]; [ends_with_box e|]. destruct SetToolTip as [e|]; [ends_with_box e|]. cbn [forallb].
  destruct SetVisible as [e|];
    destruct (SetText "显示主窗口") eqn:E1, (SetText "退出") eqn:E2; cbn; rewrite ?E1, ?E2; try ends_with_box e;
    (eexists; split; [reflexivity|]; split; [done|]; auto 12).
Qed.

(** The entry of the tray's menu that ends the loop. *)
Definition leaves (e : wevent) : bool :=
  match e with WMenu i => match made_menu !! i with Some (_, b) => b | None => false end | _ => false end.

Lemma wstep_live e d d' : live d -> wstep e d = (Ret tt, d') ->
  looping d' = negb (leaves e) /\ live (set_looping true d') /\ (match e with WGui _ => True | _ => d_ui d' = d_ui d end).
Proof.
  intros (Hl & Hb & Hc & Hm & Ht & Hmenu) E. unfold wstep, bind at 1, get in E. rewrite Hl in E. cbn [negb] in E.
  destruct e as [ev|b|i|]; cbn [leaves].
  - unfold on_ui, zoom in E. destruct (handle ev (d_ui d)) as [[[]|] u]; [|done]. injection E as <-. by repeat split.
  - rewrite Hm, Ht in E. cbn [andb] in E. rewrite andb_true_r in E. destruct b; injection E as <-; by repeat split.
  - rewrite Hmenu in E. destruct (made_menu !! i) as [[x []]|]; injection E as <-; by repeat split.
  - rewrite Hc in E. injection E as <-. by repeat split.
Qed.

Lemma stopped_stays evs d : looping d = false -> for_range evs wstep d = (Ret tt, d).
Proof.
  intros Hl. induction evs as [|e evs IH]; [done|]. cbn [for_range]. unfold bind, wstep, bind, get. rewrite Hl. exact IH.
Qed.

(** The life of the window.  Whatever the user does, the loop ends exactly when
    the tray's entry for leaving was chosen; until then no box comes up, closing
    the window hides it, a click on the icon shows it again, and the agent and
    its table change by the window's own handlers only. *)
Theorem window_life evs d d' : live d -> for_range evs wstep d = (Ret tt, d') ->
  looping d' = negb (existsb leaves evs) /\ boxes d' = [] /\
  ((forall ev, WGui ev ∉ evs) -> d_ui d' = d_ui d) /\
  (looping d' = true -> wstep WClose d' = (Ret tt, set_shown false d') /\ wstep (WMouseUp true) d' = (Ret tt, set_shown true d')).
Proof.
  revert d. induction evs as [|e evs IH]; intros d Hlive E.
  - injection E as <-. destruct Hlive as (Hl & Hb & Hc & Hm & Ht & _). split_and!; [done..|]. intros _.
    unfold wstep, bind, get. by rewrite Hl, Hc, Hm, Ht.
  - cbn [for_range] in E. apply bind_inv in E as ([] & d1 & E1 & E). destruct (wstep_live e d d1 Hlive E1) as (Hl & Hlive1 & Hu).
    cbn [existsb]. destruct (leaves e) eqn:Ee; cbn [orb negb] in *.
    + rewrite (stopped_stays evs d1 Hl) in E. injection E as <-. destruct Hlive1 as (_ & Hb & _).
      split_and!; [done|exact Hb| |by rewrite Hl]. intros _. by destruct e.
    + assert (Hd : set_looping true d1 = d1) by (destruct d1; cbn in *; by subst). rewrite Hd in Hlive1.
      destruct (IH d1 Hlive1 E) as (H1 & H2 & H3 & H4). split_and!; [done|done| |done]. intros H.
      rewrite H3 by (intros ev Hev; by apply (H ev); right). destruct e; try done. by destruct (H ev); left.
Qed.

(** The entry of the table's menu that shows for a selected row asks the agent
    for the opposite of what the row says. *)
Theorem menu_toggles idx app u text a Run Submit : row idx (rows u) = Some app -> a = DoStart \/ a = DoStop ->
  (text, true, Some a) ∈ ContextMenuItems (SetCurrentIndex idx u).2 ->
  op_of (event_of a idx Run Submit) (SetCurrentIndex idx u).2 = Some (gui_UpdateApp (with_Running (negb (app_Running app)) app)).
Proof.
  intros Hr Ha. unfold SetCurrentIndex, modify, ContextMenuItems. rewrite Hr. cbn [snd IsRunning].
  rewrite !elem_of_cons, elem_of_nil. destruct (app_Running app); intros Hin;
    destruct Ha as [-> | ->]; cbn [event_of op_of rows]; rewrite Hr; naive_solver.
Qed.
End Window.

(** * Concrete inputs *)

(** A tray whose entry for leaving could not be made: nothing ends the loop. *)
Example no_way_out : made_menu (fun s => if String.eqb s "退出" then Some EOF else None) = [("显示主窗口", false)] /\
  forall e, leaves (fun s => if String.eqb s "退出" then Some EOF else None) e = false.
Proof.
  split; [vm_compute; reflexivity|]. assert (E : made_menu (fun s => if String.eqb s "退出" then Some EOF else None) = [("显示主窗口", false)]) by (vm_compute; reflexivity).
  intros [ev|b|i|]; try done. cbn [leaves]. rewrite E. by destruct i as [|[]].
Qed.
