(* ===== verification/Daemon.v ===== *)
(** src/gateway/cmd/daemon.go: the daemon that keeps a worker process running
    and is stopped by the service manager.  [run] and [Stop] are two goroutines
    over one mutex; their steps interleave with the exits of the worker.  The
    theorems: there is at most one worker, a worker that ends is followed by
    another, the loop ends after a stop, a stop can miss the worker, and a
    missing executable ends the service although its backup is there. *)
From S2P Require Import Prelude GoText GoOs.

(** * The arguments of the worker

    The first [-d] is cut out; without one the worker has no arguments at all,
    not even its name. *)
Fixpoint worker_args (args : list string) : option (list string) :=
  match args with
  | [] => None
  | a :: args => if String.eqb a "-d" then Some args else cons a <$> worker_args args
  end.

(** * The files *)

Definition crashLog : string := "log/stderr.log".
Definition crashLogBak : string := "log/stderr.log.0".

(** The first part of [startWorker]: a crash log that is not empty is kept. *)
Definition open_crash_log : GoM FS (File + errno) :=
  s <- Stat crashLog ;;
  (match s with
   | inl i => if 0 <? fi_Size i then Remove crashLogBak ;;; Rename crashLog crashLogBak ;;; ret tt else ret tt
   | inr _ => ret tt
   end) ;;;
  Create crashLog.

(** [os.StartProcess] needs the executable. *)
Definition StartProcess (binPath : string) : GoM FS (option errno) := err_only (syscall (fun s =>
  match node binPath s with
  | None => (inr ENOENT, s)
  | Some (_, f) => if f_dir f then (inr EACCES, s) else (inl tt, s)
  end)).

Definition checkAndRevert (Executable : string + errno) : GoM FS unit :=
  match Executable with
  | inr _ => ret tt
  | inl binPath =>
      let bak := binPath +:+ ".bak" in
      fi <- Stat bak ;;
      if IsExist (match fi with inr e => Some e | inl _ => None end) then
        match fi with
        | inl fi => if fi_IsDir fi then ret tt else Rename bak binPath ;;; ret tt
        | inr _ => panic  (* the nil FileInfo *)
        end
      else ret tt
  end.

(** * The goroutines

    Where [run] stands, one constructor per step of its loop and of
    [startWorker]; the file of the crash log it has open. *)
Inductive run_pc :=
  | RCheck                (* if d.stopped { return } *)
  | RFiles                (* the crash log *)
  | RLock (f : File)      (* d.mtx.Lock() *)
  | RSpawn (f : File)     (* os.StartProcess *)
  | RSet (f : File) (p : nat)  (* d.proc = p *)
  | RUnlock (f : File)    (* d.mtx.Unlock() *)
  | RWait (f : File)      (* d.proc.Wait() *)
  | RLock2 (f : File)     (* d.mtx.Lock() *)
  | RNil (f : File)       (* d.proc = nil; d.mtx.Unlock() *)
  | RClose (f : File)     (* f.Close() *)
  | RSleep                (* time.Sleep *)
  | RRevert               (* d.checkAndRevert() *)
  | RDone.

Inductive stop_pc :=
  | SIdle                 (* Stop was not called *)
  | SFlag                 (* d.stopped = true *)
  | SLock                 (* d.mtx.Lock() *)
  | SKill                 (* if d.proc != nil { d.proc.Kill() } *)
  | SUnlock               (* d.mtx.Unlock() *)
  | SDone.

Inductive thread := TRun | TStop.

#[export] Instance thread_eq_dec : EqDecision thread.
Proof. solve_decision. Defined.

(** [workers] are the worker processes that run; their numbers are drawn from
    [next_pid]. *)
Record daemon := mkDaemon {
  rpc : run_pc;
  spc : stop_pc;
  stopped : bool;
  mtx : option thread;
  proc : option nat;
  workers : gset nat;
  next_pid : nat;
  d_fs : FS
}.

Section Daemon.
Context (binPath : string) (Executable : string + errno).

Definition daemon_start (s : FS) : daemon := mkDaemon RCheck SIdle false None None ∅ 0 s.

Definition goto (pc : run_pc) (d : daemon) : daemon :=
  mkDaemon pc (spc d) (stopped d) (mtx d) (proc d) (workers d) (next_pid d) (d_fs d).
Definition lock (t : option thread) (d : daemon) : daemon :=
  mkDaemon (rpc d) (spc d) (stopped d) t (proc d) (workers d) (next_pid d) (d_fs d).
Definition set_proc (p : option nat) (d : daemon) : daemon :=
  mkDaemon (rpc d) (spc d) (stopped d) (mtx d) p (workers d) (next_pid d) (d_fs d).
Definition set_fs (s : FS) (d : daemon) : daemon :=
  mkDaemon (rpc d) (spc d) (stopped d) (mtx d) (proc d) (workers d) (next_pid d) s.
Definition goto_stop (pc : stop_pc) (d : daemon) : daemon :=
  mkDaemon (rpc d) pc (stopped d) (mtx d) (proc d) (workers d) (next_pid d) (d_fs d).
Definition set_stopped (d : daemon) : daemon :=
  mkDaemon (rpc d) (spc d) true (mtx d) (proc d) (workers d) (next_pid d) (d_fs d).
Definition remove_worker (p : nat) (d : daemon) : daemon :=
  mkDaemon (rpc d) (spc d) (stopped d) (mtx d) (proc d) (workers d ∖ {[ p ]}) (next_pid d) (d_fs d).
Definition add_worker (d : daemon) : daemon :=
  mkDaemon (rpc d) (spc d) (stopped d) (mtx d) (proc d) ({[ next_pid d ]} ∪ workers d) (S (next_pid d)) (d_fs d).

(** A step of [run]; [None] when it is blocked or has ended. *)
Definition run_step (d : daemon) : option daemon :=
  match rpc d with
  | RCheck => Some (goto (if stopped d then RDone else RFiles) d)
  | RFiles =>
      match open_crash_log (d_fs d) with
      | (Ret (inl f), s) => Some (goto (RLock f) (set_fs s d))
      | (_, s) => Some (goto RRevert (set_fs s d))
      end
  | RLock f => match mtx d with None => Some (goto (RSpawn f) (lock (Some TRun) d)) | Some _ => None end
  | RSpawn f =>
      match StartProcess binPath (d_fs d) with
      | (Ret None, s) => Some (goto (RSet f (next_pid d)) (add_worker (set_fs s d)))
      | (_, s) => Some (goto RRevert (lock None (set_fs s d)))
      end
  | RSet f p => Some (goto (RUnlock f) (set_proc (Some p) d))
  | RUnlock f => Some (goto (RWait f) (lock None d))
  | RWait f =>
      match proc d with
      | Some p => if decide (p ∈ workers d) then None else Some (goto (RLock2 f) d)
      | None => None
      end
  | RLock2 f => match mtx d with None => Some (goto (RNil f) (lock (Some TRun) d)) | Some _ => None end
  | RNil f => Some (goto (RClose f) (lock None (set_proc None d)))
  | RClose f => Some (goto RSleep (set_fs (Close f (d_fs d)).2 d))
  | RSleep => Some (goto RCheck d)
  | RRevert => Some (goto RDone (set_fs (checkAndRevert Executable (d_fs d)).2 d))
  | RDone => None
  end.

(** A step of [Stop], once the service manager has called it. *)
Definition stop_step (d : daemon) : option daemon :=
  match spc d with
  | SIdle => None
  | SFlag => Some (goto_stop SLock (set_stopped d))
  | SLock => match mtx d with None => Some (goto_stop SKill (lock (Some TStop) d)) | Some _ => None end
  | SKill => Some (goto_stop SUnlock (match proc d with Some p => remove_worker p d | None => d end))
  | SUnlock => Some (goto_stop SDone (lock None d))
  | SDone => None
  end.

Inductive step : daemon -> daemon -> Prop :=
  | step_run d d' : run_step d = Some d' -> step d d'
  | step_stop d d' : stop_step d = Some d' -> step d d'
  | step_call d : spc d = SIdle -> step d (goto_stop SFlag d)
  | step_exit d p : p ∈ workers d -> step d (remove_worker p d).

(** * The invariant *)

Definition stop_holds (pc : stop_pc) : bool := match pc with SKill | SUnlock => true | _ => false end.
Definition run_holds (pc : run_pc) : bool :=
  match pc with RSpawn _ | RSet _ _ | RUnlock _ | RNil _ => true | _ => false end.

(** The mutex belongs to the one goroutine inside; the worker that runs is the
    one [run] waits for, and [proc] names it between the two assignments. *)
Record inv (d : daemon) : Prop := mkInv {
  inv_flag : stopped d = match spc d with SIdle | SFlag => false | _ => true end;
  inv_pids : forall p, p ∈ workers d -> (p < next_pid d)%nat;
  inv_mtx : mtx d = (if run_holds (rpc d) then Some TRun else if stop_holds (spc d) then Some TStop else None);
  inv_excl : run_holds (rpc d) = true -> stop_holds (spc d) = false;
  inv_proc : match rpc d with
             | RSet _ p => proc d = None /\ workers d ⊆ {[ p ]}
             | RUnlock _ | RWait _ => exists p, proc d = Some p /\ workers d ⊆ {[ p ]}
             | RLock2 _ | RNil _ => workers d = ∅
             | _ => proc d = None /\ workers d = ∅
             end
}.

Lemma inv_start s : inv (daemon_start s).
Proof. split; done. Qed.

Lemma workers_shrink (d : daemon) p : workers (remove_worker p d) ⊆ workers d.
Proof. cbn. set_solver. Qed.

(** What [inv] asks of the worker survives the end of a worker. *)
Lemma inv_remove p d : inv d -> inv (remove_worker p d).
Proof.
  intros [Hf Hi Hm He Hp]. pose proof (workers_shrink d p) as Hsub. split; [exact Hf| |exact Hm|exact He|].
  - intros q Hq. apply Hi. by apply Hsub.
  - cbn. cbn in Hsub. destruct (rpc d);
      lazymatch type of Hp with
      | exists _, _ => destruct Hp as (q & Hq & Hw); exists q; split; [done|set_solver]
      | _ /\ _ => destruct Hp as [Hq Hw]; split; [done|set_solver]
      | _ => set_solver
      end.
Qed.

(** A field of [inv] that the step leaves as it was. *)
Ltac inv_easy := first
  [ done
  | by cbn; repeat match goal with H : _ = _ |- _ => rewrite H end
  | set_solver ].

Lemma daemon_run_inv d d' : inv d -> run_step d = Some d' -> inv d'.
Proof.
  intros [Hf Hi Hm He Hp] H. unfold run_step in H. destruct (rpc d) eqn:Er; cbn [run_holds] in *.
  - injection H as <-. destruct (stopped d) eqn:Es; split; cbn; rewrite ?Es; done.
  - destruct (open_crash_log (d_fs d)) as [[[f|e]|] s]; injection H as <-; by split.
  - destruct (mtx d) eqn:Em; [done|]. injection H as <-. split; try done. cbn. intros _. by destruct (stop_holds (spc d)).
  - specialize (He eq_refl). destruct (StartProcess binPath (d_fs d)) as [[[e|]|] s]; injection H as <-; split; try inv_easy.
  - injection H as <-. split; try done. cbn. exists p. split; [done|apply Hp].
  - injection H as <-. specialize (He eq_refl). split; inv_easy.
  - destruct Hp as (p & Hpr & Hw). rewrite Hpr in H. destruct (decide (p ∈ workers d)) as [|Hn]; [done|].
    injection H as <-. split; inv_easy.
  - destruct (mtx d) eqn:Em; [done|]. injection H as <-. split; try done. cbn. intros _. by destruct (stop_holds (spc d)).
  - injection H as <-. specialize (He eq_refl). split; inv_easy.
  - injection H as <-. by split.
  - injection H as <-. by split.
  - injection H as <-. by split.
  - done.
Qed.

Lemma stop_inv d d' : inv d -> stop_step d = Some d' -> inv d'.
Proof.
  intros Hinv H. pose proof Hinv as [Hf Hi Hm He Hp]. unfold stop_step in H. destruct (spc d) eqn:Es; cbn [stop_holds] in *; try done.
  - injection H as <-. split; inv_easy.
  - destruct (mtx d) eqn:Em; [done|]. injection H as <-.
    destruct (run_holds (rpc d)) eqn:Eh; [done|]. split; cbn; rewrite ?Eh; try done.
  - assert (Eh : run_holds (rpc d) = false) by (destruct (run_holds (rpc d)); [by specialize (He eq_refl)|done]).
    rewrite Eh in Hm. destruct (proc d) as [p|] eqn:Ep; injection H as <-.
    + destruct (inv_remove p d Hinv) as [Hf' Hi' Hm' He' Hp']. cbn in *. split; cbn; rewrite ?Eh, ?Es in *; done.
    + split; cbn; rewrite ?Eh, ?Ep; done.
  - injection H as <-. assert (Eh : run_holds (rpc d) = false) by (destruct (run_holds (rpc d)); [by specialize (He eq_refl)|done]).
    split; cbn; rewrite ?Eh; try done.
Qed.

Lemma daemon_step_inv d d' : inv d -> step d d' -> inv d'.
Proof.
  intros Hinv Hs. destruct Hs as [d d2 H|d d2 H|d H|d p H].
  - by apply (daemon_run_inv d).
  - by apply (stop_inv d).
  - destruct Hinv as [Hf Hi Hm He Hp]. rewrite H in Hf, Hm. split; inv_easy.
  - by apply inv_remove.
Qed.

Lemma reachable_inv s d : rtc step (daemon_start s) d -> inv d.
Proof.
  intros H. assert (Hi := inv_start s). induction H as [|a b c Hab _ IH]; [done|]. apply IH. by apply (daemon_step_inv a).
Qed.

(** * The end of the loop *)

Definition run_rank (pc : run_pc) : nat :=
  match pc with
  | RFiles => 11 | RLock _ => 10 | RSpawn _ => 9 | RSet _ _ => 8 | RUnlock _ => 7 | RWait _ => 6
  | RLock2 _ => 5 | RNil _ => 4 | RClose _ => 3 | RSleep => 2 | RCheck => 1 | RRevert => 1 | RDone => 0
  end.
Definition stop_rank (pc : stop_pc) : nat :=
  match pc with SIdle => 5 | SFlag => 4 | SLock => 3 | SKill => 2 | SUnlock => 1 | SDone => 0 end.
Definition rank (d : daemon) : nat := (2 * run_rank (rpc d) + stop_rank (spc d) + size (workers d))%nat.

Lemma size_remove (X : gset nat) p : (size (X ∖ {[ p ]}) <= size X)%nat.
Proof. apply subseteq_size. set_solver. Qed.

(** Once the flag is set every step of anyone brings the end nearer. *)
Lemma step_rank d d' : stopped d = true -> inv d -> step d d' -> (rank d' < rank d)%nat /\ stopped d' = true.
Proof.
  intros Hs Hi H. destruct H as [d d' H|d d' H|d H|d p H].
  - unfold run_step in H. unfold rank. destruct (rpc d) eqn:Er.
    + injection H as <-. rewrite Hs. cbn. split; [lia|done].
    + destruct (open_crash_log (d_fs d)) as [[[f|e]|] s]; injection H as <-; cbn; (split; [lia|done]).
    + destruct (mtx d); [done|]. injection H as <-. cbn. split; [lia|done].
    + destruct (StartProcess binPath (d_fs d)) as [[[e|]|] s]; injection H as <-; cbn; (split; [|done]); [lia| |lia].
      pose proof (size_union_alt {[next_pid d]} (workers d)) as Hu. rewrite size_singleton in Hu.
      pose proof (size_remove (workers d) (next_pid d)). lia.
    + injection H as <-. cbn. split; [lia|done].
    + injection H as <-. cbn. split; [lia|done].
    + destruct (proc d) as [p|]; [|done]. destruct (decide (p ∈ workers d)); [done|]. injection H as <-. cbn. split; [lia|done].
    + destruct (mtx d); [done|]. injection H as <-. cbn. split; [lia|done].
    + injection H as <-. cbn. split; [lia|done].
    + injection H as <-. cbn. split; [lia|done].
    + injection H as <-. cbn. split; [lia|done].
    + injection H as <-. cbn. split; [lia|done].
    + done.
  - unfold stop_step in H. unfold rank. destruct (spc d) eqn:Es; try done.
    + injection H as <-. cbn. split; [lia|done].
    + destruct (mtx d); [done|]. injection H as <-. cbn. split; [lia|done].
    + injection H as <-. destruct (proc d) as [p|]; cbn; [pose proof (size_remove (workers d) p)|]; (split; [lia|done]).
    + injection H as <-. cbn. split; [lia|done].
  - pose proof (inv_flag d Hi). rewrite H in *. congruence.
  - unfold rank. cbn. split; [|done].
    assert (size (workers d ∖ {[ p ]}) < size (workers d))%nat; [|lia]. apply subset_size. set_solver.
Qed.

Lemma nsteps_rank n d d' : stopped d = true -> inv d -> nsteps step n d d' ->
  (n + rank d' <= rank d)%nat /\ stopped d' = true /\ inv d'.
Proof.
  intros Hs Hi H. induction H as [d|n d d1 d' H1 _ IH]; [split; [lia|done]|].
  destruct (step_rank d d1 Hs Hi H1) as [Hr Hs1]. destruct (IH Hs1 (daemon_step_inv d d1 Hi H1)) as (Hr' & Hs' & Hi').
  split; [lia|done].
Qed.

Lemma rank_stopped d : inv d -> stopped d = true -> (rank d <= 26)%nat.
Proof.
  intros [Hf _ _ _ Hp] Hs. rewrite Hf in Hs. unfold rank.
  assert (Hw : (size (workers d) <= 1)%nat).
  { assert (Hsub : exists p, workers d ⊆ {[ p ]}).
    { destruct (rpc d); lazymatch type of Hp with
        | exists _, _ => destruct Hp as (q & _ & Hw); by exists q
        | _ /\ _ => destruct Hp as [_ Hw]; first [by eexists | exists 0%nat; set_solver]
        | _ => exists 0%nat; set_solver
        end. }
    destruct Hsub as [p Hsub%subseteq_size]. by rewrite size_singleton in Hsub. }
  assert (rpc d = RFiles -> size (workers d) = 0%nat).
  { intros E. rewrite E in Hp. destruct Hp as [_ ->]. done. }
  destruct (rpc d), (spc d); try done; cbn; try lia; specialize (H eq_refl); lia.
Qed.

(** Neither goroutine can move: what the two calls have come to. *)
Definition quiescent (d : daemon) : Prop := run_step d = None /\ stop_step d = None.

Lemma quiescent_stopped d : inv d -> stopped d = true -> quiescent d ->
  spc d = SDone /\
  (rpc d = RDone /\ workers d = ∅ \/ exists f p, rpc d = RWait f /\ workers d = {[ p ]} /\ proc d = Some p).
Proof.
  intros [Hf Hi Hm He Hp] Hs [Hr Hst]. unfold run_step in Hr. unfold stop_step in Hst. rewrite Hf in Hs.
  assert (Hd : spc d = SDone).
  { destruct (spc d); try done. destruct (mtx d) eqn:Em; [|done]. destruct (rpc d); try done; simpl in Hm; try congruence.
    - destruct (StartProcess binPath (d_fs d)) as [[[e|]|] s]; done. }
  split; [done|]. rewrite Hd in Hm. simpl in Hm.
  destruct (rpc d) eqn:Er; try done.
  - destruct (open_crash_log (d_fs d)) as [[[f|e]|] s]; done.
  - simpl in Hm. by rewrite Hm in Hr.
  - destruct (StartProcess binPath (d_fs d)) as [[[e|]|] s]; done.
  - destruct Hp as (p & Ep & Hw). rewrite Ep in Hr. destruct (decide (p ∈ workers d)) as [Hin|]; [|done].
    right. exists f, p. split; [done|]. split; [set_solver|done].
  - simpl in Hm. by rewrite Hm in Hr.
  - left. split; [done|apply Hp].
Qed.

(** What holds once [Stop] has killed the worker it found. *)
Definition after_kill (d : daemon) : Prop :=
  stopped d = true /\ (spc d = SUnlock \/ spc d = SDone) /\ workers d = ∅ /\
  match rpc d with
  | RWait _ | RLock2 _ | RNil _ | RClose _ | RSleep | RCheck | RDone => True
  | _ => False
  end.

Lemma after_kill_step d d' : after_kill d -> step d d' -> after_kill d'.
Proof.
  intros (Hs & Hd & Hw & Hr) H. destruct H as [d d' H|d d' H|d H|d p H].
  - unfold run_step in H. unfold after_kill. destruct (rpc d) eqn:Er; try done.
    + injection H as <-. rewrite Hs. done.
    + destruct (proc d) as [p|]; [|done]. destruct (decide (p ∈ workers d)); [done|]. by injection H as <-.
    + destruct (mtx d); [done|]. by injection H as <-.
    + by injection H as <-.
    + by injection H as <-.
    + by injection H as <-.
  - unfold stop_step in H. destruct Hd as [Hd|Hd]; rewrite Hd in H; [|done]. injection H as <-. unfold after_kill. cbn. auto.
  - rewrite H in Hd. by destruct Hd.
  - rewrite Hw in H. set_solver.
Qed.

(** [Stop] holds the lock and has found a worker, or has killed it. *)
Definition kills (d : daemon) : Prop :=
  stopped d = true /\ spc d = SKill /\ proc d <> None /\ (exists f, rpc d = RWait f \/ rpc d = RLock2 f) \/ after_kill d.

Lemma kills_start d : inv d -> stopped d = true -> spc d = SKill -> proc d <> None -> kills d.
Proof.
  intros [Hf Hi Hm He Hp] Hs Hk Hn. left. split_and!; [done..|].
  destruct (rpc d) eqn:Er; try (by destruct Hp); try (by exists f; auto);
    by rewrite Hk in He; specialize (He eq_refl).
Qed.

Lemma kills_step d d' : inv d -> kills d -> step d d' -> kills d'.
Proof.
  intros Hi [(Hs & Hk & Hn & f & Hr)|Ha] H; [|right; by apply (after_kill_step d)].
  assert (Hm : mtx d = Some TStop).
  { rewrite (inv_mtx d Hi), Hk. by destruct Hr as [-> | ->]. }
  destruct H as [d d' H|d d' H|d H|d p H].
  - unfold run_step in H. left. destruct Hr as [Hr|Hr]; rewrite Hr in H.
    + destruct (proc d) as [p|] eqn:Ep; [|done]. destruct (decide (p ∈ workers d)); [done|]. injection H as <-.
      split_and!; [done|done|by rewrite <- Ep in Hn|]. exists f. by right.
    + by rewrite Hm in H.
  - unfold stop_step in H. rewrite Hk in H. injection H as <-. right.
    destruct (proc d) as [p|] eqn:Ep; [|done]. unfold after_kill. cbn. split_and!; [done|by left| |by destruct Hr as [-> | ->]].
    pose proof (inv_proc d Hi) as Hp. destruct Hr as [Hr|Hr]; rewrite Hr in Hp; [|set_solver].
    destruct Hp as (q & Hq & Hw). rewrite Hq in Ep. injection Ep as ->. set_solver.
  - rewrite H in Hk. done.
  - left. split_and!; [done..|]. by exists f.
Qed.

Lemma kills_end n d d' : inv d -> kills d -> nsteps step n d d' -> kills d' /\ inv d'.
Proof.
  intros Hi Hk H. induction H as [d|n d d1 d' H1 _ IH]; [done|].
  apply IH; [by apply (daemon_step_inv d)|by apply (kills_step d)].
Qed.

Lemma kills_quiescent d : inv d -> kills d -> quiescent d -> rpc d = RDone /\ workers d = ∅.
Proof.
  intros Hi Hk Hq. assert (Hs : stopped d = true) by (by destruct Hk as [(Hs & _)|(Hs & _)]).
  destruct (quiescent_stopped d Hi Hs Hq) as [Hd [Hdone|(f & p & Hr & Hw & Hp)]]; [done|].
  destruct Hk as [(_ & Hk & _)|(_ & _ & Hw' & _)]; [congruence|]. rewrite Hw' in Hw. set_solver.
Qed.

(** * What must happen

    [P] holds sooner or later however the goroutines are scheduled, whatever
    workers end and whenever [Stop] is called. *)
Inductive inevitably (P : daemon -> Prop) (d : daemon) : Prop :=
  | inev_now : P d -> inevitably P d
  | inev_next : is_Some (run_step d) \/ is_Some (stop_step d) ->
      (forall d', step d d' -> inevitably P d') -> inevitably P d.

(** While nobody has called [Stop] and no worker runs, [run] moves alone. *)
Lemma inevitably_run (P : daemon -> Prop) d d' : spc d = SIdle -> workers d = ∅ -> run_step d = Some d' ->
  P (goto_stop SFlag d) -> inevitably P d' -> inevitably P d.
Proof.
  intros Hs Hw Hr Hc Hn. apply inev_next; [left; by eexists|]. intros d1 H1. destruct H1 as [d d1 H|d d1 H|d H|d p H].
  - by rewrite Hr in H; injection H as <-.
  - unfold stop_step in H. by rewrite Hs in H.
  - by apply inev_now.
  - rewrite Hw in H. set_solver.
Qed.

Definition not_dir (path : string) (s : FS) : Prop := forall x, at_path path s = Some x -> f_dir x = false.

Lemma not_dir_frame path ps s s' : not_dir path s -> frame ps s s' -> path ∉ ps -> not_dir path s'.
Proof. intros Hd F Hp x. rewrite (proj1 (F path Hp)). apply Hd. Qed.

Lemma create_ok s : wf s -> faults s = [] -> not_dir crashLog s ->
  exists f s', Create crashLog s = (Ret (inl f), s') /\ frame [crashLog; crashLogBak] s s' /\ step_ok s s'.
Proof.
  intros W Hf Hd. destruct (OpenFile_spec true crashLog 438 s W) as (r & s' & E & Hok & Hr).
  destruct r as [f|e].
  - exists f, s'. split; [done|]. split; [|done]. apply (frame_weaken [crashLog]); [apply Hr|set_solver].
  - destruct Hr as [_ [Hr|(x & Hx & Hr)]]; [done|]. rewrite (Hd x Hx) in Hr. done.
Qed.

(** A crash log that cannot be moved away is truncated all the same. *)
Lemma keep_crash_log s x : wf s -> faults s = [] -> at_path crashLog s = Some x -> f_dir x = false ->
  exists s', (Remove crashLogBak ;;; Rename crashLog crashLogBak ;;; ret tt) s = (Ret tt, s') /\
    not_dir crashLog s' /\ frame [crashLog; crashLogBak] s s' /\ step_ok s s'.
Proof.
  intros W Hf Hx Hd. destruct (Remove_spec crashLogBak s W) as (r & s1 & E1 & H1 & R1).
  assert (F1 : frame [crashLogBak] s s1) by (destruct r; [apply frame_nil|]; apply R1).
  assert (Hx1 : at_path crashLog s1 = Some x) by (rewrite (proj1 (F1 crashLog ltac:(set_solver))); done).
  destruct (Rename_spec crashLog crashLogBak s1 x (ok_wf _ _ H1) ltac:(done) Hx1 Hd) as (r2 & s2 & E2 & H2 & R2).
  exists s2. rewrite (bind_Ret _ _ _ _ _ E1), (bind_Ret _ _ _ _ _ E2). split; [done|].
  assert (F2 : frame [crashLog; crashLogBak] s1 s2) by (destruct r2; [apply frame_nil|]; apply R2).
  split; [|split].
  - intros y Hy. destruct r2 as [e|].
    + rewrite (proj1 (proj1 R2 crashLog ltac:(set_solver))), Hx1 in Hy. by injection Hy as <-.
    + destruct R2 as (_ & _ & Hn & _). congruence.
  - apply (frame_trans _ s s1); [|done]. apply (frame_weaken [crashLogBak]); [done|set_solver].
  - by apply (step_trans _ s1).
Qed.

Lemma open_crash_log_ok s : wf s -> faults s = [] -> not_dir crashLog s ->
  exists f s', open_crash_log s = (Ret (inl f), s') /\ frame [crashLog; crashLogBak] s s' /\ step_ok s s'.
Proof.
  intros W Hf Hd. unfold open_crash_log. destruct (Stat_spec crashLog s W) as (r & s1 & E1 & H1 & S1 & R1).
  rewrite (bind_Ret _ _ _ _ _ E1). pose proof (ok_wf _ _ H1) as W1. pose proof (ok_faults _ _ H1 Hf) as Hf1.
  assert (Hd1 : not_dir crashLog s1) by (apply (not_dir_frame _ [] s); [done|by apply frame_same|set_solver]).
  assert (Hmid : exists s2, (match r with
    | inl i => if 0 <? fi_Size i then Remove crashLogBak ;;; Rename crashLog crashLogBak ;;; ret tt else ret tt
    | inr _ => ret tt end) s1 = (Ret tt, s2) /\ not_dir crashLog s2 /\ frame [crashLog; crashLogBak] s1 s2 /\ step_ok s1 s2).
  { assert (Hid : exists s2, ret tt s1 = (Ret tt, s2) /\ not_dir crashLog s2 /\ frame [crashLog; crashLogBak] s1 s2 /\ step_ok s1 s2).
    { exists s1. split_and!; [done..|by apply frame_same|by apply step_same]. }
    destruct r as [i|e]; [|done]. destruct (0 <? fi_Size i); [|done]. destruct R1 as (x & Hx & _).
    apply (keep_crash_log s1 x W1 Hf1); [by rewrite (at_path_same _ _ _ S1)|by apply Hd]. }
  destruct Hmid as (s2 & E2 & Hd2 & F2 & H2). rewrite (bind_Ret _ _ _ _ _ E2).
  destruct (create_ok s2 (ok_wf _ _ H2) (ok_faults _ _ H2 Hf1) Hd2) as (f & s3 & E3 & F3 & H3).
  exists f, s3. split; [done|]. split.
  - apply (frame_trans _ s s1); [by apply frame_same|]. by apply (frame_trans _ s1 s2).
  - apply (step_trans _ s1); [done|]. by apply (step_trans _ s2).
Qed.

Lemma StartProcess_ok s x : faults s = [] -> at_path binPath s = Some x -> f_dir x = false -> StartProcess binPath s = (Ret None, s).
Proof.
  intros Hf Hx Hd. rewrite node_at in Hx. unfold StartProcess, err_only, syscall, fate, bind. rewrite Hf.
  destruct (node binPath s) as [[i y]|]; [|done]. injection Hx as ->. by rewrite Hd.
Qed.

Lemma StartProcess_missing s : names s !! binPath = None ->
  exists e s', StartProcess binPath s = (Ret (Some e), s') /\ same_files s s' /\ (forall x, x ∈ faults s' -> x ∈ faults s).
Proof.
  intros Hn. assert (Hnode : forall l, node binPath (set_faults l s) = None) by (intros l; unfold node; cbn; by rewrite Hn).
  unfold StartProcess, err_only, syscall, fate, bind. destruct (faults s) as [|[y|] l] eqn:E.
  - assert (Hs : node binPath s = None) by (unfold node; by rewrite Hn). rewrite Hs. eexists _, _. split; [done|]. split; [done|]. by rewrite E.
  - eexists _, _. split; [done|]. split; [apply same_files_set_faults|]. set_solver.
  - rewrite Hnode. eexists _, _. split; [done|]. split; [apply same_files_set_faults|]. set_solver.
Qed.

(** No call fails with one of the errors [os.IsExist] knows; stat(2) never
    does. *)
Definition honest (s : FS) : Prop := forall x, Some x ∈ faults s -> IsExist (Some (err_of x)) = false.

Lemma checkAndRevert_nothing s : wf s -> honest s ->
  exists s', checkAndRevert Executable s = (Ret tt, s') /\ same_files s s'.
Proof.
  intros W Hh. unfold checkAndRevert. destruct Executable as [bin|e]; [|by exists s].
  destruct (Stat_spec (bin +:+ ".bak") s W) as (r & s1 & E1 & _ & S1 & R1).
  exists s1. rewrite (bind_Ret _ _ _ _ _ E1). split; [|done].
  assert (Hn : IsExist (match r with inr e => Some e | inl _ => None end) = false).
  { destruct r as [i|e]; [done|]. destruct R1 as [-> |(x & Hx & ->)]; [done|by apply Hh]. }
  by rewrite Hn.
Qed.

(** An execution given by who moves when, for the examples. *)
Inductive move := MRun | MStop | MCall | MExit (p : nat).

Definition take_step (m : move) (d : daemon) : option daemon :=
  match m with
  | MRun => run_step d
  | MStop => stop_step d
  | MCall => match spc d with SIdle => Some (goto_stop SFlag d) | _ => None end
  | MExit p => if decide (p ∈ workers d) then Some (remove_worker p d) else None
  end.

Fixpoint play (l : list move) (d : daemon) : option daemon :=
  match l with [] => Some d | m :: l => d ← take_step m d; play l d end.

Lemma take_step_sound m d d' : take_step m d = Some d' -> step d d'.
Proof.
  destruct m as [| | |p]; cbn; intros H.
  - by apply step_run.
  - by apply step_stop.
  - destruct (spc d) eqn:E; try done. injection H as <-. by apply step_call.
  - destruct (decide (p ∈ workers d)); [|done]. injection H as <-. by apply step_exit.
Qed.

Lemma play_sound l d d' : play l d = Some d' -> nsteps step (length l) d d'.
Proof.
  revert d. induction l as [|m l IH]; intros d H.
  - injection H as <-. constructor.
  - cbn in H. destruct (take_step m d) as [d1|] eqn:E; [|done]. econstructor; [by apply (take_step_sound m)|by apply IH].
Qed.

Lemma play_rtc l d d' : play l d = Some d' -> rtc step d d'.
Proof. intros H%play_sound. apply rtc_nsteps. by eexists. Qed.
End Daemon.

(** * The daemon's theorems *)

(** C19. At any moment at most one worker runs: in every state that [run], [Stop]
    and the workers' exits can reach, in whatever order they take turns, the
    workers are the one that [run] has started last or none, none is left once
    [run] has returned, and the two goroutines are never both inside the mutex. *)
Theorem daemon_one_worker bin exe s d : rtc (step bin exe) (daemon_start s) d ->
  (exists p, workers d ⊆ {[ p ]}) /\ (rpc d = RDone -> workers d = ∅) /\
  run_holds (rpc d) && stop_holds (spc d) = false /\
  (mtx d = None <-> run_holds (rpc d) = false /\ stop_holds (spc d) = false) /\
  (forall f, rpc d = RWait f -> proc d <> None).
Proof.
  intros H%reachable_inv. destruct H as [Hf Hi Hm He Hp]. split_and!.
  - destruct (rpc d); lazymatch type of Hp with
      | exists _, _ => destruct Hp as (q & _ & Hw); by exists q
      | _ /\ _ => destruct Hp as [_ Hw]; first [by eexists | exists 0%nat; set_solver]
      | _ => exists 0%nat; set_solver
      end.
  - intros E. rewrite E in Hp. apply Hp.
  - destruct (run_holds (rpc d)); [by rewrite He|done].
  - rewrite Hm. destruct (run_holds (rpc d)), (stop_holds (spc d)); naive_solver.
  - intros f E. rewrite E in Hp. destruct Hp as (p & -> & _). done.
Qed.

(** * Examples

    A directory with the executable in it, and with its backup alone. *)
Definition bin0 : string := "/opt/uptp/gateway".
Definition fs_of (name : string) : FS :=
  mkFS {[ name := 0%nat ]} {[ 0%nat := mkFile "elf" 493 false ]} ∅ 1 18 [].

Lemma fs_of_wf name : wf (fs_of name).
Proof.
  split; cbn.
  - intros p i H. apply lookup_singleton_Some in H as [<- <-]. split; [lia|]. rewrite lookup_singleton_eq. by eexists.
  - intros i x H. apply lookup_singleton_Some in H as [<- _]. lia.
  - intros h i H. by rewrite lookup_empty in H.
  - intros p q i Hp Hq. apply lookup_singleton_Some in Hp as [<- _], Hq as [<- _]. done.
Qed.

(** From the start to the moment a worker runs and [run] waits for it. *)
Definition to_worker : list move := [MRun; MRun; MRun; MRun; MRun; MRun].

Example daemon_one_worker_witness : exists d p, play bin0 (inl bin0) to_worker (daemon_start (fs_of bin0)) = Some d /\
  p ∈ workers d /\ exists q, workers d ⊆ {[ q ]}.
Proof.
  destruct (play bin0 (inl bin0) to_worker (daemon_start (fs_of bin0))) as [d|] eqn:E; [|by vm_compute in E].
  exists d, 0%nat. split; [done|]. split.
  - vm_compute in E. injection E as <-. by vm_compute.
  - exact (proj1 (daemon_one_worker bin0 (inl bin0) (fs_of bin0) d (play_rtc bin0 (inl bin0) to_worker _ d E))).
Defined.

(** C20. Once [Stop] has set its flag, [run], [Stop] and the workers take at most
    26 more steps.  When neither can take another, [Stop] has returned, and
    either [run] has returned and no worker is left, or one worker started
    behind [Stop]'s back still runs; the latter never happens when [Stop], on
    taking the mutex, found a worker. *)
Theorem daemon_stops bin exe s d n d' : rtc (step bin exe) (daemon_start s) d -> stopped d = true ->
  nsteps (step bin exe) n d d' ->
  (n <= 26)%nat /\
  (quiescent bin exe d' -> spc d' = SDone /\
     (rpc d' = RDone /\ workers d' = ∅ \/ exists f p, rpc d' = RWait f /\ workers d' = {[ p ]} /\ proc d' = Some p)) /\
  (spc d = SKill -> proc d <> None -> quiescent bin exe d' -> rpc d' = RDone /\ workers d' = ∅).
Proof.
  intros H%reachable_inv Hs Hn. destruct (nsteps_rank _ _ n d d' Hs H Hn) as (Hr & Hs' & Hi').
  pose proof (rank_stopped d H Hs). split; [lia|]. split.
  - by apply quiescent_stopped.
  - intros Hk Hp Hq. destruct (kills_end _ _ n d d' H (kills_start d H Hs Hk Hp) Hn) as [Hk' _]. by apply (kills_quiescent bin exe).
Qed.

Example daemon_stops_witness : exists d d', (quiescent bin0 (inl bin0) d' /\ spc d = SKill /\ proc d <> None) /\
  rpc d' = RDone /\ workers d' = ∅.
Proof.
  destruct (play bin0 (inl bin0) (to_worker ++ [MCall; MStop; MStop]) (daemon_start (fs_of bin0))) as [d|] eqn:E; [|by vm_compute in E].
  destruct (play bin0 (inl bin0) [MStop; MStop; MRun; MRun; MRun; MRun; MRun; MRun] d) as [d'|] eqn:E'.
  - assert (Hq : quiescent bin0 (inl bin0) d' /\ stopped d = true /\ spc d = SKill /\ proc d <> None).
    { vm_compute in E. injection E as <-. vm_compute in E'. injection E' as <-. by vm_compute. }
    destruct Hq as (Hq & Hs & Hk & Hp). exists d, d'. split; [done|].
    exact (proj2 (proj2 (daemon_stops bin0 (inl bin0) (fs_of bin0) d 8 d' (play_rtc _ _ _ _ _ E) Hs (play_sound _ _ _ _ _ E'))) Hk Hp Hq).
  - vm_compute in E. injection E as <-. by vm_compute in E'.
Defined.

(** C21. A worker that has ended is followed by another: from the state in which
    [run] learns of its end, whatever the scheduler does, [run] comes to start
    a worker with a new number unless somebody calls [Stop] first, provided the
    executable is there, the crash log is not a directory and no call fails. *)
Theorem daemon_restarts bin exe s0 d f x : rtc (step bin exe) (daemon_start s0) d ->
  rpc d = RWait f -> workers d = ∅ -> spc d = SIdle ->
  wf (d_fs d) -> faults (d_fs d) = [] -> not_dir crashLog (d_fs d) ->
  at_path bin (d_fs d) = Some x -> f_dir x = false -> bin <> crashLog -> bin <> crashLogBak ->
  inevitably bin exe (fun d' => spc d' <> SIdle \/ exists p, workers d' = {[ p ]} /\ (next_pid d <= p)%nat) d.
Proof.
  intros H%reachable_inv Hr Hw Hs W Hf Hd Hx Hxd Hb1 Hb2.
  pose proof (inv_flag d H) as Hst. rewrite Hs in Hst. pose proof (inv_mtx d H) as Hm. rewrite Hs, Hr in Hm.
  pose proof (inv_proc d H) as Hp. rewrite Hr in Hp. destruct Hp as (p & Hp & _).
  destruct d as [r c st m pr w np fs]. cbn in *. subst. set (P := fun d' => _).
  assert (HP : forall d', P (goto_stop SFlag d')) by (by left).
  destruct (Close_spec f fs W) as (fs1 & Ec & W1 & F1 & Hf1 & _).
  destruct (open_crash_log_ok fs1) as (g & fs2 & E3 & F2 & H2); [done|congruence|by apply (not_dir_frame _ [] fs); [..|set_solver]|].
  assert (Hx2 : at_path bin fs2 = Some x).
  { rewrite (proj1 (F2 bin ltac:(set_solver))), (proj1 (F1 bin ltac:(set_solver))). done. }
  pose (at_ := fun pc m pr fs => mkDaemon pc SIdle false m pr ∅ np fs). change (inevitably bin exe P (at_ (RWait f) None (Some p) fs)).
  assert (Hgo : forall pc m pr fs pc' m' pr' fs', run_step bin exe (at_ pc m pr fs) = Some (at_ pc' m' pr' fs') ->
    inevitably bin exe P (at_ pc' m' pr' fs') -> inevitably bin exe P (at_ pc m pr fs)).
  { intros * Hstep. by apply inevitably_run. }
  apply (Hgo _ _ _ _ (RLock2 f) None (Some p) fs); [done|]. apply (Hgo _ _ _ _ (RNil f) (Some TRun) (Some p) fs); [done|].
  apply (Hgo _ _ _ _ (RClose f) None None fs); [done|].
  apply (Hgo _ _ _ _ RSleep None None fs1); [by unfold run_step; cbn [at_ rpc d_fs]; rewrite Ec|].
  apply (Hgo _ _ _ _ RCheck None None fs1); [done|]. apply (Hgo _ _ _ _ RFiles None None fs1); [done|].
  apply (Hgo _ _ _ _ (RLock g) None None fs2); [by unfold run_step; cbn [at_ rpc d_fs]; rewrite E3|].
  apply (Hgo _ _ _ _ (RSpawn g) (Some TRun) None fs2); [done|].
  eapply (inevitably_run bin exe P); [done|done| |by left|].
  { unfold run_step. cbn [at_ rpc d_fs]. rewrite (StartProcess_ok bin fs2 x); [done| |done..]. apply (ok_faults _ _ H2). congruence. }
  apply inev_now. right. exists np. cbn. split; [set_solver|lia].
Qed.

Example daemon_restarts_witness : exists d, workers d = ∅ /\
  inevitably bin0 (inl bin0) (fun d' => spc d' <> SIdle \/ exists p, workers d' = {[ p ]} /\ (next_pid d <= p)%nat) d.
Proof.
  destruct (play bin0 (inl bin0) (to_worker ++ [MExit 0]) (daemon_start (fs_of bin0))) as [d|] eqn:E; [|by vm_compute in E].
  pose proof (play_rtc _ _ _ _ _ E) as Hrtc.
  pose proof (daemon_restarts bin0 (inl bin0) (fs_of bin0) d) as H.
  assert (Hfs : exists f x, rpc d = RWait f /\ workers d = ∅ /\ spc d = SIdle /\ faults (d_fs d) = [] /\
    at_path crashLog (d_fs d) = Some (mkFile "" 420 false) /\ at_path bin0 (d_fs d) = Some x /\ f_dir x = false).
  { vm_compute in E. injection E as <-. eexists _, _. by vm_compute. }
  destruct Hfs as (f & x & Hr & Hw & Hs & Hf & Hc & Hx & Hd). exists d. split; [done|].
  apply (H f x); try done; [|intros y Hy; rewrite Hc in Hy; by injection Hy as <-].
  destruct (open_crash_log_ok (fs_of bin0) (fs_of_wf bin0) eq_refl) as (g & s' & E2 & _ & H2%ok_wf); [by intros y|].
  vm_compute in E2. injection E2 as _ <-. vm_compute in E. injection E as <-. exact H2.
Defined.

(** When the executable is missing as [run] comes to start it, [run] returns
    without a worker, whatever else happens, and although the backup that an
    upgrade leaves behind is there, it is not put back: [os.IsExist] is asked
    of a call that has succeeded. *)
Theorem daemon_gives_up bin s0 d f x : rtc (step bin (inl bin)) (daemon_start s0) d -> rpc d = RSpawn f ->
  wf (d_fs d) -> honest (d_fs d) -> names (d_fs d) !! bin = None -> at_path (bin +:+ ".bak") (d_fs d) = Some x ->
  exists d1 d2, run_step bin (inl bin) d = Some d1 /\ run_step bin (inl bin) d1 = Some d2 /\
    rpc d2 = RDone /\ workers d2 = ∅ /\ names (d_fs d2) !! bin = None /\ at_path (bin +:+ ".bak") (d_fs d2) = Some x.
Proof.
  intros H%reachable_inv Hr W Hh Hn Hx.
  destruct (StartProcess_missing bin (d_fs d) Hn) as (e & s1 & E1 & S1 & Hi1).
  exists (goto RRevert (lock None (set_fs s1 d))). unfold run_step at 1. rewrite Hr, E1.
  destruct (checkAndRevert_nothing (inl bin) s1 (wf_same _ _ S1 W)) as (s2 & E2 & S2).
  { intros y Hy. by apply Hh, Hi1. }
  eexists. split; [done|]. split; [unfold run_step; cbn [goto rpc d_fs set_fs lock]; by rewrite E2|]. pose proof (inv_proc d H) as Hp. rewrite Hr in Hp.
  split_and!; [done|apply Hp| |].
  - cbn. destruct S2 as (-> & _), S1 as (-> & _). done.
  - cbn [d_fs goto set_fs lock]. by rewrite (at_path_same _ _ _ S2), (at_path_same _ _ _ S1).
Qed.

Example daemon_gives_up_example : exists d f, play bin0 (inl bin0) [MRun; MRun; MRun] (daemon_start (fs_of (bin0 +:+ ".bak"))) = Some d /\
  rpc d = RSpawn f /\ exists d1, run_step bin0 (inl bin0) d = Some d1 /\ exists d2, run_step bin0 (inl bin0) d1 = Some d2 /\
  rpc d2 = RDone /\ is_Some (at_path (bin0 +:+ ".bak") (d_fs d2)).
Proof.
  destruct (play bin0 (inl bin0) [MRun; MRun; MRun] (daemon_start (fs_of (bin0 +:+ ".bak")))) as [d|] eqn:E; [|by vm_compute in E].
  pose proof (play_rtc _ _ _ _ _ E) as Hrtc. vm_compute in E. injection E as <-.
  eexists _, _. split; [done|]. split; [done|]. eexists. split; [by vm_compute|]. eexists. split; [by vm_compute|]. split; [done|]. vm_compute. by eexists.
Qed.

(** [Stop] misses the worker: [run] has read the flag, [Stop] sets it, takes the
    mutex and finds no worker, and then [run] starts one, which nobody kills
    and whose end nobody ordered. *)
Theorem stop_race : exists d, rtc (step bin0 (inl bin0)) (daemon_start (fs_of bin0)) d /\
  quiescent bin0 (inl bin0) d /\ spc d = SDone /\ workers d = {[ 0%nat ]}.
Proof.
  destruct (play bin0 (inl bin0) [MRun; MCall; MStop; MStop; MStop; MStop; MRun; MRun; MRun; MRun; MRun]
    (daemon_start (fs_of bin0))) as [d|] eqn:E; [|by vm_compute in E].
  exists d. split; [by eapply play_rtc|]. vm_compute in E. injection E as <-. by vm_compute.
Qed.
