(* ===== verification/GatewayRun.v ===== *)
(** src/gateway/gateway.go: [Run], which puts the gateway together from the
    store, the identity, the engine and the managers, and [Stop].  The theorems:
    what a gateway that serves holds of what its store says, and what a start
    that fails leaves for [Stop]. *)
From S2P Require Import Prelude GoText GoIo GoOs GoNet Json Codec TypesId Store PortmapRes PortmapApp ProxyService Portmap AppStart Session.
From S2P Require Import GwCore Logger Identity P2p Avl ProxyRouter Socks5Util Socks5Client Socks5Rfc TunStack ProxyClient GatewayApi.

Definition dbData : string := "data.db".

Record Config := mkConfig { Workdir : string; LogDir : string; LogMod : Z; LogLevel : Z }.

(** [filepath.Dir] of an absolute path, and a name in a directory; both without
    the cleaning of dots. *)
Definition Dir (path : string) : string :=
  let d := String.concat "/" (removelast (Split path "/")) in
  if String.eqb d "" then "/" else d.

(** Where a name is found from the current directory. *)
Definition resolve (cwd name : string) : string :=
  match name with
  | String "/" _ => name
  | _ => if String.eqb name "." then cwd else cwd +:+ "/" +:+ name
  end.

Section Run.
Context {DB : Type} {Db : LevelDB DB} {Dbl : LevelDBLaws DB}.
Context {T : Type} {Tree : AvlTree (routeItem PeerWithAuth) T} {TreeLaws : AvlLaws (routeItem PeerWithAuth) T}.
Context {Lib : Socks5Lib} {Sys : System}.
Context (Listen : bool -> string -> Z -> sockets -> (nat * string) + error).
Context (range_apps : gmap Z PortmapApp -> list (Z * PortmapApp)).
Context (Executable : string + error) (Chdir : string -> bool).
Context (OpenDB : string -> DB + (error * bool)) (RecoverDB : string -> DB + error) (CloseDB : DB -> DB).
Context (NewDatastore : string -> gset string -> option error)
        (GenerateEd25519Key : string -> string + error)
        (NewResourceManager : option error)
        (libp2p_New : Options -> gmap nat Options -> list Multiaddr + error)
        (dht_New : Options -> DhtOptions -> option error)
        (NewRandom : string + error) (windows : bool) (Getpid : Z).

(** The process of a gateway.  Of its fields [r_db], [r_cli] and [r_api] say
    whether the pointers are set, [r_pe] is [None] while the engine's is nil;
    [r_socks] is whom the SOCKS5 server lets in once it serves, everybody
    ([true]) or the owners of the token. *)
Record Process := mkProcess {
  r_net : Net;
  r_cwd : string;
  r_db : bool;
  r_pe : option P2PEngine;
  r_cli : bool;
  r_socks : option bool;
  r_api : option nat;
  r_gw : @Gateway DB T Sys
}.

Definition on_net {A} : GoM Net A -> GoM Process A :=
  zoom r_net (fun n p => mkProcess n (r_cwd p) (r_db p) (r_pe p) (r_cli p) (r_socks p) (r_api p) (r_gw p)).
Definition on_gw {A} : GoM (@Gateway DB T Sys) A -> GoM Process A :=
  zoom r_gw (fun g p => mkProcess (r_net p) (r_cwd p) (r_db p) (r_pe p) (r_cli p) (r_socks p) (r_api p) g).
Definition set_cwd (d : string) : GoM Process unit :=
  modify (fun p => mkProcess (r_net p) d (r_db p) (r_pe p) (r_cli p) (r_socks p) (r_api p) (r_gw p)).
Definition set_r_db : GoM Process unit :=
  modify (fun p => mkProcess (r_net p) (r_cwd p) true (r_pe p) (r_cli p) (r_socks p) (r_api p) (r_gw p)).
Definition set_pe (pe : P2PEngine) : GoM Process unit :=
  modify (fun p => mkProcess (r_net p) (r_cwd p) (r_db p) (Some pe) (r_cli p) (r_socks p) (r_api p) (r_gw p)).
Definition set_cli : GoM Process unit :=
  modify (fun p => mkProcess (r_net p) (r_cwd p) (r_db p) (r_pe p) true (r_socks p) (r_api p) (r_gw p)).
Definition set_socks (b : bool) : GoM Process unit :=
  modify (fun p => mkProcess (r_net p) (r_cwd p) (r_db p) (r_pe p) (r_cli p) (Some b) (r_api p) (r_gw p)).
Definition set_api (h : nat) : GoM Process unit :=
  modify (fun p => mkProcess (r_net p) (r_cwd p) (r_db p) (r_pe p) (r_cli p) (r_socks p) (Some h) (r_gw p)).

(** * The stages of [Run] *)

(** The backup of an upgrade. *)
Definition remove_bak (exePath : string) : GoM FS unit :=
  fi <- Stat (exePath +:+ ".bak") ;;
  if IsExist (match fi with inr e => Some e | inl _ => None end) then Remove (exePath +:+ ".bak") ;;; ret tt else ret tt.

(** The directory and the log; the error of [Chdir] is dropped. *)
Definition enter (conf : Config) (exePath : string) : GoM Process unit :=
  let wd := if String.eqb (Workdir conf) "" then Dir exePath else Workdir conf in
  (if Chdir wd then set_cwd wd else ret tt) ;;;
  p <- get ;;
  let ld := if String.eqb (LogDir conf) "" then "." else LogDir conf in
  on_net (zoom (fun n => mkProc (n_fs n) "") (fun l n => mkNet (fs l) (hosts n) (stores n) (next_host n))
    (NewLogger windows Getpid (resolve (r_cwd p) ld) "uptp-gateway" (LogLevel conf) (1024 * 1024) (LogMod conf))) ;;;
  ret tt.

(** Any error of reading the password sets it to the default. *)
Definition init_password : GoM (@Core DB) (option error) :=
  g <- get ;;
  match db_Get adminPassword (g_db g) with
  | inl _ => ret None
  | inr _ => dbPut_g adminPassword "admin123"
  end.

Definition set_core_db (d : DB) : GoM (@Gateway DB T Sys) unit := core (modify (set_g_db d)).

(** Directory, log, store, password, identity, engine, port. *)
Definition start_host (conf : Config) (exePath : string) : GoM Process (P2PEngine + option error) :=
  on_net (P2p.os (remove_bak exePath)) ;;;
  enter conf exePath ;;;
  p <- get ;;
  match open_db OpenDB RecoverDB (resolve (r_cwd p) dbData) with
  | inr e => ret (inr (Some e))
  | inl d =>
      on_gw (set_core_db d) ;;; set_r_db ;;;
      err <- on_gw (core init_password) ;;
      match err with
      | Some e => ret (inr (Some e))
      | None =>
          us <- on_net (P2p.os (load_seed (resolve (r_cwd p) "uuid") NewRandom)) ;;
          match us with
          | inr err => ret (inr err)
          | inl us =>
              let* (listenPort, err) := on_gw (core getListenPort) in
              match err with
              | Some e => ret (inr (Some e))
              | None =>
                  let ld := if String.eqb (LogDir conf) "" then "." else LogDir conf in
                  pe <- on_net (NewP2PEngine NewDatastore GenerateEd25519Key NewResourceManager libp2p_New dht_New
                          listenPort us (resolve (resolve (r_cwd p) ld) "libp2p.log") (resolve (r_cwd p) "dht.db") false) ;;
                  match pe with
                  | inr e => ret (inr (Some e))
                  | inl pe =>
                      (if listenPort =? P2p.GetListenPort pe then ret tt
                       else on_gw (core (setListenPort (P2p.GetListenPort pe))) ;;; ret tt) ;;;
                      set_pe pe ;;;
                      ret (inl pe)
                  end
              end
          end
      end
  end.

(** The managers, from the store; the applications to start are the result. *)
Definition load_managers : GoM Process (list PortmapApp + error) :=
  p <- get ;;
  match NewPortmapResMgr (g_db (gw_core (r_gw p))) with
  | inr e => ret (inr e)
  | inl m =>
      on_gw (core (prm (put m))) ;;;
      on_gw (core (pam (modify (fun a => NewPortmapAppMgr (app_db a))))) ;;;
      let* (pmApps, err) := on_gw (core (pam (LoadPortmapApps range_apps))) in
      match err with
      | Some e => ret (inr e)
      | None =>
          p <- get ;;
          match newProxyClient (g_db (gw_core (r_gw p))) (gw_os (r_gw p)) (gw_engine (r_gw p)) with
          | inr e => ret (inr e)
          | inl c =>
              on_gw (proxyCli (put c)) ;;; set_cli ;;;
              on_gw (proxyCli ProxyClient.Start) ;;;
              ret (inl pmApps)
          end
      end
  end.

Definition set_proxySvc (c : proxyServiceConfig) : GoM (@Core DB) unit :=
  modify (fun g => mkCore (g_db g) (g_resources g) (g_apps g) (Some c) (trial g) (g_rand g)).

(** The settings, which become the SOCKS5 server's outbound proxy. *)
Definition load_settings : GoM Process (option error) :=
  on_gw (core (set_proxySvc psc_zero)) ;;;
  err <- on_gw (core (proxySvc loadConfig)) ;;
  match err with
  | Some e => ret (Some e)
  | None =>
      c <- on_gw (core (proxySvc getConfig)) ;;
      on_gw (SetOutboundProxy (psc_ProxyAddr c) (psc_ProxyUser c) (psc_ProxyPass c)) ;;;
      ret None
  end.

(** The mappings and the SOCKS5 server. *)
Definition start_services (pmApps : list PortmapApp) : GoM Process unit :=
  on_gw (pm (modify (fun m => NewPortMap (socks m)))) ;;;
  p <- get ;;
  set_socks (trial (gw_core (r_gw p))) ;;;
  on_gw (start_apps Listen pmApps).

(** The console's listener, which shares the machine's ports with the mappings. *)
Definition listen_api : GoM Process (option error) :=
  p <- get ;;
  match Listen true "0.0.0.0" 3000 (socks (gw_pm (r_gw p))) with
  | inr e => ret (Some e)
  | inl (h, addr) =>
      on_gw (pm (modify (fun m => mkPortmap (listeners m) (<[h := (true, "0.0.0.0", addr)]> (socks m)) (connEngine m)))) ;;;
      set_api h ;;;
      ret None
  end.

(** [Run] returns, or serves until the listener is closed. *)
Inductive run_result := Serving | Returned (err : option error).

Definition Run (conf : Config) : GoM Process run_result :=
  match Executable with
  | inr e => ret (Returned (Some e))
  | inl exePath =>
      pe <- start_host conf exePath ;;
      match pe with
      | inr err => ret (Returned err)
      | inl pe =>
          apps <- load_managers ;;
          match apps with
          | inr e => ret (Returned (Some e))
          | inl pmApps =>
              err <- load_settings ;;
              match err with
              | Some e => ret (Returned (Some e))
              | None =>
                  start_services pmApps ;;;
                  err <- listen_api ;;
                  match err with
                  | Some e => ret (Returned (Some e))
                  | None => ret Serving
                  end
              end
          end
      end
  end.

(** The listeners of the mappings are not closed. *)
Definition Stop : GoM Process unit :=
  p <- get ;;
  match r_api p with
  | None => panic
  | Some h =>
      on_gw (pm (modify (fun m => mkPortmap (listeners m) (delete h (socks m)) (connEngine m)))) ;;;
      if negb (r_cli p) then panic
      else
        on_gw (proxyCli ProxyClient.Stop) ;;;
        match r_pe p with
        | None => panic
        | Some pe =>
            on_net (P2p.Close pe) ;;;
            if r_db p then on_gw (core (modify (fun c => set_g_db (CloseDB (g_db c)) c))) else panic
        end
  end.

(** * Lemmas *)

(** ** The console's listener *)

Definition keeps_api {A} (m : GoM Process A) : Prop := forall p, r_api (m p).2 = r_api p.

Lemma keeps_ret {A} (a : A) : keeps_api (ret a).
Proof. done. Qed.
Lemma keeps_get : keeps_api get.
Proof. done. Qed.
Lemma keeps_bind {A B} (m : GoM Process A) (k : A -> GoM Process B) :
  keeps_api m -> (forall a, keeps_api (k a)) -> keeps_api (bind m k).
Proof.
  intros Hm Hk p. unfold bind. specialize (Hm p). destruct (m p) as [[a|] p1]; [|exact Hm].
  cbn in *. by rewrite (Hk a p1).
Qed.
Lemma keeps_on_net {A} (m : GoM Net A) : keeps_api (on_net m).
Proof. intros p. unfold on_net, zoom. by destruct (m (r_net p)). Qed.
Lemma keeps_on_gw {A} (m : GoM (@Gateway DB T Sys) A) : keeps_api (on_gw m).
Proof. intros p. unfold on_gw, zoom. by destruct (m (r_gw p)). Qed.
Lemma keeps_set_cwd d : keeps_api (set_cwd d).
Proof. done. Qed.
Lemma keeps_set_r_db : keeps_api set_r_db.
Proof. done. Qed.
Lemma keeps_set_pe pe : keeps_api (set_pe pe).
Proof. done. Qed.
Lemma keeps_set_cli : keeps_api set_cli.
Proof. done. Qed.
Lemma keeps_set_socks b : keeps_api (set_socks b).
Proof. done. Qed.
Create HintDb api.
#[local] Hint Resolve keeps_ret keeps_get keeps_bind keeps_on_net keeps_on_gw keeps_set_cwd keeps_set_r_db keeps_set_pe keeps_set_cli
  keeps_set_socks : api.

Ltac keeps := repeat first
  [ solve [eauto with api] | apply keeps_bind; [|intros ?] | intros ? | case_match ].

Lemma keeps_enter conf exe : keeps_api (enter conf exe).
Proof. unfold enter. keeps. Qed.
#[local] Hint Resolve keeps_enter : api.
Lemma keeps_start_host conf exe : keeps_api (start_host conf exe).
Proof. unfold start_host. keeps. Qed.
Lemma keeps_load_managers : keeps_api load_managers.
Proof. unfold load_managers. keeps. Qed.
Lemma keeps_load_settings : keeps_api load_settings.
Proof. unfold load_settings. keeps. Qed.
Lemma keeps_start_services l : keeps_api (start_services l).
Proof. unfold start_services. keeps. Qed.
#[local] Hint Resolve keeps_start_host keeps_load_managers keeps_load_settings keeps_start_services : api.

(** A computation that sets the console's listener only when it ends serving. *)
Definition api_if_serving (m : GoM Process run_result) : Prop :=
  forall p e p', m p = (Ret (Returned e), p') -> r_api p' = r_api p.

Lemma api_bind {A} (m : GoM Process A) (k : A -> GoM Process run_result) :
  keeps_api m -> (forall a, api_if_serving (k a)) -> api_if_serving (bind m k).
Proof.
  intros Hm Hk p e p' H. unfold bind in H. specialize (Hm p). destruct (m p) as [[a|] p1]; [|done].
  cbn in Hm. by rewrite (Hk a p1 e p' H).
Qed.
Lemma api_ret r : api_if_serving (ret r).
Proof. by intros p e p' [= _ <-]. Qed.

Lemma api_listen : api_if_serving (err <- listen_api ;; match err with Some e => ret (Returned (Some e)) | None => ret Serving end).
Proof.
  intros p e p' H. unfold listen_api, bind, get in H. destruct (Listen true "0.0.0.0" 3000 (socks (gw_pm (r_gw p)))) as [[h a]|err].
  - unfold on_gw, pm, zoom, set_api, modify in H. done.
  - by injection H as _ <-.
Qed.

Lemma api_run conf : api_if_serving (Run conf).
Proof.
  unfold Run. repeat first [apply api_ret | apply api_listen | apply api_bind; [eauto with api|intros ?] | case_match].
Qed.

(** ** The proxy client *)

(** Starting it writes the outbounds at most. *)
Definition same_but_obs (d d' : DB) : Prop := forall k, k <> keySocksOutbound -> db_Get k d' = db_Get k d.

Lemma startTunStack_mgr (c : @proxyClient DB T Sys) : pc_mgr (startTunStack c).2 = pc_mgr c.
Proof.
  unfold startTunStack, engine, on_os, set_tunStackRunning. go_unfold. destruct (tunStackRunning c); [done|]. cbn [pc_engine pc_mgr].
  repeat (case_match; simplify_eq/=; try done).
Qed.

Lemma mgr_put_other ob (m : @socks5ProxyManager DB) : same_but_obs (ob_db m) (ob_db (mgr_put Decode_peer ob m).2).
Proof.
  unfold mgr_put. destruct (socks5OutboundFillRunningInfo Decode_peer ob) as [[e|] ob']; [done|].
  unfold saveOutbounds, dbPut. go_unfold. cbn [outbounds ob_db]. intros k Hk.
  pose proof (put_other keySocksOutbound k (Marshal (<[Uint64 (ob_ID ob') := ob']> (default ∅ (outbounds m)))) (ob_db m) ltac:(done)) as Ho.
  destruct (db_Put _ _ _) as [e d]. exact Ho.
Qed.

Lemma addOutboundRoute_mgr ob d (c : @proxyClient DB T Sys) : pc_mgr (addOutboundRoute ob d c).2 = pc_mgr c.
Proof.
  unfold addOutboundRoute, router, on_os. destruct (ob_routeNet ob); [|done]. go_unfold.
  repeat (case_match; simplify_eq/=; try done).
Qed.

Lemma start_one_other ob (c : @proxyClient DB T Sys) :
  same_but_obs (ob_db (pc_mgr c)) (ob_db (pc_mgr (ProxyClient.start_one ob c).2)).
Proof.
  unfold ProxyClient.start_one. destruct (negb (ob_Open ob)); [done|]. unfold bind at 1.
  pose proof (startTunStack_mgr c) as H1. destruct (startTunStack c) as [[[e|]|] c1]; cbn in H1; rewrite <- H1; [| |done].
  - unfold mgr, mgr_UpdateOutbound. go_unfold. pose proof (mgr_put_other (set_Open false ob) (pc_mgr c1)) as H2.
    destruct (mgr_put Decode_peer (set_Open false ob) (pc_mgr c1)) as [[[]|] m]; exact H2.
  - unfold bind. pose proof (addOutboundRoute_mgr ob (dialer_of ob) c1) as H2.
    destruct (addOutboundRoute ob (dialer_of ob) c1) as [[[]|] c2]; cbn in *; by rewrite H2.
Qed.

Lemma Start_other (c : @proxyClient DB T Sys) :
  same_but_obs (ob_db (pc_mgr c)) (ob_db (pc_mgr (ProxyClient.Start c).2)).
Proof.
  unfold ProxyClient.Start, bind at 1, mgr, zoom, ListOutbounds, gets. cbn [pc_mgr].
  match goal with |- same_but_obs _ (ob_db (pc_mgr (for_range ?l ?b ?c0).2)) => apply (for_range_inv
    (fun c' => same_but_obs (ob_db (pc_mgr c)) (ob_db (pc_mgr c')))) end; [|done].
  intros ob c' _ H k Hk. rewrite <- (H k Hk). by apply start_one_other.
Qed.

(** ** The stored applications *)

(** The gateway after its applications, listeners and store have changed. *)
Definition with_apps (d : DB) (rs : gmap Z PortmapApp) (m : Portmap) (g : @Gateway DB T Sys) : @Gateway DB T Sys :=
  mkGw (mkCore d (g_resources (gw_core g)) (Some rs) (g_proxySvc (gw_core g)) (trial (gw_core g)) (g_rand (gw_core g)))
    m (gw_obs g) (gw_tun g) (gw_engine g) (gw_router g) (gw_os g) (gw_outbound g).

#[local] Instance gateway_host : AppHost DB (@Gateway DB T Sys) := {
  host_db g := g_db (gw_core g);
  host_pm g := Some (gw_pm g);
  host_apps g := g_apps (gw_core g);
  host_with := with_apps
}.
#[local] Instance gateway_host_laws : AppHostLaws DB (@Gateway DB T Sys).
Proof.
  split; [done..|]. intros g m rs [= <-] Hrs. cbn in *. unfold with_apps. rewrite <- Hrs. by destruct g as [[]].
Qed.

Lemma gateway_starts_app : starts_app Listen (start_app Listen).
Proof.
  intros a g m rs [= <-] Hrs. cbn in Hrs. unfold start_app. destruct (app_Running a); cbn [negb]; [|done].
  destruct (AddListener _ _ _ _ _) as [[[q [e|]]|] m'] eqn:E; [..|done]; rewrite (bind_Ret _ _ _ _ _ (pm_Ret _ g _ _ E)).
  - rewrite (bind_Ret _ _ _ _ _ (update_app_run (set_stopped "" a) rs (set_pm m' g) Hrs)).
    unfold put_apps. cbn. by destruct (db_Put _ _ _).
  - unfold ret. do 2 f_equal. cbn. unfold set_pm, with_apps. rewrite <- Hrs. by destruct g as [[]].
Qed.

Lemma on_gw_Ret {A} (m : GoM (@Gateway DB T Sys) A) p a g : m (r_gw p) = (Ret a, g) ->
  on_gw m p = (Ret a, mkProcess (r_net p) (r_cwd p) (r_db p) (r_pe p) (r_cli p) (r_socks p) (r_api p) g).
Proof. intros H. unfold on_gw, zoom. by rewrite H. Qed.

(** The gateway with everything its store holds, before the applications
    start: [c] is its proxy client once started. *)
Definition loaded (res : option (gmap Z PortmapResource)) (rs : gmap Z PortmapApp) (cfg : proxyServiceConfig)
    (c : @proxyClient DB T Sys) (g : @Gateway DB T Sys) : @Gateway DB T Sys :=
  mkGw (mkCore (ob_db (pc_mgr c)) res (Some rs) (Some cfg) (trial (gw_core g)) (g_rand (gw_core g)))
    (NewPortMap (socks (gw_pm g))) (outbounds (pc_mgr c)) (tunStackRunning c) (pc_engine c) (pc_router c) (ProxyClient.os c)
    (psc_ProxyAddr cfg, psc_ProxyUser cfg, psc_ProxyPass cfg).

(** What the store of a gateway must answer for it to start. *)
Record loads (d : DB) (g : @Gateway DB T Sys) (res : option (gmap Z PortmapResource)) (l : list PortmapApp)
    (rs : gmap Z PortmapApp) (cfg : proxyServiceConfig) (c : @proxyClient DB T Sys) : Prop := mkLoads {
  ld_res : NewPortmapResMgr d = inl (mkResMgr d res);
  ld_apps : LoadPortmapApps range_apps (NewPortmapAppMgr d) = (Ret (l, None), mkAppMgr d (Some rs));
  ld_cli : exists m, newProxyClient d (gw_os g) (gw_engine g) = inl (mkPc (mkObMgr d m) false (gw_engine g) newProxyRouter (gw_os g)) /\
    ProxyClient.Start (mkPc (mkObMgr d m) false (gw_engine g) newProxyRouter (gw_os g)) = (Ret tt, c);
  ld_cfg : load_into keyProxyServiceConfig psc_zero d = inl cfg
}.

Lemma load_managers_run p res l rs cfg c : let g := r_gw p in loads (g_db (gw_core g)) g res l rs cfg c ->
  load_managers p = (Ret (inl l), mkProcess (r_net p) (r_cwd p) (r_db p) (r_pe p) true (r_socks p) (r_api p)
    (mkGw (mkCore (ob_db (pc_mgr c)) res (Some rs) (g_proxySvc (gw_core g)) (trial (gw_core g)) (g_rand (gw_core g)))
       (gw_pm g) (outbounds (pc_mgr c)) (tunStackRunning c) (pc_engine c) (pc_router c) (ProxyClient.os c) (gw_outbound g))).
Proof.
  destruct p as [n w d pe cli so api g]. intros g0 [Hres Happs (m & Hnew & Hstart) _]. unfold g0 in *. clear g0.
  cbn [r_gw r_net r_cwd r_db r_pe r_cli r_socks r_api] in *.
  destruct g as [[db0 r0 a0 s0 t0 n0] gpm gobs gtun geng grt gos gout]. cbn [gw_core g_db gw_os gw_engine gw_pm gw_outbound g_proxySvc trial g_rand] in *.
  set (P cli g := mkProcess n w d pe cli so api g).
  set (G db r a m tun e rt o := @mkGw DB T Sys (mkCore db r a s0 t0 n0) gpm m tun e rt o gout).
  change (load_managers (P cli (G db0 r0 a0 gobs gtun geng grt gos)) =
    (Ret (inl l), P true (G (ob_db (pc_mgr c)) res (Some rs) (outbounds (pc_mgr c)) (tunStackRunning c) (pc_engine c) (pc_router c) (ProxyClient.os c)))).
  assert (H3 : on_gw (core (pam (LoadPortmapApps range_apps))) (P cli (G db0 res (Some ∅) gobs gtun geng grt gos)) =
    (Ret (l, None), P cli (G db0 res (Some rs) gobs gtun geng grt gos))).
  { apply on_gw_Ret. unfold core, pam, zoom. cbn [r_gw P gw_core G g_db g_apps].
    change (mkAppMgr db0 (Some ∅)) with (NewPortmapAppMgr db0). by rewrite Happs. }
  assert (H6 : on_gw (proxyCli ProxyClient.Start) (P true (G db0 res (Some rs) m false geng newProxyRouter gos)) =
    (Ret tt, P true (G (ob_db (pc_mgr c)) res (Some rs) (outbounds (pc_mgr c)) (tunStackRunning c) (pc_engine c) (pc_router c) (ProxyClient.os c)))).
  { apply on_gw_Ret. unfold proxyCli, zoom. cbn [r_gw P gw_core G g_db gw_obs gw_tun gw_engine gw_router gw_os]. by rewrite Hstart. }
  unfold load_managers. unfold bind at 1, get at 1. cbn [r_gw P gw_core G g_db]. rewrite Hres.
  rewrite (bind_Ret (on_gw (core (prm (put (mkResMgr db0 res))))) _ (P cli (G db0 r0 a0 gobs gtun geng grt gos)) tt (P cli (G db0 res a0 gobs gtun geng grt gos)) eq_refl).
  rewrite (bind_Ret (on_gw (core (pam (modify (fun a => NewPortmapAppMgr (app_db a)))))) _ (P cli (G db0 res a0 gobs gtun geng grt gos)) tt (P cli (G db0 res (Some ∅) gobs gtun geng grt gos)) eq_refl).
  rewrite (bind_Ret _ _ _ _ _ H3). unfold bind at 1, get at 1. cbn [r_gw P gw_core G g_db gw_os gw_engine]. rewrite Hnew.
  rewrite (bind_Ret (on_gw (proxyCli (put (mkPc (mkObMgr db0 m) false geng newProxyRouter gos)))) _ (P cli (G db0 res (Some rs) gobs gtun geng grt gos)) tt (P cli (G db0 res (Some rs) m false geng newProxyRouter gos)) eq_refl).
  rewrite (bind_Ret set_cli _ (P cli (G db0 res (Some rs) m false geng newProxyRouter gos)) tt (P true (G db0 res (Some rs) m false geng newProxyRouter gos)) eq_refl).
  by rewrite (bind_Ret _ _ _ _ _ H6).
Qed.

Lemma load_settings_run p cfg : load_into keyProxyServiceConfig psc_zero (g_db (gw_core (r_gw p))) = inl cfg ->
  let g := r_gw p in
  load_settings p = (Ret None, mkProcess (r_net p) (r_cwd p) (r_db p) (r_pe p) (r_cli p) (r_socks p) (r_api p)
    (mkGw (mkCore (g_db (gw_core g)) (g_resources (gw_core g)) (g_apps (gw_core g)) (Some cfg) (trial (gw_core g)) (g_rand (gw_core g)))
       (gw_pm g) (gw_obs g) (gw_tun g) (gw_engine g) (gw_router g) (gw_os g) (psc_ProxyAddr cfg, psc_ProxyUser cfg, psc_ProxyPass cfg))).
Proof.
  destruct p as [n w d pe cli so api [[db0 r0 a0 s0 t0 n0] gpm gobs gtun geng grt gos gout]].
  cbn [r_gw r_net r_cwd r_db r_pe r_cli r_socks r_api gw_core g_db]. intros Hcfg.
  set (P s out := mkProcess n w d pe cli so api (@mkGw DB T Sys (mkCore db0 r0 a0 s t0 n0) gpm gobs gtun geng grt gos out)).
  assert (H : on_gw (core (proxySvc loadConfig)) (P (Some psc_zero) gout) = (Ret None, P (Some cfg) gout)).
  { apply on_gw_Ret. unfold core, proxySvc, zoom, loadConfig, bind, get. cbn [r_gw P gw_core g_proxySvc g_db config ps_db]. by rewrite Hcfg. }
  change (load_settings (P s0 gout) = (Ret None, P (Some cfg) (psc_ProxyAddr cfg, psc_ProxyUser cfg, psc_ProxyPass cfg))).
  unfold load_settings. rewrite (bind_Ret (on_gw (core (set_proxySvc psc_zero))) _ (P s0 gout) tt (P (Some psc_zero) gout) eq_refl).
  rewrite (bind_Ret _ _ _ _ _ H). rewrite (bind_Ret (on_gw (core (proxySvc getConfig))) _ (P (Some cfg) gout) cfg (P (Some cfg) gout) eq_refl).
  done.
Qed.

Lemma start_services_run p l rs : os_ok Listen -> g_apps (gw_core (r_gw p)) = Some rs -> Forall app_ok l ->
  NoDup (map (fun a => Uint64 (app_ID a)) l) ->
  let g := r_gw p in let base := socks (gw_pm g) in
  exists d rs' m, start_services l p = (Ret tt, mkProcess (r_net p) (r_cwd p) (r_db p) (r_pe p) (r_cli p)
      (Some (trial (gw_core g))) (r_api p) (with_apps d rs' m g)) /\ pm_inv base m /\ stopped_some l rs rs' /\
    (forall a, a ∈ l -> app_Running a = true -> listened a m \/ rs' !! Uint64 (app_ID a) = Some (set_stopped "" a)).
Proof.
  destruct p as [n w d pe cli so api g]. cbn [r_gw r_net r_cwd r_db r_pe r_cli r_socks r_api]. intros Hos Hrs Hok Hnd.
  set (g0 := set_pm (NewPortMap (socks (gw_pm g))) g).
  destruct (start_all_run Listen Hos _ gateway_starts_app (socks (gw_pm g)) l g0 _ rs eq_refl Hrs Hok Hnd (pm_inv_new _) eq_refl)
    as (d' & rs' & m & E & _ & HI & _ & Hst & Hl & _).
  exists d', rs', m. split; [|done]. unfold start_services.
  set (P so g := mkProcess n w d pe cli so api g). change (start_services l (P so g) = (Ret tt, P (Some (trial (gw_core g))) (with_apps d' rs' m g))).
  unfold start_services. rewrite (bind_Ret (on_gw (pm (modify (fun m => NewPortMap (socks m))))) _ (P so g) tt (P so g0) eq_refl).
  unfold bind at 1, get at 1.
  rewrite (bind_Ret (set_socks (trial (gw_core g))) _ (P so g0) tt (P (Some (trial (gw_core g))) g0) eq_refl).
  exact (on_gw_Ret _ (P (Some (trial (gw_core g))) g0) _ _ E).
Qed.

(** C26. What a gateway that starts holds is what its store says.  Once the host
    is up, and the store can be read, the gateway has the stored resources,
    applications and outbounds and the stored settings, the latter also as the
    SOCKS5 server's outbound proxy; every stored application that was running
    listens on its network and address or is held stopped, and no other
    application changes; the SOCKS5 server lets everybody in exactly in the
    trial mode.  Then it serves, or ends with the system's error when the port
    of the console cannot be had. *)
Theorem gateway_start conf p exe p1 pe res l rs cfg c :
  Executable = inl exe -> start_host conf exe p = (Ret (inl pe), p1) ->
  let g := r_gw p1 in
  loads (g_db (gw_core g)) g res l rs cfg c -> os_ok Listen -> Forall app_ok l ->
  NoDup (map (fun a => Uint64 (app_ID a)) l) ->
  exists d rs' m p2, let started := with_apps d rs' m (loaded res rs cfg c g) in
    pm_inv (socks (gw_pm g)) m /\ stopped_some l rs rs' /\
    (forall a, a ∈ l -> app_Running a = true -> listened a m \/ rs' !! Uint64 (app_ID a) = Some (set_stopped "" a)) /\
    r_socks p2 = Some (trial (gw_core g)) /\ r_pe p2 = r_pe p1 /\
    match Listen true "0.0.0.0" 3000 (socks m) with
    | inl (h, _) => Run conf p = (Ret Serving, p2) /\ r_api p2 = Some h /\
        exists m', r_gw p2 = set_pm m' started /\ listeners m' = listeners m
    | inr e => Run conf p = (Ret (Returned (Some e)), p2) /\ r_api p2 = r_api p1 /\ r_gw p2 = started
    end.
Proof.
  intros Hexe Hhost g Hloads Hos Hok Hnd.
  pose proof (load_managers_run p1 res l rs cfg c Hloads) as H1. fold g in H1.
  match type of H1 with _ = (_, ?q) => set (p3 := q) in * end.
  assert (Hcfg : load_into keyProxyServiceConfig psc_zero (g_db (gw_core (r_gw p3))) = inl cfg).
  { cbn. rewrite <- (ld_cfg _ _ _ _ _ _ _ Hloads). destruct (ld_cli _ _ _ _ _ _ _ Hloads) as (m & _ & Hstart).
    pose proof (Start_other (mkPc (mkObMgr (g_db (gw_core g)) m) false (gw_engine g) newProxyRouter (gw_os g))) as Ho.
    rewrite Hstart in Ho. cbn in Ho. unfold load_into. by rewrite Ho. }
  pose proof (load_settings_run p3 cfg Hcfg) as H2. cbv zeta in H2.
  match type of H2 with _ = (_, ?q) => set (p4 := q) in * end.
  destruct (start_services_run p4 l rs Hos eq_refl Hok Hnd) as (d & rs' & m & H3 & HI & Hst & Hl). cbv zeta in H3.
  change (with_apps d rs' m (r_gw p4)) with (with_apps d rs' m (loaded res rs cfg c g)) in H3.
  match type of H3 with _ = (_, ?q) => set (p5 := q) in * end.
  assert (Hrun : Run conf p = (err <- listen_api ;; match err with Some e => ret (Returned (Some e)) | None => ret Serving end) p5).
  { unfold Run. rewrite Hexe, (bind_Ret _ _ _ _ _ Hhost), (bind_Ret _ _ _ _ _ H1), (bind_Ret _ _ _ _ _ H2), (bind_Ret _ _ _ _ _ H3). done. }
  exists d, rs', m. unfold listen_api in Hrun. rewrite bind_assoc in Hrun. unfold bind at 1, get at 1 in Hrun.
  change (socks (gw_pm (r_gw p5))) with (socks m) in Hrun.
  destruct (Listen true "0.0.0.0" 3000 (socks m)) as [[h addr]|e].
  - set (m' := mkPortmap (listeners m) (<[h := (true, "0.0.0.0", addr)]> (socks m)) (connEngine m)).
    exists (mkProcess (r_net p5) (r_cwd p5) (r_db p5) (r_pe p5) (r_cli p5) (r_socks p5) (Some h) (set_pm m' (r_gw p5))).
    cbv zeta. split_and!; [exact HI|exact Hst|exact Hl|done|done|exact Hrun|done|]. by exists m'.
  - exists p5. cbv zeta. split_and!; try done.
Qed.

(** A start that fails leaves a gateway that cannot be stopped: whatever
    made [Run] return, the console's listener is still nil, so that [Stop], which
    the program calls on its next signal, crashes before it has closed anything. *)
Theorem failed_start conf p e p' : r_api p = None -> Run conf p = (Ret (Returned e), p') ->
  r_api p' = None /\ Stop p' = (Panic, p').
Proof.
  intros Hn Hrun. assert (Hn' : r_api p' = None) by (by rewrite (api_run conf p e p' Hrun)).
  split; [done|]. unfold Stop, bind, get. by rewrite Hn'.
Qed.
End Run.

(** * Concrete inputs *)

#[local] Existing Instance ex_system.

Definition ex_conf : Config := mkConfig "" "" LogFile 3.
Definition ex_db_with (a : PortmapApp) : memdb :=
  mkMem {[ adminPassword := "admin123"; keyPortmapApps := Marshal ({[ Uint64 (app_ID a) := a ]} : gmap Z PortmapApp) ]} None.
Definition ex_run_app (port : Z) : PortmapApp := mkApp (mkID 9) "web" "peer" (mkID 7) "tcp" "0.0.0.0" port "" 80 true "" "".
Definition ex_process : @Process memdb (node (routeItem PeerWithAuth)) ex_system :=
  mkProcess (mkNet Identity.ex_empty ∅ ∅ 0) "/" false None false None None
    (mkGw (mkCore mem_empty None None None false 0) (NewPortMap ∅) None false engine_zero newProxyRouter [] ("", "", "")).


Abbreviation ex_run a := (Run ex_listen map_to_list (inl "/opt/uptp/gateway") (fun _ => true) (fun _ => inl (ex_db_with a))
  (fun _ => inr EOF) (fun _ _ => None) inl None (fun _ _ => inl ex_addrs) (fun _ _ => None) (inl ex_uuid) false 42 ex_conf ex_process).
Abbreviation ex_start_host a := (start_host (Sys := ex_system) (fun _ => true) (fun _ => inl (ex_db_with a))
  (fun _ => inr EOF) (fun _ _ => None) inl None (fun _ _ => inl ex_addrs) (fun _ _ => None) (inl ex_uuid) false 42 ex_conf
  "/opt/uptp/gateway" ex_process).

Example ex_started : (ex_run (ex_run_app 9000)).1 = Ret Serving.
Proof. vm_compute. reflexivity. Qed.
Example ex_console : (ex_run (ex_run_app 3000)).1 = Ret (Returned (Some (ErrText "bind: address already in use"))).
Proof. vm_compute. reflexivity. Qed.

Definition ex_host : @Process memdb (node (routeItem PeerWithAuth)) ex_system := (ex_start_host (ex_run_app 9000)).2.
Definition ex_apps : gmap Z PortmapApp := {[ 9 := ex_run_app 9000 ]}.

Definition ex_cli : @proxyClient memdb (node (routeItem PeerWithAuth)) ex_system :=
  mkPc (mkObMgr (g_db (gw_core (r_gw ex_host))) None) false engine_zero newProxyRouter [].

Lemma ex_loads : loads map_to_list (g_db (gw_core (r_gw ex_host))) (r_gw ex_host) None [ex_run_app 9000] ex_apps psc_zero ex_cli.
Proof.
  split; [vm_compute; reflexivity|vm_compute; reflexivity| |vm_compute; reflexivity].
  exists None. split; vm_compute; reflexivity.
Qed.

Lemma ex_host_up : exists pe, ex_start_host (ex_run_app 9000) = (Ret (inl pe), ex_host).
Proof.
  assert (H : exists pe, (ex_start_host (ex_run_app 9000)).1 = Ret (inl pe)) by (eexists; vm_compute; reflexivity).
  destruct H as (pe & H). exists pe. unfold ex_host. destruct (ex_start_host (ex_run_app 9000)) as [o p1]. cbn in *. by rewrite H.
Qed.

Lemma gateway_start_witness : exists p2 m, (ex_run (ex_run_app 9000)).2 = p2 /\
  listeners (gw_pm (r_gw p2)) = listeners m /\ pm_inv ∅ m /\ r_socks p2 = Some false.
Proof.
  pose proof ex_loads as Hl. destruct ex_host_up as (pe & E).
  destruct (gateway_start ex_listen map_to_list (inl "/opt/uptp/gateway") (fun _ => true) (fun _ => inl (ex_db_with (ex_run_app 9000)))
    (fun _ => inr EOF) (fun _ _ => None) inl None (fun _ _ => inl ex_addrs) (fun _ _ => None) (inl ex_uuid) false 42 ex_conf ex_process
    "/opt/uptp/gateway" ex_host pe None [ex_run_app 9000] ex_apps psc_zero ex_cli eq_refl E Hl ex_os_ok) as (d & rs' & m & p2 & H).
  - constructor; [|constructor]. split; [reflexivity|vm_compute; split; congruence].
  - apply NoDup_singleton.
  - destruct H as (HI & _ & _ & Hs & _ & Hm). exists p2, m. destruct (ex_listen true "0.0.0.0" 3000 (socks m)) as [[h a]|e].
    + destruct Hm as (Hrun & _ & m' & Hg & Hls). split; [exact (f_equal snd Hrun)|]. split; [by rewrite Hg|]. split; [exact HI|exact Hs].
    + destruct Hm as (Hrun & _ & Hg). split; [exact (f_equal snd Hrun)|]. split; [by rewrite Hg|]. split; [exact HI|exact Hs].
Defined.

Lemma failed_start_witness : exists p', ex_run (ex_run_app 3000) =
    (Ret (Returned (Some (ErrText "bind: address already in use"))), p') /\ r_api p' = None /\ (Stop (Sys := ex_system) id p').1 = Panic.
Proof.
  destruct (ex_run (ex_run_app 3000)) as [o p'] eqn:E. exists p'. pose proof ex_console as H. rewrite E in H. cbn in H. subst o.
  split; [done|].
  destruct (failed_start ex_listen map_to_list (inl "/opt/uptp/gateway") (fun _ => true) (fun _ => inl (ex_db_with (ex_run_app 3000)))
    (fun _ => inr EOF) id (fun _ _ => None) inl None (fun _ _ => inl ex_addrs) (fun _ _ => None) (inl ex_uuid) false 42 ex_conf ex_process
    _ p' eq_refl E) as [H1 H2].
  split; [exact H1|]. by rewrite H2.
Defined.
