(* ===== verification/GatewayMain.v ===== *)
(** src/gateway/cmd/main.go, the process of a gateway: [Run] in a goroutine of
    its own, [main] waiting for a signal or for the console's exit value and then
    calling [Stop], and the requests the console serves meanwhile.  The theorems:
    the goroutine's stages are [Run]; a process ends in order only after its
    console was up, with its console and its host closed, and never when [Run]
    failed; and once it is asked to stop it ends. *)
From S2P Require Import Prelude GoText GoIo GoOs GoNet Json Codec TypesId Store PortmapRes PortmapApp ProxyService Portmap AppStart Session.
From S2P Require Import GwCore Logger Identity P2p Avl ProxyRouter Socks5Util Socks5Client Socks5Rfc TunStack ProxyClient GatewayApi GatewayRun.

(** Where [Run] stands: before one of its stages, serving, or returned. *)
Inductive run_pc :=
  | RBegin | RManagers | RSettings (pmApps : list PortmapApp) | RServices (pmApps : list PortmapApp) | RListen
  | RServing | RReturned (err : option error).

(** Where [main] stands: before [signal.Notify], at its select, before [Stop],
    at [wg.Wait], and the ways the process ends: returned, killed by a signal
    nobody handles yet, crashed by a panic. *)
Inductive main_pc := MNotify | MSelect | MStop | MWait | MExited | MKilled | MCrashed.

Definition alive (m : main_pc) : bool := match m with MNotify | MSelect | MStop | MWait => true | _ => false end.

Section Main.
Context {DB : Type} {Db : LevelDB DB} {Dbl : LevelDBLaws DB}.
Context {T : Type} {Tree : AvlTree (routeItem PeerWithAuth) T} {TreeLaws : AvlLaws (routeItem PeerWithAuth) T}.
Context {Lib : Socks5Lib} {Sys : System}.
Context (Listen : bool -> string -> Z -> sockets -> (nat * string) + error).
Context (range_apps : gmap Z PortmapApp -> list (Z * PortmapApp)).
Context (Executable : string + error) (Chdir : string -> bool).
Context (OpenDB : string -> DB + (error * bool)) (RecoverDB : string -> DB + error) (CloseDB : DB -> DB).
Context (NewDatastore : string -> gset string -> option error)
        (GenerateEd25519Key : string -> string + error)
        (NewResourceManager : option error)
        (libp2p_New : Options -> gmap nat Options -> list Multiaddr + error)
        (dht_New : Options -> DhtOptions -> option error)
        (NewRandom : string + error) (windows : bool) (Getpid : Z).
Context (conf : Config).

Abbreviation process := (@Process DB T Sys).
Abbreviation host_stage := (start_host (T := T) (Sys := Sys) Chdir OpenDB RecoverDB NewDatastore GenerateEd25519Key NewResourceManager
  libp2p_New dht_New NewRandom windows Getpid conf).
Abbreviation the_Run := (Run Listen range_apps Executable Chdir OpenDB RecoverDB NewDatastore GenerateEd25519Key NewResourceManager
  libp2p_New dht_New NewRandom windows Getpid conf).
Abbreviation the_Stop := (Stop (Sys := Sys) CloseDB).

(** The next stage of [Run]. *)
Definition run_step (pc : run_pc) : GoM process run_pc :=
  match pc with
  | RBegin =>
      match Executable with
      | inr e => ret (RReturned (Some e))
      | inl exe => pe <- host_stage exe ;; ret (match pe with inr err => RReturned err | inl _ => RManagers end)
      end
  | RManagers =>
      apps <- load_managers range_apps ;; ret (match apps with inr e => RReturned (Some e) | inl l => RSettings l end)
  | RSettings l => err <- load_settings ;; ret (match err with Some e => RReturned (Some e) | None => RServices l end)
  | RServices l => start_services Listen l ;;; ret RListen
  | RListen => err <- listen_api Listen ;; ret (match err with Some e => RReturned (Some e) | None => RServing end)
  | _ => ret pc
  end.

Fixpoint run_from (n : nat) (pc : run_pc) : GoM process run_pc :=
  match n with O => ret pc | S n => pc <- run_step pc ;; run_from n pc end.

Definition of_result (r : run_result) : run_pc := match r with Serving => RServing | Returned e => RReturned e end.

Lemma run_from_done n pc p : match pc with RServing | RReturned _ => run_from n pc p = (Ret pc, p) | _ => True end.
Proof. induction n as [|n IH]; destruct pc; try done; cbn [run_from run_step]; by rewrite bind_ret. Qed.

(** The stages one after the other are [Run]. *)
Theorem stages_are_Run p : run_from 5 RBegin p = (r <- the_Run ;; ret (of_result r)) p.
Proof.
  unfold Run. cbn [run_from run_step]. destruct Executable as [exe|e]; [|done].
  destruct (host_stage exe p) as [o p1] eqn:E1. rewrite !bind_assoc, !(bind_eq _ _ _ _ _ E1). destruct o as [[pe|err]|]; [|done..].
  rewrite bind_ret. cbn [run_step].
  destruct (load_managers range_apps p1) as [o p2] eqn:E2. rewrite !bind_assoc, !(bind_eq _ _ _ _ _ E2). destruct o as [[l|e]|]; [|done..].
  rewrite bind_ret. cbn [run_step].
  destruct (load_settings p2) as [o p3] eqn:E3. rewrite !bind_assoc, !(bind_eq _ _ _ _ _ E3). destruct o as [[e|]|]; [done| |done].
  rewrite bind_ret. cbn [run_step].
  destruct (start_services Listen l p3) as [o p4] eqn:E4. rewrite !bind_assoc, !(bind_eq _ _ _ _ _ E4). destruct o as [[]|]; [|done].
  rewrite bind_ret. cbn [run_step].
  destruct (listen_api Listen p4) as [o p5] eqn:E5. rewrite !bind_assoc, !(bind_eq _ _ _ _ _ E5). by destruct o as [[e|]|].
Qed.

(** * The goroutines *)

Record world := mkWorld { w_p : process; w_run : run_pc; w_main : main_pc }.

(** The gateway of a process that a request has changed; its console's socket is
    not the handlers'. *)
Definition with_gw (g : @Gateway DB T Sys) (p : process) : process :=
  mkProcess (r_net p) (r_cwd p) (r_db p) (r_pe p) (r_cli p) (r_socks p) (r_api p) g.

Inductive work : world -> world -> Prop :=
  | work_run p pc m pc' p' : alive m = true -> (match pc with RServing | RReturned _ => False | _ => True end) ->
      run_step pc p = (Ret pc', p') -> work (mkWorld p pc m) (mkWorld p' pc' m)
  | work_panic p pc m p' : alive m = true -> run_step pc p = (Panic, p') -> work (mkWorld p pc m) (mkWorld p' pc MCrashed)
  | work_served p m e : alive m = true -> work (mkWorld p RServing m) (mkWorld p (RReturned (Some e)) m)
  | work_notify p pc : work (mkWorld p pc MNotify) (mkWorld p pc MSelect)
  | work_stop p pc p' : the_Stop p = (Ret tt, p') -> work (mkWorld p pc MStop) (mkWorld p' pc MWait)
  | work_stop_panic p pc p' : the_Stop p = (Panic, p') -> work (mkWorld p pc MStop) (mkWorld p' pc MCrashed)
  | work_exit p e : work (mkWorld p (RReturned e) MWait) (mkWorld p (RReturned e) MExited).

(** What comes from outside: a signal, a request, and the exit value a request
    sends when [main] is at its select. *)
Inductive event : world -> world -> Prop :=
  | event_killed p pc : event (mkWorld p pc MNotify) (mkWorld p pc MKilled)
  | event_signal p pc : event (mkWorld p pc MSelect) (mkWorld p pc MStop)
  | event_request p pc m h g : alive m = true -> r_api p = Some h -> socks (gw_pm g) !! h = socks (gw_pm (r_gw p)) !! h ->
      event (mkWorld p pc m) (mkWorld (with_gw g p) pc m)
  | event_restart p pc h : r_api p = Some h -> event (mkWorld p pc MSelect) (mkWorld p pc MStop).

Definition wstep (w w' : world) : Prop := work w w' \/ event w w'.
Definition world_new (p : process) : world := mkWorld p RBegin MNotify.

(** * What [Stop] does *)

Lemma Stop_spec p p' : the_Stop p = (Ret tt, p') -> exists h pe, r_api p = Some h /\ r_pe p = Some pe /\
  r_api p' = Some h /\ r_pe p' = Some pe /\ socks (gw_pm (r_gw p')) !! h = None /\
  hosts (r_net p') = delete (p_host pe) (hosts (r_net p)).
Proof.
  unfold Stop, bind at 1, get. destruct (r_api p) as [h|] eqn:Eh; [|done]. intros H.
  apply bind_inv in H as ([] & p1 & [= <-] & H).
  destruct (negb (r_cli p)); [done|]. apply bind_inv in H as ([] & p2 & E & H).
  unfold on_gw, zoom in E. destruct (proxyCli ProxyClient.Stop _) as [[[]|] g2] eqn:Eg; [|done]. injection E as <-.
  destruct (r_pe p) as [pe|] eqn:Ep; [|done]. apply bind_inv in H as ([] & p3 & [= <-] & H).
  destruct (r_db p); [|done]. injection H as <-. exists h, pe. split_and!; try done.
  unfold proxyCli, zoom in Eg. destruct (ProxyClient.Stop _) as [o c]. injection Eg as _ <-. cbn. apply lookup_delete_eq.
Qed.

Lemma Stop_keeps_api p : r_api (the_Stop p).2 = r_api p.
Proof.
  unfold Stop. apply keeps_bind; [done|intros q]. destruct (r_api q); [|done].
  apply keeps_bind; [apply keeps_on_gw|intros _]. destruct (negb _); [done|].
  apply keeps_bind; [apply keeps_on_gw|intros _]. destruct (r_pe q); [|done].
  apply keeps_bind; [apply keeps_on_net|intros _]. destruct (r_db q); [apply keeps_on_gw|done].
Qed.

(** * The stages *)

Definition rank (pc : run_pc) : nat :=
  match pc with RBegin => 6 | RManagers => 5 | RSettings _ => 4 | RServices _ => 3 | RListen => 2 | RServing => 1 | RReturned _ => 0 end.
Definition ended (pc : run_pc) : bool := match pc with RServing | RReturned _ => true | _ => false end.

(** A stage leads to a later one, and only the last to the console's listener. *)
Lemma run_step_next pc p o p' : ended pc = false -> r_api p = None -> run_step pc p = (o, p') ->
  match o with
  | Panic => r_api p' = None
  | Ret pc' => (rank pc' < rank pc)%nat /\ match pc' with RServing => is_Some (r_api p') | _ => r_api p' = None end
  end.
Proof.
  intros Hpc Hp E. destruct pc; try done; cbn [run_step] in E.
  - destruct Executable as [exe|e]; [|injection E as <- <-; split; [cbn; lia|done]]. destruct (host_stage exe p) as [o1 p1] eqn:E1.
    pose proof (keeps_start_host Chdir OpenDB RecoverDB NewDatastore GenerateEd25519Key NewResourceManager libp2p_New dht_New
      NewRandom windows Getpid conf exe p) as Hk. rewrite E1 in Hk. cbn in Hk.
    rewrite (bind_eq _ _ _ _ _ E1) in E. destruct o1 as [[pe|err]|]; injection E as <- <-; [split; [cbn; lia|]..|congruence]; by rewrite Hk.
  - destruct (load_managers range_apps p) as [o1 p1] eqn:E1. pose proof (keeps_load_managers range_apps p) as Hk. rewrite E1 in Hk. cbn in Hk.
    rewrite (bind_eq _ _ _ _ _ E1) in E. destruct o1 as [[l|err]|]; injection E as <- <-; [split; [cbn; lia|]..|congruence]; by rewrite Hk.
  - destruct (load_settings p) as [o1 p1] eqn:E1. pose proof (keeps_load_settings p) as Hk. rewrite E1 in Hk. cbn in Hk.
    rewrite (bind_eq _ _ _ _ _ E1) in E. destruct o1 as [[e|]|]; injection E as <- <-; [split; [cbn; lia|]..|congruence]; by rewrite Hk.
  - destruct (start_services Listen pmApps p) as [o1 p1] eqn:E1. pose proof (keeps_start_services Listen pmApps p) as Hk. rewrite E1 in Hk. cbn in Hk.
    rewrite (bind_eq _ _ _ _ _ E1) in E. destruct o1 as [[]|]; injection E as <- <-; [split; [cbn; lia|]; by rewrite Hk|congruence].
  - unfold listen_api in E. rewrite bind_assoc in E. unfold bind at 1, get in E. cbn beta iota in E.
    destruct (Listen true "0.0.0.0" 3000 (socks (gw_pm (r_gw p)))) as [[h a]|e].
    + unfold on_gw, pm, zoom, set_api, modify, bind, ret in E. injection E as <- <-. split; [cbn; lia|]. by eexists.
    + injection E as <- <-. split; [cbn; lia|done].
Qed.

Lemma run_from_snoc n pc0 p0 pc p o p' : run_from n pc0 p0 = (Ret pc, p) -> run_step pc p = (o, p') -> run_from (S n) pc0 p0 = (o, p').
Proof.
  revert pc0 p0. induction n as [|n IH]; intros pc0 p0 H E.
  - injection H as -> ->. cbn [run_from]. rewrite (bind_eq _ _ _ _ _ E). by destruct o.
  - cbn [run_from] in H. apply bind_inv in H as (pc1 & p1 & E1 & H). cbn [run_from]. rewrite (bind_Ret _ _ _ _ _ E1). by apply IH.
Qed.

(** However many stages it took, five are enough. *)
Lemma run_from_enough n m pc p pc' p' : r_api p = None -> ended pc' = true -> run_from n pc p = (Ret pc', p') -> (rank pc <= S m)%nat ->
  run_from m pc p = (Ret pc', p').
Proof.
  revert m pc p. induction n as [|n IH]; intros m pc p Hp He H Hm.
  - injection H as <- <-. pose proof (run_from_done m pc p). by destruct pc.
  - destruct (ended pc) eqn:Hpc.
    { pose proof (run_from_done (S n) pc p) as H1. pose proof (run_from_done m pc p) as H2. destruct pc; try done; congruence. }
    cbn [run_from] in H. apply bind_inv in H as (pc1 & p1 & E1 & H). pose proof (run_step_next pc p _ _ Hpc Hp E1) as [Hr Ha].
    destruct m as [|m]; [destruct pc; cbn in Hm, Hpc; try done; lia|]. cbn [run_from]. rewrite (bind_Ret _ _ _ _ _ E1).
    destruct pc1; try (apply IH; [done..|lia]).
    pose proof (run_from_done n RServing p1) as H1. pose proof (run_from_done m RServing p1) as H2. congruence.
Qed.

(** * Reachable worlds *)

(** As long as there is no listener of the console the process is what the
    stages of [Run] made of it; then it is [Run]'s, and its end [Stop]'s. *)
Definition reached (p0 : process) (w : world) : Prop :=
  match r_api (w_p w) with
  | None =>
      match w_main w with MWait | MExited => False | _ => True end /\ w_run w <> RServing /\
      (alive (w_main w) = true -> exists n, run_from n RBegin p0 = (Ret (w_run w), w_p w))
  | Some h =>
      (exists p, the_Run p0 = (Ret Serving, p)) /\ ended (w_run w) = true /\
      match w_main w with
      | MWait | MExited => socks (gw_pm (r_gw (w_p w))) !! h = None /\
          exists pe, r_pe (w_p w) = Some pe /\ hosts (r_net (w_p w)) !! p_host pe = None
      | _ => True
      end
  end.

Lemma serving_is_Run p0 n p : r_api p0 = None -> run_from n RBegin p0 = (Ret RServing, p) -> the_Run p0 = (Ret Serving, p).
Proof.
  intros H0 H. assert (H5 : run_from 5 RBegin p0 = (Ret RServing, p)) by (by apply (run_from_enough n)).
  rewrite stages_are_Run in H5. apply bind_inv in H5 as (r & p1 & E & [= Hr <-]). destruct r; [done|discriminate Hr].
Qed.

Lemma reached_work p0 w w' : r_api p0 = None -> reached p0 w -> work w w' -> reached p0 w'.
Proof.
  intros H0 H Hw. unfold reached in *. destruct Hw as [p pc m pc' p' Hm Hpc E|p pc m p' Hm E|p m e Hm|p pc|p pc p' E|p pc p' E|p e];
    cbn [w_p w_run w_main] in *.
  - destruct (r_api p) as [h|] eqn:Ep; [destruct H as (_ & He & _); by destruct pc|]. destruct H as (Hm1 & _ & Hn).
    destruct (Hn Hm) as [n Hrun]. pose proof (run_from_snoc _ _ _ _ _ _ _ Hrun E) as Hrun'.
    assert (He : ended pc = false) by (by destruct pc). pose proof (run_step_next pc p _ _ He Ep E) as [_ Ha].
    destruct (r_api p') as [h|] eqn:Ep'.
    + destruct pc'; try done. split; [exists p'; by apply (serving_is_Run p0 (S n))|]. split; [done|]. by destruct m.
    + split; [done|]. split; [by intros ->; destruct Ha|]. intros _. by exists (S n).
  - destruct (r_api p) as [h|] eqn:Ep.
    + destruct H as (_ & He & _). destruct pc; try done; cbn in E; unfold ret in E; discriminate E.
    + destruct H as (Hm1 & Hs & Hn). assert (He : ended pc = false) by (destruct pc; try done; cbn in E; unfold ret in E; discriminate E).
      by rewrite (run_step_next pc p _ _ He Ep E : r_api p' = None).
  - destruct (r_api p) as [h|]; [done|]. by destruct H as (_ & Hs & _).
  - destruct (r_api p); exact H.
  - destruct (Stop_spec p p' E) as (h & pe & H1 & H2 & H3 & H4 & H5 & H6). rewrite H1 in H. rewrite H3.
    destruct H as (HR & He & _). split; [done|]. split; [done|]. split; [done|]. exists pe. split; [done|]. rewrite H6. apply lookup_delete_eq.
  - pose proof (Stop_keeps_api p) as Hk. rewrite E in Hk. cbn in Hk. rewrite Hk. destruct (r_api p); [by destruct H as (? & ? & _)|].
    by destruct H as (_ & Hs & _).
  - destruct (r_api p); [exact H|by destruct H].
Qed.

Lemma reached_event p0 w w' : reached p0 w -> event w w' -> reached p0 w'.
Proof.
  intros H Hw. unfold reached in *. destruct Hw as [p pc|p pc|p pc m h g Hm Hh Hg|p pc h Hh]; cbn [w_p w_run w_main] in *.
  - destruct (r_api p); [by destruct H as (? & ? & _)|by destruct H as (_ & ? & _)].
  - destruct (r_api p); exact H.
  - cbn [with_gw r_api r_gw r_net r_pe]. rewrite Hh in *. by rewrite Hg.
  - by rewrite Hh in *.
Qed.

Lemma reached_rtc p0 w : r_api p0 = None -> rtc wstep (world_new p0) w -> reached p0 w.
Proof.
  intros H0 Hr. apply (rtc_ind_r (fun w => reached p0 w) (world_new p0)) in Hr; [done| |].
  - unfold reached. cbn. rewrite H0. split; [done|]. split; [done|]. intros _. by exists 0%nat.
  - intros x y _ [Hw|He] Hx; [by apply (reached_work p0 x)|by apply (reached_event p0 x)].
Qed.

(** The stages as steps of the process. *)
Lemma run_from_steps n pc p pc' p' m : alive m = true -> run_from n pc p = (Ret pc', p') ->
  rtc wstep (mkWorld p pc m) (mkWorld p' pc' m).
Proof.
  intros Hm. revert pc p. induction n as [|n IH]; intros pc p H; [by injection H as <- <-|]. cbn [run_from] in H.
  apply bind_inv in H as (pc1 & p1 & E & H). destruct (ended pc) eqn:He.
  - assert (H1 : pc1 = pc /\ p1 = p) by (destruct pc; try done; injection E as <- <-; done). destruct H1 as [-> ->]. by apply IH.
  - eapply rtc_l; [left; eapply work_run; [done|by destruct pc|exact E]|]. by apply IH.
Qed.

(** What the two goroutines have left to do. *)
Definition left (w : world) : nat :=
  rank (w_run w) + match w_main w with MNotify => 4 | MSelect => 3 | MStop => 2 | MWait => 1 | _ => 0 end.
Definition stopping (w : world) : Prop := w_main w = MStop \/ w_main w = MWait.

(** C38. The life of a gateway's process, however its goroutines, the signals and
    the requests interleave.  It ends in order only when [Run] had got as far as
    serving the console, and then the console's socket and the host of the engine
    are closed; so when [Run] fails the process goes on waiting, and the signal
    that ends it crashes it.  Once it was asked to stop it ends: one of the two
    goroutines can always go on, each step of theirs brings the end nearer, and
    requests do not put it off. *)
Theorem gateway_life p0 w : r_api p0 = None -> rtc wstep (world_new p0) w ->
  (w_main w = MWait \/ w_main w = MExited ->
     (exists p, the_Run p0 = (Ret Serving, p)) /\
     exists h pe, r_api (w_p w) = Some h /\ socks (gw_pm (r_gw (w_p w))) !! h = None /\
       r_pe (w_p w) = Some pe /\ hosts (r_net (w_p w)) !! p_host pe = None) /\
  (forall e p, the_Run p0 = (Ret (Returned e), p) -> w_main w <> MExited /\
     (w_main w = MStop -> forall w', work w w' -> (w_main w' = MStop /\ (rank (w_run w') < rank (w_run w))%nat) \/ w_main w' = MCrashed)) /\
  (stopping w -> (exists w', work w w') /\
     forall w', wstep w w' -> (work w w' /\ (left w' < left w)%nat \/ event w w' /\ left w' = left w) /\
       (stopping w' \/ w_main w' = MExited \/ w_main w' = MCrashed)).
Proof.
  intros H0 Hr. pose proof (reached_rtc p0 w H0 Hr) as Hre.
  assert (Hord : w_main w = MWait \/ w_main w = MExited ->
     (exists p, the_Run p0 = (Ret Serving, p)) /\
     exists h pe, r_api (w_p w) = Some h /\ socks (gw_pm (r_gw (w_p w))) !! h = None /\
       r_pe (w_p w) = Some pe /\ hosts (r_net (w_p w)) !! p_host pe = None).
  { intros Hm. unfold reached in Hre. destruct (r_api (w_p w)) as [h|]; [|by destruct Hm as [Hm|Hm]; rewrite Hm in Hre; destruct Hre].
    destruct Hre as (HR & _ & Hc). split; [done|]. exists h. destruct Hm as [Hm|Hm]; rewrite Hm in Hc; destruct Hc as (Hs & pe & ? & ?); by exists pe. }
  split; [exact Hord|]. split.
  - intros e p HR. assert (Hno : forall q, the_Run p0 <> (Ret Serving, q)) by congruence. split.
    { intros Hm. destruct (Hord (or_intror Hm)) as [(q & Hq) _]. by destruct (Hno q). }
    intros Hm w' Hw. unfold reached in Hre. destruct (r_api (w_p w)) as [h|] eqn:Ea; [by destruct Hre as ((q & Hq) & _); destruct (Hno q)|].
    destruct Hw as [p1 pc m pc' p' Ham Hpc E|p1 pc m p' Ham E|p1 m e1 Ham|p1 pc|p1 pc p' E|p1 pc p' E|p1 e1];
      cbn [w_p w_run w_main] in *; subst; try discriminate.
    + left. split; [done|]. assert (He : ended pc = false) by (by destruct pc). by destruct (run_step_next pc p1 _ _ He Ea E).
    + by right.
    + left. split; [done|]. cbn. lia.
    + destruct (Stop_spec _ _ E) as (h & pe & H1 & _). congruence.
    + by right.
  - intros Hst. split.
    + destruct w as [p pc m]. cbn in Hst. destruct Hst as [Hm|Hm]; cbn in Hm; subst m.
      * destruct (the_Stop p) as [[[]|] p'] eqn:E; eexists; [by eapply work_stop|by eapply work_stop_panic].
      * destruct (ended pc) eqn:He.
        -- destruct pc; try done; eexists; [by apply (work_served _ _ EOF)|by apply work_exit].
        -- destruct (run_step pc p) as [[pc'|] p'] eqn:E; eexists; [by apply (work_run p pc _ pc' p'); [|destruct pc|]|by eapply work_panic].
    + intros w' Hw. unfold stopping in *. destruct Hw as [Hw|Hw].
      * assert (Hw' := Hw). unfold reached in Hre.
        destruct Hw as [p1 pc m pc' p' Ham Hpc E|p1 pc m p' Ham E|p1 m e1 Ham|p1 pc|p1 pc p' E|p1 pc p' E|p1 e1]; cbn [w_p w_run w_main left] in *.
        -- assert (He : ended pc = false) by (by destruct pc). destruct (r_api p1) eqn:Ea; [by destruct Hre as (_ & He2 & _); rewrite He in He2|].
           destruct (run_step_next pc p1 _ _ He Ea E) as [Hlt _]. split; [left; split; [done|unfold left; cbn; lia]|]. tauto.
        -- split; [left; split; [done|unfold left; cbn; destruct Hst; subst; lia]|]. auto.
        -- split; [left; split; [done|unfold left; cbn; lia]|]. tauto.
        -- by destruct Hst.
        -- split; [left; split; [done|unfold left; cbn; lia]|]. auto.
        -- split; [left; split; [done|unfold left; cbn; lia]|]. auto.
        -- split; [left; split; [done|unfold left; cbn; lia]|]. auto.
      * destruct Hw as [p pc|p pc|p pc m h g Hm Hh Hg|p pc h Hh]; cbn [w_p w_run w_main] in *; [by destruct Hst..| |by destruct Hst].
        split; [right; split; [by apply (event_request _ _ _ h)|done]|]. tauto.
Qed.
End Main.

(** * Concrete inputs

    The gateway of GatewayRun's example, started and then stopped by a signal. *)
#[local] Existing Instance ex_system.

Abbreviation ex_stages := (run_from ex_listen map_to_list (inl "/opt/uptp/gateway") (fun _ => true) (fun _ => inl (ex_db_with (ex_run_app 9000)))
  (fun _ => inr EOF) (fun _ _ => None) inl None (fun _ _ => inl ex_addrs) (fun _ _ => None) (inl ex_uuid) false 42 ex_conf 5 RBegin ex_process).
Abbreviation ex_wstep := (wstep ex_listen map_to_list (inl "/opt/uptp/gateway") (fun _ => true) (fun _ => inl (ex_db_with (ex_run_app 9000)))
  (fun _ => inr EOF) id (fun _ _ => None) inl None (fun _ _ => inl ex_addrs) (fun _ _ => None) (inl ex_uuid) false 42 ex_conf).

Lemma ex_stages_serve : ex_stages = (Ret RServing, ex_stages.2).
Proof. assert (H : ex_stages.1 = Ret RServing) by (vm_compute; reflexivity). destruct ex_stages as [o p]. cbn in *. by rewrite H. Qed.
Lemma ex_stop : Stop (Sys := ex_system) id ex_stages.2 = (Ret tt, (Stop (Sys := ex_system) id ex_stages.2).2).
Proof.
  assert (H : (Stop (Sys := ex_system) id ex_stages.2).1 = Ret tt) by (vm_compute; reflexivity).
  destruct (Stop (Sys := ex_system) id ex_stages.2) as [o p]. cbn in *. by rewrite H.
Qed.

Lemma ex_life : rtc ex_wstep (world_new ex_process)
  (mkWorld (Stop (Sys := ex_system) id ex_stages.2).2 (RReturned (Some EOF)) MExited).
Proof.
  apply (rtc_l _ _ (mkWorld ex_process RBegin MSelect)); [left; constructor|].
  etrans; [exact (run_from_steps _ _ _ _ _ _ _ _ _ _ _ _ _ _ _ _ 5 RBegin ex_process RServing ex_stages.2 MSelect eq_refl ex_stages_serve)|].
  apply (rtc_l _ _ (mkWorld ex_stages.2 RServing MStop)); [right; constructor|].
  apply (rtc_l _ _ (mkWorld (Stop (Sys := ex_system) id ex_stages.2).2 RServing MWait)); [left; apply work_stop; exact ex_stop|].
  apply (rtc_l _ _ (mkWorld (Stop (Sys := ex_system) id ex_stages.2).2 (RReturned (Some EOF)) MWait)); [left; by constructor|].
  apply rtc_once. left. constructor.
Qed.

Lemma gateway_life_witness : let p := (Stop (Sys := ex_system) id ex_stages.2).2 in exists h pe,
  r_api p = Some h /\ socks (gw_pm (r_gw p)) !! h = None /\ r_pe p = Some pe /\ hosts (r_net p) !! p_host pe = None.
Proof.
  intros p. destruct (gateway_life ex_listen map_to_list (inl "/opt/uptp/gateway") (fun _ => true) (fun _ => inl (ex_db_with (ex_run_app 9000)))
    (fun _ => inr EOF) id (fun _ _ => None) inl None (fun _ _ => inl ex_addrs) (fun _ _ => None) (inl ex_uuid) false 42 ex_conf
    ex_process _ eq_refl ex_life) as (H & _ & _).
  exact (proj2 (H (or_intror eq_refl))).
Defined.
