(* ===== verification/Cmd.v ===== *)
(** src/gateway/cmd/main.go, config.go and install.go, and
    src/agent/cmd/config.go: the command lines of the two programs and the
    installation of the gateway as a service of the system.  Package flag is
    modelled as far as they use it.  The theorems: the flags a configuration is
    printed as are read back as it, the worker of a daemon is the gateway, installing
    copies the program and registers it, and installing from the place of the
    installation destroys it. *)
From S2P Require Import Prelude GoText GoIo GoNet Json GoOs Logger Daemon.

(** * Package flag *)

Inductive value := VBool (b : bool) | VInt (z : Z).
#[export] Instance value_eq_dec : EqDecision value.
Proof. solve_decision. Defined.

Definition ParseBool (s : string) : option bool :=
  if existsb (String.eqb s) ["1"; "t"; "T"; "TRUE"; "true"; "True"] then Some true
  else if existsb (String.eqb s) ["0"; "f"; "F"; "FALSE"; "false"; "False"] then Some false
  else None.

Definition lower (c : ascii) : ascii := if between 65 90 c then chr (byte_of c + 32) else c.
Definition digit_of (c : ascii) : option Z :=
  if is_digit c then Some (digit_val c)
  else if between 97 122 (lower c) then Some (byte_of (lower c) - 87) else None.

(** The digits of a number in a base, underscores between them skipped. *)
Fixpoint digits_in (base : Z) (s : string) (n : Z) : option Z :=
  match s with
  | "" => Some n
  | String "_" s => digits_in base s n
  | String c s =>
      match digit_of c with
      | Some d => if d <? base then digits_in base s (n * base + d) else None
      | None => None
      end
  end.

(** [underscoreOK]: [prev] is "0" after a digit or a prefix, "_" after an
    underscore. *)
Fixpoint underscores_ok (hex : bool) (prev : ascii) (s : string) : bool :=
  match s with
  | "" => negb (Ascii.eqb prev "_")
  | String c s =>
      if is_digit c || (hex && between 97 102 (lower c)) then underscores_ok hex "0" s
      else if Ascii.eqb c "_" then if Ascii.eqb prev "0" then underscores_ok hex "_" s else false
      else if Ascii.eqb prev "_" then false else underscores_ok hex "!" s
  end.

(** The prefix of a number: its base, what follows, and whether underscores
    start after a prefix. *)
Definition base_of (s : string) : Z * string :=
  match s with
  | String "0" (String c ((String _ _) as r)) =>
      if Ascii.eqb (lower c) "b" then (2, r) else if Ascii.eqb (lower c) "o" then (8, r)
      else if Ascii.eqb (lower c) "x" then (16, r) else (8, String c r)
  | String "0" r => (8, r)
  | _ => (10, s)
  end.
Definition underscoreOK (s : string) : bool :=
  match s with
  | String "0" (String c r) =>
      if Ascii.eqb (lower c) "b" || Ascii.eqb (lower c) "o" || Ascii.eqb (lower c) "x"
      then underscores_ok (Ascii.eqb (lower c) "x") "0" r else underscores_ok false "^" s
  | _ => underscores_ok false "^" s
  end.

(** [strconv.ParseInt(s, 0, 64)], the value when there is no error. *)
Definition ParseInt0 (s : string) : option Z :=
  let '(neg, body) := match s with
    | String c r => if Ascii.eqb c "-" then (true, r) else if Ascii.eqb c "+" then (false, r) else (false, s)
    | "" => (false, "") end in
  match body with
  | "" => None
  | _ =>
      let '(base, ds) := base_of body in
      match digits_in base ds 0 with
      | None => None
      | Some un =>
          if has_char "_" ds && negb (underscoreOK body) then None
          else if neg then if 2 ^ 63 <? un then None else Some (- un)
          else if 2 ^ 63 <=? un then None else Some un
      end
  end.

(** The first "=" of a name that is not its first character. *)
Definition split_value (name : string) : string * option string :=
  match name with
  | "" => ("", None)
  | String c r => match split_first "=" r with Some (a, b) => (String c a, Some b) | None => (name, None) end
  end.

Definition flags := list (string * value).
Definition set_flag (name : string) (v : value) (fs : flags) : flags :=
  map (fun f => if String.eqb f.1 name then (name, v) else f) fs.
Definition flag_of (name : string) (fs : flags) : option value := snd <$> find (fun f => String.eqb f.1 name) fs.

(** What one argument is to [parseOne]: the end of the flags, an error (the exit
    code of [ExitOnError]), or a flag with its value behind "=". *)
Inductive token := TEnd | TStop | TExit (code : Z) | TFlag (name : string) (v : option string).

Definition token_of (s : string) : token :=
  match s with
  | String "-" (String c r) =>
      if Ascii.eqb c "-" && String.eqb r "" then TStop
      else
        let name := if Ascii.eqb c "-" then r else String c r in
        match name with
        | "" => TExit 2
        | String d _ => if Ascii.eqb d "-" || Ascii.eqb d "=" then TExit 2
                        else let '(n, v) := split_value name in TFlag n v
        end
  | _ => TEnd
  end.

(** [FlagSet.Parse] with [ExitOnError]: the flags, or the code of the exit. *)
Fixpoint parse_flags (args : list string) (fs : flags) : flags + Z :=
  match args with
  | [] => inl fs
  | s :: args =>
      match token_of s with
      | TEnd | TStop => inl fs
      | TExit code => inr code
      | TFlag name v =>
          match flag_of name fs with
          | None => if String.eqb name "help" || String.eqb name "h" then inr 0 else inr 2
          | Some (VBool _) =>
              match match v with None => Some true | Some v => ParseBool v end with
              | Some b => parse_flags args (set_flag name (VBool b) fs)
              | None => inr 2
              end
          | Some (VInt _) =>
              match v with
              | Some v => match ParseInt0 v with Some z => parse_flags args (set_flag name (VInt z) fs) | None => inr 2 end
              | None =>
                  match args with
                  | [] => inr 2
                  | v :: args => match ParseInt0 v with Some z => parse_flags args (set_flag name (VInt z) fs) | None => inr 2 end
                  end
              end
          end
      end
  end.

Definition bool_of (name : string) (fs : flags) : bool := match flag_of name fs with Some (VBool b) => b | _ => false end.
Definition int_of (name : string) (fs : flags) : Z := match flag_of name fs with Some (VInt z) => z | _ => 0 end.

(** * The configurations *)

Record runConfig := mkRun { daemonMode : bool; verbose : bool; logLevel : Z; rc_trial : bool }.

(** Without arguments nothing is parsed, and the level is 0, not its default. *)
Definition parseRunParams (args : list string) : runConfig + Z :=
  match args with
  | [] => inl (mkRun false false 0 false)
  | _ =>
      match parse_flags args [("d", VBool false); ("v", VBool false); ("trial", VBool false); ("log-level", VInt LevelWarn)] with
      | inl fs => inl (mkRun (bool_of "d" fs) (bool_of "v" fs) (int_of "log-level" fs) (bool_of "trial" fs))
      | inr code => inr code
      end
  end.

(** The agent's. *)
Definition agent_parseRunParams (args : list string) : (bool * Z) + Z :=
  match args with
  | [] => inl (false, 0)
  | _ =>
      match parse_flags args [("v", VBool false); ("log-level", VInt LevelWarn)] with
      | inl fs => inl (bool_of "v" fs, int_of "log-level" fs)
      | inr code => inr code
      end
  end.

(** * What the program does *)

Inductive command :=
  | Install | Uninstall | Control (comm : string) | Isletid
  | RunDaemon (logLevel : Z) | RunGateway (LogMod : Z) (logLevel : Z) (trial : bool) | Exit (code : Z).

(** [None] is the panic of [os.Args[1:]] without a first argument. *)
Definition main (argv : list string) : option command :=
  match argv with
  | [] => None
  | _ :: args =>
      let run :=
        match parseRunParams args with
        | inr code => Exit code
        | inl rc =>
            if daemonMode rc then RunDaemon (logLevel rc)
            else RunGateway (if verbose rc then LogFileAndConsole else LogFile) (logLevel rc) (rc_trial rc)
        end in
      Some match args with
           | "install" :: _ => Install
           | "uninstall" :: _ => Uninstall
           | "start" :: _ => Control "start"
           | "restart" :: _ => Control "restart"
           | "stop" :: _ => Control "stop"
           | "isletid" :: _ => Isletid
           | _ => run
           end
  end.

(** The agent's program: its flags are parsed first, whatever the command. *)
Inductive agent_command := AgentAdd | AgentDel | AgentStart | AgentExit (code : Z).
Record agent_run := mkAgentRun { ar_LogMod : Z; ar_LogLevel : Z; ar_does : agent_command }.

Definition agent_main (argv : list string) : option agent_run :=
  match argv with
  | [] => None
  | _ :: args =>
      Some match agent_parseRunParams args with
           | inr code => mkAgentRun 0 0 (AgentExit code)
           | inl (verbose, level) =>
               mkAgentRun (if verbose then LogFileAndConsole else LogFile) level
                 match args with
                 | "add" :: _ => AgentAdd
                 | "del" :: _ => AgentDel
                 | _ => AgentStart
                 end
           end
  end.

(** * Installing *)

Definition defaultInstallPath : string := "/usr/local/uptp-gateway".
Definition defaultBinName : string := "uptpgw".
Definition targetPath : string := defaultInstallPath +:+ "/" +:+ defaultBinName.

(** The machine: its files, and what was asked of the service manager, the
    last first. *)
Record call := mkCall { c_comm : string; c_exe : string; c_args : list string }.
Record Host := mkHost { h_fs : FS; calls : list call }.

Definition files {A} : GoM FS A -> GoM Host A := zoom h_fs (fun s h => mkHost s (calls h)).

(** [os.MkdirAll] below directories that exist, and [os.Chdir]. *)
Definition MkdirAll (path : string) (perm : Z) : GoM FS (option errno) := err_only (syscall (fun s =>
  match node path s with
  | Some (_, f) => if f_dir f then (inl tt, s) else (inr ENOTDIR, s)
  | None => (inl tt, mkFS (<[path := next s]> (names s)) (<[next s := mkFile "" (Z.land perm (Z.lnot (umask s))) true]> (GoOs.files s))
                       (handles s) (S (next s)) (umask s) (faults s))
  end)).
Definition Chdir (path : string) : GoM FS (option errno) := err_only (syscall (fun s =>
  match node path s with
  | None => (inr ENOENT, s)
  | Some (_, f) => if f_dir f then (inl tt, s) else (inr ENOTDIR, s)
  end)).

Section Install.
(** The service manager, and the path of the program that runs. *)
Context (Manager : call -> list call -> option error) (binPath : string).

Definition serviceControl (comm exe : string) (args : list string) : GoM Host (option error) :=
  h <- get ;;
  let c := mkCall comm exe args in
  put (mkHost (h_fs h) (c :: calls h)) ;;;
  ret (Manager c (calls h)).

Definition uninstall : GoM Host unit :=
  serviceControl "stop" "" [] ;;;
  err <- serviceControl "uninstall" "" [] ;;
  match err with
  | Some _ => ret tt
  | None => files (Remove (targetPath +:+ "0")) ;;; files (Remove targetPath) ;;; ret tt
  end.

(** The exit code when it is not the end of [main]. *)
Definition install : GoM Host (option Z) :=
  err <- files (MkdirAll defaultInstallPath 509) ;;
  match err with
  | Some _ => ret (Some 1)
  | None =>
      err <- files (Chdir defaultInstallPath) ;;
      match err with
      | Some _ => ret (Some 1)
      | None =>
          uninstall ;;;
          src <- files (Open binPath) ;;
          match src with
          | inr _ => ret (Some 1)
          | inl src =>
              dst <- files (OpenFile true targetPath 509) ;;
              match dst with
              | inr _ => ret (Some 1)
              | inl dst =>
                  err <- files (Copy_file dst src) ;;
                  match err with
                  | Some _ => ret (Some 1)
                  | None =>
                      files (Close src) ;;; files (Close dst) ;;;
                      err <- serviceControl "install" targetPath ["-d"] ;;
                      match err with
                      | Some _ => ret (Some 1)
                      | None =>
                          err <- serviceControl "start" targetPath ["-d"] ;;
                          match err with Some _ => ret (Some 1) | None => ret None end
                      end
                  end
              end
          end
      end
  end.
End Install.

(** * Lemmas *)

Lemma files_Ret {A} (m : GoM FS A) h a s : m (h_fs h) = (Ret a, s) -> files m h = (Ret a, mkHost s (calls h)).
Proof. intros E. unfold files, zoom. by rewrite E. Qed.

(** A directory is made, or was there. *)
Lemma MkdirAll_ok path perm s : wf s -> faults s = [] -> (forall x, at_path path s = Some x -> f_dir x = true) ->
  exists s', MkdirAll path perm s = (Ret None, s') /\ wf s' /\ faults s' = [] /\ frame [path] s s' /\
    exists x, at_path path s' = Some x /\ f_dir x = true.
Proof.
  intros W Hf Hd. unfold MkdirAll, err_only, syscall, fate, bind. rewrite Hf.
  destruct (node path s) as [[i x]|] eqn:En.
  - assert (Hx : at_path path s = Some x) by (by rewrite node_at, En). rewrite (Hd x Hx). exists s. split; [done|].
    split_and!; [done|done|by apply frame_same|exists x; auto].
  - pose proof (node_None path s W En) as Hn. eexists. split; [done|]. destruct W as [A B C D]. split_and!.
    + split; cbn.
      * intros p i [[<- <-]|[Hne Hp]]%lookup_insert_Some; [split; [lia|rewrite lookup_insert_eq; by eexists]|].
        destruct (A p i Hp) as [Hi Hs]. split; [lia|]. rewrite lookup_insert_ne by lia. done.
      * intros i x [[<- _]|[_ Hi%B]]%lookup_insert_Some; lia.
      * intros h i Hi%C. lia.
      * intros p q i [[<- <-]|[Hp1 Hp]]%lookup_insert_Some [[<- Hi]|[Hq1 Hq]]%lookup_insert_Some; [done| | |by apply (D p q i)].
        -- apply A in Hq as [Hq _]. lia.
        -- subst i. apply A in Hp as [Hp _]. lia.
    + done.
    + intros p Hp. assert (path <> p) by set_solver. unfold at_path. cbn. rewrite lookup_insert_ne by done. split; [|done].
      destruct (names s !! p) as [i|] eqn:Ep; [|done]. cbn. apply A in Ep as [Hi _]. by rewrite lookup_insert_ne by lia.
    + eexists. unfold at_path. cbn. rewrite lookup_insert_eq. cbn. rewrite lookup_insert_eq. done.
Qed.

Lemma Chdir_ok path s x : faults s = [] -> at_path path s = Some x -> f_dir x = true -> Chdir path s = (Ret None, s).
Proof.
  intros Hf Hx Hd. rewrite node_at in Hx. unfold Chdir, err_only, syscall, fate, bind. rewrite Hf.
  destruct (node path s) as [[i y]|]; [|done]. injection Hx as ->. by rewrite Hd.
Qed.

Lemma files_gone path s : wf s -> faults s = [] -> exists r s', Remove path s = (Ret r, s') /\ wf s' /\ faults s' = [] /\
  frame [path] s s' /\ at_path path s' = None.
Proof.
  intros W Hf. destruct (Remove_spec path s W) as (r & s' & E & Hok & H). exists r, s'. split; [done|].
  split; [apply (ok_wf _ _ Hok)|]. split; [by apply (ok_faults _ _ Hok)|]. destruct r as [e|].
  - destruct H as [F [Hf'|Hn]]; [done|]. split; [by apply frame_nil|].
    destruct (F path) as [-> _]; [set_solver|]. unfold at_path. by rewrite Hn.
  - exact H.
Qed.

Section Installed.
Context (Manager : call -> list call -> option error) (binPath : string).

Definition removed (h : Host) : bool :=
  match Manager (mkCall "uninstall" "" []) (mkCall "stop" "" [] :: calls h) with None => true | Some _ => false end.

Lemma uninstall_run h : wf (h_fs h) -> faults (h_fs h) = [] ->
  exists s', uninstall Manager h = (Ret tt, mkHost s' (mkCall "uninstall" "" [] :: mkCall "stop" "" [] :: calls h)) /\
    wf s' /\ faults s' = [] /\ frame [targetPath +:+ "0"; targetPath] (h_fs h) s' /\
    if removed h then at_path targetPath s' = None else s' = h_fs h.
Proof.
  intros W Hf. set (h0 := mkHost (h_fs h) (mkCall "uninstall" "" [] :: mkCall "stop" "" [] :: calls h)).
  assert (E0 : uninstall Manager h = (if removed h then files (Remove (targetPath +:+ "0")) ;;; files (Remove targetPath) ;;; ret tt else ret tt) h0).
  { unfold uninstall, serviceControl, removed, bind, get, put, ret. cbn [calls h_fs].
    by destruct (Manager (mkCall "uninstall" "" []) (mkCall "stop" "" [] :: calls h)). }
  rewrite E0. destruct (removed h).
  2:{ exists (h_fs h). split_and!; done. }
  destruct (files_gone (targetPath +:+ "0") (h_fs h) W Hf) as (r1 & s1 & E1 & W1 & Hf1 & F1 & _).
  destruct (files_gone targetPath s1 W1 Hf1) as (r2 & s2 & E2 & W2 & Hf2 & F2 & Hn).
  rewrite (bind_Ret _ _ _ _ _ (files_Ret _ h0 _ _ E1)), (bind_Ret _ _ _ _ _ (files_Ret _ (mkHost s1 _) _ _ E2)).
  exists s2. split_and!; try done.
  apply (frame_trans _ _ s1); [apply (frame_weaken [targetPath +:+ "0"]); [done|set_solver]|].
  apply (frame_weaken [targetPath]); [done|set_solver].
Qed.

(** What a successful copy leaves. *)
Lemma copy_program s x : wf s -> faults s = [] -> at_path binPath s = Some x -> f_dir x = false -> binPath <> targetPath ->
  (forall y, at_path targetPath s = Some y -> f_dir y = false) ->
  exists src s1 dst s2 s3 m, Open binPath s = (Ret (inl src), s1) /\ OpenFile true targetPath 509 s1 = (Ret (inl dst), s2) /\
    Copy_file dst src s2 = (Ret None, s3) /\ at_path targetPath s3 = Some (mkFile (f_data x) m false) /\
    at_path binPath s3 = Some x /\ wf s3.
Proof.
  intros W Hf Hx Hd Hne Ht. destruct (Open_spec binPath s W) as (r & s1 & E1 & H1 & F1 & R1).
  destruct r as [src|e].
  2:{ destruct R1 as [Hf'|Hn]; [done|]. unfold at_path in Hx. by rewrite Hn in Hx. }
  destruct R1 as [Hp1 Hh1]. pose proof (ok_wf _ _ H1) as W1. pose proof (ok_faults _ _ H1 Hf) as Hf1.
  destruct (OpenFile_spec true targetPath 509 s1 W1) as (r & s2 & E2 & H2 & R2).
  assert (At1 : forall p, at_path p s1 = at_path p s) by (intros p; by apply F1; set_solver).
  destruct r as [dst|e].
  2:{ destruct R2 as [_ [Hf'|(y & Hy & Hyd)]]; [done|]. rewrite At1 in Hy. rewrite (Ht y Hy) in Hyd. done. }
  destruct R2 as (Hp2 & Hh2 & F2 & Hc2 & _). pose proof (ok_wf _ _ H2) as W2. pose proof (ok_faults _ _ H2 Hf1) as Hf2.
  assert (Hx2 : at_path binPath s2 = Some x) by (rewrite (proj1 (F2 binPath ltac:(set_solver))), At1; done).
  assert (Hs2 : holds src binPath s2) by (apply (holds_step _ _ [targetPath] s1); [done..|set_solver]).
  pose proof (holds_contents src binPath s2 x Hs2 Hx2) as Hsrc.
  assert (Ht2 : exists m, at_path targetPath s2 = Some (mkFile "" m false)).
  { rewrite Hc2, At1. destruct (at_path targetPath s) as [y|] eqn:Ey; [|by eexists]. rewrite (Ht y eq_refl). by eexists. }
  destruct Ht2 as [m Ht2].
  destruct (Copy_spec dst targetPath (f_data x) None s2 _ W2 Hh2 Ht2) as (r & s3 & n & E3 & H3 & F3 & Hc3 & R3).
  destruct r as [e|]; [by destruct R3|]. destruct R3 as [Hn _].
  exists src, s1, dst, s2, s3, m. split_and!; [done|done| | | |apply (ok_wf _ _ H3)].
  - unfold Copy_file, bind, get. by rewrite Hsrc.
  - rewrite Hc3, Hn. done.
  - by rewrite (proj1 (F3 binPath ltac:(set_solver))).
Qed.

(** Installing from elsewhere: over a machine without faults whose service
    manager agrees, the program is copied to its place, mode and all if it was
    not there, the original stays, and the service is registered and started on
    the copy as a daemon. *)
Theorem install_copies h x : wf (h_fs h) -> faults (h_fs h) = [] ->
  (forall y, at_path defaultInstallPath (h_fs h) = Some y -> f_dir y = true) ->
  (forall y, at_path targetPath (h_fs h) = Some y -> f_dir y = false) ->
  at_path binPath (h_fs h) = Some x -> f_dir x = false ->
  binPath ∉ [defaultInstallPath; targetPath; targetPath +:+ "0"] ->
  (forall l, Manager (mkCall "install" targetPath ["-d"]) l = None) -> (forall l, Manager (mkCall "start" targetPath ["-d"]) l = None) ->
  exists h' m l, install Manager binPath h = (Ret None, h') /\
    at_path targetPath (h_fs h') = Some (mkFile (f_data x) m false) /\ at_path binPath (h_fs h') = Some x /\
    calls h' = mkCall "start" targetPath ["-d"] :: mkCall "install" targetPath ["-d"] :: l.
Proof.
  intros W Hf Hdir Ht Hx Hd Hb Hin Hst.
  destruct (MkdirAll_ok defaultInstallPath 509 (h_fs h) W Hf Hdir) as (s1 & E1 & W1 & Hf1 & F1 & y & Hy & Hyd).
  pose proof (Chdir_ok defaultInstallPath s1 y Hf1 Hy Hyd) as E2.
  destruct (uninstall_run (mkHost s1 (calls h)) W1 Hf1) as (s2 & E3 & W2 & Hf2 & F2 & R2). cbn [h_fs calls] in *.
  assert (Hx2 : at_path binPath s2 = Some x).
  { rewrite (proj1 (F2 binPath ltac:(set_solver))), (proj1 (F1 binPath ltac:(set_solver))). done. }
  assert (Ht2 : forall z, at_path targetPath s2 = Some z -> f_dir z = false).
  { intros z Hz. destruct (removed _); [congruence|]. subst s2. rewrite (proj1 (F1 targetPath ltac:(set_solver))) in Hz. by apply Ht. }
  destruct (copy_program s2 x W2 Hf2 Hx2 Hd ltac:(set_solver) Ht2) as (src & s3 & dst & s4 & s5 & m & E4 & E5 & E6 & Hc & Hk & W5).
  destruct (Close_spec src s5 W5) as (s6 & E7 & W6 & F6 & _). destruct (Close_spec dst s6 W6) as (s7 & E8 & W7 & F7 & _).
  unfold install. rewrite (bind_Ret _ _ _ _ _ (files_Ret _ h _ _ E1)), (bind_Ret _ _ _ _ _ (files_Ret _ (mkHost s1 _) _ _ E2)).
  rewrite (bind_Ret _ _ _ _ _ E3), (bind_Ret _ _ _ _ _ (files_Ret _ (mkHost s2 _) _ _ E4)).
  rewrite (bind_Ret _ _ _ _ _ (files_Ret _ (mkHost s3 _) _ _ E5)), (bind_Ret _ _ _ _ _ (files_Ret _ (mkHost s4 _) _ _ E6)).
  rewrite (bind_Ret _ _ _ _ _ (files_Ret _ (mkHost s5 _) _ _ E7)), (bind_Ret _ _ _ _ _ (files_Ret _ (mkHost s6 _) _ _ E8)).
  unfold serviceControl, bind, get, put, ret. cbn [calls h_fs]. rewrite Hin, Hst. eexists _, m, _. split; [done|]. cbn [h_fs calls].
  assert (Hsame : forall p, at_path p s7 = at_path p s5).
  { intros p. rewrite (proj1 (F7 p ltac:(set_solver))). apply F6. set_solver. }
  by rewrite !Hsame.
Qed.

(** Installing the installed program: it is removed as the old version before
    it is read as the new one, and nothing is left of it. *)
Theorem install_in_place h : wf (h_fs h) -> faults (h_fs h) = [] ->
  (forall y, at_path defaultInstallPath (h_fs h) = Some y -> f_dir y = true) ->
  (forall l, Manager (mkCall "uninstall" "" []) l = None) -> binPath = targetPath ->
  exists h', install Manager binPath h = (Ret (Some 1), h') /\ at_path targetPath (h_fs h') = None.
Proof.
  intros W Hf Hdir Hun ->.
  destruct (MkdirAll_ok defaultInstallPath 509 (h_fs h) W Hf Hdir) as (s1 & E1 & W1 & Hf1 & F1 & y & Hy & Hyd).
  pose proof (Chdir_ok defaultInstallPath s1 y Hf1 Hy Hyd) as E2.
  destruct (uninstall_run (mkHost s1 (calls h)) W1 Hf1) as (s2 & E3 & W2 & Hf2 & F2 & R2). unfold removed in R2. rewrite Hun in R2.
  destruct (Open_spec targetPath s2 W2) as (r & s3 & E4 & H3 & F3 & R3).
  unfold install. rewrite (bind_Ret _ _ _ _ _ (files_Ret _ h _ _ E1)), (bind_Ret _ _ _ _ _ (files_Ret _ (mkHost s1 _) _ _ E2)).
  rewrite (bind_Ret _ _ _ _ _ E3), (bind_Ret _ _ _ _ _ (files_Ret _ (mkHost s2 _) _ _ E4)). destruct r as [f|e].
  - destruct R3 as [_ (i & _ & Hi)]. rewrite (proj2 (F3 targetPath ltac:(set_solver))) in Hi.
    unfold at_path in R2. rewrite Hi in R2. destruct (wf_names s2 W2 _ _ Hi) as [_ [z Hz]]. cbn in R2. congruence.
  - eexists. split; [done|]. cbn. by rewrite (proj1 (F3 targetPath ltac:(set_solver))).
Qed.
End Installed.

(** * The flags round trip *)

Lemma digits_in_digit base c s n : is_digit c = true ->
  digits_in base (String c s) n = if digit_val c <? base then digits_in base s (n * base + digit_val c) else None.
Proof. destruct c as [[] [] [] [] [] [] [] []]; intros H; first [discriminate H|reflexivity]. Qed.

Lemma base_of_lead c s : is_digit c = true -> c <> "0"%char -> base_of (String c s) = (10, String c s).
Proof. destruct c as [[] [] [] [] [] [] [] []]; intros H Hc; first [discriminate H|reflexivity|by destruct Hc]. Qed.

(** On decimal digits the general parser is the one of base 10. *)
Lemma digits_in_loop s n z : all_digits s = true -> parse_uint_loop s n = (z, None) -> digits_in 10 s n = Some z.
Proof.
  revert n. induction s as [|c s IH]; intros n; [by intros _ [= <-]|]. cbn [all_digits parse_uint_loop].
  intros [Hc Hs]%andb_prop. rewrite digits_in_digit, Hc by done. pose proof (digit_val_range c Hc).
  replace (digit_val c <? 10) with true by lia. case_match; [done|]. cbn zeta. case_match; [done|]. by apply IH.
Qed.

Lemma digits_no_underscore s : all_digits s = true -> has_char "_" s = false.
Proof.
  unfold has_char. induction s as [|c s IH]; [done|]. cbn [all_digits no_char]. intros [Hc Hs]%andb_prop.
  destruct (Ascii.eqb_spec c "_") as [->|]; [done|]. by apply IH.
Qed.

Lemma ParseInt0_Itoa z : is_s64 z -> ParseInt0 (Itoa z) = Some z.
Proof.
  intros Hz. unfold is_s64 in Hz.
  assert (Hu : forall u, 0 <= u <= 2 ^ 63 -> exists c s, FormatUint u = String c s /\ is_digit c = true /\
    exists ds, base_of (String c s) = (if u =? 0 then 8 else 10, ds) /\ digits_in (if u =? 0 then 8 else 10) ds 0 = Some u /\ has_char "_" ds = false).
  { intros u Hu. destruct (Z.eqb_spec u 0) as [->|Hn]; [by eexists _, _; split; [done|split; [done|eexists]]|].
    assert (H64 : is_u64 u) by (unfold is_u64; lia). pose proof (ParseUint_FormatUint u H64) as Hp. pose proof (FormatUint_lit u H64) as Hl.
    destruct (FormatUint_head u) as (c & s & E & Hc). rewrite E in *. exists c, s. split; [done|]. split; [done|].
    cbn [uint_lit] in Hl. destruct (Ascii.eqb_spec c "0") as [->|Hc0].
    { apply String.eqb_eq in Hl as ->. by injection Hp as <-. }
    exists (String c s). split; [by apply base_of_lead|]. split; [by apply digits_in_loop|by apply digits_no_underscore]. }
  unfold Itoa. case (Z.ltb_spec z 0); intros Hneg.
  - destruct (Hu (- z) ltac:(lia)) as (c & s & E & _ & ds & Hb & Hd & Hn). rewrite E. unfold ParseInt0.
    change (Ascii.eqb "-" "-") with true. cbv iota beta. rewrite Hb, Hd, Hn. cbn [andb].
    rewrite (proj2 (Z.ltb_ge _ _)) by lia. f_equal. lia.
  - destruct (Hu z ltac:(lia)) as (c & s & E & Hc & ds & Hb & Hd & Hn). rewrite E. unfold ParseInt0.
    assert (Hs : Ascii.eqb c "-" = false /\ Ascii.eqb c "+" = false).
    { split; apply Ascii.eqb_neq; intros ->; vm_compute in Hc; done. }
    destruct Hs as [-> ->]. rewrite Hb, Hd, Hn. cbn [andb]. by rewrite (proj2 (Z.leb_gt _ _)) by lia.
Qed.

(** The arguments that say a configuration. *)
Definition print_config (rc : runConfig) : list string :=
  (if daemonMode rc then ["-d"] else []) ++ (if verbose rc then ["-v"] else []) ++ (if rc_trial rc then ["-trial"] else []) ++
  ["-log-level=" +:+ Itoa (logLevel rc)].

Theorem flags_roundtrip rc : is_s64 (logLevel rc) -> parseRunParams (print_config rc) = inl rc.
Proof.
  destruct rc as [d v l t]. unfold print_config. cbn [daemonMode verbose logLevel rc_trial]. intros Hl.
  assert (Ht : token_of ("-log-level=" +:+ Itoa l) = TFlag "log-level" (Some (Itoa l))) by done.
  generalize dependent ("-log-level=" +:+ Itoa l). intros lev Ht.
  assert (Hf : forall fs, flag_of "log-level" fs = Some (VInt LevelWarn) ->
    parse_flags [lev] fs = inl (set_flag "log-level" (VInt l) fs)).
  { intros fs Hfs. cbn [parse_flags]. by rewrite Ht, Hfs, ParseInt0_Itoa. }
  assert (Hcons : forall name fs args, token_of ("-" +:+ name) = TFlag name None -> flag_of name fs = Some (VBool false) ->
    parse_flags (("-" +:+ name) :: args) fs = parse_flags args (set_flag name (VBool true) fs)).
  { intros name fs args E Hb. cbn [parse_flags]. by rewrite E, Hb. }
  destruct d, v, t; unfold parseRunParams; cbn [app];
    repeat (match goal with |- context [String "-" ?n :: _] => change (String "-" n) with ("-" +:+ n) end; rewrite Hcons by done);
    rewrite Hf by done; done.
Qed.

(** What the first argument is decides only when it names a command. *)
Lemma main_flags exe a l : no_char "-" a = false -> main (exe :: a :: l) =
  Some (match parseRunParams (a :: l) with
        | inr code => Exit code
        | inl rc => if daemonMode rc then RunDaemon (logLevel rc)
                    else RunGateway (if verbose rc then LogFileAndConsole else LogFile) (logLevel rc) (rc_trial rc)
        end).
Proof.
  intros Ha. unfold main. f_equal.
  assert (H : forall w, no_char "-" w = true -> a <> w) by (intros w Hw ->; congruence).
  pose proof (H "install" eq_refl). pose proof (H "uninstall" eq_refl). pose proof (H "start" eq_refl).
  pose proof (H "restart" eq_refl). pose proof (H "stop" eq_refl). pose proof (H "isletid" eq_refl). clear H Ha.
  repeat (case_match; try done).
Qed.

(** A daemon started with a level starts a worker with that level, which is the
    gateway and not another daemon; the name of the program is kept. *)
Theorem daemon_worker exe rc : is_s64 (logLevel rc) -> daemonMode rc = true -> exe <> "-d" ->
  main (exe :: print_config rc) = Some (RunDaemon (logLevel rc)) /\
  exists a l, worker_args (exe :: print_config rc) = Some (exe :: a :: l) /\
    main (exe :: a :: l) = Some (RunGateway (if verbose rc then LogFileAndConsole else LogFile) (logLevel rc) (rc_trial rc)).
Proof.
  intros Hl Hd He. pose proof (flags_roundtrip rc Hl) as Hp. destruct rc as [d v l t]. cbn in Hl, Hd. subst d.
  pose proof (flags_roundtrip (mkRun false v l t) Hl) as Hw. unfold print_config in *. cbn [daemonMode verbose logLevel rc_trial app] in *.
  split; [rewrite main_flags by done; by rewrite Hp|].
  cbn [worker_args]. rewrite (proj2 (String.eqb_neq _ _) He). cbn -[main Itoa].
  destruct v, t; cbn [app] in *; eexists _, _; (split; [done|]); rewrite main_flags by done; by rewrite Hw.
Qed.

(** The arguments the installation registers: the daemon logs from its default
    level on, its worker, which is left without arguments, from the lowest. *)
Example ex_service_levels :
  main [targetPath; "-d"] = Some (RunDaemon LevelWarn) /\ worker_args [targetPath; "-d"] = Some [targetPath] /\
  main [targetPath] = Some (RunGateway LogFile LevelAll false).
Proof. split_and!; reflexivity. Qed.

(** The agent's commands: what follows them is not read as flags. *)
Example ex_agent_main :
  agent_main ["agent"; "add"; "-v"] = Some (mkAgentRun LogFile LevelWarn AgentAdd) /\
  agent_main ["agent"; "-v"; "add"] = Some (mkAgentRun LogFileAndConsole LevelWarn AgentStart) /\
  agent_main ["agent"] = Some (mkAgentRun LogFile LevelAll AgentStart).
Proof. split_and!; reflexivity. Qed.

(** [-d] in its other spellings is a daemon too, and its worker has no
    arguments at all. *)
Example ex_spelled_daemon : Forall (fun a => main [targetPath; a] = Some (RunDaemon LevelWarn) /\ worker_args [targetPath; a] = None)
  ["--d"; "-d=true"; "-d=1"; "--d=T"].
Proof. repeat constructor. Qed.

(** The agent reads its flags as the gateway does. *)
Example ex_agent_flags : agent_parseRunParams ["-v"; "-log-level"; "0x4"] = inl (true, 4) /\
  agent_parseRunParams ["-log-level=1_0"] = inl (false, 10) /\ agent_parseRunParams ["-log-level=1__0"] = inr 2 /\ agent_parseRunParams ["-d"] = inr 2 /\
  agent_parseRunParams ["--help"] = inr 0 /\ agent_parseRunParams ["-v=false"; "--"; "-x"] = inl (false, LevelWarn).
Proof. split_and!; reflexivity. Qed.
